(* ===== verification/_CoqProject ===== *)
-Q . S2P
Prelude.v
Async.v
Ambient.v
RustStr.v
Errors.v
TaskState.v
Waitable.v
InstanceData.v
Events.v
Hooks.v
InstanceUtils.v
Local.v
Service.v
ServiceRuns.v
Sandbox.v
Executor.v
Engines.v
PidFd.v
Store.v
Client.v
ContentStore.v
WasmInstance.v
OciTar.v
OciTarBin.v
OciHelpers.v
Import.v
TestMachine.v
DemoApp.v
StressClient.v
StressTest.v
StressRuns.v
StressTasks.v
Stack.v
ExitCodes.v
Harness.v
Wasmtime.v
HttpProxy.v
HttpRuns.v
Otel.v
Logger.v
Windows.v
Shim.v
Cli.v
TestModules.v
UnitTests.v
ClientTests.v
ServiceTests.v
