(* ===== verification/Prelude.v ===== *)
(** * runwasi: verification development

    runwasi is a set of containerd shims that run WebAssembly modules as
    containers.  containerd starts one shim process per pod and talks to it
    over ttrpc; the shim keeps the tasks of the pod, and runs each of them in a
    process of its own with an engine (Wasmtime, WasmEdge, Wasmer, WAMR).  This
    library models the code of the shims, of their engine layer and of the
    builder of OCI archives, and proves what makes them correct.

    ** How the code is modelled

    - [Prelude.v] (this file) has the outcomes of Rust code, [Ok], [Err] and
      [Panic]; the monad [M] of code that runs without yielding over a world;
      loops; machine integers.
    - [Async.v] has [async], the futures: inductive sequences of atomic steps
      over a shared state, where a step whose guard does not hold is a pending
      await.  [exec] runs a future on its own, [pool_step] interleaves the
      futures of a pool with any scheduler, and [safe] is the rely-guarantee
      rule with which the theorems on all interleavings are proved.
      [Ambient.v] (crates/containerd-shimkit/src/sandbox/async_utils.rs) has the
      deadline that blocking calls give a future.
    - [RustStr.v] has what is used of [str] and [Path].
    - Code outside the repository (containerd's services, libcontainer, tokio's
      [Notify], the operating system, the engines, JSON, SHA-256) is a class or
      a parameter, and what is relied on is a class of laws that states the
      documentation: [NotifyLaws], [ProcessLaws], [Recording], [CountsLeases],
      [TarLaws], [StableFiles], [PrecompileLaws], [VarLaws], [WasmerErrors],
      [TokioLaws], [ProxyLaws], [BinLaws], [DirectoryLaws], [SyncLaws],
      [CtrLaws], [BundleLaws], [TickLaw], [ExitLaws], [BundleFileLaws],
      [PipeLaws], [BuildLaws], [ContentLaws], [ImportLaws].  The laws that a theorem needs are
      discharged on a concrete instance by its witness.

    ** The task service: crates/containerd-shimkit/src/sandbox

    - [Errors.v] ([error.rs]): the errors and the ttrpc status each becomes.
    - [TaskState.v] ([shim/task_state.rs]): the life cycle of a task, equal to
      a diagram written as a relation.
    - [Waitable.v] ([sync.rs]): the cell that is set once and waited for.  No
      interleaving reaches the undefined behaviour of the code, and no wakeup
      is lost.  [OnceCell::set] is one atomic step, although the cell of the
      code is not synchronised.
    - [InstanceData.v] ([instance.rs], [shim/instance_data.rs]): the interface
      [Instance] an engine implements, and the state, pid and lock around it.
      Every interleaving of operations calls the engine in the order of the
      life cycle, and at most one start succeeds.
    - [Events.v] ([shim/events.rs]), [Hooks.v] ([oci.rs]) and [InstanceUtils.v]
      ([instance_utils.rs], [sys/unix]): events, prestart hooks, the root
      directory and the streams of a container.
    - [Local.v] ([shim/local.rs]): every handler of the task service.
      [Service.v] has the abstract service, a table of tasks with one step per
      request ([serves]), and proves that each handler refines it, whatever
      the engine answers.  [ServiceRuns.v] is about interleaved requests: the
      exit event of a task follows its start event, two creates of one id can
      both succeed, and a poll for the exit of a task misses it while the lock
      of its state is taken, so a delete can report the status 0.
    - [Otel.v] ([shim/otel.rs]), [Logger.v] ([vendor/.../logger.rs]) and
      [Shim.v] ([shim/shim.rs], [cli.rs]): tracing, logging, the operations of
      the shim process and its main function.  The process waits for the exit
      cell that its task service shares and sets on shutdown.
    - [Windows.v] ([sys/windows], [vendor/.../named_pipe_logger.rs]): what the
      shim does on Windows, where an instance can only be a stub, and the log
      on a named pipe, which takes the same lines as the log on a fifo.

    ** The engine layer: crates/containerd-shim-wasm/src

    - [Sandbox.v] ([sandbox]): the context of a container, the search of a file
      on [PATH] and the default [can_handle].
    - [Executor.v] ([sys/unix/container/executor.rs]): the decision between a
      Linux executable and a Wasm module, taken once per container.
    - [PidFd.v] ([sys/unix/pid_fd.rs]): the wait for a process.
    - [Store.v] and [Client.v] ([containerd]): the client of containerd's
      content store, which saves content in chunks under a lease and loads,
      compiles and caches the layers of an image.  [ContentStore.v] states what
      containerd promises, its garbage collector included, over an abstract
      store ([View], [ContentLaws]), and proves that the cache works: modules
      are compiled once.
    - [WasmInstance.v] ([sys/unix/container/container.rs], [instance.rs] and
      [shim/shim.rs]): the instance over a zygote process, an instance of the
      class [Instance], so the theorems on the task service apply to it.  In
      every interleaving each start leaves an exit code or the task that
      will, and an exit code is never replaced.

    - [Stack.v]: the service over that instance.  [EngineGrows] is what the
      service needs of an engine whose instances stay usable and whose [wait]
      tells what was recorded, whatever else runs, [EngineAnswers] that it
      finishes what it is asked; the Wasm instance promises both, so in every
      interleaving of requests, spawned futures and reapers the shim keeps
      answering, and the exits it tells containerd are the recorded ones.
      [ExitCodes.v] carries the codes the engines end with through that stack
      to what containerd reads: no status is invented, and all are 32-bit.
    - [OciHelpers.v] and [Harness.v] (testing.rs): the images the tests of an
      engine put in containerd, and the harness that builds a bundle, runs an
      instance in it and reads its output and its exit.

    ** The engines, the entry points and the tools

    - [Wasmtime.v] (crates/containerd-shim-wasmtime/src/instance.rs):
      compilation and execution of modules and components, exit codes and
      signals.  It runs the components of [wasi:http] through the interface
      [HttpServer], which [HttpProxy.v] ([http_proxy.rs]) implements: the
      settings, the accept loop, the connections and the handler of requests.
      [HttpRuns.v] is about every interleaving of them: the server stops
      gracefully, and every request has a guest, a store and a number of its
      own.
    - [Engines.v] (the [instance.rs] of the crates of WasmEdge, Wasmer and WAMR):
      three more instances of the class [Sandbox] that the executor runs.
    - [Cli.v] (crates/containerd-shim-wasm/src/shim/cli.rs and the [main.rs] of
      the shims): what the four binaries pass to [shim_main] of [Shim.v].
    - [OciTar.v] and [OciTarBin.v] (crates/oci-tar-builder/src/lib.rs, [bin.rs]):
      the archive of an image is complete and content-addressed, and so is
      what the command writes.  [Import.v] puts the builder, the import by
      containerd and the client together: what an image was made of is what an
      engine gets, in the order and byte for byte ([image_reaches_engine]).
    - [StressTest.v] (crates/stress-test/src/main.rs, [traits.rs]): the load test
      over the traits, the class [Stress].  [StressRuns.v] is about every
      interleaving of its tasks.  [StressTasks.v] ([containerd], [mocks],
      [utils.rs]) has the two implementations of the traits, one of them over
      the client of [StressClient.v] ([containerd/client.rs]), and the program
      that reads the command line and chooses between them.
    - [DemoApp.v] (crates/wasi-demo-app: [main.rs], [build.rs]) and
      [TestModules.v] (crates/containerd-shim-wasm-test-modules): the module
      of the examples, its image, and the modules of the tests with the Rust
      file the build writes to name them.
    - [UnitTests.v]: the unit tests in error.rs, sync.rs, otel.rs,
      instance_utils.rs, context.rs and instance.rs, run on the definitions of
      this library; they all pass.
    - [ClientTests.v]: the tests of containerd/client.rs.  They pass on the
      machine of [TestMachine.v], a containerd in memory with a collector, files
      and the command [ctr], which has the laws of [ContentStore.v] and
      [Import.v] when its digest has no collisions.
    - [ServiceTests.v]: the tests of shim/local/tests.rs with their stub of an
      engine, as pools of futures.  They pass under the schedules that are run
      there; one of them does not pass under every scheduler.

    ** Fuel and bounds

    [async] is inductive, so running a future needs no fuel.  The loop that
    sends the chunks of a content ([Client.write_chunks]) takes the length of
    the data and one more iteration, and [write_chunks_total] shows that it
    never runs out; the loop of the wait for a process ([PidFd.wait_loop]) takes
    two iterations, and [pidfd_wait_ends] shows that they are enough in every
    interleaving.  The order in which [tokio::select!] polls its branches is an
    argument, and a run that exhausts it is pending.  The loops that only an
    outside event ends take their iterations as an argument and are pending for
    ever after the last one: the accept loop ([HttpProxy.accept_loop], [orders]),
    the loop of the stress test ([StressTest.wait_loop], [branches]), the
    reaping of its children ([StressTasks.reap_children], [rounds]), the wait
    for the content of a removed image ([OciHelpers.removal_loop], [rounds]),
    the server of a named pipe ([Windows.pipe_server], [polls]) and the daemon
    of the demo application ([DemoApp.daemon], [verses]); what is proved of
    them holds for every number of iterations, and [content_removal_wait_ends]
    shows how many are enough when the content does go away.  Statuses, pids and
    request numbers are integers with the wrap-around of [u32], [i32] and [u64]
    written out.

    ** What is not modelled

    The tests of the engines, which run Wasm modules in the processes of
    containers, and the benchmark, which call the code and are not called by it; the re-exports of the crates' roots and the code their macros
    and build scripts generate.  The count of the clones of a client is not
    modelled, so neither is the lease that the last clone of the client of the
    stress test gives up.  A file system and an environment are read as they
    are at one time where the code reads them several times in a row.

    In each file the theorems that state properties of the program are at its
    end, each with an id (C1, C2, ...) in its comment, followed or preceded by
    concrete instances on which the hypotheses hold. *)

From stdpp Require Export base tactics option list gmap strings pretty relations.
From Stdlib Require Export ZArith Lia.
From Stdlib Require Strings.Byte.

Declare Scope rust_scope.
Delimit Scope rust_scope with rust.

(** ** Outcomes

    The value of a Rust computation that returns [Result<A, E>] and may
    also panic ([unwrap], [expect], a slice out of range, [unreachable!]). *)

Inductive outcome (E A : Type) : Type :=
  | Ok (a : A)
  | Err (e : E)
  | Panic.

Arguments Ok {E A} a.
Arguments Err {E A} e.
Arguments Panic {E A}.

Section outcome.
Context {E A B : Type}.

Definition is_ok (r : outcome E A) : bool :=
  match r with Ok _ => true | _ => false end.

Definition is_err (r : outcome E A) : bool :=
  match r with Err _ => true | _ => false end.

(** [Result::ok] *)
Definition ok_opt (r : outcome E A) : option A :=
  match r with Ok a => Some a | _ => None end.

(** The [?] operator: leave the function on [Err], propagate a panic. *)
Definition obind (r : outcome E A) (k : A -> outcome E B) : outcome E B :=
  match r with Ok a => k a | Err e => Err e | Panic => Panic end.

(** [Option::ok_or_else] / [anyhow::Context::context] *)
Definition ok_or (o : option A) (e : E) : outcome E A :=
  match o with Some a => Ok a | None => Err e end.
End outcome.

(** [Result::map_err] *)
Definition map_err {E E' A} (f : E -> E') (r : outcome E A) : outcome E' A :=
  match r with Ok a => Ok a | Err e => Err (f e) | Panic => Panic end.

(** [Result::map] *)
Definition omap_ok {E A B} (f : A -> B) (r : outcome E A) : outcome E B :=
  match r with Ok a => Ok (f a) | Err e => Err e | Panic => Panic end.

Notation "'let?' x ':=' c1 'in' c2" := (obind c1 (fun x => c2))
  (at level 10, x pattern, c1 at level 200, c2 at level 200) : rust_scope.

(** ** Stateful, fallible computations

    [M W E A] is a computation that runs to its end without yielding,
    over a world [W]: it returns an outcome and the world it leaves.  An
    error keeps the effects that happened before it, as [?] does. *)

Definition M (W E A : Type) : Type := W -> outcome E A * W.

Definition mret {W E A} (a : A) : M W E A := fun w => (Ok a, w).
Definition mthrow {W E A} (e : E) : M W E A := fun w => (Err e, w).
Definition mpanic {W E A} : M W E A := fun w => (Panic, w).
Definition mlift {W E A} (r : outcome E A) : M W E A := fun w => (r, w).
Definition mget {W E A} (f : W -> A) : M W E A := fun w => (Ok (f w), w).
Definition mput {W E} (f : W -> W) : M W E unit := fun w => (Ok tt, f w).

Definition mbind {W E A B} (m : M W E A) (k : A -> M W E B) : M W E B :=
  fun w =>
    match m w with
    | (Ok a, w') => k a w'
    | (Err e, w') => (Err e, w')
    | (Panic, w') => (Panic, w')
    end.

(** The result of [m] as a value: what a [match] on the [Result], [if let
    Ok(..)], [let _ =] and [unwrap_or_else] start from.  A panic unwinds
    through it. *)
Definition mtry {W E E' A} (m : M W E A) : M W E' (outcome E A) :=
  fun w =>
    match m w with
    | (Ok a, w') => (Ok (Ok a), w')
    | (Err e, w') => (Ok (Err e), w')
    | (Panic, w') => (Panic, w')
    end.

Definition mmap_err {W E E' A} (f : E -> E') (m : M W E A) : M W E' A :=
  fun w => let '(r, w') := m w in (map_err f r, w').

Notation "'let!' x ':=' c1 'in' c2" := (mbind c1 (fun x => c2))
  (at level 10, x pattern, c1 at level 200, c2 at level 200) : rust_scope.

Open Scope rust_scope.

(** A [for] loop that pushes one element per iteration and leaves on the
    first error. *)
Fixpoint mapM_M {W E A B} (f : A -> M W E B) (l : list A) : M W E (list B) :=
  match l with
  | [] => mret []
  | x :: l' =>
      let! y := f x in
      let! ys := mapM_M f l' in
      mret (y :: ys)
  end.

(** A [for] loop with an accumulator. *)
Fixpoint foldM_M {W E A B} (f : B -> A -> M W E B) (b : B) (l : list A) : M W E B :=
  match l with
  | [] => mret b
  | x :: l' => let! b' := f b x in foldM_M f b' l'
  end.

(** ** Tactics *)

(** Case analysis on the scrutinee of a [match] in the goal or in a
    hypothesis, with the equation kept. *)
Ltac break_match :=
  match goal with
  | |- context [match ?x with _ => _ end] =>
      lazymatch x with
      | context [match _ with _ => _ end] => fail
      | _ => destruct x eqn:?
      end
  | H : context [match ?x with _ => _ end] |- _ =>
      lazymatch x with
      | context [match _ with _ => _ end] => fail
      | _ => destruct x eqn:?
      end
  end.

(** Runs the code symbolically: unfolds the monads, splits the matches and
    closes the contradictory branches. *)
Ltac run_code :=
  repeat (first
    [ progress simplify_eq/=
    | progress (unfold mbind, mret, mthrow, mpanic, mlift, mget, mput, mtry,
                       mmap_err, obind, ok_or, map_err in * )
    | break_match ]).

(** ** Lemmas on the loops *)

Create HintDb runwasi discriminated.

Lemma mbind_ok {W E A C} (m : M W E A) (k : A -> M W E C) w c w' :
  mbind m k w = (Ok c, w') ->
  exists a w1, m w = (Ok a, w1) /\ k a w1 = (Ok c, w').
Proof. unfold mbind. destruct (m w) as [[a|e|] w1]; naive_solver. Qed.

Lemma Forall2_fmap_eq {A B} (f : A -> B) (l : list B) (xs : list A) :
  Forall2 (fun y x => f x = y) l xs -> f <$> xs = l.
Proof. induction 1 as [|y x l xs <- _ IH]; [done|]. rewrite fmap_cons. by f_equal. Qed.

(** [keeps f m]: whatever its outcome, [m] leaves [f] of the world as it was. *)
Definition keeps {W E A X} (f : W -> X) (m : M W E A) : Prop := forall w, f (m w).2 = f w.

Lemma keeps_bind {W E A B X} (f : W -> X) (m : M W E A) (k : A -> M W E B) :
  keeps f m -> (forall a, keeps f (k a)) -> keeps f (mbind m k).
Proof.
  intros Hm Hk w. unfold mbind. specialize (Hm w).
  destruct (m w) as [[a|e|] w']; simpl in *; [by rewrite Hk|done..].
Qed.

Lemma keeps_ret {W E A X} (f : W -> X) (r : outcome E A) : keeps f (mlift r).
Proof. done. Qed.

Lemma keeps_map_err {W E E' A X} (f : W -> X) (g : E -> E') (m : M W E A) :
  keeps f m -> keeps f (mmap_err g m).
Proof. intros Hm w. unfold mmap_err. specialize (Hm w). by destruct (m w). Qed.

Lemma keeps_try {W E E' A X} (f : W -> X) (m : M W E A) : keeps f m -> keeps f (mtry (E' := E') m).
Proof. intros Hm w. unfold mtry. specialize (Hm w). by destruct (m w) as [[]]. Qed.

Lemma keeps_mapM {W E A B X} (f : W -> X) (g : A -> M W E B) l :
  (forall x, keeps f (g x)) -> keeps f (mapM_M g l).
Proof.
  intros Hg. induction l as [|x l IH]; [done|]. simpl.
  apply keeps_bind; [done|intros y]. by apply keeps_bind.
Qed.

Lemma keeps_foldM {W E A B X} (f : W -> X) (g : B -> A -> M W E B) l b :
  (forall b x, keeps f (g b x)) -> keeps f (foldM_M g b l).
Proof. intros Hg. revert b. induction l as [|x l IH]; intros b; [done|]. simpl. by apply keeps_bind. Qed.

(** What holds of the accumulator after the elements seen so far. *)
Lemma foldM_M_ok {W E A B} (f : B -> A -> M W E B) (I : list A -> B -> W -> Prop) :
  (forall seen x b w b' w', I seen b w -> f b x w = (Ok b', w') -> I (seen ++ [x]) b' w') ->
  forall l b w b' w', I [] b w -> foldM_M f b l w = (Ok b', w') -> I l b' w'.
Proof.
  intros Hf l b w b' w' HI Hrun. change l with ([] ++ l).
  revert HI Hrun. generalize (@nil A) as seen. revert b w.
  induction l as [|x l IH]; intros b w seen HI Hrun; simpl in Hrun.
  - injection Hrun as <- <-. by rewrite app_nil_r.
  - apply mbind_ok in Hrun as (b1 & w1 & Hx & Hl).
    rewrite (cons_middle x seen l), app_assoc. eapply IH; [|exact Hl]. eauto.
Qed.

Section loops.
Context {W E A B : Type}.
Implicit Types f : A -> M W E B.

Lemma mapM_M_cons_ok f x l w ys w' :
  mapM_M f (x :: l) w = (Ok ys, w') ->
  exists y ys' w1, f x w = (Ok y, w1) /\ mapM_M f l w1 = (Ok ys', w') /\ ys = y :: ys'.
Proof.
  simpl. intros (y & w1 & Hy & Hk)%mbind_ok.
  apply mbind_ok in Hk as (ys' & w2 & Hys & [= <- <-]). eauto 10.
Qed.

(** Every element the loop pushed satisfies what each iteration ensures. *)
Lemma mapM_M_Forall2 (P : A -> B -> Prop) f l :
  (forall x w y w', f x w = (Ok y, w') -> P x y) ->
  forall w ys w', mapM_M f l w = (Ok ys, w') -> Forall2 P l ys.
Proof.
  intros HP. induction l as [|x l IH]; intros w ys w' Hrun.
  - injection Hrun as <- _. constructor.
  - apply mapM_M_cons_ok in Hrun as (y & ys' & w1 & Hy & Hl & ->). eauto.
Qed.

Lemma mapM_M_length f l w ys w' :
  mapM_M f l w = (Ok ys, w') -> length ys = length l.
Proof.
  intros Hrun. symmetry. eapply Forall2_length.
  by eapply (mapM_M_Forall2 (fun _ _ => True)).
Qed.

(** A property of the world kept by every iteration, whatever its
    outcome, is kept by the loop. *)
Lemma mapM_M_inv (I : W -> Prop) f l :
  (forall x w, I w -> I (f x w).2) -> forall w, I w -> I (mapM_M f l w).2.
Proof.
  intros HI. induction l as [|x l IH]; intros w Hw; simpl; [done|].
  unfold mbind. specialize (HI x w Hw).
  destruct (f x w) as [[y|e|] w1]; simpl in *; try done.
  specialize (IH w1 HI). by destruct (mapM_M f l w1) as [[ys|e|] w2].
Qed.

(** A loop whose iterations never fail never fails. *)
Lemma mapM_M_total (I : W -> Prop) f l :
  (forall x w, x ∈ l -> I w -> exists y w', f x w = (Ok y, w') /\ I w') ->
  forall w, I w -> exists ys w', mapM_M f l w = (Ok ys, w') /\ I w'.
Proof.
  induction l as [|x l IH]; intros HI w Hw; [by exists [], w|].
  destruct (HI x w) as (y & w1 & Hy & Hw1); [set_solver|done|].
  destruct (IH ltac:(intros; apply HI; set_solver) w1 Hw1) as (ys & w2 & Hys & Hw2).
  exists (y :: ys), w2. simpl. unfold mbind. rewrite Hy, Hys. done.
Qed.
End loops.

#[export] Hint Resolve mapM_M_length keeps_bind keeps_ret keeps_map_err keeps_try keeps_mapM keeps_foldM : runwasi.

(** ** Machine integers and bytes *)

Definition bytes := list Byte.byte.

#[export] Instance byte_eq_dec : EqDecision Byte.byte := Strings.Byte.byte_eq_dec.

Definition wrap_u32 (z : Z) : Z := (z mod 2 ^ 32)%Z.
Definition u32_max : Z := (2 ^ 32 - 1)%Z.
Definition i64_max : Z := (2 ^ 63 - 1)%Z.

(** [z as i32] *)
Definition wrap_i32 (z : Z) : Z :=
  (let r := z mod 2 ^ 32 in if r <? 2 ^ 31 then r else r - 2 ^ 32)%Z.

Lemma wrap_i32_small z : (- 2 ^ 31 <= z < 2 ^ 31)%Z -> wrap_i32 z = z.
Proof.
  intros Hz. unfold wrap_i32.
  destruct (decide (0 <= z)%Z) as [Hp|Hn].
  - rewrite Z.mod_small by lia. destruct (Z.ltb_spec z (2 ^ 31)); lia.
  - rewrite <- (Z.mod_unique z (2 ^ 32) (-1) (z + 2 ^ 32)) by lia.
    destruct (Z.ltb_spec (z + 2 ^ 32) (2 ^ 31)); lia.
Qed.

Lemma wrap_u32_range z : (0 <= wrap_u32 z <= u32_max)%Z.
Proof. unfold wrap_u32, u32_max. pose proof (Z.mod_pos_bound z (2 ^ 32)). lia. Qed.

Lemma wrap_i32_range z : (- 2 ^ 31 <= wrap_i32 z < 2 ^ 31)%Z.
Proof.
  unfold wrap_i32. pose proof (Z.mod_pos_bound z (2 ^ 32)).
  destruct (Z.ltb_spec (z mod 2 ^ 32) (2 ^ 31)); lia.
Qed.

(** A pid that went through [as u32] comes back through [as i32]. *)
Lemma wrap_i32_u32 z : wrap_i32 (wrap_u32 z) = wrap_i32 z.
Proof. unfold wrap_i32, wrap_u32. by rewrite Z.mod_mod by lia. Qed.

#[export] Hint Resolve wrap_u32_range wrap_i32_range : runwasi.

(** ** How many elements of a list pass a test *)

Section tally.
Context {A : Type} (f : A -> bool).
Implicit Types l : list A.

Definition tally l : nat := length (filter (fun x => f x = true) l).

Definition one (b : bool) : nat := if b then 1 else 0.

Lemma tally_snoc l x : tally (l ++ [x]) = tally l + one (f x).
Proof.
  unfold tally. rewrite filter_app, length_app, filter_cons, filter_nil. by destruct (f x).
Qed.

Lemma tally_insert l k x y :
  l !! k = Some x -> tally (<[k := y]> l) + one (f x) = tally l + one (f y).
Proof.
  intros Hk. pose proof (lookup_lt_Some _ _ _ Hk). unfold tally.
  rewrite insert_take_drop by done. rewrite <- (take_drop_middle l k x Hk) at 3.
  rewrite !filter_app, !length_app, !filter_cons. destruct (f x), (f y); simpl; lia.
Qed.

Lemma tally_le l : tally l <= length l.
Proof. apply length_filter. Qed.

Lemma tally_all l : tally l = length l -> Forall (fun x => f x = true) l.
Proof.
  induction l as [|x l IH]; [by constructor|]. unfold tally in *. rewrite filter_cons. simpl.
  destruct (decide (f x = true)) as [Hx|Hx]; simpl; intros Hl.
  - constructor; [done|]. apply IH. lia.
  - pose proof (length_filter (fun x => f x = true) l). lia.
Qed.
Lemma tally_none l : Forall (fun x => f x = false) l -> tally l = 0.
Proof.
  unfold tally. induction 1 as [|x l Hx _ IH]; [done|]. by rewrite filter_cons_False by congruence.
Qed.

(** Lists of the same length that agree on [f] have the same tally. *)
Lemma tally_pointwise l l' :
  length l' = length l ->
  (forall k x, l !! k = Some x -> exists x', l' !! k = Some x' /\ f x' = f x) ->
  tally l' = tally l.
Proof.
  revert l'. induction l as [|x l IH]; intros [|x' l'] Hlen Hk; simpl in *; try done.
  destruct (Hk 0 x eq_refl) as (y & [= ->] & Hx). unfold tally in *. rewrite !filter_cons.
  assert (length (filter (fun x => f x = true) l') = length (filter (fun x => f x = true) l)) as IHl.
  { apply IH; [lia|]. intros k z Hz. exact (Hk (S k) z Hz). }
  rewrite Hx. destruct (decide (f x = true)); simpl; lia.
Qed.
End tally.
