(* ===== verification/Async.v ===== *)
(** * Async: resumptions for [async fn] and for code that threads interleave

    A value of [async S E A] is a Rust future (or a stretch of code that other
    threads can interleave with): a sequence of atomic steps on a shared state
    [S].  A step whose guard does not hold is a pending [.await] (a lock that
    is held, a notification that has not come).  The type is inductive, so
    running a future needs no fuel.

    [exec] polls a future on its own until it finishes or is pending;
    [pool_step] interleaves the futures of a pool.  The section [rely_guarantee]
    gives the proof principle the clients use for every interleaving. *)

From S2P Require Import Prelude.

Inductive async (S E A : Type) : Type :=
  | Done (r : outcome E A)
  | Step {X : Type} (f : S -> option (X * S)) (k : X -> async S E A).

Arguments Done {S E A} r.
Arguments Step {S E A X} f k.

Section combinators.
Context {S E : Type}.

Definition aret {A} (a : A) : async S E A := Done (Ok a).
Definition athrow {A} (e : E) : async S E A := Done (Err e).
Definition apanic {A} : async S E A := Done Panic.

Fixpoint abind {A B} (p : async S E A) (k : A -> async S E B) : async S E B :=
  match p with
  | Done (Ok a) => k a
  | Done (Err e) => Done (Err e)
  | Done Panic => Done Panic
  | Step f j => Step f (fun x => abind (j x) k)
  end.

(** One atomic step that cannot be pending. *)
Definition atomic {A} (f : S -> A * S) : async S E A :=
  Step (fun s => Some (f s)) aret.

(** A stretch of synchronous code as one atomic step. *)
Definition alift {A} (m : M S E A) : async S E A :=
  Step (fun s => Some (m s)) Done.

(** [fut.await] where [f] is what one poll of [fut] gives: [None] while it
    is pending. *)
Definition await {A} (f : S -> option (A * S)) : async S E A := Step f aret.

(** [FutureExt::now_or_never]: poll once and drop the future if it is
    pending.  The steps it took before it became pending remain. *)
Fixpoint now_or_never {A} (p : async S E A) : async S E (option A) :=
  match p with
  | Done r => Done (omap_ok Some r)
  | Step f k =>
      Step (fun s => match f s with
                     | Some (x, s') => Some (Some x, s')
                     | None => Some (None, s)
                     end)
           (fun o => match o with
                     | Some x => now_or_never (k x)
                     | None => aret None
                     end)
  end.
End combinators.

(** The [Result] of a future as a value (a [match], [let _ =], [is_err]). *)
Fixpoint atry {S E E' A} (p : async S E A) : async S E' (outcome E A) :=
  match p with
  | Done Panic => Done Panic
  | Done r => Done (Ok r)
  | Step f k => Step f (fun x => atry (k x))
  end.

(** A cleanup that runs on every outcome, panics included: the [drop] of a
    guard at the end of its scope. *)
Fixpoint afinally {S E A} (p : async S E A) (f : S -> S) : async S E A :=
  match p with
  | Done r => Step (fun s => Some (tt, f s)) (fun _ => Done r)
  | Step g k => Step g (fun x => afinally (k x) f)
  end.

(** The [drop] of a guard that itself takes steps: on every outcome of the
    scope, or only when the scope did not move the guard away, which it does
    at its successful end. *)
Definition then_drop {S E A} (c : async S E unit) (r : outcome E A) : async S E A :=
  abind (atry c) (fun _ => Done r).

Fixpoint adefer {S E A} (p : async S E A) (c : async S E unit) : async S E A :=
  match p with
  | Done r => then_drop c r
  | Step g k => Step g (fun x => adefer (k x) c)
  end.

Fixpoint on_failure {S E A} (p : async S E A) (c : async S E unit) : async S E A :=
  match p with
  | Done (Ok a) => Done (Ok a)
  | Done r => then_drop c r
  | Step g k => Step g (fun x => on_failure (k x) c)
  end.

(** A future given to the runtime: its end, a panic included, is recorded. *)
Fixpoint aend {S E E' A} (p : async S E A) (f : outcome E A -> S -> S) : async S E' unit :=
  match p with
  | Done r => Step (fun s => Some (tt, f r s)) aret
  | Step g k => Step g (fun x => aend (k x) f)
  end.

Fixpoint amap_err {S E E' A} (g : E -> E') (p : async S E A) : async S E' A :=
  match p with
  | Done r => Done (map_err g r)
  | Step f k => Step f (fun x => amap_err g (k x))
  end.

(** [tokio::select!] on two futures: the first to finish wins and the other is
    dropped.  [order] is the order in which they are polled, which tokio
    chooses; a poll of a pending future changes nothing. *)
Fixpoint select {S E A} (order : list bool) (p q : async S E A) : async S E A :=
  match p, q with
  | Done r, _ => Done r
  | _, Done r => Done r
  | Step f k, Step g j =>
      match order with
      | [] => Step (fun _ : S => @None (Empty_set * S)) (fun x => match x with end)
      | true :: order' =>
          Step (fun s => match f s with Some (x, s') => Some (Some x, s') | None => Some (None, s) end)
               (fun o => match o with Some x => select order' (k x) q | None => select order' p q end)
      | false :: order' =>
          Step (fun s => match g s with Some (y, s') => Some (Some y, s') | None => Some (None, s) end)
               (fun o => match o with Some y => select order' p (j y) | None => select order' p q end)
      end
  end.

(** A future over a part [S] of a larger state [T]. *)
Fixpoint zoom {S T E A} (get : T -> option S) (put : S -> T -> T)
    (p : async S E A) : async T E A :=
  match p with
  | Done r => Done r
  | Step f k =>
      Step (fun t => match get t with
                     | Some s => match f s with
                                 | Some (x, s') => Some (x, put s' t)
                                 | None => None
                                 end
                     | None => None
                     end)
           (fun x => zoom get put (k x))
  end.

(** Every step of [p] is in [T]. *)
Fixpoint steps_in {S E A} (T : S -> S -> Prop) (p : async S E A) : Prop :=
  match p with
  | Done _ => True
  | Step f k => forall s x s', f s = Some (x, s') -> T s s' /\ steps_in T (k x)
  end.

Lemma steps_in_any {S E A} (p : async S E A) : steps_in (fun _ _ => True) p.
Proof. induction p as [r|X f k IH]; simpl; auto. Qed.

Lemma steps_in_mono {S E A} (T T' : S -> S -> Prop) (p : async S E A) :
  (forall s s', T s s' -> T' s s') -> steps_in T p -> steps_in T' p.
Proof.
  intros HT. induction p as [r|X f k IH]; simpl; [done|]. intros Hp s x s' Hs.
  destruct (Hp s x s' Hs). eauto.
Qed.

Lemma steps_in_bind {S E A B} (T : S -> S -> Prop) (p : async S E A) (k : A -> async S E B) :
  steps_in T p -> (forall a, steps_in T (k a)) -> steps_in T (abind p k).
Proof.
  intros Hp Hk. induction p as [[a|e|]|X f j IH]; simpl in *; [done..|].
  intros s x s' Hs. destruct (Hp s x s' Hs). eauto.
Qed.

Lemma steps_in_and {S E A} (T U : S -> S -> Prop) (p : async S E A) :
  steps_in T p -> steps_in U p -> steps_in (fun s s' => T s s' /\ U s s') p.
Proof.
  induction p as [r|X f k IH]; simpl; [done|]. intros HT HU s x s' Hs.
  destruct (HT s x s' Hs), (HU s x s' Hs). auto.
Qed.

Lemma steps_in_try {S E E' A} (T : S -> S -> Prop) (p : async S E A) :
  steps_in T p -> steps_in T (atry (E' := E') p).
Proof.
  intros Hp. induction p as [[a|e|]|X f j IH]; simpl in *; [done..|].
  intros s x s' Hs. destruct (Hp s x s' Hs). eauto.
Qed.

Lemma steps_in_on_failure {S E A} (T : S -> S -> Prop) (p : async S E A) c :
  steps_in T p -> steps_in T c -> steps_in T (on_failure p c).
Proof.
  intros Hp Hc. induction p as [[a|e|]|X f k IH]; simpl in *; [done|..].
  1,2: by apply steps_in_bind; [apply steps_in_try|].
  intros s x s' Hs. destruct (Hp s x s' Hs). eauto.
Qed.

Lemma steps_in_defer {S E A} (T : S -> S -> Prop) (p : async S E A) c :
  steps_in T p -> steps_in T c -> steps_in T (adefer p c).
Proof.
  intros Hp Hc. induction p as [r|X f k IH]; simpl in *.
  - by apply steps_in_bind; [apply steps_in_try|].
  - intros s x s' Hs. destruct (Hp s x s' Hs). eauto.
Qed.

Lemma steps_in_finally {S E A} (T : S -> S -> Prop) (p : async S E A) (f : S -> S) :
  steps_in T p -> (forall s, T s (f s)) -> steps_in T (afinally p f).
Proof.
  intros Hp Hf. induction p as [r|X g k IH]; simpl in *.
  - by intros s x s' [= <- <-].
  - intros s x s' Hs. destruct (Hp s x s' Hs). eauto.
Qed.

Lemma steps_in_now_or_never {S E A} (T : S -> S -> Prop) `{!Reflexive T} (p : async S E A) :
  steps_in T p -> steps_in T (now_or_never p).
Proof.
  intros Hp. induction p as [r|X f k IH]; simpl in *; [done|]. intros s o s' Hs.
  destruct (f s) as [[x s1]|] eqn:Hf; simplify_eq; [|done].
  destruct (Hp s x s' Hf). eauto.
Qed.

Lemma steps_in_zoom {S T E A} (U : S -> S -> Prop) (get : T -> option S) (put : S -> T -> T)
    (p : async S E A) :
  steps_in U p ->
  steps_in (fun t t' => exists s s', get t = Some s /\ U s s' /\ t' = put s' t) (zoom get put p).
Proof.
  induction p as [r|X f k IH]; simpl; [done|]. intros Hp t x t' Hs.
  destruct (get t) as [s|] eqn:Hg; [|done].
  destruct (f s) as [[y s']|] eqn:Hf; simplify_eq.
  destruct (Hp s x s' Hf) as [HU Hk]. split; [eauto|by apply IH].
Qed.

Lemma steps_in_alift {S E A} (T : S -> S -> Prop) (m : M S E A) :
  (forall s, T s (m s).2) -> steps_in T (alift m).
Proof. intros Hm s x s' [= Hs]. specialize (Hm s). by rewrite Hs in Hm. Qed.

Lemma steps_in_atomic {S E A} (T : S -> S -> Prop) (f : S -> A * S) :
  (forall s, T s (f s).2) -> steps_in T (atomic (E := E) f).
Proof. intros Hf s x s' [= Hs]. specialize (Hf s). by rewrite Hs in Hf. Qed.

Lemma steps_in_select {S E A} (T : S -> S -> Prop) `{!Reflexive T} order (p q : async S E A) :
  steps_in T p -> steps_in T q -> steps_in T (select order p q).
Proof.
  revert p q. induction order as [|b order IH]; intros [r|X f k] [r'|Y g j] Hp Hq; simpl in *; try done.
  destruct b; intros s o s' Hs.
  - destruct (f s) as [[x s1]|] eqn:Hf; injection Hs as <- <-; [|split; [done|by apply IH]].
    destruct (Hp s x s1 Hf). split; [done|by apply IH].
  - destruct (g s) as [[y s1]|] eqn:Hg; injection Hs as <- <-; [|split; [done|by apply IH]].
    destruct (Hq s y s1 Hg). split; [done|by apply IH].
Qed.

Lemma steps_in_map_err {S E E' A} (T : S -> S -> Prop) (g : E -> E') (p : async S E A) :
  steps_in T p -> steps_in T (amap_err g p).
Proof.
  intros Hp. induction p as [r|X f k IH]; simpl in *; [done|].
  intros s x s' Hs. destruct (Hp s x s' Hs). eauto.
Qed.

Notation "'let*' x ':=' c1 'in' c2" := (abind c1 (fun x => c2))
  (at level 10, x pattern, c1 at level 200, c2 at level 200) : rust_scope.

(** ** Running one future on its own *)

Fixpoint exec {S E A} (p : async S E A) (s : S) : option (outcome E A) * S :=
  match p with
  | Done r => (Some r, s)
  | Step f k =>
      match f s with
      | Some (x, s') => exec (k x) s'
      | None => (None, s)
      end
  end.

Section exec.
Context {S E : Type}.

Lemma exec_abind {A B} (p : async S E A) (k : A -> async S E B) s :
  exec (abind p k) s =
  match exec p s with
  | (Some (Ok a), s') => exec (k a) s'
  | (Some (Err e), s') => (Some (Err e), s')
  | (Some Panic, s') => (Some Panic, s')
  | (None, s') => (None, s')
  end.
Proof.
  revert s. induction p as [[a|e|]|X f j IH]; intros s; simpl; try done.
  destruct (f s) as [[x s']|]; [apply IH|done].
Qed.

Lemma exec_bind_inv {A B} (p : async S E A) (k : A -> async S E B) s r s' :
  exec (abind p k) s = (Some r, s') -> r ≠ Panic ->
  (exists a s1, exec p s = (Some (Ok a), s1) /\ exec (k a) s1 = (Some r, s')) \/
  (exists e, exec p s = (Some (Err e), s') /\ r = Err e).
Proof.
  rewrite exec_abind. intros Hrun Hr.
  destruct (exec p s) as [[[a|e|]|] s1]; simplify_eq; eauto 10.
Qed.

Lemma exec_alift {A} (m : M S E A) s : exec (alift m) s = (Some (m s).1, (m s).2).
Proof. simpl. by destruct (m s). Qed.

Lemma exec_atomic {A} (f : S -> A * S) s :
  exec (atomic (E := E) f) s = (Some (Ok (f s).1), (f s).2).
Proof. simpl. by destruct (f s). Qed.

Lemma exec_atry {E' A} (p : async S E A) s :
  exec (atry (E' := E') p) s =
  match exec p s with
  | (Some Panic, s') => (Some Panic, s')
  | (Some r, s') => (Some (Ok r), s')
  | (None, s') => (None, s')
  end.
Proof.
  revert s. induction p as [[a|e|]|X f k IH]; intros s; simpl; try done.
  destruct (f s) as [[x s']|]; [apply IH|done].
Qed.

Lemma exec_amap_err {E' A} (g : E -> E') (p : async S E A) s :
  exec (amap_err g p) s =
  let '(r, s') := exec p s in (map_err g <$> r, s').
Proof.
  revert s. induction p as [r|X f k IH]; intros s; simpl; [done|].
  destruct (f s) as [[x s']|]; [apply IH|done].
Qed.

Lemma exec_now_or_never {A} (p : async S E A) s :
  exec (now_or_never p) s =
  match exec p s with
  | (Some r, s') => (Some (omap_ok Some r), s')
  | (None, s') => (Some (Ok None), s')
  end.
Proof.
  revert s. induction p as [r|X f k IH]; intros s; simpl; [done|].
  destruct (f s) as [[x s']|]; [apply IH|done].
Qed.

Lemma exec_afinally {A} (p : async S E A) (f : S -> S) s :
  exec (afinally p f) s =
  match exec p s with
  | (Some r, s') => (Some r, f s')
  | (None, s') => (None, s')
  end.
Proof.
  revert s. induction p as [r|X g k IH]; intros s; simpl; [done|].
  destruct (g s) as [[x s']|]; [apply IH|done].
Qed.

Lemma exec_on_failure {A} (p : async S E A) c s :
  exec (on_failure p c) s =
  match exec p s with
  | (Some (Ok a), s') => (Some (Ok a), s')
  | (Some r, s') => exec (then_drop c r) s'
  | (None, s') => (None, s')
  end.
Proof.
  revert s. induction p as [[a|e|]|X g k IH]; intros s; simpl; [done..|].
  destruct (g s) as [[x s']|]; [apply IH|done].
Qed.

Lemma exec_adefer {A} (p : async S E A) c s :
  exec (adefer p c) s =
  match exec p s with
  | (Some r, s') => exec (then_drop c r) s'
  | (None, s') => (None, s')
  end.
Proof.
  revert s. induction p as [r|X g k IH]; intros s; simpl; [done|].
  destruct (g s) as [[x s']|]; [apply IH|done].
Qed.

Lemma exec_steps_in {A} (T : S -> S -> Prop) `{!PreOrder T} (p : async S E A) s :
  steps_in T p -> T s (exec p s).2.
Proof.
  revert s. induction p as [r|X f k IH]; intros s Hp; simpl in *; [reflexivity|].
  destruct (f s) as [[x s']|] eqn:Hf; [|reflexivity]. destruct (Hp s x s' Hf) as [HT Hk].
  etrans; [exact HT|by apply IH].
Qed.

Lemma exec_zoom {T A} (get : T -> option S) (put : S -> T -> T)
    (p : async S E A) t s :
  (forall t' s', is_Some (get t') -> get (put s' t') = Some s') ->
  (forall t' s1 s2, put s2 (put s1 t') = put s2 t') ->
  (forall t' s', get t' = Some s' -> put s' t' = t') ->
  get t = Some s ->
  exec (zoom get put p) t = let '(r, s') := exec p s in (r, put s' t).
Proof.
  intros Hgp Hpp Hpg. revert t s.
  induction p as [r|X f k IH]; intros t s Ht; simpl.
  - by rewrite Hpg.
  - rewrite Ht. destruct (f s) as [[x s']|]; simpl; [|by rewrite Hpg].
    rewrite (IH x _ s') by (apply Hgp; eauto).
    destruct (exec (k x) s') as [r s'']. by rewrite Hpp.
Qed.
End exec.

(** ** Interleavings *)

Section pool.
Context {S E A : Type}.

(** One step of one future. *)
Definition astep (p : async S E A) (s : S) : option (async S E A * S) :=
  match p with
  | Done _ => None
  | Step f k => match f s with Some (x, s') => Some (k x, s') | None => None end
  end.

(** One step of one future of a pool; the scheduler is arbitrary. *)
Inductive pool_step : list (async S E A) * S -> list (async S E A) * S -> Prop :=
  | pool_step_intro ts i p p' s s' :
      ts !! i = Some p -> astep p s = Some (p', s') ->
      pool_step (ts, s) (<[i := p']> ts, s').

(** Runs the futures in the order of a schedule; a pending one is skipped. *)
Fixpoint run_schedule (sch : list nat) (ts : list (async S E A)) (s : S)
    : list (async S E A) * S :=
  match sch with
  | [] => (ts, s)
  | i :: sch' =>
      match ts !! i with
      | Some p => match astep p s with
                  | Some (p', s') => run_schedule sch' (<[i := p']> ts) s'
                  | None => run_schedule sch' ts s
                  end
      | None => run_schedule sch' ts s
      end
  end.

Lemma run_schedule_steps sch ts s :
  rtc pool_step (ts, s) (run_schedule sch ts s).
Proof.
  revert ts s. induction sch as [|i sch IH]; intros ts s; simpl; [done|].
  destruct (ts !! i) as [p|] eqn:Hp; [|done].
  destruct (astep p s) as [[p' s']|] eqn:Hs; [|done].
  eapply rtc_l; [by eapply pool_step_intro|apply IH].
Qed.

(** Programs all of whose steps are in a preorder move along it together. *)
Lemma pool_steps_in (T : S -> S -> Prop) `{!PreOrder T} c c' :
  Forall (steps_in T) c.1 -> rtc pool_step c c' -> T c.2 c'.2 /\ Forall (steps_in T) c'.1.
Proof.
  intros Hc Hrun. induction Hrun as [c|c c1 c' Hstep _ IH]; [by split|].
  destruct Hstep as [ts i p p' s s' Hi Hp]. cbn [fst snd] in *.
  destruct p as [r|X f k]; simpl in Hp; [done|].
  destruct (f s) as [[x s1]|] eqn:Hf; [|done]. injection Hp as <- <-.
  destruct (Forall_lookup_1 _ _ _ _ Hc Hi s x s1 Hf) as [HT Hk].
  destruct IH as [HT' Hts]; [by apply Forall_insert|]. split; [by etrans|done].
Qed.

(** A future that has finished stays as it is. *)
Lemma done_stays c c' i r : rtc pool_step c c' -> c.1 !! i = Some (Done r) -> c'.1 !! i = Some (Done r).
Proof.
  induction 1 as [c|c c1 c' Hstep _ IH]; [done|]. intros Hi. apply IH.
  destruct Hstep as [ts j p p' s s' Hj Hp]. simpl in *.
  destruct (decide (i = j)) as [->|]; [|by rewrite list_lookup_insert_ne].
  rewrite Hi in Hj. by injection Hj as <-.
Qed.

(** A future run on its own is one of the interleavings. *)
Lemma exec_pool p s r s' :
  exec p s = (Some r, s') -> rtc pool_step ([p], s) ([Done r], s').
Proof.
  revert s. induction p as [r0|X f k IH]; intros s; simpl.
  - by intros [= -> ->].
  - destruct (f s) as [[x s1]|] eqn:Hf; [|done]. intros Hr.
    eapply rtc_l; [|by apply (IH x s1)].
    apply (pool_step_intro [Step f k] 0 (Step f k)); [done|].
    simpl. by rewrite Hf.
Qed.
End pool.

(** ** Rely and guarantee

    [I] is the invariant of the shared state, [R i] what thread [i] relies on
    the others for.  [safe i p P Q]: from states that satisfy [I] and the
    private assertion [P], every step of [p] keeps [I], is a step the other
    threads rely on, and re-establishes a private assertion that is stable;
    the outcome satisfies [Q]. *)

Lemma other_thread (i : nat) : exists j, j <> i.
Proof. exists (S i). lia. Qed.

Section rely_guarantee.
Context {S : Type} (I : S -> Prop) (R : nat -> S -> S -> Prop).

Definition stable (i : nat) (P : S -> Prop) : Prop :=
  forall s s', I s -> I s' -> P s -> R i s s' -> P s'.

Lemma stable_and i (P P' : S -> Prop) : stable i P -> stable i P' -> stable i (fun s => P s /\ P' s).
Proof. intros HP HP' s s' HI HI' [H1 H2] HR. split; [exact (HP s s' HI HI' H1 HR)|exact (HP' s s' HI HI' H2 HR)]. Qed.

Lemma stable_exists {X} i (P : X -> S -> Prop) : (forall x, stable i (P x)) -> stable i (fun s => exists x, P x s).
Proof. intros HP s s' HI HI' [x H1] HR. exists x. exact (HP x s s' HI HI' H1 HR). Qed.

Fixpoint safe {E A} (i : nat) (p : async S E A) (P : S -> Prop)
    (Q : outcome E A -> S -> Prop) : Prop :=
  match p with
  | Done r => forall s, I s -> P s -> Q r s
  | Step f k =>
      forall s x s', I s -> P s -> f s = Some (x, s') ->
        I s' /\ (forall j, j ≠ i -> R j s s') /\
        exists P', P' s' /\ stable i P' /\ safe i (k x) P' Q
  end.

Lemma safe_weaken {E A} i (p : async S E A) (P P' : S -> Prop)
    (Q Q' : outcome E A -> S -> Prop) :
  (forall s, I s -> P s -> P' s) -> (forall r s, I s -> Q' r s -> Q r s) ->
  safe i p P' Q' -> safe i p P Q.
Proof.
  intros HP HQ. revert P P' HP. induction p as [r|X f k IH]; intros P P' HP Hs; simpl in *.
  - eauto.
  - intros s x s' HI HPs Hf.
    destruct (Hs s x s' HI (HP s HI HPs) Hf) as (HI' & HR & P2 & HP2 & Hst & Hk).
    split_and!; [done..|]. exists P2. split_and!; [done..|]. by eapply IH.
Qed.

Lemma safe_exists {E A X} i (p : async S E A) (P : X -> S -> Prop) (Q : outcome E A -> S -> Prop) :
  (forall x, safe i p (P x) Q) -> safe i p (fun s => exists x, P x s) Q.
Proof.
  intros Hp. destruct p as [r|Y f k]; simpl in *.
  - intros s HI [x HP]. by apply (Hp x).
  - intros s y s' HI [x HP]. by apply (Hp x).
Qed.

Lemma safe_pure {E A} i (p : async S E A) (F : Prop) (P : S -> Prop) (Q : outcome E A -> S -> Prop) :
  (F -> safe i p P Q) -> safe i p (fun s => P s /\ F) Q.
Proof.
  intros Hp. destruct p as [r|Y f k]; simpl in *.
  - intros s HI [HP HF]. by apply Hp.
  - intros s y s' HI [HP HF]. by apply Hp.
Qed.

(** The outcomes other than [Ok] leave the sequence. *)
Lemma safe_bind {E A B} i (p : async S E A) (k : A -> async S E B) P
    (Qp : outcome E A -> S -> Prop) (Q : outcome E B -> S -> Prop) :
  safe i p P Qp ->
  (forall a, safe i (k a) (Qp (Ok a)) Q) ->
  (forall e s, I s -> Qp (Err e) s -> Q (Err e) s) ->
  (forall s, I s -> Qp Panic s -> Q Panic s) ->
  safe i (abind p k) P Q.
Proof.
  intros Hp Hk He Hpanic. revert P Hp.
  induction p as [r|X f j IH]; intros P Hp; simpl in *.
  - destruct r as [a|e|]; simpl; [|eauto..].
    by eapply safe_weaken; [| |apply Hk].
  - intros s x s' HI HPs Hf.
    destruct (Hp s x s' HI HPs Hf) as (HI' & HR & P' & HP' & Hst & Hj). eauto 10.
Qed.

Lemma safe_try {E E' A} i (p : async S E A) P (Q : outcome E' (outcome E A) -> S -> Prop) :
  safe i p P (fun r s => match r with Panic => Q Panic s | _ => Q (Ok r) s end) ->
  safe i (atry (E' := E') p) P Q.
Proof.
  revert P. induction p as [[a|e|]|X f k IH]; intros P Hp; simpl in *; try done.
  intros s x s' HI HPs Hf.
  destruct (Hp s x s' HI HPs Hf) as (HI' & HR & P' & HP' & Hst & Hj). eauto 10.
Qed.

Lemma safe_map_err {E E' A} i (g : E -> E') (p : async S E A) P
    (Q : outcome E' A -> S -> Prop) :
  safe i p P (fun r => Q (map_err g r)) -> safe i (amap_err g p) P Q.
Proof.
  revert P. induction p as [r|X f k IH]; intros P Hp; simpl in *; [done|].
  intros s x s' HI HPs Hf.
  destruct (Hp s x s' HI HPs Hf) as (HI' & HR & P' & HP' & Hst & Hj). eauto 10.
Qed.

(** A poll that finds the future pending changes nothing. *)
Lemma safe_now_or_never {E A} i (p : async S E A) P (Q : outcome E (option A) -> S -> Prop) :
  (forall j s, R j s s) ->
  safe i p P (fun r => Q (omap_ok Some r)) ->
  (forall s, Q (Ok None) s) ->
  safe i (now_or_never p) P Q.
Proof.
  intros Hrefl Hp HQ. revert P Hp. induction p as [r|X f k IH]; intros P Hp; simpl in *; [done|].
  intros s x s' HI HPs Hf. destruct (f s) as [[y s1]|] eqn:Hfs; simplify_eq.
  - destruct (Hp s y s' HI HPs Hfs) as (HI' & HR & P' & HP' & Hst & Hj). eauto 10.
  - split_and!; [done|auto|]. exists (fun _ => True). split_and!; [done..|]. by intros ???.
Qed.

(** The step of the cleanup runs on every outcome. *)
Lemma safe_finally {E A} i (p : async S E A) (f : S -> S) P
    (Qp Q : outcome E A -> S -> Prop) :
  safe i p P Qp ->
  (forall r s, I s -> Qp r s ->
     I (f s) /\ (forall j, j ≠ i -> R j s (f s)) /\ Q r (f s)) ->
  (forall r, stable i (Q r)) ->
  safe i (afinally p f) P Q.
Proof.
  intros Hp Hf Hst. revert P Hp. induction p as [r|X g k IH]; intros P Hp; simpl in *.
  - intros s x s' HI HPs [= <- <-]. destruct (Hf r s HI) as (HI' & HR & HQ); [eauto|].
    split_and!; [done..|]. exists (Q r). split_and!; [done|done|by intros ???].
  - intros s x s' HI HPs Hg.
    destruct (Hp s x s' HI HPs Hg) as (HI' & HR & P' & HP' & Hst' & Hk). eauto 10.
Qed.

Lemma safe_then_drop {E A} i (c : async S E unit) (r : outcome E A) P
    (Q : outcome E A -> S -> Prop) :
  safe i c P (fun rc s => match rc with Panic => Q Panic s | _ => Q r s end) ->
  safe i (then_drop c r) P Q.
Proof.
  intros Hc. unfold then_drop.
  eapply (safe_bind i _ _ P (fun o s => match o with Ok _ => Q r s | Err _ => False | Panic => Q Panic s end)).
  - apply safe_try. eapply safe_weaken; [| |exact Hc]; [done|by intros []].
  - by intros a s HI HQ.
  - by intros e s HI.
  - done.
Qed.

Lemma safe_defer {E A} i (p : async S E A) c P (Qp : outcome E A -> S -> Prop) Q :
  safe i p P Qp -> (forall r, safe i (then_drop c r) (Qp r) Q) -> safe i (adefer p c) P Q.
Proof.
  intros Hp Hc. revert P Hp. induction p as [r|X g k IH]; intros P Hp; simpl in *.
  - by eapply safe_weaken; [| |apply Hc].
  - intros s x s' HI HPs Hg.
    destruct (Hp s x s' HI HPs Hg) as (HI' & HR & P' & HP' & Hst' & Hk). eauto 10.
Qed.

Lemma safe_on_failure {E A} i (p : async S E A) c P (Qp : outcome E A -> S -> Prop) Q :
  safe i p P Qp -> (forall a s, I s -> Qp (Ok a) s -> Q (Ok a) s) ->
  (forall r, (forall a, r <> Ok a) -> safe i (then_drop c r) (Qp r) Q) ->
  safe i (on_failure p c) P Q.
Proof.
  intros Hp Hok Hc. revert P Hp. induction p as [[a|e|]|X g k IH]; intros P Hp; simpl in *.
  - eauto.
  - by eapply safe_weaken; [| |apply Hc].
  - by eapply safe_weaken; [| |apply Hc].
  - intros s x s' HI HPs Hg.
    destruct (Hp s x s' HI HPs Hg) as (HI' & HR & P' & HP' & Hst' & Hk). eauto 10.
Qed.

(** One step that is never pending, or pending until its guard holds. *)
Lemma safe_await {E A} i (f : S -> option (A * S)) P (Q : outcome E A -> S -> Prop) :
  (forall s x s', I s -> P s -> f s = Some (x, s') ->
     I s' /\ (forall j, j ≠ i -> R j s s') /\ Q (Ok x) s') ->
  (forall x, stable i (Q (Ok x))) ->
  safe i (await f) P Q.
Proof.
  intros Hf Hst s x s' HI HPs Hs. destruct (Hf s x s' HI HPs Hs) as (HI' & HR & HQ).
  split_and!; [done..|]. exists (Q (Ok x)). split_and!; [done|done|by intros ???].
Qed.

Lemma safe_lift {E A} i (m : M S E A) P (Q : outcome E A -> S -> Prop) :
  (forall s, I s -> P s ->
     I (m s).2 /\ (forall j, j ≠ i -> R j s (m s).2) /\ Q (m s).1 (m s).2) ->
  (forall r, stable i (Q r)) ->
  safe i (alift m) P Q.
Proof.
  intros Hf Hst s x s' HI HPs [= Hs]. specialize (Hf s HI HPs). rewrite Hs in Hf.
  destruct Hf as (HI' & HR & HQ). split_and!; [done..|]. exists (Q x). split_and!; [done|done|by intros ???].
Qed.

Lemma safe_zoom_bind {S' E A B} i (get : S -> option S') (put : S' -> S -> S)
    (p : async S' E A) (k : A -> async S' E B) P (Q : outcome E B -> S -> Prop) :
  safe i (abind (zoom get put p) (fun a => zoom get put (k a))) P Q ->
  safe i (zoom get put (abind p k)) P Q.
Proof.
  revert P. induction p as [[a|e|]|X f j IH]; intros P Hp; simpl in *; try done.
  intros s x s' HI HPs Hf.
  destruct (Hp s x s' HI HPs Hf) as (HI' & HR & P' & HP' & Hst & Hj). eauto 10.
Qed.

Lemma safe_end {E E' A} i (p : async S E A) f P (Qp : outcome E A -> S -> Prop)
    (Q : outcome E' unit -> S -> Prop) :
  safe i p P Qp ->
  (forall r s, I s -> Qp r s -> I (f r s) /\ (forall j, j ≠ i -> R j s (f r s)) /\ Q (Ok tt) (f r s)) ->
  stable i (Q (Ok tt)) ->
  safe i (aend (E' := E') p f) P Q.
Proof.
  intros Hp Hf Hst. revert P Hp. induction p as [r|X g k IH]; intros P Hp; simpl in *.
  - intros s x s' HI HPs [= <- <-]. destruct (Hf r s HI) as (HI' & HR & HQ); [eauto|].
    split_and!; [done..|]. exists (Q (Ok tt)). split_and!; [done|done|by intros ???].
  - intros s x s' HI HPs Hg.
    destruct (Hp s x s' HI HPs Hg) as (HI' & HR & P' & HP' & Hst' & Hk). eauto 10.
Qed.

(** Two futures of one thread that [select!] polls: a step of one is a step
    that the assertion of the other has to be stable under. *)
Lemma safe_select {E A} i order (p q : async S E A) (T : S -> S -> Prop) Pp Pq
    (Q : outcome E A -> S -> Prop) :
  (forall j s, R j s s) -> (forall s s', I s -> I s' -> T s s' -> R i s s') ->
  steps_in T p -> steps_in T q -> stable i Pp -> stable i Pq ->
  safe i p Pp Q -> safe i q Pq Q ->
  safe i (select order p q) (fun s => Pp s /\ Pq s) Q.
Proof.
  intros Hrefl HT. revert p q Pp Pq. induction order as [|b order IH]; intros p q Pp Pq Hp Hq Hsp Hsq Hsafe Hsafe'.
  - destruct p; [by intros s HI [HP _]; apply Hsafe|].
    destruct q; [by intros s HI [_ HP]; apply Hsafe'|]. by intros ???.
  - destruct p as [r|X f k]; [by intros s HI [HP _]; apply Hsafe|].
    destruct q as [r|Y g j]; [by intros s HI [_ HP]; apply Hsafe'|].
    assert (stable i (fun s => Pp s /\ Pq s)) as Hboth.
    { intros s s' HI HI' [H1 H2] HR. split; [eapply Hsp|eapply Hsq]; eauto. }
    destruct b; intros s o s' HI [HPp HPq] Hs.
    + destruct (f s) as [[x s1]|] eqn:Hf; injection Hs as <- <-;
        [|split_and!; [done..|]; eexists; by split_and!; [|exact Hboth|apply IH]].
      destruct (Hp s x s1 Hf) as [HTs Hpk].
      destruct (Hsafe s x s1 HI HPp Hf) as (HI' & HR & P' & HP' & HstP' & Hk).
      split_and!; [done..|]. exists (fun s => P' s /\ Pq s). split_and!; [done| | |by apply IH].
      * by apply (Hsq s s1); auto.
      * intros s2 s3 HI2 HI3 [H1 H2] HR'. split; [eapply HstP'|eapply Hsq]; eauto.
    + destruct (g s) as [[x s1]|] eqn:Hg; injection Hs as <- <-;
        [|split_and!; [done..|]; eexists; by split_and!; [|exact Hboth|apply IH]].
      destruct (Hq s x s1 Hg) as [HTs Hqk].
      destruct (Hsafe' s x s1 HI HPq Hg) as (HI' & HR & P' & HP' & HstP' & Hk).
      split_and!; [done..|]. exists (fun s => Pp s /\ P' s). split_and!; [|done| |by apply IH].
      * by apply (Hsp s s1); auto.
      * intros s2 s3 HI2 HI3 [H1 H2] HR'. split; [eapply Hsp|eapply HstP']; eauto.
Qed.

(** A program all of whose steps are in [T], when [T] keeps everything. *)
Lemma safe_steps {E A} i (p : async S E A) (T : S -> S -> Prop) (P : S -> Prop) :
  steps_in T p -> stable i P ->
  (forall s s', I s -> P s -> T s s' -> I s' /\ (forall j, j ≠ i -> R j s s') /\ P s') ->
  safe i p P (fun _ => P).
Proof.
  intros Hp Hst HT. induction p as [r|X f k IH]; simpl in *; [done|].
  intros s x s' HI HPs Hs. destruct (Hp s x s' Hs) as [Hss Hk].
  destruct (HT s s' HI HPs Hss) as (HI' & HR & HP'). eauto 10.
Qed.

(** What no step of the program touches is kept besides. *)
Lemma safe_frame {E A} i (p : async S E A) (T : S -> S -> Prop) (P F : S -> Prop) (Q : outcome E A -> S -> Prop) :
  steps_in T p -> stable i F -> (forall s s', F s -> T s s' -> F s') ->
  safe i p P Q -> safe i p (fun s => P s /\ F s) (fun r s => Q r s /\ F s).
Proof.
  intros Hp HF HT. revert P Hp. induction p as [r|X f k IH]; intros P Hp Hsafe; simpl in *.
  - intros s HI [HPs HFs]. auto.
  - intros s x s' HI [HPs HFs] Hs. destruct (Hp s x s' Hs) as [Hss Hk].
    destruct (Hsafe s x s' HI HPs Hs) as (HI' & HR & P' & HP' & Hst & Hsk). split_and!; [done..|].
    exists (fun s => P' s /\ F s). split_and!; [done|by eapply HT|by apply stable_and|by apply IH].
Qed.

Section pool.
Context {E A : Type}.

Definition safe_pool (Q : nat -> outcome E A -> S -> Prop)
    (c : list (async S E A) * S) : Prop :=
  I c.2 /\
  forall i p, c.1 !! i = Some p -> exists P, P c.2 /\ stable i P /\ safe i p P (Q i).

Lemma safe_pool_step Q c c' : safe_pool Q c -> pool_step c c' -> safe_pool Q c'.
Proof.
  intros [HI Hts] Hstep. destruct Hstep as [ts i p p' s s' Hi Hp]. simpl in *.
  destruct (Hts i p Hi) as (P & HP & HstP & Hsafe).
  destruct p as [r|X f k]; simpl in Hp; [done|].
  destruct (f s) as [[x s1]|] eqn:Hf; [|done]. simplify_eq.
  destruct (Hsafe s x s' HI HP Hf) as (HI' & HR & P' & HP' & HstP' & Hsafe').
  split; [done|]. intros j q Hq. simpl in *.
  destruct (decide (i = j)) as [<-|Hne].
  - rewrite list_lookup_insert_eq in Hq by (by eapply lookup_lt_Some).
    simplify_eq. eauto.
  - rewrite list_lookup_insert_ne in Hq by done.
    destruct (Hts j q Hq) as (Q' & HQ & HstQ & HsafeQ).
    exists Q'. split_and!; [|done|done]. eapply HstQ; [exact HI| |done|]; auto.
Qed.

(** Every reachable configuration of a safe pool is safe. *)
Lemma safe_pool_steps Q c c' : safe_pool Q c -> rtc pool_step c c' -> safe_pool Q c'.
Proof. intros Hc Hrtc. induction Hrtc; eauto using safe_pool_step. Qed.

Lemma safe_pool_inv Q c c' : safe_pool Q c -> rtc pool_step c c' -> I c'.2.
Proof. intros Hc Hrtc. by apply (safe_pool_steps Q c c'). Qed.

(** What a finished future returned satisfies its postcondition. *)
Lemma safe_pool_done Q c c' i r :
  safe_pool Q c -> rtc pool_step c c' -> c'.1 !! i = Some (Done r) -> Q i r c'.2.
Proof.
  intros Hc Hrtc Hi. destruct (safe_pool_steps Q c c' Hc Hrtc) as [HI Hts].
  destruct (Hts i _ Hi) as (P & HP & _ & Hsafe). by apply Hsafe.
Qed.

(** A finished future may go on to hold any assertion that is stable. *)
Lemma safe_pool_keeps Q c i r P :
  safe_pool Q c -> c.1 !! i = Some (Done r) -> P c.2 -> stable i P ->
  forall c', rtc pool_step c c' -> c'.1 !! i = Some (Done r) -> P c'.2.
Proof.
  intros [HI Hts] Hi HP Hst c' Hrun Hi'.
  apply (safe_pool_done (fun j r => if decide (j = i) then P else Q j r) c c' i r) in Hi'; [|split|done].
  - by rewrite decide_True in Hi'.
  - done.
  - intros j p Hj. destruct (decide (j = i)) as [->|]; [|by apply Hts].
    assert (p = Done r) as -> by congruence. exists P. by split_and!; [| |intros ???].
Qed.
End pool.
End rely_guarantee.

(** What every step does is a guarantee to the other threads besides. *)
Lemma safe_also {S E A} (I : S -> Prop) (R : nat -> S -> S -> Prop) (T : S -> S -> Prop) i (p : async S E A) P Q :
  steps_in T p -> safe I R i p P Q -> safe I (fun j s s' => R j s s' /\ T s s') i p P Q.
Proof.
  intros Hp. revert P Hp. induction p as [r|X f k IH]; intros P Hp Hsafe; simpl in *; [done|].
  intros s x s' HI HPs Hs. destruct (Hp s x s' Hs) as [HT Hk].
  destruct (Hsafe s x s' HI HPs Hs) as (HI' & HR & P' & HP' & Hst & Hsk). split_and!; [done|by auto|].
  exists P'. split_and!; [done| |by apply IH]. intros s1 s2 HI1 HI2 HP1 [HR1 _]. exact (Hst s1 s2 HI1 HI2 HP1 HR1).
Qed.

(** A pool moves along a preorder that every guarantee is in. *)
Lemma safe_pool_moves {S E A} (I : S -> Prop) (R : nat -> S -> S -> Prop) (T : S -> S -> Prop) `{!PreOrder T}
    (Q : nat -> outcome E A -> S -> Prop) c c' :
  (forall j s s', R j s s' -> T s s') -> safe_pool I R Q c -> rtc pool_step c c' -> T c.2 c'.2.
Proof.
  intros HT Hc Hrun. induction Hrun as [c|c c1 c' Hstep _ IH]; [done|].
  etrans; [|by apply IH; eapply safe_pool_step]. clear IH. destruct Hc as [HI Hts], Hstep as [ts i p p' s s' Hi Hp].
  cbn [fst snd] in *. destruct (Hts i p Hi) as (P & HP & _ & Hsafe).
  destruct p as [r|X f k]; simpl in Hp; [done|]. destruct (f s) as [[x s1]|] eqn:Hf; [|done]. injection Hp as _ <-.
  destruct (Hsafe s x s1 HI HP Hf) as (_ & HR & _), (other_thread i) as [j Hj]. by eapply HT, (HR j).
Qed.

(** A future that works on a part of the state: what it guarantees of the
    part is what the whole state needs, and the other threads keep the part
    reachable. *)
Lemma safe_zoom {S S' E A} (I : S -> Prop) (R : nat -> S -> S -> Prop) (I' : S' -> Prop) (R' : nat -> S' -> S' -> Prop)
    (get : S -> option S') (put : S' -> S -> S) i (p : async S' E A) P Q :
  (forall s x, I s -> get s = Some x -> I' x) ->
  (forall s s' x, I s -> I s' -> R i s s' -> get s = Some x -> exists x', get s' = Some x' /\ R' i x x') ->
  (forall s x x', I s -> get s = Some x -> I' x' -> (forall j, j <> i -> R' j x x') ->
     I (put x' s) /\ (forall j, j <> i -> R j s (put x' s)) /\ get (put x' s) = Some x') ->
  safe I' R' i p P Q ->
  safe I R i (zoom get put p) (fun s => exists x, get s = Some x /\ P x) (fun r s => exists x, get s = Some x /\ Q r x).
Proof.
  intros HI HR Hput. revert P. induction p as [r|X f k IH]; intros P Hp; simpl in *.
  - intros s HIs (x & Hx & HP). exists x. split; [done|]. by apply Hp; [eapply HI|].
  - intros s y s' HIs (x & Hx & HP) Hs. rewrite Hx in Hs.
    destruct (f x) as [[y0 x']|] eqn:Hf; [|done]. injection Hs as <- <-.
    destruct (Hp x y0 x' (HI s x HIs Hx) HP Hf) as (HI' & HR' & P' & HP' & Hst & Hk).
    destruct (Hput s x x' HIs Hx HI' HR') as (HI2 & HR2 & Hg). split_and!; [done..|].
    exists (fun s => exists x, get s = Some x /\ P' x). split_and!; [eauto| |by apply IH].
    intros s1 s2 HI1 HI3 (x1 & Hx1 & HP1) HR1. destruct (HR s1 s2 x1 HI1 HI3 HR1 Hx1) as (x2 & Hx2 & HR12).
    exists x2. split; [done|]. exact (Hst x1 x2 (HI _ _ HI1 Hx1) (HI _ _ HI3 Hx2) HP1 HR12).
Qed.

(** The same when the part need not be there at first. *)
Lemma safe_zoom_any {S S' E A} (I : S -> Prop) (R : nat -> S -> S -> Prop) (I' : S' -> Prop) (R' : nat -> S' -> S' -> Prop)
    (get : S -> option S') (put : S' -> S -> S) i (p : async S' E A) P Q :
  (forall s x, I s -> get s = Some x -> I' x) ->
  (forall s s' x, I s -> I s' -> R i s s' -> get s = Some x -> exists x', get s' = Some x' /\ R' i x x') ->
  (forall s x x', I s -> get s = Some x -> I' x' -> (forall j, j <> i -> R' j x x') ->
     I (put x' s) /\ (forall j, j <> i -> R j s (put x' s)) /\ get (put x' s) = Some x') ->
  safe I' R' i p P Q ->
  safe I R i (zoom get put p) (fun s => forall x, get s = Some x -> P x) (fun r s => forall x, get s = Some x -> Q r x).
Proof.
  intros HI HR Hput Hp. destruct p as [r|X f k]; simpl in *.
  - intros s HIs HP x Hx. by apply Hp; [eapply HI|apply HP].
  - intros s y s' HIs HP Hs. destruct (get s) as [x|] eqn:Hx; [|done].
    destruct (f x) as [[y0 x']|] eqn:Hf; [|done]. injection Hs as <- <-.
    destruct (Hp x y0 x' (HI s x HIs Hx) (HP x eq_refl) Hf) as (HI' & HR' & P' & HP' & Hst & Hk).
    destruct (Hput s x x' HIs Hx HI' HR') as (HI2 & HR2 & Hg). split_and!; [done..|].
    exists (fun s => exists x, get s = Some x /\ P' x). split_and!; [eauto| |].
    + intros s1 s2 HI1 HI3 (x1 & Hx1 & HP1) HR1. destruct (HR s1 s2 x1 HI1 HI3 HR1 Hx1) as (x2 & Hx2 & HR12).
      exists x2. split; [done|]. exact (Hst x1 x2 (HI _ _ HI1 Hx1) (HI _ _ HI3 Hx2) HP1 HR12).
    + eapply safe_weaken; [| |eapply safe_zoom; [exact HI|exact HR|exact Hput|exact Hk]]; [done|].
      intros r s0 _ (x0 & Hx0 & HQ) x1 Hx1. rewrite Hx0 in Hx1. by injection Hx1 as <-.
Qed.

Create Rewrite HintDb exec.

#[export] Hint Rewrite @exec_abind @exec_alift @exec_atomic @exec_atry
  @exec_amap_err @exec_afinally @exec_now_or_never : exec.

(** Evaluates [exec] on the combinators. *)
Ltac exec_simpl := repeat (progress (autorewrite with exec; simpl)).
