(* ===== verification/Ambient.v ===== *)
(** * Ambient: [crates/containerd-shimkit/src/sandbox/async_utils.rs]

    The extension of futures by the static runtime.  [block_on] and [spawn]
    hand a future to the runtime, which interleaves it with the others: they
    are [exec] and the pools of [Async.v].  [with_timeout] is
    [tokio::time::timeout]: the future and a timer are polled in some order,
    and the one that is over first decides. *)

From S2P Require Import Prelude Async.

Section ambient.
Context {W E A : Type}.

(** [AmbientRuntime::with_timeout]; [timer] is pending until the time is over,
    and the rest of the future is dropped then. *)
Definition with_timeout (order : list bool) (timer : W -> option W) (p : async W E A) : async W E (option A) :=
  select order (let* a := p in aret (Some a)) (await (fun w => w' ← timer w; Some (None, w'))).
End ambient.

Section rules.
Context {S : Type} (I : S -> Prop) (R : nat -> S -> S -> Prop) (T : S -> S -> Prop).
Context (R_refl : forall j s, R j s s) (T_rely : forall i s s', T s s' -> R i s s').
Context (T_inv : forall s s', I s -> T s s' -> I s').

(** A value was given by the future; without one only the timer has run out. *)
Lemma safe_with_timeout {E A} i order timer (p : async S E A) P Q :
  steps_in T p -> (forall s s', timer s = Some s' -> T s s') -> stable I R i P -> safe I R i p P Q ->
  safe I R i (with_timeout order timer p) P
    (fun r s => match r with Ok (Some a) => Q (Ok a) s | Ok None => True | Err e => Q (Err e) s | Panic => Q Panic s end).
Proof.
  intros Hp Ht HP Hsafe. eapply safe_weaken; [| |apply (safe_select I R i order _ _ T P (fun _ => True))].
  - done.
  - intros r s _ Hr. exact Hr.
  - done.
  - intros s s' _ _ Hs. by apply T_rely.
  - by apply steps_in_bind.
  - intros s x s' Hs. destruct (timer s) as [s1|] eqn:H1; [|done]. injection Hs as <- <-. split; [by apply Ht|done].
  - done.
  - by intros s s'.
  - eapply safe_bind; [exact Hsafe| |done|done]. by intros a s HI HQ.
  - intros s x s' HI _ Hs. destruct (timer s) as [s1|] eqn:H1; [|done]. injection Hs as <- <-.
    apply Ht in H1. split_and!; [by eapply T_inv|by intros j _; apply T_rely|].
    by exists (fun _ => True).
Qed.
End rules.
