(* ===== verification/RustStr.v ===== *)
(** * RustStr: the parts of [str] of Rust's standard library the code uses

    A [String] is its UTF-8 bytes.  All the separators the code splits at are
    ASCII, so splitting bytes and splitting characters agree.  Whitespace is
    the ASCII whitespace. *)

From S2P Require Import Prelude.
From Stdlib Require Import Ascii.

(** ** Functions *)

Definition snoc (s : string) (c : ascii) : string := s +:+ String c EmptyString.

Definition str_of_char (c : ascii) : string := String c EmptyString.

Fixpoint has_char (c : ascii) (s : string) : bool :=
  match s with
  | EmptyString => false
  | String a s' => bool_decide (a = c) || has_char c s'
  end.

Definition is_empty (s : string) : bool :=
  match s with EmptyString => true | _ => false end.

(** [str::split_once(c)] *)
Fixpoint split_once (c : ascii) (s : string) : option (string * string) :=
  match s with
  | EmptyString => None
  | String a s' =>
      if decide (a = c) then Some (EmptyString, s')
      else match split_once c s' with
           | Some (p, q) => Some (String a p, q)
           | None => None
           end
  end.

(** [str::split(c)]: never empty. *)
Fixpoint split (c : ascii) (s : string) : list string :=
  match s with
  | EmptyString => [EmptyString]
  | String a s' =>
      if decide (a = c) then EmptyString :: split c s'
      else match split c s' with
           | p :: ps => String a p :: ps
           | [] => [str_of_char a]
           end
  end.

(** [[&str]::join(sep)] *)
Fixpoint join (sep : string) (l : list string) : string :=
  match l with
  | [] => EmptyString
  | [s] => s
  | s :: l' => s +:+ sep +:+ join sep l'
  end.

(** [str::strip_prefix] *)
Fixpoint strip_prefix (p s : string) : option string :=
  match p, s with
  | EmptyString, _ => Some s
  | String a p', String b s' => if decide (a = b) then strip_prefix p' s' else None
  | String _ _, EmptyString => None
  end.

(** [str::starts_with] *)
Definition starts_with (p s : string) : bool := bool_decide (is_Some (strip_prefix p s)).

Fixpoint str_rev_app (s acc : string) : string :=
  match s with EmptyString => acc | String a s' => str_rev_app s' (String a acc) end.

Definition str_rev (s : string) : string := str_rev_app s EmptyString.

(** [str::strip_suffix] *)
Definition strip_suffix (p s : string) : option string :=
  str_rev <$> strip_prefix (str_rev p) (str_rev s).

Definition is_whitespace (c : ascii) : bool :=
  let n := N_of_ascii c in ((9 <=? n) && (n <=? 13) || (n =? 32))%N.

Fixpoint trim_start (s : string) : string :=
  match s with
  | String a s' => if is_whitespace a then trim_start s' else s
  | EmptyString => s
  end.

(** [str::trim] *)
Definition trim (s : string) : string := str_rev (trim_start (str_rev (trim_start s))).

Definition newline : ascii := ascii_of_nat 10.
Definition carriage_return : ascii := ascii_of_nat 13.
Definition dquote : ascii := ascii_of_nat 34.

(** Drops the last element when it is empty: the text after a final separator. *)
Fixpoint drop_last_empty (l : list string) : list string :=
  match l with
  | [] => []
  | [s] => if is_empty s then [] else [s]
  | s :: l' => s :: drop_last_empty l'
  end.

(** [str::lines] *)
Definition lines (s : string) : list string :=
  (fun l => default l (strip_suffix (str_of_char carriage_return) l))
    <$> drop_last_empty (split newline s).

Definition is_alnum_ascii (c : ascii) : bool :=
  let n := N_of_ascii c in
  ((48 <=? n) && (n <=? 57) || (65 <=? n) && (n <=? 90) || (97 <=? n) && (n <=? 122))%N.

Definition is_alpha_ascii (c : ascii) : bool :=
  let n := N_of_ascii c in ((65 <=? n) && (n <=? 90) || (97 <=? n) && (n <=? 122))%N.

Definition digit_of (c : ascii) : option N :=
  let n := N_of_ascii c in
  if ((48 <=? n) && (n <=? 57))%N then Some (n - 48)%N else None.

Fixpoint parse_digits (acc : N) (s : string) : option N :=
  match s with
  | EmptyString => Some acc
  | String c s' => match digit_of c with
                   | Some d => parse_digits (10 * acc + d) s'
                   | None => None
                   end
  end.

(** [str::parse] at an unsigned integer type whose largest value is [max]:
    an optional [+], then at least one digit, no overflow. *)
Definition parse_unsigned (max : N) (s : string) : option N :=
  let digits := default s (strip_prefix "+" s) in
  if is_empty digits then None
  else match parse_digits 0 digits with
       | Some n => if (n <=? max)%N then Some n else None
       | None => None
       end.

(** The [Debug] form of a [&str] without characters to escape. *)
Definition debug_str (s : string) : string :=
  str_of_char dquote +:+ s +:+ str_of_char dquote.

Fixpoint last_char (s : string) : option ascii :=
  match s with
  | EmptyString => None
  | String c EmptyString => Some c
  | String _ s' => last_char s'
  end.

(** [str::ends_with] of a character *)
Definition ends_with_char (c : ascii) (s : string) : bool :=
  match str_rev s with String a _ => bool_decide (a = c) | EmptyString => false end.

Definition slash : ascii := "/"%char.

(** [Path::join] on Unix: an absolute path replaces the base. *)
Definition path_join (base p : string) : string :=
  if starts_with "/" p then p
  else if is_empty base || ends_with_char slash base then base +:+ p
  else base +:+ "/" +:+ p.

(** The last [c] of a string splits it: [rsplitn(2, c)]. *)
Fixpoint rsplit_once (c : ascii) (s : string) : option (string * string) :=
  match s with
  | EmptyString => None
  | String a s' =>
      match rsplit_once c s' with
      | Some (p, q) => Some (String a p, q)
      | None => if decide (a = c) then Some (EmptyString, s') else None
      end
  end.

(** [std::path::Component] *)
Inductive component := RootDir | CurDir | ParentDir | Normal (name : string).

Definition component_of (s : string) : option component :=
  if is_empty s || bool_decide (s = ".") then None
  else if decide (s = "..") then Some ParentDir else Some (Normal s).

(** [Path::components]: repeated separators and inner [.] disappear. *)
Definition components (p : string) : list component :=
  let body := omap component_of (split slash p) in
  if starts_with "/" p then RootDir :: body
  else match split slash p with
       | s :: _ => if decide (s = ".") then CurDir :: body else body
       | [] => body
       end.

(** [Path::file_name] *)
Definition file_name (p : string) : option string :=
  match last (components p) with Some (Normal s) => Some s | _ => None end.

Definition dot : ascii := "."%char.

(** The stem of a file name; a name whose only dot is its first character is
    its own stem. *)
Definition stem_of (s : string) : string :=
  match rsplit_once dot s with
  | Some (p, _) => if is_empty p then s else p
  | None => s
  end.

(** [Path::file_stem] *)
Definition file_stem (p : string) : option string := stem_of <$> file_name p.

(** [Path::extension]: what follows the last dot, unless that is the first
    character of the name. *)
Definition extension_of (s : string) : option string :=
  match rsplit_once dot s with
  | Some (p, e) => if is_empty p then None else Some e
  | None => None
  end.

Definition extension (p : string) : option string := file_name p ≫= extension_of.

(** [Path::parent], as a path: the components but the last one; a root and an
    empty path have none. *)
Definition component_text (c : component) : string :=
  match c with RootDir => EmptyString | CurDir => "." | ParentDir => ".." | Normal s => s end.

Definition path_parent (p : string) : option string :=
  match rev (components p) with
  | [] | RootDir :: _ => None
  | _ :: [RootDir] => Some "/"%string
  | _ :: init => Some (join "/" (component_text <$> rev init))
  end.

(** ** Lemmas *)

#[local] Arguments String.append !s1 s2 / : simpl nomatch.

Lemma str_app_assoc s1 s2 s3 : s1 +:+ (s2 +:+ s3) = (s1 +:+ s2) +:+ s3.
Proof. induction s1 as [|a s1 IH]; simpl; [done|]. by rewrite IH. Qed.

Lemma str_length_app s1 s2 : String.length (s1 +:+ s2) = String.length s1 + String.length s2.
Proof. induction s1 as [|c s1 IH]; simpl; [done|]. by rewrite IH. Qed.

Lemma str_app_nil_r s : s +:+ EmptyString = s.
Proof. induction s as [|a s IH]; simpl; [done|]. by rewrite IH. Qed.

Lemma str_app_inj_r s1 s2 t : t +:+ s1 = t +:+ s2 -> s1 = s2.
Proof. induction t as [|a t IH]; simpl; [done|]. intros [= H]. auto. Qed.

Lemma str_app_inj_l s1 s2 t : s1 +:+ t = s2 +:+ t -> s1 = s2.
Proof.
  revert s2. induction s1 as [|a s1 IH]; intros [|b s2] H; simpl in H; [done|..].
  - apply (f_equal String.length) in H. simpl in H. rewrite str_length_app in H. lia.
  - apply (f_equal String.length) in H. simpl in H. rewrite str_length_app in H. lia.
  - injection H as -> H. by rewrite (IH s2).
Qed.

Lemma has_char_app c s1 s2 : has_char c (s1 +:+ s2) = has_char c s1 || has_char c s2.
Proof. induction s1 as [|a s1 IH]; simpl; [done|]. by rewrite IH, orb_assoc. Qed.

Lemma split_once_app c a b :
  has_char c a = false -> split_once c (a +:+ String c b) = Some (a, b).
Proof.
  induction a as [|x a IH]; simpl; intros Ha.
  - by rewrite decide_True.
  - apply orb_false_iff in Ha as [Hx Ha]. apply bool_decide_eq_false in Hx.
    rewrite decide_False by done. by rewrite IH.
Qed.

Lemma split_once_none c s : split_once c s = None <-> has_char c s = false.
Proof.
  induction s as [|x s IH]; simpl; [done|].
  destruct (decide (x = c)) as [->|Hne].
  - by rewrite bool_decide_true.
  - rewrite bool_decide_false by done. simpl. rewrite <- IH.
    destruct (split_once c s) as [[p q]|]; naive_solver.
Qed.

Lemma split_once_some c s p q :
  split_once c s = Some (p, q) <-> has_char c p = false /\ s = p +:+ String c q.
Proof.
  split; [|intros [Hp ->]; by apply split_once_app].
  revert p q. induction s as [|x s IH]; simpl; intros p q; [done|].
  destruct (decide (x = c)) as [->|Hne]; [by intros [= <- <-]|].
  destruct (split_once c s) as [[p' q']|]; [|done]. intros [= <- <-].
  destruct (IH p' q' eq_refl) as [Hp ->]. simpl.
  by rewrite bool_decide_false.
Qed.

Lemma split_nonempty c s : split c s ≠ [].
Proof.
  destruct s as [|a s]; simpl; [done|].
  destruct (decide (a = c)); [done|]. by destruct (split c s).
Qed.

Lemma split_no_sep c s : has_char c s = false -> split c s = [s].
Proof.
  induction s as [|x s IH]; simpl; [done|]. intros Hs.
  apply orb_false_iff in Hs as [Hx Hs]. apply bool_decide_eq_false in Hx.
  rewrite decide_False by done. by rewrite IH.
Qed.

Lemma split_app_sep c a b :
  has_char c a = false -> split c (a +:+ String c b) = a :: split c b.
Proof.
  induction a as [|x a IH]; simpl; intros Ha.
  - by rewrite decide_True.
  - apply orb_false_iff in Ha as [Hx Ha]. apply bool_decide_eq_false in Hx.
    rewrite decide_False by done. by rewrite IH.
Qed.

(** Joining the parts of a split gives the string back. *)
Lemma join_split c s : join (str_of_char c) (split c s) = s.
Proof.
  induction s as [|x s IH]; simpl; [done|].
  destruct (decide (x = c)) as [->|Hne]; simpl.
  - destruct (split c s) as [|p ps] eqn:Hs; [by apply split_nonempty in Hs|].
    by rewrite IH.
  - destruct (split c s) as [|p ps] eqn:Hs; [by apply split_nonempty in Hs|].
    destruct ps as [|p' ps]; simpl in *; by rewrite IH.
Qed.

(** The first part of a split, and the rest joined again, are what
    [split_once] gives. *)
Lemma split_first c s :
  split c s = match split_once c s with Some (p, q) => p :: split c q | None => [s] end.
Proof.
  destruct (split_once c s) as [[p q]|] eqn:Hs.
  - apply split_once_some in Hs as [Hp ->]. by apply split_app_sep.
  - by apply split_no_sep, split_once_none.
Qed.

Lemma rsplit_once_none c s : has_char c s = false -> rsplit_once c s = None.
Proof.
  induction s as [|x s IH]; simpl; [done|]. intros [Hx Hs]%orb_false_iff.
  apply bool_decide_eq_false in Hx. rewrite (IH Hs). by rewrite decide_False.
Qed.

Lemma rsplit_once_app c p q :
  has_char c q = false -> rsplit_once c (p +:+ String c q) = Some (p, q).
Proof.
  intros Hq. induction p as [|x p IH]; simpl.
  - rewrite (rsplit_once_none _ _ Hq). by rewrite decide_True.
  - by rewrite IH.
Qed.

(** A separator splits whatever is around it. *)
Lemma split_app c d f : split c (d +:+ String c f) = split c d ++ split c f.
Proof.
  induction d as [|x d IH]; simpl; [by rewrite decide_True|].
  destruct (decide (x = c)); [by rewrite IH|]. rewrite IH.
  destruct (split c d) eqn:Hd; [by apply split_nonempty in Hd|done].
Qed.

Lemma last_split_app c d f : has_char c f = false -> last (split c (d +:+ String c f)) = Some f.
Proof. intros Hf. by rewrite split_app, last_app, split_no_sep. Qed.

Definition plain_name (s : string) : Prop :=
  has_char slash s = false /\ s ≠ EmptyString /\ s ≠ "." /\ s ≠ "..".

Lemma component_of_plain s : plain_name s -> component_of s = Some (Normal s).
Proof.
  intros (_ & He & Hd & Hdd). unfold component_of.
  rewrite (bool_decide_false _ Hd), decide_False by done. by destruct s.
Qed.

Lemma file_name_split p f :
  last (split slash p) = Some f -> component_of f = Some (Normal f) -> file_name p = Some f.
Proof.
  intros Hl Hf. apply last_Some in Hl as [l Hl]. unfold file_name, components. rewrite Hl, omap_app.
  simpl. rewrite Hf.
  assert (forall c, last (c :: omap component_of l ++ [Normal f]) = Some (Normal f)) as Hc
    by (intros c; by rewrite app_comm_cons, last_snoc).
  destruct (starts_with "/" p); [by rewrite Hc|].
  destruct (l ++ [f]) as [|s ?]; [by rewrite last_snoc|].
  destruct (decide (s = ".")); [by rewrite Hc|by rewrite last_snoc].
Qed.

(** The file name of a path is what follows its last separator. *)
Lemma file_name_last d f : plain_name f -> file_name (d +:+ String slash f) = Some f.
Proof.
  intros Hf. apply file_name_split; [|by apply component_of_plain].
  apply last_split_app, Hf.
Qed.

Lemma file_name_plain f : plain_name f -> file_name f = Some f.
Proof.
  intros Hf. apply file_name_split; [|by apply component_of_plain].
  by rewrite (split_no_sep _ _ (proj1 Hf)).
Qed.

Lemma stem_of_extension s e : s ≠ EmptyString -> has_char dot e = false -> stem_of (s +:+ String dot e) = s.
Proof. intros Hs He. unfold stem_of. rewrite rsplit_once_app by done. by destruct s. Qed.

Lemma strip_prefix_some p s r : strip_prefix p s = Some r <-> s = p +:+ r.
Proof.
  revert s. induction p as [|a p IH]; intros s; simpl; [naive_solver|].
  destruct s as [|b s]; [naive_solver|].
  destruct (decide (a = b)) as [<-|Hne].
  - rewrite IH. naive_solver.
  - split; [done|]. intros [= Heq _]. by subst.
Qed.

Lemma strip_prefix_app p r : strip_prefix p (p +:+ r) = Some r.
Proof. by apply strip_prefix_some. Qed.

Lemma starts_with_app p r : starts_with p (p +:+ r) = true.
Proof. unfold starts_with. rewrite strip_prefix_app. by apply bool_decide_true. Qed.

Lemma starts_with_true p s : starts_with p s = true <-> exists r, s = p +:+ r.
Proof.
  unfold starts_with. rewrite bool_decide_eq_true. unfold is_Some.
  by setoid_rewrite strip_prefix_some.
Qed.

Lemma is_empty_true s : is_empty s = true <-> s = EmptyString.
Proof. by destruct s. Qed.

Lemma is_empty_false s : is_empty s = false <-> s ≠ EmptyString.
Proof. by destruct s. Qed.

Create Rewrite HintDb rust_str.

#[export] Hint Rewrite is_empty_true is_empty_false : rust_str.
#[export] Hint Resolve split_nonempty : runwasi.

Lemma last_char_app s c t : last_char (s +:+ String c t) = last_char (String c t).
Proof.
  induction s as [|a s IH]; [done|]. change (String a s +:+ String c t) with (String a (s +:+ String c t)).
  simpl. destruct (s +:+ String c t) as [|b u] eqn:He; [by destruct s|]. by rewrite IH.
Qed.

Lemma path_join_inj base p q :
  starts_with "/" p = false -> starts_with "/" q = false -> path_join base p = path_join base q -> p = q.
Proof.
  unfold path_join. intros -> ->. destruct (_ || _); [apply str_app_inj_r|].
  intros H. apply str_app_inj_r in H. by apply (str_app_inj_r _ _ "/") in H.
Qed.

(** ** Numbers *)

Lemma pretty_go_has_char c n s :
  digit_of c = None -> has_char c (pretty_N_go n s) = has_char c s.
Proof.
  intros Hc. revert s. induction (N.lt_wf_0 n) as [n _ IH]; intros s.
  destruct (decide (0 < n)%N) as [Hn|Hn].
  - rewrite pretty_N_go_step by done. rewrite IH by (apply N.div_lt; lia).
    simpl. rewrite bool_decide_eq_false_2; [done|]. intros <-. revert Hc. unfold pretty_N_char.
    by repeat case_match.
  - assert (n = 0%N) as -> by lia. done.
Qed.

Lemma digit_of_pretty x : (x < 10)%N -> digit_of (pretty_N_char x) = Some x.
Proof.
  intros Hx. assert (x = 0 \/ x = 1 \/ x = 2 \/ x = 3 \/ x = 4 \/ x = 5 \/ x = 6 \/ x = 7 \/ x = 8 \/ x = 9)%N as Hc by lia.
  by repeat destruct Hc as [->|Hc]; [..|subst].
Qed.

Lemma parse_digits_pretty n s : parse_digits 0 (pretty_N_go n s) = parse_digits n s.
Proof.
  revert s. induction (N.lt_wf_0 n) as [n _ IH]; intros s.
  destruct (decide (0 < n)%N) as [Hn|Hn]; [|by assert (n = 0%N) as -> by lia].
  rewrite pretty_N_go_step by done. rewrite IH by (apply N.div_lt; lia).
  simpl. rewrite digit_of_pretty by (apply N.mod_lt; lia). f_equal.
  pose proof (N.div_mod n 10). lia.
Qed.

Lemma pretty_go_nonempty n s : s ≠ EmptyString \/ (0 < n)%N -> pretty_N_go n s ≠ EmptyString.
Proof.
  revert s. induction (N.lt_wf_0 n) as [n _ IH]; intros s Hs.
  destruct (decide (0 < n)%N) as [Hn|Hn].
  - rewrite pretty_N_go_step by done. apply IH; [apply N.div_lt; lia|]. by left.
  - assert (n = 0%N) as -> by lia. by destruct Hs as [Hs|]; [|lia].
Qed.

(** The text of a number starts with a digit. *)
Lemma pretty_not_prefixed c n : digit_of c = None -> strip_prefix (str_of_char c) (pretty (A := N) n) = None.
Proof.
  intros Hc. assert (has_char c (pretty n) = false) as Hh.
  { unfold pretty, pretty_N. case_decide as Hz; [|by rewrite pretty_go_has_char].
    simpl. rewrite bool_decide_eq_false_2; [done|]. by intros <-. }
  destruct (pretty n) as [|a s]; [done|]. simpl in *.
  destruct (decide (c = a)) as [<-|]; [|done]. by rewrite bool_decide_eq_true_2 in Hh.
Qed.

(** What [str::parse] makes of the text of a number *)
Lemma parse_unsigned_pretty max n : (n <= max)%N -> parse_unsigned max (pretty n) = Some n.
Proof.
  intros Hn. unfold parse_unsigned. change "+"%string with (str_of_char "+"). rewrite pretty_not_prefixed by done. simpl.
  assert (is_empty (pretty n) = false /\ parse_digits 0 (pretty n) = Some n) as (He & Hp).
  { unfold pretty, pretty_N. case_decide as Hz; [by subst|].
    split; [|by rewrite parse_digits_pretty]. apply is_empty_false, pretty_go_nonempty. right. lia. }
  rewrite He, Hp. destruct (N.leb_spec n max); [done|lia].
Qed.
