(* ===== verification/Errors.v ===== *)
(** * Errors: [crates/containerd-shimkit/src/sandbox/error.rs]

    The error type of the shims and its conversion to the ttrpc status that
    containerd receives.  An error value of a library ([OciSpecError],
    [std::io::Error], [anyhow::Error], ...) is its [Display] text, which is all
    the conversion asks of it. *)

From S2P Require Import Prelude.

(** [containerd_shim::error::Error]: the variants the code names; [SE_Opaque]
    stands for the others. *)
Inductive ShimError :=
  | SE_InvalidArgument (s : string)
  | SE_NotFoundError (s : string)
  | SE_Unimplemented (s : string)
  | SE_Other (s : string)
  | SE_Opaque (display : string).

#[export] Instance ShimError_eq_dec : EqDecision ShimError.
Proof. solve_decision. Defined.

(** [enum Error] *)
Inductive Error :=
  | E_Oci (display : string)
  | E_Stdio (display : string)
  | E_Others (s : string)
  | E_Shim (e : ShimError)
  | E_NotFound (s : string)
  | E_AlreadyExists (s : string)
  | E_InvalidArgument (s : string)
  | E_Any (display : string)
  | E_FailedPrecondition (s : string)
  | E_Json (display : string)
  | E_Errno (display : string)
  | E_Libcontainer (display : string)
  | E_Containerd (s : string).

#[export] Instance Error_eq_dec : EqDecision Error.
Proof. solve_decision. Defined.

(** The codes of [ttrpc::Code] the conversion uses. *)
Inductive Code :=
  | UNKNOWN
  | INVALID_ARGUMENT
  | NOT_FOUND
  | ALREADY_EXISTS
  | FAILED_PRECONDITION.

#[export] Instance Code_eq_dec : EqDecision Code.
Proof. solve_decision. Defined.

(** [ttrpc::Error]; [get_status(code, msg)] is the status with that code and
    the [ToString] of [msg]. *)
Inductive TtrpcError :=
  | RpcStatus (code : Code) (message : string)
  | Others (s : string).

Section conversion.
(** [Display] of [containerd_shim::error::Error]. *)
Context (shim_display : ShimError -> string).

(** [Display] of [Error]: its [#\[error("...")\]] attributes. *)
Definition error_display (e : Error) : string :=
  match e with
  | E_Oci s => s
  | E_Stdio s => s
  | E_Others s => s
  | E_Shim s => shim_display s
  | E_NotFound s => "not found: " +:+ s
  | E_AlreadyExists s => "already exists: " +:+ s
  | E_InvalidArgument s => "invalid argument: " +:+ s
  | E_Any s => s
  | E_FailedPrecondition s => s
  | E_Json s => s
  | E_Errno s => s
  | E_Libcontainer s => s
  | E_Containerd s => s
  end.

(** [impl From<Error> for ttrpc::Error] *)
Definition into_ttrpc (e : Error) : TtrpcError :=
  match e with
  | E_Shim s =>
      match s with
      | SE_InvalidArgument s => RpcStatus INVALID_ARGUMENT s
      | SE_NotFoundError s => RpcStatus NOT_FOUND s
      | _ => RpcStatus UNKNOWN (shim_display s)
      end
  | E_NotFound s => RpcStatus NOT_FOUND s
  | E_AlreadyExists s => RpcStatus ALREADY_EXISTS s
  | E_InvalidArgument s => RpcStatus INVALID_ARGUMENT s
  | E_FailedPrecondition s => RpcStatus FAILED_PRECONDITION s
  | E_Oci _ => RpcStatus UNKNOWN (error_display e)
  | E_Any s => RpcStatus UNKNOWN s
  | _ => Others (error_display e)
  end.

(** The status code containerd can tell apart, if there is one. *)
Definition code_of (t : TtrpcError) : option Code :=
  match t with RpcStatus c _ => Some c | Others _ => None end.
End conversion.

(** ** Properties *)

(** The status containerd receives tells the error conditions apart: the
    code is [NOT_FOUND], [ALREADY_EXISTS], [INVALID_ARGUMENT] or
    [FAILED_PRECONDITION] exactly for the errors of that meaning, of the shim
    or of the shim library, and the message of such an error arrives
    unchanged. *)
Theorem status_tells_errors_apart (shim_display : ShimError -> string) (e : Error) (msg : string) :
  (into_ttrpc shim_display e = RpcStatus NOT_FOUND msg <->
     e = E_NotFound msg \/ e = E_Shim (SE_NotFoundError msg)) /\
  (into_ttrpc shim_display e = RpcStatus ALREADY_EXISTS msg <-> e = E_AlreadyExists msg) /\
  (into_ttrpc shim_display e = RpcStatus INVALID_ARGUMENT msg <->
     e = E_InvalidArgument msg \/ e = E_Shim (SE_InvalidArgument msg)) /\
  (into_ttrpc shim_display e = RpcStatus FAILED_PRECONDITION msg <-> e = E_FailedPrecondition msg).
Proof. destruct e as [| | |[]| | | | | | | | |]; simpl; naive_solver. Qed.
