(* ===== verification/TaskState.v ===== *)
(** * TaskState: [crates/containerd-shimkit/src/sandbox/shim/task_state.rs]

    The state machine of a task.  A method takes [&mut self]: it is a
    computation over the state, which a refused transition leaves alone. *)

From S2P Require Import Prelude RustStr Errors.

(** [enum TaskState] *)
Inductive TaskState := Created | Starting | Started | Exited | Deleting.

#[export] Instance TaskState_eq_dec : EqDecision TaskState.
Proof. solve_decision. Defined.

(** [Debug] of the state: the name of the variant. *)
Definition debug (s : TaskState) : string :=
  match s with
  | Created => "Created"
  | Starting => "Starting"
  | Started => "Started"
  | Exited => "Exited"
  | Deleting => "Deleting"
  end.

(** [state_transition_error]: both arguments through [Debug]. *)
Definition state_transition_error {T} (from to : string) : outcome Error T :=
  Err (E_FailedPrecondition
         ("invalid state transition: " +:+ from +:+ " => " +:+ to)).

(** [*self = next?; Ok(())] *)
Definition assign (next : outcome Error TaskState) : M TaskState Error unit :=
  fun self =>
    match next with
    | Ok s => (Ok tt, s)
    | Err e => (Err e, self)
    | Panic => (Panic, self)
    end.

Definition start : M TaskState Error unit := fun self =>
  assign (match self with
          | Created => Ok Starting
          | _ => state_transition_error (debug self) (debug Starting)
          end) self.

Definition kill : M TaskState Error unit := fun self =>
  assign (match self with
          | Started => Ok Started
          | _ => state_transition_error (debug self) (debug_str "Killing")
          end) self.

Definition delete : M TaskState Error unit := fun self =>
  assign (match self with
          | Created | Exited => Ok Deleting
          | _ => state_transition_error (debug self) (debug Deleting)
          end) self.

Definition started : M TaskState Error unit := fun self =>
  assign (match self with
          | Starting => Ok Started
          | _ => state_transition_error (debug self) (debug Started)
          end) self.

Definition stop : M TaskState Error unit := fun self =>
  assign (match self with
          | Started | Starting => Ok Exited
          | Deleting => Ok Exited
          | _ => state_transition_error (debug self) (debug Exited)
          end) self.

(** ** The life cycle a task promises *)

Inductive method := MStart | MKill | MDelete | MStarted | MStop.

Definition call (m : method) : M TaskState Error unit :=
  match m with
  | MStart => start
  | MKill => kill
  | MDelete => delete
  | MStarted => started
  | MStop => stop
  end.

(** The allowed transitions, as a diagram. *)
Inductive allowed : method -> TaskState -> TaskState -> Prop :=
  | allow_start : allowed MStart Created Starting
  | allow_kill : allowed MKill Started Started
  | allow_delete_created : allowed MDelete Created Deleting
  | allow_delete_exited : allowed MDelete Exited Deleting
  | allow_started : allowed MStarted Starting Started
  | allow_stop_starting : allowed MStop Starting Exited
  | allow_stop_started : allowed MStop Started Exited
  | allow_stop_deleting : allowed MStop Deleting Exited.

#[local] Hint Constructors allowed : core.

Lemma call_ok m s s' : call m s = (Ok tt, s') <-> allowed m s s'.
Proof.
  split.
  - destruct m, s; intros [= <-]; auto.
  - by intros [].
Qed.

(** A refused call reports the transition and leaves the state alone. *)
Lemma call_refused m s :
  (forall s', ¬ allowed m s s') ->
  exists to, call m s =
    (Err (E_FailedPrecondition
            ("invalid state transition: " +:+ debug s +:+ " => " +:+ to)), s).
Proof.
  intros Hno.
  destruct m, s; simpl; try (by eexists); exfalso; eapply Hno; constructor.
Qed.

(** One successful call of any method. *)
Definition transition (s s' : TaskState) : Prop := exists m, call m s = (Ok tt, s').

Lemma transition_not_created s s' : transition s s' -> s' ≠ Created.
Proof. intros [m Hm%call_ok]. by destruct Hm. Qed.

(** Calls of methods in a row, successful or not. *)
Fixpoint calls (ms : list method) (s : TaskState) : TaskState :=
  match ms with
  | [] => s
  | m :: ms' => calls ms' (call m s).2
  end.

Lemma call_not_created m s : s ≠ Created -> (call m s).2 ≠ Created.
Proof. by destruct m, s. Qed.

Lemma calls_app ms ms' s : calls (ms ++ ms') s = calls ms' (calls ms s).
Proof. revert s. induction ms as [|m ms IH]; intros s; simpl; auto. Qed.

(** ** Properties *)

(** The methods of [TaskState] are exactly the life cycle: a call
    succeeds when the diagram has the transition and moves along it; otherwise
    it fails with [FailedPrecondition], naming the state it refused from, and
    leaves the state alone. *)
Theorem methods_follow_life_cycle (m : method) (s : TaskState) :
  match call m s with
  | (Ok _, s') => allowed m s s'
  | (Err (E_FailedPrecondition msg), s') =>
      s' = s /\ (forall s1, ¬ allowed m s s1) /\
      starts_with ("invalid state transition: " +:+ debug s) msg = true
  | _ => False
  end.
Proof.
  destruct m, s; simpl;
    first [ solve [constructor]
          | split_and!; [done|intros s1 Ha; inversion Ha|reflexivity] ].
Qed.

(** Once it has left [Created] a task never comes back, whatever is called
    on it; so [start] succeeds at most once in the life of a task. *)
Theorem created_is_left_forever (ms ms' : list method) :
  calls ms Created ≠ Created -> calls (ms ++ ms') Created ≠ Created.
Proof.
  intros Hms. rewrite calls_app. revert Hms. generalize (calls ms Created) as s.
  induction ms' as [|m ms' IH]; intros s Hs; simpl; [done|].
  apply IH. by apply call_not_created.
Qed.

Lemma created_is_left_forever_witness :
  calls ([MStart] ++ [MStop; MDelete; MStop]) Created ≠ Created.
Proof. apply (created_is_left_forever [MStart] [MStop; MDelete; MStop]). discriminate. Defined.
