(* ===== verification/Waitable.v ===== *)
(** * Waitable: [crates/containerd-shimkit/src/sandbox/sync.rs]

    [WaitableCell<T>]: a cell that is set once and that any number of tasks
    wait on.  A clone shares the cell, so the cell is the shared state of a
    pool of futures.  [OnceCell] is the standard library's;
    [tokio::sync::Notify] is an interface with the laws its documentation
    states. *)

From S2P Require Import Prelude Async.

(** ** [tokio::sync::Notify]

    [notified] creates a [Notified] future; [notified_ready] is whether
    polling it completes it; [live] holds of the futures created so far. *)

Class Notify (N K : Type) := {
  notify_new : N;
  notified : N -> K * N;
  notify_waiters : N -> N;
  notified_ready : N -> K -> bool;
  notified_live : N -> K -> Prop;
}.

(** A [Notified] future is guaranteed to receive the wakeups of
    [notify_waiters] as soon as it has been created, polled or not;
    [notify_waiters] stores no permit for the futures created later. *)
Class NotifyLaws (N K : Type) `{!Notify N K} : Prop := {
  notified_new k :
    notified_live notify_new k -> notified_ready notify_new k = false;
  notified_created n :
    notified_live (notified n).2 (notified n).1 /\
    notified_ready (notified n).2 (notified n).1 = false;
  notified_only n k :
    notified_live (notified n).2 k -> k = (notified n).1 \/ notified_live n k;
  notified_keeps n k :
    notified_live n k ->
    notified_live (notified n).2 k /\
    notified_ready (notified n).2 k = notified_ready n k;
  notify_wakes n k :
    notified_live n k ->
    notified_live (notify_waiters n) k /\ notified_ready (notify_waiters n) k = true;
}.

Section cell.
Context {T N K : Type} `{!Notify N K}.

(** [struct WaitableCellImpl<T>] *)
Record cell := Cell { value : option T; notify : N }.

(** [WaitableCell::new] / [default] *)
Definition new : cell := Cell None notify_new.

(** [OnceCell::set]: an error gives the value back. *)
Definition oncecell_set (v : T) : cell -> outcome T unit * cell := fun c =>
  match value c with
  | None => (Ok tt, Cell (Some v) (notify c))
  | Some _ => (Err v, c)
  end.

Definition notify_all : async cell T unit :=
  atomic (fun c => (tt, Cell (value c) (notify_waiters (notify c)))).

(** [WaitableCell::set] *)
Definition set (val : T) : async cell T unit :=
  let* _ := alift (oncecell_set val) in
  let* _ := notify_all in
  aret tt.

(** [WaitableCellSetGuard]: the function, next to a clone of the cell. *)
Record SetGuard := MkSetGuard { guard_f : unit -> T }.

(** [WaitableCell::set_guard_with] *)
Definition set_guard_with (f : unit -> T) : SetGuard := MkSetGuard f.

(** [drop] of the guard: always calls [f]; the [Result] of [set] is ignored. *)
Definition drop_guard (g : SetGuard) : async cell T unit :=
  let* _ := atry (E' := T) (set (guard_f g tt)) in
  aret tt.

Definition get : async cell T (option T) := atomic (fun c => (value c, c)).

(** The rest of [wait] once the [Notified] future [k] exists.  The last
    [apanic] is the undefined behaviour of [unwrap_unchecked] on [None]. *)
Definition wait_wake (k : K) : async cell T T :=
  let* _ := await (fun c => if notified_ready (notify c) k then Some (tt, c) else None) in
  let* o := get in
  match o with Some v => aret v | None => apanic end.

Definition wait_check (k : K) : async cell T T :=
  let* o := get in
  match o with
  | Some val => aret val
  | None => wait_wake k
  end.

(** [WaitableCell::wait] *)
Definition wait : async cell T T :=
  let* k := atomic (fun c => let kn := notified (notify c) in
                             (kn.1, Cell (value c) kn.2)) in
  wait_check k.

(** ** The uses of a cell by concurrent tasks *)

Inductive use := USet (v : T) | UGuard (f : unit -> T) | UWait.

Definition use_prog (u : use) : async cell T (option T) :=
  match u with
  | USet v => let* _ := set v in aret None
  | UGuard f => let* _ := drop_guard (set_guard_with f) in aret None
  | UWait => let* v := wait in aret (Some v)
  end.
End cell.

Arguments cell : clear implicits.

(** ** Sequential behaviour *)

Section sequential.
Context {T N K : Type} `{!Notify N K}.
Implicit Types (c : cell T N) (v : T).

Lemma exec_set v c :
  exec (set v) c =
  match value c with
  | None => (Some (Ok tt), Cell (Some v) (notify_waiters (notify c)))
  | Some _ => (Some (Err v), c)
  end.
Proof. destruct c as [[u|] n]; done. Qed.

Lemma exec_drop_guard f c :
  (exec (drop_guard (set_guard_with f)) c).1 = Some (Ok tt) /\
  value (exec (drop_guard (set_guard_with f)) c).2 = Some (default (f tt) (value c)).
Proof. destruct c as [[u|] n]; done. Qed.

Lemma poll_wait `{!NotifyLaws N K} c :
  (exec (now_or_never wait) c).1 = Some (Ok (value c)) /\
  value (exec (now_or_never wait) c).2 = value c.
Proof.
  unfold wait. rewrite exec_now_or_never, exec_abind, exec_atomic.
  destruct c as [o n]. simpl.
  pose proof (notified_created n) as [_ Hfresh].
  destruct (notified n) as [k n'] eqn:Hk. simpl in *.
  destruct o as [u|]; simpl; [done|]. by rewrite Hfresh.
Qed.
End sequential.

(** ** Every interleaving

    The control points of the uses, and the invariant that ties them to the
    cell: no waiter is past its wakeup while the cell is empty, and a waiter
    that saw an empty cell is woken by the one successful setter. *)

Section concurrent.
Context {T N K : Type} `{!Notify N K} `{!NotifyLaws N K}.
Implicit Types (c : cell T N) (v : T).

Inductive point :=
  | PBegin (u : use (T := T))
  | PNotify
  | PNotifyGuard
  | PCheck (k : K)
  | PWake (k : K)
  | PRead
  | PDone (r : outcome T (option T)).

Definition wrap_wait (q : async (cell T N) T T) : async (cell T N) T (option T) :=
  let* v := q in aret (Some v).

Definition point_prog (pt : point) : async (cell T N) T (option T) :=
  match pt with
  | PBegin u => use_prog u
  | PNotify => let* _ := (let* _ := notify_all in aret tt) in aret None
  | PNotifyGuard =>
      let* _ := (let* _ := atry (E' := T) (let* _ := notify_all in aret tt) in aret tt) in
      aret None
  | PCheck k => wrap_wait (wait_check k)
  | PWake k => wrap_wait (wait_wake k)
  | PRead => wrap_wait (let* o := get in match o with Some v => aret v | None => apanic end)
  | PDone r => Done r
  end.

Definition is_notifier (pt : point) : Prop := pt = PNotify \/ pt = PNotifyGuard.

(** What holds of the cell when a use is at a control point. *)
Definition point_ok c (pt : point) : Prop :=
  match pt with
  | PBegin _ => True
  | PNotify | PNotifyGuard | PRead => value c ≠ None
  | PCheck k | PWake k => notified_live (notify c) k
  | PDone (Ok (Some v)) => value c = Some v
  | PDone (Ok None) => True
  | PDone (Err _) => value c ≠ None
  | PDone Panic => False
  end.

(** Nobody has been notified of an empty cell. *)
Definition no_early_wake c : Prop :=
  value c = None ->
  forall k, notified_live (notify c) k -> notified_ready (notify c) k = false.

(** Once the cell has a value, a suspended waiter is woken or its notifier
    is still to run. *)
Definition will_wake (pts : list point) c : Prop :=
  value c ≠ None ->
  (exists pt, pt ∈ pts /\ is_notifier pt) \/
  (forall k, PWake k ∈ pts -> notified_ready (notify c) k = true).

(** Only a cell that was set lets a setter past its first step. *)
Definition setters_ok (us : list use) (pts : list point) c : Prop :=
  forall i u, us !! i = Some u -> u ≠ UWait ->
    pts !! i = Some (PBegin u) \/ value c ≠ None.

Definition cell_inv (us : list use) (pts : list point) c : Prop :=
  (forall pt, pt ∈ pts -> point_ok c pt) /\ no_early_wake c /\ will_wake pts c /\
  setters_ok us pts c.

(** How one step of one use changes the cell. *)
Inductive cell_evolves c : cell T N -> Prop :=
  | evolve_same : cell_evolves c c
  | evolve_set v : value c = None -> cell_evolves c (Cell (Some v) (notify c))
  | evolve_created : cell_evolves c (Cell (value c) (notified (notify c)).2)
  | evolve_notify : value c ≠ None -> cell_evolves c (Cell (value c) (notify_waiters (notify c))).

#[local] Hint Constructors cell_evolves : core.

Lemma evolves_value c c' v : cell_evolves c c' -> value c = Some v -> value c' = Some v.
Proof. intros []; naive_solver. Qed.

Lemma evolves_live c c' k :
  cell_evolves c c' -> notified_live (notify c) k -> notified_live (notify c') k.
Proof. intros [] Hk; simpl; [done..|by apply notified_keeps|by apply notify_wakes]. Qed.

Lemma evolves_ready c c' k :
  cell_evolves c c' -> notified_live (notify c) k -> notified_ready (notify c) k = true ->
  notified_ready (notify c') k = true.
Proof.
  intros [] Hk Hr; simpl; [done..| |by apply notify_wakes].
  by rewrite (proj2 (notified_keeps _ _ Hk)).
Qed.

Lemma evolves_no_early_wake c c' :
  cell_evolves c c' -> no_early_wake c -> no_early_wake c'.
Proof.
  intros [] Hq Hv k Hk; simpl in *; try done; [by apply Hq|].
  destruct (notified_only _ _ Hk) as [->|Hl]; [apply notified_created|].
  rewrite (proj2 (notified_keeps _ _ Hl)). by apply Hq.
Qed.

Lemma point_ok_evolves c c' pt : cell_evolves c c' -> point_ok c pt -> point_ok c' pt.
Proof.
  intros Hev. pose proof (evolves_value c c') as Hv. pose proof (evolves_live c c') as Hl.
  assert (value c ≠ None -> value c' ≠ None) as Hne.
  { intros Hc. destruct (value c) as [v|] eqn:Hcv; [|done]. by rewrite (Hv v). }
  destruct pt as [| | | | | |[[]| |]]; simpl; eauto.
Qed.

(** Each step moves from one control point to the next. *)
Inductive point_step c : point -> point -> cell T N -> Prop :=
  | step_set_ok u : value c = None -> forall v pt, is_notifier pt ->
      point_step c (PBegin u) pt (Cell (Some v) (notify c))
  | step_quiet pt pt' c' : cell_evolves c c' -> value c = value c' ->
      ¬ is_notifier pt -> (forall k, pt' = PWake k -> value c = None) ->
      (forall u, pt = PBegin u -> u ≠ UWait -> value c ≠ None) ->
      point_step c pt pt' c'
  | step_notify pt : is_notifier pt -> value c ≠ None ->
      point_step c pt (PDone (Ok None)) (Cell (value c) (notify_waiters (notify c))).

Lemma astep_point c pt p' c' :
  no_early_wake c -> point_ok c pt -> astep (point_prog pt) c = Some (p', c') ->
  exists pt', p' = point_prog pt' /\ point_ok c' pt' /\ point_step c pt pt' c'.
Proof.
  intros Hq Hp Hs. destruct c as [o n].
  destruct pt as [[v|f|]| | |k|k| |r]; simpl in *; try done.
  - destruct o as [u|]; simplify_eq/=.
    + exists (PDone (Err v)). split_and!; [done..|]. apply step_quiet; unfold is_notifier; naive_solver.
    + exists PNotify. split_and!; [done..|]. apply (step_set_ok (Cell None n)); [done|by left].
  - destruct o as [u|]; simplify_eq/=.
    + exists (PDone (Ok None)). split_and!; [done..|]. apply step_quiet; unfold is_notifier; naive_solver.
    + exists PNotifyGuard. split_and!; [done..|]. apply (step_set_ok (Cell None n)); [done|by right].
  - simplify_eq/=. exists (PCheck (notified n).1).
    split_and!; [done|apply notified_created|]. apply step_quiet; unfold is_notifier; [|naive_solver..].
    apply (evolve_created (Cell o n)).
  - simplify_eq/=. exists (PDone (Ok None)). split_and!; [done..|].
    apply (step_notify (Cell o n)); unfold is_notifier; naive_solver.
  - simplify_eq/=. exists (PDone (Ok None)). split_and!; [done..|].
    apply (step_notify (Cell o n)); unfold is_notifier; naive_solver.
  - destruct o as [u|]; simplify_eq/=.
    + exists (PDone (Ok (Some u))). split_and!; [done..|]. apply step_quiet; unfold is_notifier; naive_solver.
    + exists (PWake k). split_and!; [done..|]. apply step_quiet; unfold is_notifier; naive_solver.
  - destruct (notified_ready n k) eqn:Hr; simplify_eq/=.
    exists PRead. split_and!; [done| |apply step_quiet; unfold is_notifier; naive_solver].
    destruct o as [u|]; [done|]. exfalso. specialize (Hq eq_refl k Hp). simpl in Hq. congruence.
  - destruct o as [u|]; simplify_eq/=.
    exists (PDone (Ok (Some u))). split_and!; [done..|]. apply step_quiet; unfold is_notifier; naive_solver.
Qed.

Lemma point_step_evolves c pt pt' c' : point_step c pt pt' c' -> cell_evolves c c'.
Proof. intros []; auto. Qed.

Lemma will_wake_step pts i pt pt' c c' :
  pts !! i = Some pt -> (forall pt, pt ∈ pts -> point_ok c pt) ->
  point_step c pt pt' c' -> will_wake pts c -> will_wake (<[i := pt']> pts) c'.
Proof.
  intros Hi Hok Hs Hw Hv.
  assert (pt' ∈ <[i:=pt']> pts) as Hin.
  { apply list_elem_of_lookup. exists i. apply list_lookup_insert_eq.
    by eapply lookup_lt_Some. }
  destruct Hs as [u Hn v q Hq|pt q c' Hev Hsame Hno Hpk _|pt Hq Hsome].
  - left. eauto.
  - rewrite <- Hsame in Hv. destruct (Hw Hv) as [(r & Hr & Hnot)|Hready].
    + left. exists r. split; [|done]. apply list_elem_of_lookup in Hr as [j Hj].
      apply list_elem_of_lookup. exists j. rewrite list_lookup_insert_ne; [done|].
      intros ->. by simplify_eq.
    + right. intros k Hk. apply list_elem_of_lookup in Hk as [j Hj].
      destruct (decide (i = j)) as [<-|Hne].
      * rewrite list_lookup_insert_eq in Hj by (by eapply lookup_lt_Some).
        simplify_eq. by rewrite (Hpk k) in Hv.
      * rewrite list_lookup_insert_ne in Hj by done.
        apply list_elem_of_lookup_2 in Hj.
        eapply evolves_ready; [done|by apply (Hok (PWake k))|auto].
  - right. intros k Hk. simpl. apply list_elem_of_lookup in Hk as [j Hj].
    destruct (decide (i = j)) as [<-|Hne].
    + by rewrite list_lookup_insert_eq in Hj by (by eapply lookup_lt_Some).
    + rewrite list_lookup_insert_ne in Hj by done.
      apply list_elem_of_lookup_2 in Hj. apply notify_wakes, (Hok (PWake k) Hj).
Qed.

Lemma setters_ok_step us pts i pt pt' c c' :
  pts !! i = Some pt -> point_step c pt pt' c' ->
  setters_ok us pts c -> setters_ok us (<[i := pt']> pts) c'.
Proof.
  intros Hi Hs Hset j u Hj Hu.
  assert (value c ≠ None -> value c' ≠ None) as Hmono.
  { intros Hc. destruct (value c) as [v|] eqn:Hv; [|done].
    by rewrite (evolves_value c c' v) by eauto using point_step_evolves. }
  destruct (Hset j u Hj Hu) as [Hb|Hne]; [|auto].
  destruct (decide (i = j)) as [<-|Hne]; [right|left; by rewrite list_lookup_insert_ne].
  rewrite Hb in Hi. injection Hi as <-.
  remember (PBegin u) as pt eqn:Hpt.
  destruct Hs as [u0 Hn v q Hq|pt q c' Hev Hsame Hno Hpk Hset'|pt Hq Hsome]; [done| |done].
  apply Hmono. by eapply Hset'.
Qed.

Lemma cell_inv_step us pts c ts' c' :
  cell_inv us pts c -> pool_step (point_prog <$> pts, c) (ts', c') ->
  exists pts', ts' = point_prog <$> pts' /\ cell_inv us pts' c'.
Proof.
  intros (Hok & Hq & Hw & Hset) Hs. inversion Hs as [ts i p p' s s' Hi Hp]; subst.
  rewrite list_lookup_fmap in Hi. destruct (pts !! i) as [pt|] eqn:Hpt; [|done].
  injection Hi as <-.
  assert (pt ∈ pts) as Hin by (by eapply list_elem_of_lookup_2).
  destruct (astep_point c pt p' c' Hq (Hok pt Hin) Hp) as (pt' & -> & Hok' & Hstep).
  exists (<[i:=pt']> pts). split; [by rewrite list_fmap_insert|].
  pose proof (point_step_evolves _ _ _ _ Hstep) as Hev. split_and!.
  - intros q Hj. apply list_elem_of_lookup in Hj as [j Hj].
    apply list_lookup_insert_Some in Hj as [(_ & <- & _)|[_ Hj]]; [done|].
    eapply point_ok_evolves; [done|]. by apply Hok, (list_elem_of_lookup_2 _ j).
  - by eapply evolves_no_early_wake.
  - by eapply will_wake_step.
  - by eapply setters_ok_step.
Qed.

Lemma cell_inv_initial us : cell_inv us (PBegin <$> us) new.
Proof.
  split; [|split; [intros _ k; apply notified_new|split; [by intros Hne|]]].
  - by intros pt (u & -> & _)%list_elem_of_fmap.
  - intros i u Hi _. left. by rewrite list_lookup_fmap, Hi.
Qed.

Lemma cell_inv_reachable us ts' c' :
  rtc pool_step (use_prog <$> us, new) (ts', c') ->
  exists pts', ts' = point_prog <$> pts' /\ cell_inv us pts' c'.
Proof.
  intros Hrtc. assert (exists pts, use_prog <$> us = point_prog <$> pts /\ cell_inv us pts new)
    as (pts & Heq & Hinv).
  { exists (PBegin <$> us). split; [by rewrite <- list_fmap_compose|apply cell_inv_initial]. }
  rewrite Heq in Hrtc. clear Heq.
  remember (point_prog <$> pts, new) as st eqn:Hst. remember (ts', c') as st' eqn:Hst'.
  revert pts Hst Hinv. generalize (new (T := T) (N := N) (K := K)) as c.
  induction Hrtc as [st|st [ts1 c1] st2 Hs Hrtc IH];
    intros c pts Hst Hinv; subst.
  - simplify_eq. eauto.
  - destruct (cell_inv_step _ _ _ _ _ Hinv Hs) as (pts1 & -> & Hinv1). eauto.
Qed.

(** The only control point that can be pending is the wakeup. *)
Lemma point_pending pt c :
  astep (point_prog pt) c = None ->
  (exists r, pt = PDone r) \/
  (exists k, pt = PWake k /\ notified_ready (notify c) k = false).
Proof.
  destruct pt as [[v|f|]| | |k|k| |r]; simpl; eauto;
    destruct c as [[w|] n]; simpl; try done;
    destruct (notified_ready n k) eqn:Hr; eauto; intros; naive_solver.
Qed.
End concurrent.

(** ** Properties *)

(** C11: in every interleaving of any number of [set], guard drops and [wait]
    on a new cell, [unwrap_unchecked] never meets an empty cell, and every
    [wait] that returned gave the value the cell holds. *)
Theorem wait_never_undefined {T N K : Type} `{!Notify N K} `{!NotifyLaws N K}
    (us : list (use (T := T))) (ts' : list (async (cell T N) T (option T))) (c' : cell T N)
    (Hrun : rtc pool_step (use_prog <$> us, new) (ts', c'))
    (i : nat) (r : outcome T (option T)) (Hdone : ts' !! i = Some (Done r)) :
  r ≠ Panic /\ (forall v, r = Ok (Some v) -> value c' = Some v).
Proof.
  destruct (cell_inv_reachable _ _ _ Hrun) as (pts & -> & Hok & _).
  rewrite list_lookup_fmap in Hdone. destruct (pts !! i) as [pt|] eqn:Hpt; [|done].
  specialize (Hok pt (list_elem_of_lookup_2 _ _ _ Hpt)).
  destruct pt as [[]| | | | | |r']; try done. simpl in Hdone. injection Hdone as <-.
  destruct r' as [[v|]|w|]; naive_solver.
Qed.

(** C15: no wakeup is lost: when no task can take a step and one of the tasks
    sets the cell (or drops a guard of it), every task has finished. *)
Theorem wait_no_lost_wakeup {T N K : Type} `{!Notify N K} `{!NotifyLaws N K}
    (us : list (use (T := T))) (ts' : list (async (cell T N) T (option T))) (c' : cell T N)
    (Hrun : rtc pool_step (use_prog <$> us, new) (ts', c'))
    (Hset : exists u, u ∈ us /\ u ≠ UWait)
    (Hquiet : forall i p, ts' !! i = Some p -> astep p c' = None)
    (i : nat) (p : async (cell T N) T (option T)) (Hp : ts' !! i = Some p) :
  exists r, p = Done r.
Proof.
  destruct (cell_inv_reachable _ _ _ Hrun) as (pts & -> & Hok & _ & Hw & Hs).
  assert (forall j pt, pts !! j = Some pt -> astep (point_prog pt) c' = None) as Hpend.
  { intros j pt Hj. apply (Hquiet j). by rewrite list_lookup_fmap, Hj. }
  assert (value c' ≠ None) as Hne.
  { destruct Hset as (u & [j Hj]%list_elem_of_lookup & Hu).
    destruct (Hs j u Hj Hu) as [Hb|Hne]; [|done].
    destruct (point_pending _ _ (Hpend j _ Hb)) as [[r ?]|[k [? _]]]; done. }
  rewrite list_lookup_fmap in Hp. destruct (pts !! i) as [pt|] eqn:Hpt; [|done].
  injection Hp as <-.
  destruct (point_pending _ _ (Hpend i pt Hpt)) as [[r ->]|[k [-> Hr]]]; [by exists r|].
  exfalso. destruct (Hw Hne) as [(q & [j Hj]%list_elem_of_lookup & Hnot)|Hready].
  - destruct (point_pending _ _ (Hpend j _ Hj)) as [[r ->]|[k' [-> _]]];
      by destruct Hnot.
  - rewrite Hready in Hr; [done|]. by apply list_elem_of_lookup_2 in Hpt.
Qed.

(** ** Witnesses: a notifier that counts its notifications *)

#[export] Instance counting_notify : Notify nat nat := {
  notify_new := 0;
  notified n := (n, n);
  notify_waiters n := S n;
  notified_ready n k := bool_decide (k < n);
  notified_live n k := k <= n;
}.

#[export] Instance counting_notify_laws : NotifyLaws nat nat.
Proof.
  split; simpl; intros; repeat split; try (apply bool_decide_eq_false; lia);
    try (apply bool_decide_eq_true; lia); auto; lia.
Qed.

Definition demo_uses : list (use (T := nat)) := [UWait; USet 42; UGuard (fun _ => 7); UWait].
(** The first waiter suspends, then the cell is set, then the others run. *)
Definition demo_schedule : list nat := [0; 0; 3; 1; 3; 1; 0; 0; 2].
Definition demo_run := run_schedule demo_schedule (use_prog (N := nat) <$> demo_uses) new.

Lemma demo_run_steps :
  rtc pool_step (use_prog (N := nat) <$> demo_uses, new) (demo_run.1, demo_run.2).
Proof. rewrite <- surjective_pairing. apply run_schedule_steps. Qed.

Lemma wait_never_undefined_witness :
  demo_run.1 !! 0 = Some (Done (Ok (Some 42))) /\ value demo_run.2 = Some 42.
Proof.
  split; [reflexivity|].
  refine (proj2 (wait_never_undefined demo_uses demo_run.1 demo_run.2 _ 0
                   (Ok (Some 42)) eq_refl) 42 eq_refl).
  apply demo_run_steps.
Defined.

Lemma wait_no_lost_wakeup_witness : exists r, demo_run.1 !! 3 = Some (Done r).
Proof.
  assert (exists r, (Done (Ok (Some 42)) : async (cell nat nat) nat (option nat)) = Done r) as Hr.
  { apply (wait_no_lost_wakeup demo_uses demo_run.1 demo_run.2) with (i := 3).
    - apply demo_run_steps.
    - exists (USet 42). split; [set_solver|done].
    - intros i p. do 4 (destruct i as [|i]; [intros [= <-]; reflexivity|]). done.
    - reflexivity. }
  destruct Hr as [r Hr]. exists r. rewrite <- Hr. reflexivity.
Defined.
