(* ===== verification/InstanceData.v ===== *)
(** * InstanceData: [crates/containerd-shimkit/src/sandbox/instance.rs] and
    [crates/containerd-shimkit/src/sandbox/shim/instance_data.rs]

    The [Instance] trait, which an engine implements, is the class [Instance]
    over a world [W]: all that an instance touches.  [InstanceData] adds the
    task state, the pid and the lock that orders the operations.  Its
    operations are futures over the data (shared through an [Arc]) and the
    world; [me] names the task that runs one, the owner of the lock it takes. *)

From S2P Require Import Prelude Async Errors TaskState.

(** [Config] of [shim/local.rs] *)
Record Config := MkConfig { systemd_cgroup : bool }.

(** [struct InstanceConfig]; a [PathBuf] is its text. *)
Record InstanceConfig := MkInstanceConfig {
  stdin : string;
  stdout : string;
  stderr : string;
  bundle : string;
  namespace : string;
  containerd_address : string;
  config : Config;
}.

(** [DateTime<Utc>]: seconds since the epoch and the nanoseconds in them. *)
Record DateTime := MkDateTime { dt_secs : Z; dt_nanos : Z }.

(** [trait Instance].  [wait] has no error. *)
Class Instance (W T : Type) := {
  inst_new : string -> InstanceConfig -> async W Error T;
  inst_start : T -> async W Error Z;
  inst_kill : T -> Z -> async W Error unit;
  inst_delete : T -> async W Error unit;
  inst_wait : T -> async W Empty_set (Z * DateTime);
}.

(** [tokio::sync::RwLock]; only the write lock is taken. *)
Record RwLock (A : Type) := MkRwLock { content : A; writer : option nat }.
Arguments MkRwLock {A}.
Arguments content {A}.
Arguments writer {A}.

(** [struct InstanceData<T>] *)
Record InstanceData (T : Type) := MkInstanceData {
  instance : T;
  cfg : InstanceConfig;
  pid_cell : option Z;
  state : RwLock TaskState;
}.
Arguments MkInstanceData {T}.
Arguments instance {T}.
Arguments cfg {T}.
Arguments pid_cell {T}.
Arguments state {T}.

Section accessors.
Context {T : Type}.
Implicit Types d : InstanceData T.

Definition set_pid_cell (p : option Z) d : InstanceData T :=
  MkInstanceData (instance d) (cfg d) p (state d).
Definition set_state (s : RwLock TaskState) d : InstanceData T :=
  MkInstanceData (instance d) (cfg d) (pid_cell d) s.
Definition set_content (s : TaskState) d : InstanceData T :=
  set_state (MkRwLock s (writer (state d))) d.
Definition set_writer (o : option nat) d : InstanceData T :=
  set_state (MkRwLock (content (state d)) o) d.
End accessors.

(** ** The operations *)

Section operations.
Context {W T : Type} `{!Instance W T}.
Abbreviation St := (InstanceData T * W)%type.

Definition no_error (x : Empty_set) : Error := match x with end.

(** What the instance does with its world. *)
Definition on_world {E A} (p : async W E A) : async St E A :=
  zoom (fun s => Some s.2) (fun w s => (s.1, w)) p.

(** A method of the [TaskState] behind the guard. *)
Definition on_state (m : M TaskState Error unit) : M St Error unit := fun s =>
  let '(r, c) := m (content (state s.1)) in (r, (set_content c s.1, s.2)).

Definition this : async St Error (InstanceData T) := atomic (fun s => (s.1, s)).

(** [self.state.write().await] *)
Definition write (me : nat) : async St Error unit :=
  await (fun s => match writer (state s.1) with
                  | None => Some (tt, (set_writer (Some me) s.1, s.2))
                  | Some _ => None
                  end).

(** The [drop] of the guard. *)
Definition release (s : St) : St := (set_writer None s.1, s.2).

Definition with_write {A} (me : nat) (body : async St Error A) : async St Error A :=
  let* _ := write me in afinally body release.

(** [OnceCell::set] *)
Definition set_pid (p : Z) : M St Error (outcome Z unit) := fun s =>
  match pid_cell s.1 with
  | None => (Ok (Ok tt), (set_pid_cell (Some p) s.1, s.2))
  | Some _ => (Ok (Err p), s)
  end.

(** [InstanceData::new] *)
Definition new (id : string) (c : InstanceConfig) : async W Error (InstanceData T) :=
  let* instance := inst_new id c in
  aret (MkInstanceData instance c None (MkRwLock Created None)).

(** [InstanceData::pid] *)
Definition pid : async St Error (option Z) := atomic (fun s => (pid_cell s.1, s)).

(** What [start] does with the result of the instance. *)
Definition record_start (res : outcome Error Z) : async St Error (outcome Error unit) :=
  match res with
  | Ok p =>
      let* _ := alift (set_pid p) in
      atry (alift (on_state TaskState.started))
  | _ => atry (alift (on_state TaskState.stop))
  end.

(** [InstanceData::start] *)
Definition start (me : nat) : async St Error Z :=
  with_write me (
    let* _ := alift (on_state TaskState.start) in
    let* d := this in
    let* res := atry (on_world (inst_start (instance d))) in
    let* _ := record_start res in
    Done res).

(** [InstanceData::kill] *)
Definition kill (me : nat) (signal : Z) : async St Error unit :=
  with_write me (
    let* _ := alift (on_state TaskState.kill) in
    let* d := this in
    on_world (inst_kill (instance d) signal)).

(** [InstanceData::delete] *)
Definition delete (me : nat) : async St Error unit :=
  with_write me (
    let* _ := alift (on_state TaskState.delete) in
    let* d := this in
    let* res := atry (on_world (inst_delete (instance d))) in
    let* _ := (if is_err res then atry (alift (on_state TaskState.stop)) else aret (Ok tt)) in
    Done res).

(** [*s = TaskState::Exited] *)
Definition set_exited : async St Error unit :=
  atomic (fun s => (tt, (set_content Exited s.1, s.2))).

(** [InstanceData::wait] *)
Definition wait (me : nat) : async St Error (Z * DateTime) :=
  let* d := this in
  let* res := amap_err no_error (on_world (inst_wait (instance d))) in
  let* _ := with_write me set_exited in
  aret res.
End operations.

(** ** One operation on its own *)

Section alone.
Context {W T : Type} `{!Instance W T}.
Implicit Types (d : InstanceData T) (w : W).

#[local] Arguments with_write : simpl never.

Definition unlocked d : Prop := writer (state d) = None.

Lemma exec_on_world {E A} (p : async W E A) d w :
  exec (on_world p) (d, w) = let '(r, w') := exec p w in (r, (d, w')).
Proof.
  unfold on_world. rewrite (exec_zoom _ _ p (d, w) w); try done.
  by intros [d' w'] s [= <-].
Qed.

(** A guarded body that is not pending runs with the lock held, and the
    lock is free again whatever its outcome. *)
Lemma exec_with_write {A} me (body : async _ Error A) d w :
  unlocked d ->
  exec (with_write me body) (d, w) =
  let '(r, s) := exec body (set_writer (Some me) d, w) in
  (r, if r is Some _ then release s else s).
Proof.
  unfold unlocked. intros Hd. unfold with_write, write.
  rewrite exec_abind. simpl. rewrite Hd. simpl. rewrite exec_afinally.
  by destruct (exec body _) as [[r|] s].
Qed.

(** A transition the state refuses: the instance is not called and nothing
    changes. *)
Lemma exec_refused {A} me m (k : unit -> async _ Error A) e d w :
  unlocked d -> m (content (state d)) = (Err e, content (state d)) ->
  exec (with_write me (abind (alift (on_state m)) k)) (d, w) =
  (Some (Err e), (d, w)).
Proof.
  intros Hd Hm. rewrite exec_with_write by done. exec_simpl.
  unfold on_state. simpl. rewrite Hm. simpl. unfold release. simpl.
  destruct d as [i c p [s o]]. unfold unlocked in Hd. simpl in *. by subst.
Qed.

Definition data_with d (s : TaskState) (p : option Z) : InstanceData T :=
  MkInstanceData (instance d) (cfg d) p (MkRwLock s (writer (state d))).

(** [start] from [Created]: the pid is recorded and the state is [Started],
    or the instance failed and the state is [Exited]. *)
Lemma exec_start me d w r w' :
  unlocked d -> content (state d) = Created -> pid_cell d = None ->
  exec (inst_start (instance d)) w = (Some r, w') ->
  exec (start me) (d, w) =
  (Some r, (match r with
            | Ok p => data_with d Started (Some p)
            | Err _ => data_with d Exited None
            | Panic => data_with d Starting None
            end, w')).
Proof.
  intros Hd Hs Hp Hrun. unfold start. rewrite exec_with_write by done.
  destruct d as [i c p [s o]]. unfold unlocked in Hd. simpl in *. subst.
  exec_simpl. rewrite exec_on_world. simpl. rewrite Hrun. by destruct r.
Qed.

Lemma exec_start_refused me d w :
  unlocked d -> content (state d) ≠ Created ->
  exists e, exec (start me) (d, w) = (Some (Err (E_FailedPrecondition e)), (d, w)).
Proof.
  intros Hd Hs.
  destruct (call_refused MStart (content (state d))) as [to Hto]; [intros s' Ha; inversion Ha; congruence|].
  eexists. by eapply exec_refused.
Qed.

(** [kill] reaches the instance only in [Started]. *)
Lemma exec_kill me sig d w r w' :
  unlocked d -> content (state d) = Started ->
  exec (inst_kill (instance d) sig) w = (Some r, w') ->
  exec (kill me sig) (d, w) = (Some r, (d, w')).
Proof.
  intros Hd Hs Hrun. unfold kill. rewrite exec_with_write by done.
  destruct d as [i c p [s o]]. unfold unlocked in Hd. simpl in *. subst.
  exec_simpl. rewrite exec_on_world. simpl. by rewrite Hrun.
Qed.

Lemma exec_kill_refused me sig d w :
  unlocked d -> content (state d) ≠ Started ->
  exists e, exec (kill me sig) (d, w) = (Some (Err (E_FailedPrecondition e)), (d, w)).
Proof.
  intros Hd Hs.
  destruct (call_refused MKill (content (state d))) as [to Hto]; [intros s' Ha; inversion Ha; congruence|].
  eexists. by eapply exec_refused.
Qed.

(** [delete] from [Created] and [Exited]; when the instance refuses, the
    state is [Exited]. *)
Lemma exec_delete me d w r w' :
  unlocked d -> content (state d) = Created \/ content (state d) = Exited ->
  exec (inst_delete (instance d)) w = (Some r, w') ->
  exec (delete me) (d, w) =
  (Some r, (data_with d (if is_err r then Exited else Deleting) (pid_cell d), w')).
Proof.
  intros Hd Hs Hrun. unfold delete. rewrite exec_with_write by done.
  destruct d as [i c p [s o]]. unfold unlocked in Hd. simpl in *. subst.
  exec_simpl. destruct Hs as [-> | ->]; simpl; exec_simpl;
    rewrite exec_on_world; simpl; rewrite Hrun; by destruct r.
Qed.

Lemma exec_delete_refused me d w :
  unlocked d -> content (state d) ≠ Created -> content (state d) ≠ Exited ->
  exists e, exec (delete me) (d, w) = (Some (Err (E_FailedPrecondition e)), (d, w)).
Proof.
  intros Hd Hc He.
  destruct (call_refused MDelete (content (state d))) as [to Hto].
  { intros s' Ha; inversion Ha; congruence. }
  eexists. by eapply exec_refused.
Qed.

(** [wait] is pending as long as the instance is, and then leaves [Exited]. *)
Lemma exec_wait me d w r w' :
  unlocked d -> exec (inst_wait (instance d)) w = (r, w') ->
  exec (wait me) (d, w) =
  match r with
  | Some (Ok x) => (Some (Ok x), (data_with d Exited (pid_cell d), w'))
  | Some _ => (Some Panic, (d, w'))
  | None => (None, (d, w'))
  end.
Proof.
  intros Hd Hrun. unfold wait. rewrite exec_abind. simpl.
  rewrite exec_abind, exec_amap_err, exec_on_world, Hrun.
  destruct r as [[x|[]|]|]; try done.
  destruct d as [i c p [s o]]. unfold unlocked in Hd. simpl in *. by subst.
Qed.
(** An engine that is pending keeps the operation pending. *)
Lemma exec_start_pending me d w w' :
  unlocked d -> content (state d) = Created ->
  exec (inst_start (instance d)) w = (None, w') -> (exec (start me) (d, w)).1 = None.
Proof.
  intros Hd Hs Hrun. unfold start. rewrite exec_with_write by done.
  destruct d as [i c p [s o]]. unfold unlocked in Hd. simpl in *. subst.
  exec_simpl. rewrite exec_on_world. simpl. by rewrite Hrun.
Qed.

Lemma exec_kill_pending me sig d w w' :
  unlocked d -> content (state d) = Started ->
  exec (inst_kill (instance d) sig) w = (None, w') -> (exec (kill me sig) (d, w)).1 = None.
Proof.
  intros Hd Hs Hrun. unfold kill. rewrite exec_with_write by done.
  destruct d as [i c p [s o]]. unfold unlocked in Hd. simpl in *. subst.
  exec_simpl. rewrite exec_on_world. simpl. by rewrite Hrun.
Qed.

Lemma exec_delete_pending me d w w' :
  unlocked d -> content (state d) = Created \/ content (state d) = Exited ->
  exec (inst_delete (instance d)) w = (None, w') -> (exec (delete me) (d, w)).1 = None.
Proof.
  intros Hd Hs Hrun. unfold delete. rewrite exec_with_write by done.
  destruct d as [i c p [s o]]. unfold unlocked in Hd. simpl in *. subst.
  exec_simpl. destruct Hs as [-> | ->]; simpl; exec_simpl; rewrite exec_on_world; simpl; by rewrite Hrun.
Qed.

(** *** The outcomes of an operation, whatever the engine does

    [tview] is what the service can see of an instance between operations. *)

Definition tview d : TaskState * option Z := (content (state d), pid_cell d).

Record data_ok d : Prop := {
  ok_unlocked : unlocked d;
  ok_settled : content (state d) ≠ Starting;
  ok_created : content (state d) = Created -> pid_cell d = None;
  ok_started : content (state d) = Started -> pid_cell d ≠ None;
}.

Lemma data_ok_with d s p :
  data_ok d -> s ≠ Starting -> s ≠ Created -> (s = Started -> p ≠ None) ->
  data_ok (data_with d s p).
Proof. intros [Hu _ _ _] Hs Hc Hp. by split. Qed.

Lemma start_outcomes me d w r d' w' :
  data_ok d -> exec (start me) (d, w) = (Some r, (d', w')) -> r ≠ Panic ->
  data_ok d' /\
  match r with
  | Ok p => tview d = (Created, None) /\ tview d' = (Started, Some p)
  | _ => tview d = (Created, None) /\ tview d' = (Exited, None) \/
         (tview d).1 ≠ Created /\ d' = d
  end.
Proof.
  intros Hok Hrun Hr. pose proof Hok as [Hu Hs Hc _].
  destruct (decide (content (state d) = Created)) as [Hcr|Hcr].
  - unfold tview. rewrite Hcr, (Hc Hcr).
    destruct (exec (inst_start (instance d)) w) as [[ri|] wi] eqn:He.
    + rewrite (exec_start _ _ _ _ _ Hu Hcr (Hc Hcr) He) in Hrun.
      destruct ri; simplify_eq; (split; [by apply data_ok_with|]); auto.
    + apply (f_equal fst) in Hrun. by rewrite (exec_start_pending _ _ _ _ Hu Hcr He) in Hrun.
  - destruct (exec_start_refused me d w Hu Hcr) as [e He]. rewrite He in Hrun.
    simplify_eq. auto.
Qed.

Lemma kill_outcomes me sig d w r d' w' :
  data_ok d -> exec (kill me sig) (d, w) = (Some r, (d', w')) ->
  d' = d /\ (is_ok r -> (tview d).1 = Started).
Proof.
  intros [Hu Hs Hc _] Hrun.
  destruct (decide (content (state d) = Started)) as [Hst|Hst].
  - split; [|done]. destruct (exec (inst_kill (instance d) sig) w) as [[ri|] wi] eqn:He.
    + rewrite (exec_kill _ _ _ _ _ _ Hu Hst He) in Hrun. by simplify_eq.
    + apply (f_equal fst) in Hrun. by rewrite (exec_kill_pending _ _ _ _ _ Hu Hst He) in Hrun.
  - destruct (exec_kill_refused me sig d w Hu Hst) as [e He]. rewrite He in Hrun.
    by simplify_eq.
Qed.

Definition deletable (s : TaskState) : Prop := s = Created \/ s = Exited.

Lemma delete_outcomes me d w r d' w' :
  data_ok d -> exec (delete me) (d, w) = (Some r, (d', w')) -> r ≠ Panic ->
  data_ok d' /\
  match r with
  | Ok _ => deletable (tview d).1 /\ tview d' = (Deleting, (tview d).2)
  | _ => deletable (tview d).1 /\ tview d' = (Exited, (tview d).2) \/
         ¬ deletable (tview d).1 /\ d' = d
  end.
Proof.
  intros Hok Hrun Hr. pose proof Hok as [Hu Hs Hc _].
  destruct (decide (content (state d) = Created \/ content (state d) = Exited)) as [Hd|Hd].
  - destruct (exec (inst_delete (instance d)) w) as [[ri|] wi] eqn:He.
    + rewrite (exec_delete _ _ _ _ _ Hu Hd He) in Hrun.
      destruct ri; simplify_eq; (split; [by apply data_ok_with|]); auto.
    + apply (f_equal fst) in Hrun. by rewrite (exec_delete_pending _ _ _ _ Hu Hd He) in Hrun.
  - destruct (exec_delete_refused me d w Hu ltac:(tauto) ltac:(tauto)) as [e He].
    rewrite He in Hrun. by simplify_eq; auto.
Qed.

(** The three outcomes of a poll: the engine is pending, has exited, or
    panics. *)
Lemma wait_outcomes me d w r d' w' :
  data_ok d -> exec (wait me) (d, w) = (r, (d', w')) -> r ≠ Some Panic ->
  data_ok d' /\
  match r with
  | Some (Ok _) => tview d' = (Exited, (tview d).2)
  | Some _ => False
  | None => d' = d
  end.
Proof.
  intros Hok Hrun Hr. destruct (exec (inst_wait (instance d)) w) as [ri wi] eqn:He.
  rewrite (exec_wait _ _ _ _ _ (ok_unlocked _ Hok) He) in Hrun.
  destruct ri as [[x|[]|]|]; simplify_eq; (split; [by try apply data_ok_with|done]).
Qed.
End alone.

(** ** Every interleaving

    A monitor records the calls that reach the instance, with the task that
    makes them.  The monitored instance is the instance over a world that
    holds the record next to the world of the instance. *)

Inductive Call :=
  | CStart (me : nat)
  | CStarted (me : nat)
  | CKill (me : nat)
  | CDelete (me : nat).

#[export] Instance Call_eq_dec : EqDecision Call.
Proof. solve_decision. Defined.

Section monitor.
Context {W T : Type} (inst : Instance W T).
Abbreviation MW := (list Call * W)%type.

Definition note {E} (c : Call) : async MW E unit :=
  atomic (fun s => (tt, (c :: s.1, s.2))).

Definition watched {E A} (p : async W E A) : async MW E A :=
  zoom (fun s => Some s.2) (fun w s => (s.1, w)) p.

Definition monitored (me : nat) : Instance MW T := {|
  inst_new id c := watched (inst_new id c);
  inst_start t :=
    let* _ := note (CStart me) in
    let* p := watched (inst_start t) in
    let* _ := note (CStarted me) in
    aret p;
  inst_kill t sig := let* _ := note (CKill me) in watched (inst_kill t sig);
  inst_delete t := let* _ := note (CDelete me) in watched (inst_delete t);
  inst_wait t := watched (inst_wait t);
|}.
End monitor.

(** The order of calls, latest first: the start of the instance is the first
    call it gets, hence the only start; it is killed only after a successful
    start. *)
Inductive calls_ok : list Call -> Prop :=
  | calls_nil : calls_ok []
  | calls_start i : calls_ok [CStart i]
  | calls_started i : calls_ok [CStarted i; CStart i]
  | calls_kill i j l : calls_ok l -> CStarted j ∈ l -> calls_ok (CKill i :: l)
  | calls_delete i l : calls_ok l -> calls_ok (CDelete i :: l).

#[local] Hint Constructors calls_ok : core.

Lemma calls_ok_one_start l i j : calls_ok l -> CStart i ∈ l -> CStart j ∈ l -> i = j.
Proof.
  induction 1 as [| | |k m l Hl IH|k l Hl IH]; rewrite ?elem_of_cons, ?elem_of_nil; naive_solver.
Qed.

Section concurrent.
Context {W T : Type} (inst : Instance W T).
Abbreviation MW := (list Call * W)%type.
Abbreviation St := (InstanceData T * MW)%type.

Inductive op := OpStart | OpKill (sig : Z) | OpDelete | OpWait | OpPoll | OpPid.
Inductive reply := RPid (p : Z) | RUnit | RExit (x : Z * DateTime) | RMaybe (x : option (Z * DateTime))
  | RMaybePid (p : option Z).

Definition op_prog (me : nat) (o : op) : async St Error reply :=
  let _ := monitored inst me in
  match o with
  | OpStart => let* p := start me in aret (RPid p)
  | OpKill sig => let* _ := kill me sig in aret RUnit
  | OpDelete => let* _ := delete me in aret RUnit
  | OpWait => let* x := wait me in aret (RExit x)
  | OpPoll => let* x := now_or_never (wait me) in aret (RMaybe x)
  | OpPid => let* p := pid in aret (RMaybePid p)
  end.

(** The state, the pid and the calls agree. *)
Definition agree (c : TaskState) (p : option Z) (l : list Call) : Prop :=
  calls_ok l /\
  (c = Created -> p = None /\ l = []) /\
  (c = Started -> p ≠ None /\ exists j, CStarted j ∈ l) /\
  (p ≠ None -> exists j, CStarted j ∈ l).

Definition data_inv (s : St) : Prop :=
  agree (content (state s.1)) (pid_cell s.1) s.2.1.

(** What the holder [i] of the lock relies on, and what never goes back. *)
Definition data_rely (i : nat) (s s' : St) : Prop :=
  (writer (state s.1) = Some i ->
     writer (state s'.1) = Some i /\ content (state s'.1) = content (state s.1) /\
     pid_cell s'.1 = pid_cell s.1 /\ s'.2.1 = s.2.1) /\
  (forall p, pid_cell s.1 = Some p -> pid_cell s'.1 = Some p) /\
  (forall c, c ∈ s.2.1 -> c ∈ s'.2.1).

(** Task [i] holds the lock, and the data and the calls satisfy [P]. *)
Definition holding (i : nat) (P : TaskState -> option Z -> list Call -> Prop) (s : St) : Prop :=
  writer (state s.1) = Some i /\ P (content (state s.1)) (pid_cell s.1) s.2.1.

Lemma holding_stable i P : stable data_inv data_rely i (holding i P).
Proof.
  intros s s' _ _ [Hw HP] [Hr _]. destruct (Hr Hw) as (? & Hc & Hp & Hl).
  split; [done|]. by rewrite Hc, Hp, Hl.
Qed.

(** A step of the holder of the lock that keeps the lock. *)
Lemma safe_holding {E A} i (m : M St E A) P P' :
  (forall s, data_inv s -> P (content (state s.1)) (pid_cell s.1) s.2.1 ->
     writer (state (m s).2.1) = writer (state s.1) /\
     data_inv (m s).2 /\
     P' (m s).1 (content (state (m s).2.1)) (pid_cell (m s).2.1) (m s).2.2.1 /\
     (forall p, pid_cell s.1 = Some p -> pid_cell (m s).2.1 = Some p) /\
     (forall c, c ∈ s.2.1 -> c ∈ (m s).2.2.1)) ->
  safe data_inv data_rely i (alift m) (holding i P) (fun r => holding i (P' r)).
Proof.
  intros Hm. apply safe_lift; [|intros; apply holding_stable].
  intros s HI [Hw HP]. destruct (Hm s HI HP) as (Hw' & HI' & HP' & Hp & Hc).
  split; [done|]. split; [|by split; [simpl; rewrite Hw'|]].
  intros j Hj. split; [|done]. rewrite Hw. naive_solver.
Qed.

Lemma safe_on_state i m P P' :
  (forall c p l, agree c p l -> P c p l -> agree (m c).2 p l /\ P' (m c).1 (m c).2 p l) ->
  safe data_inv data_rely i (alift (on_state m)) (holding i P) (fun r => holding i (P' r)).
Proof.
  intros Hm. apply safe_holding. intros [d [l w]] HI HP. simpl in *.
  specialize (Hm _ _ _ HI HP). revert Hm. unfold on_state. simpl.
  destruct (m (content (state d))) as [r c]. simpl. intros [??]. split_and!; done.
Qed.

(** The steps of the instance leave the data and the calls alone. *)
Lemma safe_watched {E A} i (p : async W E A) (P : St -> Prop) :
  stable data_inv data_rely i P ->
  (forall d l w w', P (d, (l, w)) -> P (d, (l, w'))) ->
  safe data_inv data_rely i (on_world (watched p)) P (fun _ => P).
Proof.
  intros Hst HP. eapply safe_steps; [apply steps_in_zoom, steps_in_zoom, steps_in_any|done|].
  intros [d [l w]] s' HI HPs (s & s2 & [= <-] & (w1 & w2 & [= <-] & _ & ->) & ->).
  simpl in *. split_and!; [done| |by eapply HP]. intros j _. by split_and!.
Qed.

Definition anything (_ : TaskState) (_ : option Z) (_ : list Call) : Prop := True.

Lemma safe_with_write {A} i (body : async St Error A) (Q : outcome Error A -> St -> Prop) :
  safe data_inv data_rely i body (holding i anything)
    (fun r s => holding i anything s /\ Q r s) ->
  (forall r, stable data_inv data_rely i (Q r)) ->
  (forall r s, Q r s -> Q r (release s)) ->
  safe data_inv data_rely i (with_write i body) (fun _ => True) Q.
Proof.
  intros Hbody Hst Hrel. unfold with_write.
  eapply safe_bind; [apply safe_await with
    (Q := fun r s => if r is Ok _ then holding i anything s else False)|..].
  - intros s x s' HI _ Hs. destruct (writer (state s.1)) eqn:Hw; [done|]. simplify_eq/=.
    split_and!; [done| |done]. intros j Hj. split; simpl; [by rewrite Hw|done].
  - intros u. apply holding_stable.
  - intros u. eapply safe_finally; [exact Hbody| |done].
    intros r s HI [[Hw _] HQ]. split_and!; [done| |by apply Hrel].
    intros j Hj. split; simpl; [rewrite Hw; naive_solver|done].
  - done.
  - done.
Qed.

Definition started_by (i : nat) (p : Z) (s : St) : Prop :=
  pid_cell s.1 = Some p /\ CStart i ∈ s.2.1.

Lemma started_by_stable i p : stable data_inv data_rely i (started_by i p).
Proof. intros s s' _ _ [Hp Hc] (_ & Hpid & Hcall). split; auto. Qed.
(** Sequencing while the lock is held: what follows a failure keeps nothing. *)
Lemma safe_holding_bind {E A B} i (p : async St E A) (k : A -> async St E B) P Pk Q :
  safe data_inv data_rely i p (holding i P) (fun r => holding i (Pk r)) ->
  (forall a, safe data_inv data_rely i (k a) (holding i (Pk (Ok a))) Q) ->
  (forall e s, holding i (Pk (Err e)) s -> Q (Err e) s) ->
  (forall s, holding i (Pk Panic) s -> Q Panic s) ->
  safe data_inv data_rely i (abind p k) (holding i P) Q.
Proof. intros Hp Hk He Hpanic. eapply safe_bind; eauto. Qed.

Lemma safe_this i P :
  safe data_inv data_rely i this (holding i P) (fun _ => holding i P).
Proof.
  intros s x s' HI HP [= <- <-]. split; [done|]. split; [intros j _; by split_and!|].
  exists (holding i P). split_and!; [done|apply holding_stable|by intros ???].
Qed.

Definition after_start i c (p : option Z) (l : list Call) (r : outcome Error Z) : Prop :=
  match r with
  | Ok _ => c = Starting /\ p = None /\ l = [CStarted i; CStart i]
  | Err _ => c = Starting /\ p = None /\ l = [CStart i]
  | Panic => True
  end.

Lemma safe_note i c (P P' : TaskState -> option Z -> list Call -> Prop) :
  (forall cs p l, agree cs p l -> P cs p l -> agree cs p (c :: l) /\ P' cs p (c :: l)) ->
  safe data_inv data_rely i (on_world (E := Error) (note (W := W) c))
    (holding i P) (fun r => holding i (fun cs p l => r = Ok tt /\ P' cs p l)).
Proof.
  intros Hc s x s' HI [Hw HP] [= <- <-]. destruct (Hc _ _ _ HI HP) as [HI' HP'].
  split; [done|]. split.
  - intros j Hj. split; simpl; [rewrite Hw; naive_solver|]. split; [done|]. set_solver.
  - exists (holding i P'). split_and!; [done|apply holding_stable|].
    by intros s' _ [Hw' HP'']; split.
Qed.

Ltac solve_agree :=
  unfold data_inv, agree in *; destruct_and?; split_and!; simpl in *; intros;
  split_and?; auto; try naive_solver; try (eexists; apply list_elem_of_here).

Lemma safe_inst_start i t :
  safe data_inv data_rely i (on_world (@inst_start _ _ (monitored inst i) t))
    (holding i (fun c p l => c = Starting /\ p = None /\ l = []))
    (fun r => holding i (fun c p l => after_start i c p l r)).
Proof.
  apply safe_zoom_bind. eapply safe_holding_bind;
    [apply safe_note with (P' := fun c p l => c = Starting /\ p = None /\ l = [CStart i])
    |intros ?|by intros ? ? [_ [? _]]|by intros ? [_ [? _]]].
  { intros c p l (Hl & _) (-> & -> & ->). split; [by solve_agree|done]. }
  apply safe_zoom_bind. eapply safe_holding_bind with
    (Pk := fun _ c p l => c = Starting /\ p = None /\ l = [CStart i]);
    [|intros q|done|by intros s [Hw _]].
  { eapply safe_weaken; [| |apply safe_watched with
      (P := holding i (fun c p l => c = Starting /\ p = None /\ l = [CStart i]))];
      [by intros s _ [Hw [_ HP]]|done|apply holding_stable|done]. }
  apply safe_zoom_bind. eapply safe_holding_bind;
    [apply safe_note with (P' := fun c p l => c = Starting /\ p = None /\ l = [CStarted i; CStart i])
    |intros ?|by intros ? ? [_ [? _]]|by intros ? [_ [? _]]].
  - intros c p l (Hl & _) (-> & -> & ->). split; [by solve_agree|done].
  - by intros s _ [Hw [_ HP]].
Qed.

Lemma safe_record_start i res :
  safe data_inv data_rely i (record_start res)
    (holding i (fun c p l => after_start i c p l res))
    (fun _ => holding i (fun _ p l => match res with Ok q => p = Some q /\ CStart i ∈ l | _ => True end)).
Proof.
  destruct res as [q|e|]; cbn [record_start after_start].
  - eapply safe_holding_bind with
      (Pk := fun r c p l => is_ok r /\ c = Starting /\ p = Some q /\ l = [CStarted i; CStart i]);
      [|intros ?|by intros ? ? [_ [? _]]|by intros ? [_ [? _]]].
    + apply safe_holding. intros [[t cf p [c w]] [l v]] HI HP. simpl in *. destruct HP as (-> & -> & ->).
      destruct HI as [Hl _]. split_and!; [done| |done..]. solve_agree.
    + apply safe_try. eapply safe_weaken; [done| |apply safe_on_state with
        (P' := fun _ _ p l => p = Some q /\ CStart i ∈ l)].
      * intros []; eauto.
      * intros c p l HI (_ & -> & -> & ->). simpl. split; [solve_agree|]. split; [done|set_solver].
  - apply safe_try. eapply safe_weaken; [done| |apply safe_on_state with
      (P' := fun _ => anything)].
    + by intros [] s _ [Hw _].
    + intros c p l HI (-> & -> & ->). split; [solve_agree|done].
  - apply safe_try. eapply safe_weaken; [done| |apply safe_on_state with
      (P' := fun _ => anything)].
    + by intros [] s _ [Hw _].
    + intros c p l HI _. split; [|done].
      destruct HI as (? & ? & ? & ?), c; simpl; by split_and!.
Qed.
(** A [start] that returned [p] started the instance itself, and [p] is the
    pid from then on. *)
Definition start_post (i : nat) (r : outcome Error Z) (s : St) : Prop :=
  match r with Ok p => pid_cell s.1 = Some p /\ CStart i ∈ s.2.1 | _ => True end.

Lemma start_post_stable i r : stable data_inv data_rely i (start_post i r).
Proof. destruct r; [|done..]. intros s s' _ _ [Hp Hc] (_ & Hpid & Hcall). split; auto. Qed.

Lemma safe_start i :
  safe data_inv data_rely i (@start _ _ (monitored inst i) i) (fun _ => True) (start_post i).
Proof.
  apply safe_with_write; [|apply start_post_stable|by intros []].
  eapply safe_holding_bind with
    (Pk := fun r c p l => is_ok r -> c = Starting /\ p = None /\ l = []);
    [|intros ?|by intros ? ? [? _]|by intros ? [? _]].
  { apply safe_on_state. intros c p l HI _.
    destruct HI as (Hl & Hc & Hs & Hp), c; simpl; [|by split; [split_and!|]..].
    destruct Hc as [-> ->]; [done|]. split; [solve_agree|done]. }
  eapply safe_holding_bind with (Pk := fun _ c p l => c = Starting /\ p = None /\ l = []);
    [|intros d|by intros ? ? [? _]|by intros ? [? _]].
  { eapply safe_weaken; [| |apply safe_this with
      (P := fun c p l => c = Starting /\ p = None /\ l = [])]; [|done].
    intros s _ [Hw HP]. by split; [|apply HP]. }
  eapply safe_holding_bind with
    (Pk := fun r c p l => match r with Ok res => after_start i c p l res | _ => True end);
    [|intros res|by intros ? ? [? _]|by intros ? [? _]].
  { apply safe_try. eapply safe_weaken; [done| |apply safe_inst_start]. by intros []. }
  eapply safe_holding_bind; [apply safe_record_start|intros ?|by intros ? ? [? _]|by intros ? [? _]].
  intros s _ [Hw HP]. split; [done|]. by destruct res.
Qed.
Lemma safe_kill i sig :
  safe data_inv data_rely i (@kill _ _ (monitored inst i) i sig) (fun _ => True) (fun _ _ => True).
Proof.
  apply safe_with_write; [|done..].
  eapply safe_holding_bind with
    (Pk := fun r c p l => is_ok r -> exists j, CStarted j ∈ l);
    [|intros ?|by intros ? ? [? _]|by intros ? [? _]].
  { apply safe_on_state. intros c p l HI _. split; [by destruct c|].
    destruct HI as (Hl & Hc & Hs & Hp), c; simpl; try done. intros _. by apply Hs. }
  eapply safe_holding_bind with (Pk := fun _ c p l => exists j, CStarted j ∈ l);
    [|intros d|by intros ? ? [? _]|by intros ? [? _]].
  { eapply safe_weaken; [| |apply safe_this with
      (P := fun c p l => exists j, CStarted j ∈ l)]; [|done].
    intros s _ [Hw HP]. by split; [|apply HP]. }
  apply safe_zoom_bind. eapply safe_holding_bind;
    [apply safe_note with (P' := anything)
    |intros ?|by intros ? ? [_ [? _]]|by intros ? [_ [? _]]].
  - intros c p l (Hl & Hc & Hs & Hp) [j Hj]. split; [|done].
    split_and!; [by eapply calls_kill| |set_solver..].
    intros ->. destruct (Hc eq_refl) as [_ ->]. set_solver.
  - eapply safe_weaken; [| |apply safe_watched with (P := holding i anything)];
      [by intros s _ [Hw _]| |apply holding_stable|done].
    by intros r s _ [Hw _].
Qed.

Lemma safe_delete i :
  safe data_inv data_rely i (@delete _ _ (monitored inst i) i) (fun _ => True) (fun _ _ => True).
Proof.
  apply safe_with_write; [|done..].
  eapply safe_holding_bind with (Pk := fun r c _ _ => is_ok r -> c = Deleting);
    [|intros ?|by intros ? ? [? _]|by intros ? [? _]].
  { apply safe_on_state. intros c p l HI _. split; [|by destruct c].
    destruct HI as (Hl & Hc & Hs & Hp), c; by split_and!. }
  eapply safe_holding_bind with (Pk := fun _ c _ _ => c = Deleting);
    [|intros d|by intros ? ? [? _]|by intros ? [? _]].
  { eapply safe_weaken; [| |apply safe_this with (P := fun c _ _ => c = Deleting)]; [|done].
    intros s _ [Hw HP]. by split; [|apply HP]. }
  eapply safe_holding_bind with (Pk := fun _ => anything);
    [|intros res|by intros ? ? [? _]|by intros ? [? _]].
  - apply safe_try, safe_zoom_bind. eapply safe_holding_bind;
      [apply safe_note with (P' := anything)
      |intros ?|by intros ? ? [? _]|by intros ? [? _]].
    + intros c p l (Hl & Hc & Hs & Hp) ->. split; [|done].
      split_and!; [by apply calls_delete|done..|].
      intros Hne. destruct (Hp Hne) as [j Hj]. exists j. set_solver.
    + eapply safe_weaken; [| |apply safe_watched with (P := holding i anything)];
        [by intros s _ [Hw _]| |apply holding_stable|done]. by intros [].
  - eapply safe_holding_bind with (Pk := fun _ => anything);
      [|intros ?; by intros s _ [Hw _]|by intros ? ? [? _]|by intros ? [? _]].
    destruct (is_err res); [|by intros s _ Hs].
    apply safe_try. eapply safe_weaken; [done| |apply safe_on_state with (P' := fun _ => anything)].
    + by intros [].
    + intros c p l (Hl & Hc & Hs & Hp) _. split; [|done]. by destruct c; split_and!.
Qed.

Lemma safe_wait i :
  safe data_inv data_rely i (@wait _ _ (monitored inst i) i) (fun _ => True) (fun _ _ => True).
Proof.
  eapply safe_bind with (Qp := fun _ _ => True); [|intros d|done|done].
  { intros s x s' HI _ [= <- <-]. split; [done|]. split; [intros j _; by split_and!|].
    by exists (fun _ => True). }
  eapply safe_bind with (Qp := fun _ _ => True);
    [by apply safe_map_err, safe_watched|intros res|done|done].
  eapply safe_bind with (Qp := fun _ _ => True); [|by intros ? s0 _ _|done|done].
  apply safe_with_write; [|done..].
  intros s1 x s2 HI1 [Hw _] [= <- <-]. split_and!.
  - destruct HI1 as (Hl & Hc & Hs & Hp). by split_and!.
  - intros j Hj. split; simpl; [rewrite Hw; naive_solver|done].
  - exists (holding i anything). split_and!; [done|apply holding_stable|by intros ???].
Qed.

Lemma data_rely_refl j s : data_rely j s s.
Proof. by split_and!. Qed.

(** A successful [OpStart] answers with the pid. *)
Definition op_post (i : nat) (r : outcome Error reply) (s : St) : Prop :=
  match r with Ok (RPid p) => start_post i (Ok p) s | _ => True end.

Lemma safe_op i o : safe data_inv data_rely i (op_prog i o) (fun _ => True) (op_post i).
Proof.
  destruct o; unfold op_prog.
  - eapply safe_bind; [apply safe_start|by intros p s _ Hp|done..].
  - eapply safe_bind; [apply safe_kill|by intros ? s _ _|done..].
  - eapply safe_bind; [apply safe_delete|by intros ? s _ _|done..].
  - eapply safe_bind; [apply safe_wait|by intros ? s _ _|done..].
  - eapply safe_bind with (Qp := fun _ _ => True); [|by intros ? s _ _|done..].
    apply safe_now_or_never; [apply data_rely_refl| |done].
    by eapply safe_weaken; [| |apply safe_wait].
  - eapply safe_bind with (Qp := fun _ _ => True); [|by intros ? s _ _|done..].
    intros s x s' HI _ [= <- <-]. split; [done|]. split; [intros; apply data_rely_refl|].
    by exists (fun _ => True).
Qed.

Definition fresh_data (t : T) (c : InstanceConfig) : InstanceData T :=
  MkInstanceData t c None (MkRwLock Created None).

Lemma safe_ops os t c w :
  safe_pool data_inv data_rely op_post (imap op_prog os, (fresh_data t c, ([], w))).
Proof.
  split; [split_and!; simpl; try done; constructor|].
  intros i p. simpl. rewrite list_lookup_imap. intros (o & Ho & ->)%fmap_Some.
  exists (fun _ => True). split_and!; [done|done|apply safe_op].
Qed.
End concurrent.

(** ** Properties *)

(** C8: in every interleaving of starts, kills, deletes, waits and polls of a
    container, the engine sees its start first and at most once, sees a kill
    only after its start succeeded, and a container that is [Started] has a
    pid while one that is [Created] has none and the engine was not called. *)
Theorem instance_calls_ordered {W T : Type} (inst : Instance W T) (os : list op)
    (t : T) (c : InstanceConfig) (w : W)
    (ts : list (async (InstanceData T * (list Call * W)) Error reply))
    (s : InstanceData T * (list Call * W))
    (Hrun : rtc pool_step (imap (op_prog inst) os, (fresh_data t c, ([], w))) (ts, s)) :
  calls_ok s.2.1 /\
  (content (state s.1) = Created -> pid_cell s.1 = None /\ s.2.1 = []) /\
  (content (state s.1) = Started -> pid_cell s.1 ≠ None /\ exists i, CStarted i ∈ s.2.1).
Proof.
  pose proof (safe_pool_inv _ _ _ _ _ (safe_ops inst os t c w) Hrun) as (Hl & Hc & Hs & _).
  by split_and!.
Qed.

(** C25: whatever the interleaving, at most one start of a container succeeds,
    and the pid it answered stays the pid of the container. *)
Theorem start_succeeds_once {W T : Type} (inst : Instance W T) (os : list op)
    (t : T) (c : InstanceConfig) (w : W)
    (ts : list (async (InstanceData T * (list Call * W)) Error reply))
    (s : InstanceData T * (list Call * W))
    (Hrun : rtc pool_step (imap (op_prog inst) os, (fresh_data t c, ([], w))) (ts, s))
    (i j : nat) (p q : Z)
    (Hi : ts !! i = Some (Done (Ok (RPid p)))) (Hj : ts !! j = Some (Done (Ok (RPid q)))) :
  i = j /\ p = q /\ pid_cell s.1 = Some p.
Proof.
  pose proof (safe_ops inst os t c w) as Hsafe.
  destruct (safe_pool_inv _ _ _ _ _ Hsafe Hrun) as (Hl & _).
  destruct (safe_pool_done _ _ _ _ _ _ _ Hsafe Hrun Hi) as [Hp Hci].
  destruct (safe_pool_done _ _ _ _ _ _ _ Hsafe Hrun Hj) as [Hq Hcj]. simpl in *.
  split; [by eapply calls_ok_one_start|]. split; [congruence|done].
Qed.

(** C27: on its own, each operation of a container follows the diagram of
    [TaskState]: an operation the diagram refuses fails with
    [FailedPrecondition] and changes nothing; an allowed one calls the engine
    exactly once, passes its result on, and leaves the state the diagram
    says for a success and [Exited] for a failure. *)
Theorem operations_follow_diagram {W T : Type} {inst : Instance W T}
    (me : nat) (sig : Z) (d : InstanceData T) (w w1 w2 w3 : W)
    (rs : outcome Error Z) (rk rd : outcome Error unit)
    (Hfree : unlocked d) (Hpid : content (state d) = Created -> pid_cell d = None)
    (Hstart : exec (inst_start (instance d)) w = (Some rs, w1))
    (Hkill : exec (inst_kill (instance d) sig) w = (Some rk, w2))
    (Hdelete : exec (inst_delete (instance d)) w = (Some rd, w3)) :
  match content (state d) with
  | Created =>
      exec (start me) (d, w) =
      (Some rs, (match rs with
                 | Ok p => data_with d Started (Some p)
                 | Err _ => data_with d Exited None
                 | Panic => data_with d Starting None
                 end, w1))
  | _ => exists e, exec (start me) (d, w) = (Some (Err (E_FailedPrecondition e)), (d, w))
  end /\
  match content (state d) with
  | Started => exec (kill me sig) (d, w) = (Some rk, (d, w2))
  | _ => exists e, exec (kill me sig) (d, w) = (Some (Err (E_FailedPrecondition e)), (d, w))
  end /\
  match content (state d) with
  | Created | Exited =>
      exec (delete me) (d, w) =
      (Some rd, (data_with d (if is_err rd then Exited else Deleting) (pid_cell d), w3))
  | _ => exists e, exec (delete me) (d, w) = (Some (Err (E_FailedPrecondition e)), (d, w))
  end.
Proof.
  split; [|split].
  - destruct (content (state d)) eqn:Hc;
      [apply exec_start; auto|apply exec_start_refused; congruence..].
  - destruct (content (state d)) eqn:Hc;
      (apply exec_kill; congruence) || (apply exec_kill_refused; congruence).
  - destruct (content (state d)) eqn:Hc;
      (apply exec_delete; auto; congruence) || (apply exec_delete_refused; congruence).
Qed.

(** ** Witnesses: an engine that counts *)

#[export] Instance demo_instance : Instance nat unit := {
  inst_new _ _ := aret tt;
  inst_start _ := let* _ := atomic (fun w => (tt, S w)) in atomic (fun w => (7%Z, S w));
  inst_kill _ _ := atomic (fun w => (tt, w + 10));
  inst_delete _ := aret tt;
  inst_wait _ := await (fun w => if 10 <=? w then Some ((137, MkDateTime 5 0)%Z, w) else None);
}.

Definition demo_cfg : InstanceConfig :=
  MkInstanceConfig EmptyString EmptyString EmptyString "/bundle" "default" EmptyString
    (MkConfig false).

Definition demo_ops : list op := [OpStart; OpStart; OpKill 9; OpWait; OpDelete].

(** Two starts race, then the kill, the wait and the delete run. *)
Definition demo_run :=
  run_schedule ([0; 1; 0; 0; 2; 1] ++ replicate 12 0 ++ replicate 9 1 ++ replicate 9 2
                  ++ replicate 9 3 ++ replicate 9 4)
    (imap (op_prog demo_instance) demo_ops) (fresh_data tt demo_cfg, ([], 0)).

Lemma demo_run_reached :
  rtc pool_step (imap (op_prog demo_instance) demo_ops, (fresh_data tt demo_cfg, ([], 0)))
    (demo_run.1, demo_run.2).
Proof. rewrite <- surjective_pairing. apply run_schedule_steps. Qed.

Lemma instance_calls_ordered_witness :
  demo_run.2.2.1 = [CDelete 4; CKill 2; CStarted 0; CStart 0] /\ calls_ok demo_run.2.2.1.
Proof.
  split; [reflexivity|].
  apply (instance_calls_ordered demo_instance demo_ops tt demo_cfg 0 demo_run.1 demo_run.2
           demo_run_reached).
Defined.

Lemma start_succeeds_once_witness : pid_cell demo_run.2.1 = Some 7%Z.
Proof.
  apply (start_succeeds_once demo_instance demo_ops tt demo_cfg 0 demo_run.1 demo_run.2
           demo_run_reached 0 0 7 7); reflexivity.
Defined.

Lemma operations_follow_diagram_witness :
  exec (start 3) (fresh_data tt demo_cfg, 0) =
  (Some (Ok 7%Z), (data_with (fresh_data tt demo_cfg) Started (Some 7%Z), 2)).
Proof.
  refine (proj1 (operations_follow_diagram 3 9 (fresh_data tt demo_cfg) 0 2 10 0
                   (Ok 7%Z) (Ok tt) (Ok tt) _ _ _ _ _)); reflexivity.
Defined.
