(* ===== verification/Events.v ===== *)
(** * Events: [crates/containerd-shimkit/src/sandbox/shim/events.rs]

    The events the task service publishes and the senders that publish them. *)

From S2P Require Import Prelude InstanceData.

(** [google.protobuf.Timestamp]: [seconds] an [i64], [nanos] an [i32]. *)
Record Timestamp := MkTimestamp { seconds : Z; nanos : Z }.

(** [ToTimestamp::to_timestamp] *)
Definition to_timestamp (t : DateTime) : Timestamp :=
  MkTimestamp (dt_secs t) (wrap_i32 (dt_nanos t)).

(** The events of [containerd.events], with the fields the service sets. *)
Record TaskIO := MkTaskIO { io_stdin : string; io_stdout : string; io_stderr : string }.

(** [containerd.types.Mount] *)
Record Mount := MkMount { m_type : string; m_source : string; m_options : list string }.

Inductive Event :=
  | TaskCreate (container_id bundle : string) (rootfs : list Mount) (io : TaskIO)
  | TaskStart (container_id : string) (pid : Z)
  | TaskExit (container_id : string) (exit_status : Z) (exited_at : Timestamp) (pid : Z) (id : string)
  | TaskDelete (container_id : string) (pid exit_status : Z) (exited_at : option Timestamp).

(** [trait EventSender]: [send] reports nothing to its caller. *)
Class EventSender (W E : Type) := send : E -> Event -> W -> W.

Section remote.
Context {W Publisher : Type}.
(** [Event::topic] and [RemotePublisher::publish] of [containerd_shim] *)
Context (topic : Event -> string).
Context (publish : Publisher -> string -> string -> Event -> M W string unit).

(** [struct RemoteEventSender] and its [Inner] *)
Record RemoteEventSender := MkRemoteEventSender {
  sender_namespace : string;
  publisher : Publisher;
}.

(** [RemoteEventSender::new] *)
Definition remote_new (namespace : string) (p : Publisher) : RemoteEventSender :=
  MkRemoteEventSender namespace p.

(** [RemoteEventSender::send]: a failure to publish is only logged. *)
Definition remote_send (self : RemoteEventSender) (e : Event) (w : W) : W :=
  let '(_, w') := publish (publisher self) (topic e) (sender_namespace self) e w in w'.

Instance remote_sender : EventSender W RemoteEventSender := remote_send.
End remote.

(** The nanoseconds of a [DateTime<Utc>], leap seconds included, fit [i32]. *)
Lemma to_timestamp_exact t :
  (0 <= dt_nanos t < 2000000000)%Z ->
  to_timestamp t = MkTimestamp (dt_secs t) (dt_nanos t).
Proof. intros Ht. unfold to_timestamp. by rewrite wrap_i32_small by lia. Qed.
