(* ===== verification/Hooks.v ===== *)
(** * Hooks: [crates/containerd-shimkit/src/sandbox/oci.rs]

    The prestart hooks of a container: one process per hook, in order, each
    given the state of the container on its standard input and waited for.
    The processes of the operating system are parameters. *)

From S2P Require Import Prelude RustStr Errors.
From Stdlib Require Import Ascii.

Definition equals : ascii := "="%char.

(** One entry [NAME=VALUE] of [parse_env]: the name is the first part of the
    split, the value the other parts joined again. *)
Definition parse_entry (e : string) : option (string * string) :=
  match split equals e with
  | key :: rest => Some (key, join (str_of_char equals) rest)
  | [] => None
  end.

(** [parse_env]: the collected [HashMap]; a later entry replaces an earlier one. *)
Definition parse_env (envs : list string) : gmap string string :=
  foldl (fun m kv => <[kv.1 := kv.2]> m) ∅ (omap parse_entry envs).

(** [oci_spec::runtime::Hook] and the hooks of the spec the code reads. *)
Record Hook := MkHook {
  hook_path : string;
  hook_args : option (list string);
  hook_env : option (list string);
}.

Record HooksSpec := MkHooksSpec { prestart : option (list Hook) }.

(** What [std::process::Command] starts: the environment is cleared before
    the entries of the hook are set. *)
Record Command := MkCommand {
  program : string;
  arg0 : string;
  args : list string;
  envs : gmap string string;
}.

Inductive ErrorKind := BrokenPipe | NotFound | OtherKind.

#[export] Instance ErrorKind_eq_dec : EqDecision ErrorKind.
Proof. solve_decision. Defined.

Definition command_of (h : Hook) : Command :=
  let '(a0, rest) :=
    match hook_args h with
    | Some (a :: l) => (a, l)
    | _ => (hook_path h, [])
    end in
  MkCommand (hook_path h) a0 rest
    (match hook_env h with Some env => parse_env env | None => ∅ end).

(** The state a hook reads: [{ "pid": <pid> }]. *)
Definition state_json (pid : Z) : string :=
  "{ " +:+ debug_str "pid" +:+ ": " +:+ pretty pid +:+ " }".

Section run.
Context {W Child Status : Type}.
(** [std::process]: [spawn], [write_all] on the piped stdin, [kill], [wait].
    An error of [spawn] and [wait] is its text. *)
Context (spawn : Command -> M W string Child).
Context (write_all : Child -> string -> M W ErrorKind unit).
Context (kill_child : Child -> M W string unit).
Context (wait_child : Child -> M W string Status).
Context (pid : Z).

(** One iteration of the loop of [setup_prestart_hooks]. *)
Definition run_hook (h : Hook) : M W Error unit :=
  let! hook_process := mmap_err (fun _ => E_Any "Failed to execute hook") (spawn (command_of h)) in
  let! r := mtry (write_all hook_process (state_json pid)) in
  let! _ := (match r with
             | Err e =>
                 if decide (e ≠ BrokenPipe)
                 then let! _ := mtry (kill_child hook_process) in mret tt
                 else mret tt
             | _ => mret tt
             end) in
  let! _ := mmap_err E_Stdio (wait_child hook_process) in
  mret tt.

(** [setup_prestart_hooks]; [unwrap] on hooks without prestart hooks panics. *)
Definition setup_prestart_hooks (hooks : option HooksSpec) : M W Error unit :=
  match hooks with
  | Some h =>
      match prestart h with
      | Some prestart_hooks => foldM_M (fun _ hook => run_hook hook) tt prestart_hooks
      | None => mpanic
      end
  | None => mret tt
  end.
End run.

(** ** Lemmas *)

Lemma parse_entry_split e :
  parse_entry e =
  Some (match split_once equals e with Some kv => kv | None => (e, EmptyString) end).
Proof.
  unfold parse_entry. rewrite split_first.
  destruct (split_once equals e) as [[k v]|]; [|done]. by rewrite join_split.
Qed.

Definition entry_of (e : string) : string * string :=
  match split_once equals e with Some kv => kv | None => (e, EmptyString) end.

Lemma parse_env_fold l : parse_env l = foldl (fun m e => <[(entry_of e).1 := (entry_of e).2]> m) ∅ l.
Proof.
  unfold parse_env. generalize (∅ : gmap string string).
  induction l as [|e l IH]; intros m; [done|]. cbn [omap list_omap].
  rewrite parse_entry_split. simpl. apply IH.
Qed.

Lemma parse_env_snoc l e :
  parse_env (l ++ [e]) = <[(entry_of e).1 := (entry_of e).2]> (parse_env l).
Proof. by rewrite !parse_env_fold, foldl_app. Qed.

(** ** Properties *)

(** The environment of a hook maps each name to the text after the first
    [=] of the last entry with that name (values keep their own [=]), and
    has no other name. *)
Theorem parse_env_last_wins (envs : list string) (name value : string) :
  parse_env envs !! name = Some value <->
  exists before e after, envs = before ++ e :: after /\ entry_of e = (name, value) /\
    forall e', e' ∈ after -> (entry_of e').1 ≠ name.
Proof.
  induction envs as [|x l IH] using rev_ind.
  - split; [done|]. intros (b & e & a & H & _). by destruct b.
  - rewrite parse_env_snoc. destruct (entry_of x) as [k v] eqn:Hx. simpl.
    destruct (decide (k = name)) as [<-|Hne].
    + rewrite lookup_insert_eq. split.
      * intros [= <-]. exists l, x, []. split_and!; [done|done|set_solver].
      * intros (b & e & a & Happ & He & Ha). f_equal.
        destruct a as [|y a _] using rev_ind.
        -- apply app_inj_tail in Happ as [_ ->]. congruence.
        -- rewrite app_comm_cons, app_assoc in Happ. apply app_inj_tail in Happ as [_ ->].
           destruct (Ha y); [set_solver|by rewrite Hx].
    + rewrite lookup_insert_ne by done. rewrite IH. split.
      * intros (b & e & a & -> & He & Ha). exists b, e, (a ++ [x]).
        split_and!; [by rewrite <- app_assoc|done|].
        intros e' [He'|He']%elem_of_app; [auto|].
        apply list_elem_of_singleton in He' as ->. by rewrite Hx.
      * intros (b & e & a & Happ & He & Ha).
        destruct a as [|y a _] using rev_ind.
        -- apply app_inj_tail in Happ as [_ ->]. congruence.
        -- rewrite app_comm_cons, app_assoc in Happ. apply app_inj_tail in Happ as [-> ->].
           exists b, e, a. split_and!; [done|done|set_solver].
Qed.

(** The hooks run in order until one cannot be spawned or waited for; what
    a hook does with its input and the status it exits with are ignored, so a
    container whose hooks all fail is created all the same.  A spec that has
    hooks but no prestart hooks panics. *)
Theorem hooks_ignore_exit_status {W Child Status : Type}
    (spawn : Command -> M W string Child) (write_all : Child -> string -> M W ErrorKind unit)
    (kill_child : Child -> M W string unit) (wait_child : Child -> M W string Status) (pid : Z)
    (hooks : list Hook) (w : W)
    (Hspawn : forall c w, is_ok (spawn c w).1)
    (Hwrite : forall c s w, (write_all c s w).1 ≠ Panic)
    (Hkill : forall c w, (kill_child c w).1 ≠ Panic)
    (Hwait : forall c w, is_ok (wait_child c w).1) :
  let run := setup_prestart_hooks spawn write_all kill_child wait_child pid in
  (run (Some (MkHooksSpec (Some hooks))) w).1 = Ok tt /\
  run (Some (MkHooksSpec None)) w = (Panic, w) /\
  run None w = (Ok tt, w).
Proof.
  split_and!; [|done..]. simpl. revert w. induction hooks as [|h hs IH]; intros w; [done|]. simpl.
  unfold mbind at 1. destruct (run_hook _ _ _ _ _ h w) as [r w1] eqn:Hrun.
  enough (r = Ok tt) as -> by apply IH. revert Hrun.
  unfold run_hook, mbind, mmap_err, mtry, mret.
  specialize (Hspawn (command_of h) w).
  destruct (spawn (command_of h) w) as [[c|e|] w2]; try done. simpl.
  specialize (Hwrite c (state_json pid) w2).
  destruct (write_all c (state_json pid) w2) as [[u|e|] w3]; try done; simpl.
  - specialize (Hwait c w3). by destruct (wait_child c w3) as [[s|e|] w4]; intros [= <- _].
  - destruct (decide (e ≠ BrokenPipe)); simpl.
    + specialize (Hkill c w3). destruct (kill_child c w3) as [[u|e'|] w4]; try done; simpl;
        specialize (Hwait c w4); by destruct (wait_child c w4) as [[s|e2|] w5]; intros [= <- _].
    + specialize (Hwait c w3). by destruct (wait_child c w3) as [[s|e2|] w4]; intros [= <- _].
Qed.

(** A hook that exits with status 1, in a world that lists the commands. *)
Lemma hooks_ignore_exit_status_witness :
  (setup_prestart_hooks (W := list Command) (Child := unit) (Status := Z)
     (fun c w => (Ok tt, c :: w)) (fun _ _ w => (Err OtherKind, w))
     (fun _ w => (Ok tt, w)) (fun _ w => (Ok 1%Z, w)) 42
     (Some (MkHooksSpec (Some [MkHook "/bin/hook" (Some ["hook"; "x"]) (Some ["A=b=c"])]))) []).1
  = Ok tt.
Proof.
  apply (hooks_ignore_exit_status (W := list Command) (Child := unit) (Status := Z)
           (fun c w => (Ok tt, c :: w)) (fun _ _ w => (Err OtherKind, w))
           (fun _ w => (Ok tt, w)) (fun _ w => (Ok 1%Z, w)) 42); done.
Defined.
