(* ===== verification/InstanceUtils.v ===== *)
(** * InstanceUtils: [crates/containerd-shimkit/src/sandbox/instance_utils.rs]
    and [crates/containerd-shimkit/src/sys/unix]

    The root directory of the runtime and the standard streams of a container.
    The file system and the JSON reader are parameters. *)

From S2P Require Import Prelude RustStr Errors InstanceData Hooks.

(** [DEFAULT_CONTAINER_ROOT_DIR] *)
Definition DEFAULT_CONTAINER_ROOT_DIR : string := "/run/containerd".

(** [struct Options] *)
Record Options := MkOptions { root : option string }.

(** An [std::io::Error]: its kind and its text. *)
Record IoError := MkIoError { io_kind : ErrorKind; io_text : string }.

Section config.
Context {W File : Type}.
(** [File::open], [serde_json::from_reader] at [Options] and the open of
    [sys/unix/stdio.rs] (read and write). *)
Context (file_open : string -> M W IoError File).
Context (read_options : File -> M W string Options).
Context (open_rw : string -> M W IoError File).

(** [InstanceConfig::determine_rootdir] *)
Definition determine_rootdir (self : InstanceConfig) (runtime : string) : M W Error string :=
  let rootdir := path_join DEFAULT_CONTAINER_ROOT_DIR runtime in
  let! file := mtry (file_open (path_join (bundle self) "options.json")) in
  match file with
  | Ok f =>
      let! options := mmap_err E_Json (read_options f) in
      mret (path_join (default rootdir (root options)) (namespace self))
  | Err e =>
      if decide (io_kind e = NotFound) then mret (path_join rootdir (namespace self))
      else mthrow (E_Stdio (io_text e))
  | Panic => mpanic
  end.

Definition open_stream (path : string) : M W IoError File :=
  if is_empty path then mthrow (MkIoError NotFound "File not found")
  else open_rw path.

(** [open_stdin], [open_stdout] and [open_stderr] *)
Definition open_stdin (self : InstanceConfig) : M W IoError File := open_stream (stdin self).
Definition open_stdout (self : InstanceConfig) : M W IoError File := open_stream (stdout self).
Definition open_stderr (self : InstanceConfig) : M W IoError File := open_stream (stderr self).
End config.

(** ** Properties *)

(** The root directory is the namespace under the root that
    [options.json] of the bundle names, or under [/run/containerd/<runtime>]
    when the file or its [root] is missing; any other failure to open or to
    parse the file is an error. *)
Theorem rootdir_from_options {W File : Type}
    (file_open : string -> M W IoError File) (read_options : File -> M W string Options)
    (self : InstanceConfig) (runtime : string) (w : W) :
  let under r := path_join r (namespace self) in
  let fallback := path_join DEFAULT_CONTAINER_ROOT_DIR runtime in
  (determine_rootdir file_open read_options self runtime w).1 =
  match file_open (path_join (bundle self) "options.json") w with
  | (Ok f, w1) =>
      match (read_options f w1).1 with
      | Ok (MkOptions (Some r)) => Ok (under r)
      | Ok (MkOptions None) => Ok (under fallback)
      | Err e => Err (E_Json e)
      | Panic => Panic
      end
  | (Err (MkIoError NotFound _), _) => Ok (under fallback)
  | (Err (MkIoError _ text), _) => Err (E_Stdio text)
  | (Panic, _) => Panic
  end.
Proof.
  simpl. unfold determine_rootdir, mbind, mtry, mmap_err.
  destruct (file_open _ w) as [[f|[[] text]|] w1]; simpl; try done.
  destruct (read_options f w1) as [[[[r|]]|e|] w2]; done.
Qed.
