(* ===== verification/Local.v ===== *)
(** * Local: [crates/containerd-shimkit/src/sandbox/shim/local.rs] (and
    [sys/unix/metrics.rs])

    The task service of the shim.  Its state is shared by the threads that
    serve requests and by the tasks they spawn: an [Arc<InstanceData>] is a
    location of [heap], the [HashMap] maps ids to locations, so an instance
    that was removed from the map is still shared by who holds its location.
    [me] names the thread that runs a handler. *)

From S2P Require Import Prelude Async RustStr Errors TaskState Waitable InstanceData Events Hooks.

(** ** Configuration of the runtime *)

(** [protobuf::well_known_types::any::Any] *)
Record Any := MkAny { type_url : string; any_value : list Byte.byte }.

Section options.
(** [prost]'s decoding of the [Options] message, the field [config_body] of
    the result, and [toml::from_str] at [Config]; errors are texts. *)
Context (decode_options : list Byte.byte -> outcome string string).
Context (toml_from_str : string -> outcome string Config).

(** [Config::get_from_options]; the error is the text of the [anyhow::Error]. *)
Definition get_from_options (options : option Any) : outcome string Config :=
  match options with
  | None => Ok (MkConfig false)
  | Some opts =>
      if decide (type_url opts = "runtimeoptions.v1.Options") then
        let? body := decode_options (any_value opts) in
        map_err (fun err => "invalid argument: invalid shim options: " +:+ err)
          (toml_from_str body)
      else Err ("Invalid options type " +:+ type_url opts)
  end.
End options.

(** ** What the service asks of its host

    [Spec::load], [canonicalize_rootfs] and the accessors of [oci_spec], the
    file system, the mounts, the processes of the hooks, the metrics. *)
Class Host (W Spec Child Status : Type) := {
  decode_options : list Byte.byte -> outcome string string;
  toml_from_str : string -> outcome string Config;
  spec_load : string -> M W string Spec;
  canonicalize_rootfs : string -> Spec -> M W string Spec;
  spec_root : Spec -> option string;
  spec_hooks : Spec -> option HooksSpec;
  create_dir_all : string -> M W string unit;
  mount_rootfs : option string -> option string -> list string -> string -> M W ShimError unit;
  hook_spawn : Command -> M W string Child;
  hook_write_all : Child -> string -> M W ErrorKind unit;
  hook_kill : Child -> M W string unit;
  hook_wait : Child -> M W string Status;
  process_id : Z;
  collect_metrics : Z -> M W string Any;
}.

(** ** Requests and responses, with the fields the service reads and sets *)

Record CreateTaskRequest := MkCreate {
  cr_id : string;
  cr_bundle : string;
  cr_rootfs : list Mount;
  cr_terminal : bool;
  cr_stdin : string;
  cr_stdout : string;
  cr_stderr : string;
  cr_checkpoint : string;
  cr_parent_checkpoint : string;
  cr_options : option Any;
}.

(** [StartRequest], [DeleteRequest], [WaitRequest] and [StateRequest] *)
Record TaskRequest := MkTask { rq_id : string; rq_exec_id : string }.

Record KillRequest := MkKill { kl_id : string; kl_exec_id : string; kl_signal : Z }.

(** [task::Status] *)
Inductive Status := CREATED | RUNNING | STOPPED.

Record DeleteResponse := MkDeleteResponse {
  del_pid : Z;
  del_exit_status : Z;
  del_exited_at : option Timestamp;
}.

Record WaitResponse := MkWaitResponse { wt_exit_status : Z; wt_exited_at : Timestamp }.

Record StateResponse := MkStateResponse {
  st_bundle : string;
  st_stdin : string;
  st_stdout : string;
  st_stderr : string;
  st_pid : Z;
  st_exit_status : Z;
  st_exited_at : option Timestamp;
  st_status : Status;
}.

Record ConnectResponse := MkConnectResponse { shim_pid : Z; task_pid : Z }.

(** The task [task_start] spawns: it owns an [Arc] of the instance. *)
Record ExitWatch := MkExitWatch { ew_loc : nat; ew_id : string; ew_pid : Z }.

(** ** The shared state *)

Record Shared (W X T N : Type) := MkShared {
  heap : list (InstanceData T);
  instances : gmap string nat;
  exit : cell unit N;
  spawned : list ExitWatch;
  world : W;
  outbox : X;
}.
Arguments MkShared {W X T N}.
Arguments heap {W X T N}.
Arguments instances {W X T N}.
Arguments exit {W X T N}.
Arguments spawned {W X T N}.
Arguments world {W X T N}.
Arguments outbox {W X T N}.

Section updates.
Context {W X T N : Type}.
Implicit Types s : Shared W X T N.

Definition with_data l (dw : InstanceData T * W) s : Shared W X T N :=
  MkShared (<[l := dw.1]> (heap s)) (instances s) (exit s) (spawned s) dw.2 (outbox s).
Definition with_world (w : W) s : Shared W X T N :=
  MkShared (heap s) (instances s) (exit s) (spawned s) w (outbox s).
Definition with_exit (c : cell unit N) s : Shared W X T N :=
  MkShared (heap s) (instances s) c (spawned s) (world s) (outbox s).
Definition with_outbox (x : X) s : Shared W X T N :=
  MkShared (heap s) (instances s) (exit s) (spawned s) (world s) x.
Definition with_instances (m : gmap string nat) s : Shared W X T N :=
  MkShared (heap s) m (exit s) (spawned s) (world s) (outbox s).
Definition with_spawned (l : list ExitWatch) s : Shared W X T N :=
  MkShared (heap s) (instances s) (exit s) l (world s) (outbox s).
End updates.

(** [struct Local<T, E>], the fields that do not change *)
Record Local (E : Type) := MkLocal {
  events : E;
  local_namespace : string;
  local_containerd_address : string;
}.
Arguments MkLocal {E}.
Arguments events {E}.
Arguments local_namespace {E}.
Arguments local_containerd_address {E}.

Section service.
Context {W X T E N K Spec Child HookStatus : Type}.
Context `{!Instance W T} `{!EventSender X E} `{!Notify N K} `{!Host W Spec Child HookStatus}.
Context (self : Local E).
Abbreviation Sh := (Shared W X T N).

(** [Local::new]: the [exit] cell is the caller's. *)
Definition new (ev : E) (ns addr : string) : Local E := MkLocal ev ns addr.

Definition initial (c : cell unit N) (w : W) (x : X) : Sh := MkShared [] ∅ c [] w x.

(** *** Access to the parts of the state *)

Definition on_host {A} (m : M W Error A) : async Sh Error A :=
  alift (fun s => let '(r, w) := m (world s) in (r, with_world w s)).

Definition on_engine {A} (p : async W Error A) : async Sh Error A :=
  zoom (fun s => Some (world s)) with_world p.

(** A method of the instance at a location. *)
Definition on_data {A} (l : nat) (p : async (InstanceData T * W) Error A) : async Sh Error A :=
  zoom (fun s => (fun d => (d, world s)) <$> heap s !! l) (with_data l) p.

(** [self.events.send(..)] *)
Definition send_event (ev : Event) : async Sh Error unit :=
  atomic (fun s => (tt, with_outbox (send (events self) ev (outbox s)) s)).

Definition get_instance (id : string) : async Sh Error nat :=
  alift (fun s => (ok_or (instances s !! id) (E_NotFound id), s)).

Definition has_instance (id : string) : async Sh Error bool :=
  atomic (fun s => (bool_decide (is_Some (instances s !! id)), s)).

Definition is_empty : async Sh Error bool :=
  atomic (fun s => (bool_decide (instances s = ∅), s)).

(** [self.instances.write().await.insert(id, Arc::new(instance))] *)
Definition insert_instance (id : string) (d : InstanceData T) : async Sh Error unit :=
  atomic (fun s =>
    (tt, MkShared (heap s ++ [d]) (<[id := length (heap s)]> (instances s)) (exit s)
           (spawned s) (world s) (outbox s))).

(** [self.instances.write().await.remove(id)] *)
Definition remove_instance (id : string) : async Sh Error unit :=
  atomic (fun s => (tt, with_instances (base.delete id (instances s)) s)).

Definition guard (b : bool) (e : Error) : async Sh Error unit :=
  if b then athrow e else aret tt.

(** [none_if(|x| x.is_empty())] *)
Definition none_if_empty (s : string) : option string :=
  if RustStr.is_empty s then None else Some s.

(** *** The handlers *)

(** The mounts of [task_create], on the rootfs. *)
Definition mount_all (mounts : list Mount) (rootfs : string) : M W Error unit :=
  foldM_M (fun _ m => mmap_err E_Shim
             (mount_rootfs (none_if_empty (m_type m)) (none_if_empty (m_source m))
                (m_options m) rootfs)) tt mounts.

(** [task_create], from the load of the spec to the mounts. *)
Definition prepare_rootfs (req : CreateTaskRequest) : async Sh Error Spec :=
  on_host (
    let! spec := mmap_err (fun err => E_InvalidArgument ("could not load runtime spec: " +:+ err))
                   (spec_load (path_join (cr_bundle req) "config.json")) in
    let! spec := mmap_err (fun err => E_Shim (SE_InvalidArgument
                                                ("could not canonicalize rootfs: " +:+ err)))
                   (canonicalize_rootfs (cr_bundle req) spec) in
    let! rootfs := mlift (ok_or (spec_root spec)
                     (E_InvalidArgument "rootfs is not set in runtime spec")) in
    let! _ := mtry (create_dir_all rootfs) in
    let! _ := mount_all (cr_rootfs req) rootfs in
    mret spec).

Definition instance_config (req : CreateTaskRequest) (config : Config) : InstanceConfig :=
  MkInstanceConfig (cr_stdin req) (cr_stdout req) (cr_stderr req) (cr_bundle req)
    (local_namespace self) (local_containerd_address self) config.

Definition created_event (req : CreateTaskRequest) : Event :=
  TaskCreate (cr_id req) (cr_bundle req) (cr_rootfs req)
    (MkTaskIO (cr_stdin req) (cr_stdout req) (cr_stderr req)).

(** [task_create]; the response is the pid of the shim. *)
Definition task_create (req : CreateTaskRequest) : async Sh Error Z :=
  let* config := Done (map_err (fun err => E_InvalidArgument ("invalid shim options: " +:+ err))
                         (get_from_options decode_options toml_from_str (cr_options req))) in
  let* _ := guard (negb (RustStr.is_empty (cr_checkpoint req))
                   || negb (RustStr.is_empty (cr_parent_checkpoint req)))
              (E_Shim (SE_Unimplemented "checkpoint is not supported")) in
  let* _ := guard (cr_terminal req) (E_InvalidArgument "terminal is not supported") in
  let* exists_ := has_instance (cr_id req) in
  let* _ := guard exists_ (E_AlreadyExists (cr_id req)) in
  let* spec := prepare_rootfs req in
  let* instance := on_engine (InstanceData.new (cr_id req) (instance_config req config)) in
  let* _ := insert_instance (cr_id req) instance in
  let* _ := send_event (created_event req) in
  let* _ := on_host (setup_prestart_hooks hook_spawn hook_write_all hook_kill hook_wait
                       process_id (spec_hooks spec)) in
  aret process_id.

(** The future [task_start] spawns. *)
Definition exit_watch (me : nat) (t : ExitWatch) : async Sh Error unit :=
  let* res := on_data (ew_loc t) (InstanceData.wait me) in
  send_event (TaskExit (ew_id t) res.1 (to_timestamp res.2) (ew_pid t) (ew_id t)).

Definition spawn (t : ExitWatch) : async Sh Error unit :=
  atomic (fun s => (tt, with_spawned (spawned s ++ [t]) s)).

(** A worker of the runtime takes a spawned future and runs it. *)
Definition worker (me : nat) : async Sh Error unit :=
  let* t := await (fun s => match spawned s with
                            | t :: l => Some (t, with_spawned l s)
                            | [] => None
                            end) in
  exit_watch me t.

Definition task_start (me : nat) (req : TaskRequest) : async Sh Error Z :=
  let* _ := guard (negb (RustStr.is_empty (rq_exec_id req)))
              (E_Shim (SE_Unimplemented "exec is not supported")) in
  let* i := get_instance (rq_id req) in
  let* pid := on_data i (InstanceData.start me) in
  let* _ := send_event (TaskStart (rq_id req) pid) in
  let* _ := spawn (MkExitWatch i (rq_id req) pid) in
  aret pid.

Definition no_exec (exec_id : string) : async Sh Error unit :=
  guard (negb (RustStr.is_empty exec_id)) (E_InvalidArgument "exec is not supported").

Definition task_kill (me : nat) (req : KillRequest) : async Sh Error unit :=
  let* _ := no_exec (kl_exec_id req) in
  let* i := get_instance (kl_id req) in
  let* _ := on_data i (InstanceData.kill me (kl_signal req)) in
  aret tt.

(** [i.wait().now_or_never().unzip()], with [to_timestamp] on the time *)
Definition poll_exit (me : nat) (i : nat) : async Sh Error (option Z * option Timestamp) :=
  let* o := on_data i (now_or_never (InstanceData.wait me)) in
  aret (fst <$> o, (fun x => to_timestamp x.2) <$> o).

Definition task_delete (me : nat) (req : TaskRequest) : async Sh Error DeleteResponse :=
  let* _ := no_exec (rq_exec_id req) in
  let* i := get_instance (rq_id req) in
  let* _ := on_data i (InstanceData.delete me) in
  let* pid := on_data i InstanceData.pid in
  let pid := default 0%Z pid in
  let* exited := poll_exit me i in
  let '(exit_code, timestamp) := exited in
  let* _ := remove_instance (rq_id req) in
  let* _ := send_event (TaskDelete (rq_id req) pid (default 0%Z exit_code) timestamp) in
  aret (MkDeleteResponse pid (default 0%Z exit_code) timestamp).

Definition task_wait (me : nat) (req : TaskRequest) : async Sh Error WaitResponse :=
  let* _ := no_exec (rq_exec_id req) in
  let* i := get_instance (rq_id req) in
  let* res := on_data i (InstanceData.wait me) in
  aret (MkWaitResponse res.1 (to_timestamp res.2)).

Definition status_of (pid exit_code : option Z) : Status :=
  match pid, exit_code with
  | None, _ => CREATED
  | Some _, None => RUNNING
  | Some _, Some _ => STOPPED
  end.

Definition config_of (i : nat) : async Sh Error InstanceConfig :=
  on_data i (atomic (fun s => (cfg s.1, s))).

Definition task_state (me : nat) (req : TaskRequest) : async Sh Error StateResponse :=
  let* _ := no_exec (rq_exec_id req) in
  let* i := get_instance (rq_id req) in
  let* pid := on_data i InstanceData.pid in
  let* exited := poll_exit me i in
  let '(exit_code, timestamp) := exited in
  let* c := config_of i in
  aret (MkStateResponse (bundle c) (stdin c) (stdout c) (stderr c) (default 0%Z pid)
          (default 0%Z exit_code) timestamp (status_of pid exit_code)).

(** [get_metrics] of [sys/unix/metrics.rs] *)
Definition get_metrics (pid : Z) : M W Error Any := mmap_err E_Any (collect_metrics pid).

Definition task_stats (id : string) : async Sh Error Any :=
  let* i := get_instance id in
  let* o := on_data i InstanceData.pid in
  let* pid := Done (ok_or o (E_InvalidArgument "task is not running")) in
  on_host (get_metrics pid).

Definition task_connect (id : string) : async Sh Error ConnectResponse :=
  let* i := get_instance id in
  let* pid := on_data i InstanceData.pid in
  aret (MkConnectResponse process_id (default 0%Z pid)).

(** [shutdown]: the result of [set] is ignored. *)
Definition task_shutdown : async Sh Error unit :=
  let* empty := is_empty in
  if empty : bool
  then let* _ := atry (E' := Error)
                   (zoom (fun s => Some (exit s)) with_exit (Waitable.set tt)) in aret tt
  else aret tt.

(** *** The ttrpc methods: [Ok(self.task_*(req).block_on()?)] *)

Context (shim_display : ShimError -> string).

Definition rpc {A} (p : async Sh Error A) : async Sh TtrpcError A :=
  amap_err (into_ttrpc shim_display) p.

Definition create (req : CreateTaskRequest) := rpc (task_create req).
Definition start (me : nat) (req : TaskRequest) := rpc (task_start me req).
Definition kill (me : nat) (req : KillRequest) := rpc (task_kill me req).
Definition delete (me : nat) (req : TaskRequest) := rpc (task_delete me req).
Definition wait (me : nat) (req : TaskRequest) := rpc (task_wait me req).
Definition connect (id : string) := rpc (task_connect id).
Definition state (me : nat) (req : TaskRequest) := rpc (task_state me req).
Definition shutdown := rpc task_shutdown.
Definition stats (id : string) := rpc (task_stats id).
End service.

(** ** Shutdown *)

Section any_sender.
Context {W X T N K : Type} `{!Instance W T} `{!Notify N K}.

Lemma exec_shutdown (s : Shared W X T N) :
  exists c, exec task_shutdown s = (Some (Ok tt), with_exit c s) /\
    value c = if bool_decide (instances s = ∅) then Some tt else value (exit s).
Proof.
  unfold task_shutdown. simpl. destruct (bool_decide (instances s = ∅)) eqn:Hb; simpl.
  - destruct (exit s) as [[[]|] n] eqn:Hx; simpl.
    + eexists. split; [done|]. done.
    + eexists. split; [done|]. done.
  - exists (exit s). by destruct s.
Qed.
End any_sender.

(** ** Properties *)

(** [shutdown] ends the shim exactly when no task is left: it sets the exit
    cell if the table is empty and otherwise leaves the cell alone. *)
Theorem shutdown_only_when_empty {W X T N K : Type} `{!Instance W T} `{!Notify N K}
    (s : Shared W X T N) :
  exists c, exec task_shutdown s = (Some (Ok tt), with_exit c s) /\
    value c = if bool_decide (instances s = ∅) then Some tt else value (exit s).
Proof. apply exec_shutdown. Qed.
