(* ===== verification/Service.v ===== *)
(** * Service: what the task service of [Local] promises

    The service seen from containerd is a table from task ids to a state and
    a pid, and the events it published.  [serves] says how each request
    changes the table, what it answers and what it publishes; the refinement
    theorem says that every handler of [Local], run alone on any well-formed
    state and over any engine, does one of the steps of [serves]. *)

From S2P Require Import Prelude Async RustStr Errors TaskState Waitable InstanceData Events Hooks Local.

(** ** The abstract service *)

Abbreviation table := (gmap string (TaskState * option Z)).

Inductive request :=
  | RqCreate (r : CreateTaskRequest)
  | RqStart (r : TaskRequest)
  | RqKill (r : KillRequest)
  | RqDelete (r : TaskRequest)
  | RqWait (r : TaskRequest)
  | RqState (r : TaskRequest)
  | RqStats (id : string)
  | RqConnect (id : string)
  | RqShutdown
  | RqWorker.

Inductive reply :=
  | RpPid (p : Z)
  | RpUnit
  | RpDelete (r : DeleteResponse)
  | RpWait (r : WaitResponse)
  | RpState (r : StateResponse)
  | RpStats (a : Any)
  | RpConnect (r : ConnectResponse).

(** The task has left the engine: its state is [Exited]. *)
Definition exited (tb tb' : table) : Prop :=
  exists id st p, tb !! id = Some (st, p) /\ tb' = <[id := (Exited, p)]> tb.

Inductive serves : request -> table -> outcome Error reply -> list Event -> table -> Prop :=
  (* create: an unknown id is added in [Created]; a hook that fails is
     reported after the task was added and announced *)
  | serves_create r p tb : tb !! cr_id r = None ->
      serves (RqCreate r) tb p [created_event r] (<[cr_id r := (Created, None)]> tb)
  | serves_create_err r e tb : serves (RqCreate r) tb (Err e) [] tb
  (* start: only from [Created]; the pid answered is the pid announced *)
  | serves_start r p tb : tb !! rq_id r = Some (Created, None) ->
      serves (RqStart r) tb (Ok (RpPid p)) [TaskStart (rq_id r) p]
        (<[rq_id r := (Started, Some p)]> tb)
  | serves_start_failed r e tb : tb !! rq_id r = Some (Created, None) ->
      serves (RqStart r) tb (Err e) [] (<[rq_id r := (Exited, None)]> tb)
  | serves_start_refused r e tb :
      rq_exec_id r ≠ EmptyString \/ tb !! rq_id r ≠ Some (Created, None) ->
      serves (RqStart r) tb (Err e) [] tb
  (* kill: never changes the table, succeeds only in [Started] *)
  | serves_kill r p tb : tb !! kl_id r = Some (Started, p) ->
      serves (RqKill r) tb (Ok RpUnit) [] tb
  | serves_kill_err r e tb : serves (RqKill r) tb (Err e) [] tb
  (* delete: from [Created] and [Exited]; the entry goes away *)
  | serves_delete r st p code at_ tb : tb !! rq_id r = Some (st, p) -> deletable st ->
      serves (RqDelete r) tb (Ok (RpDelete (MkDeleteResponse (default 0%Z p) code at_)))
        [TaskDelete (rq_id r) (default 0%Z p) code at_] (base.delete (rq_id r) tb)
  | serves_delete_failed r e st p tb : tb !! rq_id r = Some (st, p) -> deletable st ->
      serves (RqDelete r) tb (Err e) [] (<[rq_id r := (Exited, p)]> tb)
  | serves_delete_refused r e tb :
      rq_exec_id r ≠ EmptyString \/ (forall st p, tb !! rq_id r = Some (st, p) -> ¬ deletable st) ->
      serves (RqDelete r) tb (Err e) [] tb
  (* wait: the task is [Exited] when it answers *)
  | serves_wait r x st p tb : tb !! rq_id r = Some (st, p) ->
      serves (RqWait r) tb (Ok (RpWait x)) [] (<[rq_id r := (Exited, p)]> tb)
  | serves_wait_err r e tb :
      rq_exec_id r ≠ EmptyString \/ tb !! rq_id r = None -> serves (RqWait r) tb (Err e) [] tb
  (* state: reports [RUNNING] without an exit status, and leaves [Exited]
     behind when it found one *)
  | serves_state_running r x st p tb : tb !! rq_id r = Some (st, p) ->
      st_exited_at x = None -> st_exit_status x = 0%Z -> st_pid x = default 0%Z p ->
      st_status x = (if p is Some _ then RUNNING else CREATED) ->
      serves (RqState r) tb (Ok (RpState x)) [] tb
  | serves_state_exited r x st p tb : tb !! rq_id r = Some (st, p) ->
      st_exited_at x ≠ None -> st_pid x = default 0%Z p ->
      st_status x = (if p is Some _ then STOPPED else CREATED) ->
      serves (RqState r) tb (Ok (RpState x)) [] (<[rq_id r := (Exited, p)]> tb)
  | serves_state_err r e tb :
      rq_exec_id r ≠ EmptyString \/ tb !! rq_id r = None -> serves (RqState r) tb (Err e) [] tb
  (* stats and connect: read only *)
  | serves_stats id a st p tb : tb !! id = Some (st, Some p) ->
      serves (RqStats id) tb (Ok (RpStats a)) [] tb
  | serves_stats_err id e tb : serves (RqStats id) tb (Err e) [] tb
  | serves_connect id x st p tb : tb !! id = Some (st, p) -> task_pid x = default 0%Z p ->
      serves (RqConnect id) tb (Ok (RpConnect x)) [] tb
  | serves_connect_err id tb : tb !! id = None ->
      serves (RqConnect id) tb (Err (E_NotFound id)) [] tb
  | serves_shutdown tb : serves RqShutdown tb (Ok RpUnit) [] tb
  (* a spawned future: announces the exit once the engine is done *)
  | serves_worker id code at_ p tb tb' : tb' = tb \/ exited tb tb' ->
      serves RqWorker tb (Ok RpUnit) [TaskExit id code at_ p id] tb'.

(** ** The requests on [Local], with a sender that records the events *)

Definition log_sender : EventSender (list Event) unit := fun _ e l => l ++ [e].

Section refinement.
Context {W T N K Spec Child HookStatus : Type}.
Context `{!Instance W T} `{!Notify N K} `{!Host W Spec Child HookStatus}.
Context (self : Local unit).
#[local] Existing Instance log_sender.
Abbreviation Sh := (Shared W (list Event) T N).
Implicit Types s : Sh.

Definition handle (me : nat) (rq : request) : async Sh Error reply :=
  match rq with
  | RqCreate r => let* p := task_create self r in aret (RpPid p)
  | RqStart r => let* p := task_start self me r in aret (RpPid p)
  | RqKill r => let* _ := task_kill me r in aret RpUnit
  | RqDelete r => let* x := task_delete self me r in aret (RpDelete x)
  | RqWait r => let* x := task_wait me r in aret (RpWait x)
  | RqState r => let* x := task_state me r in aret (RpState x)
  | RqStats id => let* a := task_stats id in aret (RpStats a)
  | RqConnect id => let* x := task_connect id in aret (RpConnect x)
  | RqShutdown => let* _ := task_shutdown in aret RpUnit
  | RqWorker => let* _ := worker self me in aret RpUnit
  end.

Definition view s : table := omap (fun l => tview <$> heap s !! l) (instances s).

Record wf s : Prop := {
  wf_data l d : heap s !! l = Some d -> data_ok d;
  wf_loc id l : instances s !! id = Some l -> l < length (heap s);
  wf_inj id id' l : instances s !! id = Some l -> instances s !! id' = Some l -> id = id';
  wf_spawned t : t ∈ spawned s -> ew_loc t < length (heap s);
}.

(** *** Running the pieces of a handler *)

Lemma exec_on_data {A} l (p : async (InstanceData T * W) Error A) s d :
  heap s !! l = Some d ->
  exec (on_data l p) s =
  let '(r, dw) := exec p (d, world s) in (r, with_data l dw s).
Proof.
  intros Hl. unfold on_data. rewrite (exec_zoom _ _ p s (d, world s)).
  - by destruct (exec p (d, world s)).
  - intros s' [d' w'] Hs. unfold with_data. simpl.
    destruct (heap s' !! l) as [d0|] eqn:Hd; [|by destruct Hs].
    rewrite list_lookup_insert_eq by (by eapply lookup_lt_Some). done.
  - intros s' [d1 w1] [d2 w2]. unfold with_data. simpl. by rewrite list_insert_insert_eq.
  - intros s' [d' w'] Hs. destruct (heap s' !! l) as [d0|] eqn:Hd; [|done]. simplify_eq/=.
    unfold with_data. simpl. rewrite list_insert_id by done. by destruct s'.
  - by rewrite Hl.
Qed.

Lemma exec_on_engine {A} (p : async W Error A) s :
  exec (on_engine p) s = let '(r, w) := exec p (world s) in (r, with_world w s).
Proof.
  unfold on_engine. rewrite (exec_zoom _ _ p s (world s)); try done.
  intros [] w [= <-]. done.
Qed.

(** *** The view *)

Lemma view_lookup s id l d :
  instances s !! id = Some l -> heap s !! l = Some d -> view s !! id = Some (tview d).
Proof. intros Hi Hl. unfold view. rewrite lookup_omap, Hi. simpl. by rewrite Hl. Qed.

Lemma view_none s id : wf s -> instances s !! id = None <-> view s !! id = None.
Proof.
  intros Hwf. unfold view. rewrite lookup_omap.
  destruct (instances s !! id) as [l|] eqn:Hi; simpl; [|done].
  pose proof (wf_loc s Hwf id l Hi) as [d Hd]%lookup_lt_is_Some. by rewrite Hd.
Qed.

Lemma wf_get s id l : wf s -> instances s !! id = Some l ->
  exists d, heap s !! l = Some d /\ data_ok d /\ view s !! id = Some (tview d).
Proof.
  intros Hwf Hi. pose proof (wf_loc s Hwf id l Hi) as [d Hd]%lookup_lt_is_Some.
  exists d. split_and!; [done|by eapply wf_data|by eapply view_lookup].
Qed.

Lemma wf_with_data s l d w : wf s -> data_ok d -> wf (with_data l (d, w) s).
Proof.
  intros Hwf Hd. split; simpl.
  - intros l' d' [(_ & <- & _)|[_ Hl]]%list_lookup_insert_Some; [done|by eapply wf_data].
  - intros. rewrite length_insert. by eapply wf_loc.
  - apply wf_inj, Hwf.
  - intros. rewrite length_insert. by eapply wf_spawned.
Qed.

Lemma view_with_data s id l d d' w :
  wf s -> instances s !! id = Some l -> heap s !! l = Some d ->
  view (with_data l (d', w) s) = <[id := tview d']> (view s).
Proof.
  intros Hwf Hi Hl. apply map_eq. intros id'. unfold view. simpl. rewrite lookup_omap.
  destruct (decide (id = id')) as [<-|Hne].
  - rewrite Hi, lookup_insert_eq. simpl.
    by rewrite list_lookup_insert_eq by (by eapply lookup_lt_Some).
  - rewrite lookup_insert_ne, lookup_omap by done.
    destruct (instances s !! id') as [l'|] eqn:Hi'; simpl; [|done].
    rewrite list_lookup_insert_ne; [done|]. intros <-. by destruct Hne; eapply wf_inj.
Qed.

Lemma view_with_data_orphan s l d w :
  (forall id, instances s !! id ≠ Some l) -> view (with_data l (d, w) s) = view s.
Proof.
  intros Hno. apply map_eq. intros id. unfold view. simpl. rewrite !lookup_omap.
  destruct (instances s !! id) as [l'|] eqn:Hi; simpl; [|done].
  rewrite list_lookup_insert_ne; [done|]. intros <-. by destruct (Hno id).
Qed.

Lemma view_same_data s id l d w :
  wf s -> instances s !! id = Some l -> heap s !! l = Some d ->
  view (with_data l (d, w) s) = view s.
Proof.
  intros Hwf Hi Hl. erewrite view_with_data by done. apply insert_id. by eapply view_lookup.
Qed.
(** *** Inversion of the pieces of a run *)

Lemma aret_inv {A B} (p : async Sh Error A) (f : A -> B) s r s' :
  exec (let* x := p in aret (f x)) s = (Some r, s') ->
  exists r0, exec p s = (Some r0, s') /\ r = omap_ok f r0.
Proof.
  rewrite exec_abind. destruct (exec p s) as [[[a|e|]|] s1]; simpl; intros; simplify_eq; eauto.
Qed.

Lemma guard_bind_inv {A} b e (k : unit -> async Sh Error A) s r s' :
  exec (abind (guard b e) k) s = (Some r, s') ->
  (b = true /\ r = Err e /\ s' = s) \/ (b = false /\ exec (k tt) s = (Some r, s')).
Proof. destruct b; simpl; [intros [= <- <-]|]; auto. Qed.

Lemma get_bind_inv {A} id (k : nat -> async Sh Error A) s r s' :
  wf s -> exec (abind (get_instance id) k) s = (Some r, s') ->
  (view s !! id = None /\ r = Err (E_NotFound id) /\ s' = s) \/
  (exists i d, instances s !! id = Some i /\ heap s !! i = Some d /\ data_ok d /\
     view s !! id = Some (tview d) /\ exec (k i) s = (Some r, s')).
Proof.
  intros Hwf. simpl. destruct (instances s !! id) as [i|] eqn:Hi; simpl; intros Hrun.
  - right. destruct (wf_get s id i Hwf Hi) as (d & Hd & Hok & Hv). eauto 10.
  - left. simplify_eq. by rewrite <- view_none.
Qed.

Lemma data_bind_inv {A B} l (p : async (InstanceData T * W) Error A)
    (k : A -> async Sh Error B) s d r s' :
  heap s !! l = Some d -> exec (abind (on_data l p) k) s = (Some r, s') -> r ≠ Panic ->
  (exists a d' w', exec p (d, world s) = (Some (Ok a), (d', w')) /\
     exec (k a) (with_data l (d', w') s) = (Some r, s')) \/
  (exists e d' w', exec p (d, world s) = (Some (Err e), (d', w')) /\
     r = Err e /\ s' = with_data l (d', w') s).
Proof.
  intros Hl. rewrite exec_abind, (exec_on_data _ _ _ _ Hl).
  destruct (exec p (d, world s)) as [[[a|e|]|] [d' w']]; intros; simplify_eq; eauto 10.
Qed.

Lemma is_empty_guard x : negb (RustStr.is_empty x) = true <-> x ≠ EmptyString.
Proof. by destruct x. Qed.

Definition refined (rq : request) (s : Sh) (r : outcome Error reply) (s' : Sh) : Prop :=
  wf s' /\
  exists evs, outbox s' = outbox s ++ evs /\ serves rq (view s) r evs (view s').

(** A handler that answers with an error before it touched anything. *)
Lemma refined_quiet rq s r : wf s -> serves rq (view s) r [] (view s) -> refined rq s r s.
Proof. intros Hwf Hs. split; [done|]. exists []. by rewrite app_nil_r. Qed.

Lemma refined_data rq s id l d d' w r :
  wf s -> instances s !! id = Some l -> heap s !! l = Some d -> data_ok d' ->
  serves rq (view s) r [] (<[id := tview d']> (view s)) ->
  refined rq s r (with_data l (d', w) s).
Proof.
  intros Hwf Hi Hl Hok Hs. split; [by apply wf_with_data|]. exists [].
  rewrite app_nil_r. split; [done|]. by erewrite view_with_data.
Qed.

Lemma refined_same_data rq s id l d w r :
  wf s -> instances s !! id = Some l -> heap s !! l = Some d ->
  serves rq (view s) r [] (view s) -> refined rq s r (with_data l (d, w) s).
Proof.
  intros Hwf Hi Hl Hs. eapply refined_data; [done..|by eapply wf_data|].
  by rewrite insert_id by (by eapply view_lookup).
Qed.

(** [wf] and [view] read neither the outbox, nor the world, nor the cell. *)
Lemma wf_outbox s x : wf s -> wf (with_outbox x s).
Proof. by intros []. Qed.

Lemma wf_exit s c : wf s -> wf (with_exit c s).
Proof. by intros []. Qed.

Lemma wf_world s w : wf s -> wf (with_world w s).
Proof. by intros []. Qed.

Lemma wf_spawn s t :
  wf s -> ew_loc t < length (heap s) -> wf (with_spawned (spawned s ++ [t]) s).
Proof.
  intros [] Ht. split; simpl; try done.
  intros t' [?|Heq]%elem_of_app; [auto|]. by apply list_elem_of_singleton in Heq as ->.
Qed.

Lemma refine_start me rq s r s' :
  wf s -> exec (task_start self me rq) s = (Some r, s') -> r ≠ Panic ->
  refined (RqStart rq) s (omap_ok RpPid r) s'.
Proof.
  intros Hwf Hrun Hr.
  apply guard_bind_inv in Hrun as [(Hb & -> & ->)|[_ Hrun]].
  { apply is_empty_guard in Hb. apply refined_quiet; [done|]. apply serves_start_refused. auto. }
  apply (get_bind_inv _ _ _ _ _ Hwf) in Hrun
    as [(Hn & -> & ->)|(i & d & Hi & Hd & Hok & Hv & Hrun)].
  { apply refined_quiet; [done|]. apply serves_start_refused. right. by rewrite Hn. }
  apply (data_bind_inv _ _ _ _ _ _ _ Hd) in Hrun
    as [(p & d' & w' & Hs & Hrun)|(e & d' & w' & Hs & -> & ->)]; [..|done].
  - destruct (start_outcomes _ _ _ _ _ _ Hok Hs) as (Hok' & Hv1 & Hv2); [done|].
    simpl in Hrun. simplify_eq. rewrite Hv1 in Hv. split.
    + apply (wf_spawn (with_outbox _ (with_data _ _ _))); [by apply wf_outbox, wf_with_data|]. simpl.
      rewrite length_insert. by eapply lookup_lt_Some.
    + eexists. split; [done|]. change (view _) with (view (with_data i (d', w') s)) at 2.
      erewrite view_with_data by done. rewrite Hv2. by apply serves_start.
  - destruct (start_outcomes _ _ _ _ _ _ Hok Hs) as (Hok' & [[Hv1 Hv2]|[Hv1 ->]]); [done|..].
    + eapply refined_data; [done..|]. rewrite Hv2. apply serves_start_failed. by rewrite Hv, Hv1.
    + eapply refined_same_data; [done..|]. apply serves_start_refused. right. rewrite Hv. by intros [= Heq].
Qed.

Lemma no_exec_bind_inv {A} x (k : unit -> async Sh Error A) s r s' :
  exec (abind (no_exec x) k) s = (Some r, s') ->
  (x ≠ EmptyString /\ is_err r /\ s' = s) \/ exec (k tt) s = (Some r, s').
Proof.
  intros [(Hb & -> & ->)|[_ Hrun]]%guard_bind_inv; [|auto].
  apply is_empty_guard in Hb. auto.
Qed.

Lemma refine_kill me rq s r s' :
  wf s -> exec (task_kill me rq) s = (Some r, s') -> r ≠ Panic ->
  refined (RqKill rq) s (omap_ok (fun _ => RpUnit) r) s'.
Proof.
  intros Hwf Hrun Hr.
  apply no_exec_bind_inv in Hrun as [(Hb & He & ->)|Hrun].
  { destruct r; try done. apply refined_quiet; [done|]. apply serves_kill_err. }
  apply (get_bind_inv _ _ _ _ _ Hwf) in Hrun
    as [(Hn & -> & ->)|(i & d & Hi & Hd & Hok & Hv & Hrun)].
  { apply refined_quiet; [done|]. apply serves_kill_err. }
  apply (data_bind_inv _ _ _ _ _ _ _ Hd) in Hrun
    as [([] & d' & w' & Hs & Hrun)|(e & d' & w' & Hs & -> & ->)]; [..|done];
    destruct (kill_outcomes _ _ _ _ _ _ _ Hok Hs) as (-> & Hst).
  - simpl in Hrun. simplify_eq. eapply refined_same_data; [done..|].
    specialize (Hst I). destruct (tview d) as [st p]. simpl in Hst. subst.
    by eapply serves_kill.
  - eapply refined_same_data; [done..|]. apply serves_kill_err.
Qed.

Lemma refine_wait me rq s r s' :
  wf s -> exec (task_wait me rq) s = (Some r, s') -> r ≠ Panic ->
  refined (RqWait rq) s (omap_ok RpWait r) s'.
Proof.
  intros Hwf Hrun Hr.
  apply no_exec_bind_inv in Hrun as [(Hb & He & ->)|Hrun].
  { destruct r; try done. apply refined_quiet; [done|]. apply serves_wait_err. auto. }
  apply (get_bind_inv _ _ _ _ _ Hwf) in Hrun
    as [(Hn & -> & ->)|(i & d & Hi & Hd & Hok & Hv & Hrun)].
  { apply refined_quiet; [done|]. apply serves_wait_err. auto. }
  apply (data_bind_inv _ _ _ _ _ _ _ Hd) in Hrun
    as [(x & d' & w' & Hs & Hrun)|(e & d' & w' & Hs & -> & ->)]; [..|done];
    destruct (wait_outcomes _ _ _ _ _ _ Hok Hs) as (Hok' & Hv'); try done; [].
  simpl in Hrun. simplify_eq. eapply refined_data; [done..|]. rewrite Hv'.
  by eapply serves_wait.
Qed.

Lemma with_same_data s i d : heap s !! i = Some d -> with_data i (d, world s) s = s.
Proof. intros Hd. unfold with_data. simpl. rewrite list_insert_id by done. by destruct s. Qed.

Lemma heap_with_data s i d d' w : heap s !! i = Some d -> heap (with_data i (d', w) s) !! i = Some d'.
Proof. intros Hd. simpl. by rewrite list_lookup_insert_eq by (by eapply lookup_lt_Some). Qed.

Lemma with_data_twice s i dw dw' : with_data i dw' (with_data i dw s) = with_data i dw' s.
Proof. unfold with_data. simpl. by rewrite list_insert_insert_eq. Qed.

(** A poll for the exit status. *)
Lemma poll_bind_inv {A} me i (k : _ -> async Sh Error A) s d r s' :
  heap s !! i = Some d -> data_ok d ->
  exec (abind (poll_exit me i) k) s = (Some r, s') -> r ≠ Panic ->
  exists o d' w', data_ok d' /\
    tview d' = (if o is Some _ then (Exited, (tview d).2) else tview d) /\
    exec (k (fst <$> o, (fun x => to_timestamp x.2) <$> o)) (with_data i (d', w') s) = (Some r, s').
Proof.
  intros Hd Hok Hrun Hr. unfold poll_exit in Hrun. rewrite exec_abind, exec_abind in Hrun.
  rewrite (exec_on_data _ _ _ _ Hd), exec_now_or_never in Hrun.
  destruct (exec (InstanceData.wait me) (d, world s)) as [ro [d' w']] eqn:Hw.
  assert (ro ≠ Some Panic) as Hro.
  { intros ->. simpl in Hrun. by simplify_eq. }
  destruct (wait_outcomes _ _ _ _ _ _ Hok Hw Hro) as [Hok' Hv'].
  destruct ro as [[x|e|]|]; simpl in Hrun; try done.
  - by exists (Some x), d', w'.
  - subst. by exists None, d, w'.
Qed.

Lemma refine_state me rq s r s' :
  wf s -> exec (task_state me rq) s = (Some r, s') -> r ≠ Panic ->
  refined (RqState rq) s (omap_ok RpState r) s'.
Proof.
  intros Hwf Hrun Hr.
  apply no_exec_bind_inv in Hrun as [(Hb & He & ->)|Hrun].
  { destruct r; try done. apply refined_quiet; [done|]. apply serves_state_err. auto. }
  apply (get_bind_inv _ _ _ _ _ Hwf) in Hrun
    as [(Hn & -> & ->)|(i & d & Hi & Hd & Hok & Hv & Hrun)].
  { apply refined_quiet; [done|]. apply serves_state_err. auto. }
  apply (data_bind_inv _ _ _ _ _ _ _ Hd) in Hrun
    as [(p & d' & w' & [= <- <- <-] & Hrun)|(e & d' & w' & Hs & _)]; [..|done]; [|done].
  rewrite with_same_data in Hrun by done.
  apply (poll_bind_inv _ _ _ _ _ _ _ Hd Hok) in Hrun as (o & d' & w' & Hok' & Hv' & Hrun); [|done].
  pose proof (heap_with_data s i d d' w' Hd) as Hd'.
  unfold config_of in Hrun. apply (data_bind_inv _ _ _ _ _ _ _ Hd') in Hrun
    as [(p & d2 & w2 & [= <- <- <-] & Hrun)|(e & d2 & w2 & Hs & _)]; [..|done]; [|done].
  rewrite with_data_twice in Hrun. simpl in Hrun. simplify_eq.
  eapply (refined_data _ _ _ i d d' w'); [done..|]. rewrite Hv'.
  destruct o as [x|]; simpl.
  - eapply serves_state_exited; [done..| |]; by destruct (pid_cell d).
  - rewrite insert_id by done. eapply serves_state_running; [done..|]; by destruct (pid_cell d).
Qed.
Lemma wf_remove s id : wf s -> wf (with_instances (base.delete id (instances s)) s).
Proof.
  intros []. split; simpl; try done.
  - by intros id' l [_ ?]%lookup_delete_Some; eauto.
  - intros id1 id2 l [_ ?]%lookup_delete_Some [_ ?]%lookup_delete_Some. eauto.
Qed.

Lemma view_remove s id :
  view (with_instances (base.delete id (instances s)) s) = base.delete id (view s).
Proof. unfold view. simpl. apply omap_delete. Qed.

Lemma refine_delete me rq s r s' :
  wf s -> exec (task_delete self me rq) s = (Some r, s') -> r ≠ Panic ->
  refined (RqDelete rq) s (omap_ok RpDelete r) s'.
Proof.
  intros Hwf Hrun Hr.
  apply no_exec_bind_inv in Hrun as [(Hb & He & ->)|Hrun].
  { destruct r; try done. apply refined_quiet; [done|]. apply serves_delete_refused. auto. }
  apply (get_bind_inv _ _ _ _ _ Hwf) in Hrun
    as [(Hn & -> & ->)|(i & d & Hi & Hd & Hok & Hv & Hrun)].
  { apply refined_quiet; [done|]. apply serves_delete_refused. right. by rewrite Hn. }
  apply (data_bind_inv _ _ _ _ _ _ _ Hd) in Hrun
    as [(u & d1 & w1 & Hs & Hrun)|(e & d1 & w1 & Hs & -> & ->)]; [..|done];
    pose proof (delete_outcomes _ _ _ _ _ _ Hok Hs) as Hout.
  2:{ destruct Hout as (Hok1 & [[Hv1 Hv2]|[Hv1 ->]]); [done|..].
      - eapply refined_data; [done..|]. rewrite Hv2. eapply serves_delete_failed; [|done].
        by destruct (tview d).
      - eapply refined_same_data; [done..|]. apply serves_delete_refused. right.
        rewrite Hv. destruct (tview d) as [st0 p0]. by intros st p [= <- <-]. }
  destruct Hout as (Hok1 & Hdel & Hv1); [done|].
  pose proof (heap_with_data s i d d1 w1 Hd) as Hd1.
  apply (data_bind_inv _ _ _ _ _ _ _ Hd1) in Hrun
    as [(p & d2 & w2 & [= <- <- <-] & Hrun)|(e & d2 & w2 & Hs2 & _)]; [..|done]; [|done].
  rewrite with_data_twice in Hrun.
  apply (poll_bind_inv _ _ _ _ _ _ _ Hd1 Hok1) in Hrun as (o & d2 & w2 & Hok2 & Hv2 & Hrun); [|done].
  rewrite with_data_twice in Hrun. simpl in Hrun. simplify_eq. split.
  - apply wf_outbox, (wf_remove (with_data i (d2, w2) s)), wf_with_data; done.
  - eexists. split; [done|].
    change (view (with_outbox _ ?s1)) with (view s1).
    rewrite (view_remove (with_data i (d2, w2) s)). erewrite view_with_data by done.
    rewrite delete_insert_eq. apply (f_equal snd) in Hv1. simpl in Hv1. rewrite Hv1.
    by eapply serves_delete.
Qed.

Lemma refine_stats id s r s' :
  wf s -> exec (task_stats id) s = (Some r, s') -> r ≠ Panic ->
  refined (RqStats id) s (omap_ok RpStats r) s'.
Proof.
  intros Hwf Hrun Hr. apply (get_bind_inv _ _ _ _ _ Hwf) in Hrun
    as [(Hn & -> & ->)|(i & d & Hi & Hd & Hok & Hv & Hrun)].
  { apply refined_quiet; [done|]. apply serves_stats_err. }
  apply (data_bind_inv _ _ _ _ _ _ _ Hd) in Hrun
    as [(p & d2 & w2 & [= <- <- <-] & Hrun)|(e & d2 & w2 & Hs2 & _)]; [..|done]; [|done].
  rewrite with_same_data in Hrun by done. simpl in Hrun.
  destruct (pid_cell d) as [p|] eqn:Hp; simpl in Hrun.
  - destruct (get_metrics p (world s)) as [r0 w0]. simplify_eq.
    split; [by apply wf_world|]. exists []. rewrite app_nil_r. split; [done|].
    destruct r as [a|e|]; [|apply serves_stats_err|done].
    eapply serves_stats. rewrite <- Hp. exact Hv.
  - simplify_eq. apply refined_quiet; [done|]. apply serves_stats_err.
Qed.

Lemma refine_connect id s r s' :
  wf s -> exec (task_connect id) s = (Some r, s') -> r ≠ Panic ->
  refined (RqConnect id) s (omap_ok RpConnect r) s'.
Proof.
  intros Hwf Hrun Hr. apply (get_bind_inv _ _ _ _ _ Hwf) in Hrun
    as [(Hn & -> & ->)|(i & d & Hi & Hd & Hok & Hv & Hrun)].
  { apply refined_quiet; [done|]. by apply serves_connect_err. }
  apply (data_bind_inv _ _ _ _ _ _ _ Hd) in Hrun
    as [(p & d2 & w2 & [= <- <- <-] & Hrun)|(e & d2 & w2 & Hs2 & _)]; [..|done]; [|done].
  rewrite with_same_data in Hrun by done. simpl in Hrun. simplify_eq.
  apply refined_quiet; [done|]. by eapply serves_connect.
Qed.

Lemma refine_shutdown s r s' :
  wf s -> exec task_shutdown s = (Some r, s') -> refined RqShutdown s (omap_ok (fun _ => RpUnit) r) s'.
Proof.
  intros Hwf Hrun. destruct (exec_shutdown s) as (c & He & _). rewrite He in Hrun. simplify_eq.
  split; [by apply wf_exit|]. exists []. rewrite app_nil_r. split; [done|apply serves_shutdown].
Qed.

Lemma refine_worker me s r s' :
  wf s -> exec (worker self me) s = (Some r, s') -> r ≠ Panic ->
  refined RqWorker s (omap_ok (fun _ => RpUnit) r) s'.
Proof.
  intros Hwf Hrun Hr. unfold worker, await in Hrun. rewrite exec_abind in Hrun.
  cbn [exec aret] in Hrun. destruct (spawned s) as [|t l] eqn:Hsp; [done|].
  cbn [exec aret] in Hrun. unfold exit_watch in Hrun.
  destruct (lookup_lt_is_Some_2 (heap s) (ew_loc t)) as [d Hd].
  { apply wf_spawned; [done|]. rewrite Hsp. set_solver. }
  assert (wf (with_spawned l s)) as Hwf1.
  { destruct Hwf as [H1 H2 H3 H4]. split; simpl; try done. intros t' Ht'. apply H4. rewrite Hsp. set_solver. }
  pose proof (wf_data _ Hwf _ _ Hd) as Hok.
  apply (data_bind_inv _ _ _ (with_spawned l s) _ _ _ Hd) in Hrun
    as [(x & d' & w' & Hs & Hrun)|(e & d' & w' & Hs & -> & ->)]; [..|done];
    destruct (wait_outcomes _ _ _ _ _ _ Hok Hs) as (Hok' & Hv'); try done; [].
  simpl in Hrun. simplify_eq. split; [by apply wf_outbox, wf_with_data|].
  eexists. split; [done|]. apply serves_worker.
  change (view (with_outbox _ ?s1)) with (view s1).
  destruct (decide (map_Exists (fun _ l' => l' = ew_loc t) (instances s))) as [Hex|Hno].
  - right. destruct Hex as (id & l' & Hi & ->).
    exists id, (tview d).1, (tview d).2. split.
    + rewrite (view_lookup s id _ d) by done. by destruct (tview d).
    + rewrite <- Hv'. by erewrite (view_with_data (with_spawned l s)).
  - left. rewrite (view_with_data_orphan (with_spawned l s)); [done|].
    intros id Hi. apply Hno. by exists id, (ew_loc t).
Qed.

Lemma wf_insert s id d :
  wf s -> instances s !! id = None -> data_ok d ->
  wf (exec (insert_instance id d) s).2 /\
  view (exec (insert_instance id d) s).2 = <[id := tview d]> (view s).
Proof.
  intros [H1 H2 H3 H4] Hid Hd.
  assert (forall id' l, instances s !! id' = Some l -> l ≠ length (heap s)) as Hold.
  { intros id' l Hl. specialize (H2 id' l Hl). lia. }
  simpl. split; [split; simpl|].
  - intros l d' [Hl|[_ Hl]]%lookup_app_Some; [eauto|].
    apply list_lookup_singleton_Some in Hl as [_ <-]. done.
  - intros id' l [[_ <-]|[_ Hl]]%lookup_insert_Some; rewrite length_app; simpl; [lia|].
    specialize (H2 id' l Hl). lia.
  - intros id1 id2 l [[<- <-]|[Hne Hl]]%lookup_insert_Some [[<- Heq]|[Hne2 Hl2]]%lookup_insert_Some;
      try done; [by destruct (Hold id2 _ Hl2)|by destruct (Hold id1 _ Hl)|eauto].
  - intros t Ht. rewrite length_app. specialize (H4 t Ht). lia.
  - apply map_eq. intros id'. unfold view. simpl. rewrite lookup_omap.
    destruct (decide (id = id')) as [<-|Hne].
    + rewrite !lookup_insert_eq. simpl. rewrite lookup_app_r by lia.
      by rewrite Nat.sub_diag.
    + rewrite !lookup_insert_ne, lookup_omap by done.
      destruct (instances s !! id') as [l|] eqn:Hl; simpl; [|done].
      by rewrite lookup_app_l by (by eapply H2).
Qed.

Lemma host_bind_inv {A B} (m : M W Error A) (k : A -> async Sh Error B) s r s' :
  exec (abind (on_host m) k) s = (Some r, s') -> r ≠ Panic ->
  (exists a w, exec (k a) (with_world w s) = (Some r, s')) \/
  (exists e w, r = Err e /\ s' = with_world w s).
Proof.
  unfold on_host. simpl. destruct (m (world s)) as [[a|e|] w]; simpl; intros; simplify_eq; eauto.
Qed.

Lemma refine_create rq s r s' :
  wf s -> exec (task_create self rq) s = (Some r, s') -> r ≠ Panic ->
  refined (RqCreate rq) s (omap_ok RpPid r) s'.
Proof.
  intros Hwf Hrun Hr. unfold task_create in Hrun.
  assert (forall e w, refined (RqCreate rq) s (Err e) (with_world w s)) as Hquiet.
  { intros e w. split; [by apply wf_world|]. exists []. rewrite app_nil_r.
    split; [done|apply serves_create_err]. }
  assert (forall e, refined (RqCreate rq) s (Err e) s) as Hquiet'.
  { intros e. apply refined_quiet; [done|apply serves_create_err]. }
  apply exec_bind_inv in Hrun as [(config & s1 & [= _ <-] & Hrun)|(e & [= _ <-] & ->)]; [|apply Hquiet'|done].
  apply guard_bind_inv in Hrun as [(_ & -> & ->)|[_ Hrun]]; [apply Hquiet'|].
  apply guard_bind_inv in Hrun as [(_ & -> & ->)|[_ Hrun]]; [apply Hquiet'|].
  simpl in Hrun.
  apply guard_bind_inv in Hrun as [(_ & -> & ->)|[Hno Hrun]]; [apply Hquiet'|].
  assert (instances s !! cr_id rq = None) as Hid.
  { apply bool_decide_eq_false in Hno. by apply eq_None_not_Some. }
  apply host_bind_inv in Hrun as [(spec & w1 & Hrun)|(e & w1 & -> & ->)]; [|apply Hquiet|done].
  rewrite exec_abind, exec_on_engine in Hrun.
  destruct (exec (InstanceData.new _ _) _) as [[[d|e|]|] w2] eqn:Hnew; try done.
  2:{ simplify_eq. apply (Hquiet e w2). }
  2:{ by simplify_eq. }
  assert (data_ok d /\ tview d = (Created, None)) as [Hok Hv].
  { unfold InstanceData.new in Hnew. rewrite exec_abind in Hnew.
    destruct (exec (inst_new _ _) _) as [[[t|e|]|] w3]; simplify_eq/=. by split. }
  change (with_world w2 (with_world w1 s)) with (with_world w2 s) in Hrun.
  destruct (wf_insert (with_world w2 s) (cr_id rq) d) as [Hwf2 Hv2]; [by apply wf_world|done..|].
  rewrite Hv in Hv2. simpl in Hrun, Hwf2, Hv2.
  destruct (setup_prestart_hooks _ _ _ _ _ _ w2) as [[u|e|] w3]; simpl in Hrun; simplify_eq;
    (split; [by apply wf_world, wf_outbox|]; eexists; split; [done|];
     change (view (with_world _ (with_outbox _ ?s1))) with (view s1); rewrite Hv2;
     apply serves_create, (proj1 (view_none _ _ Hwf)), Hid).
Qed.
End refinement.

(** ** Liveness: a handler answers when the engine does *)

Definition answers {S E A} (p : async S E A) (s : S) : Prop := (exec p s).1 ≠ None.

Lemma answers_bind {S E A B} (p : async S E A) (k : A -> async S E B) s :
  answers p s -> (forall a s', exec p s = (Some (Ok a), s') -> answers (k a) s') ->
  answers (abind p k) s.
Proof.
  unfold answers. rewrite exec_abind. intros Hp Hk.
  destruct (exec p s) as [[[a|e|]|] s']; simpl; eauto.
Qed.

(** The engine finishes what it is asked to create, and to start, kill and
    delete when the instance is ready. *)
Class EngineAnswers (W T : Type) `{!Instance W T} (ready : W -> T -> Prop) : Prop := {
  new_answers id c w : answers (inst_new id c) w;
  start_answers t w : ready w t -> answers (inst_start t) w;
  kill_answers t sig w : ready w t -> answers (inst_kill t sig) w;
  delete_answers t w : ready w t -> answers (inst_delete t) w;
}.

Section liveness.
Context {W T N K Spec Child HookStatus : Type}.
Context `{!Instance W T} `{!Notify N K} `{!Host W Spec Child HookStatus}.
Context (engine_ready : W -> T -> Prop) `{!EngineAnswers W T engine_ready}.
Context (self : Local unit).
#[local] Existing Instance log_sender.
Abbreviation Sh := (Shared W (list Event) T N).
Implicit Types s : Sh.

Lemma data_start_answers me (d : InstanceData T) w :
  data_ok d -> engine_ready w (instance d) -> answers (InstanceData.start me) (d, w).
Proof.
  intros [Hu _ Hc _] Hready. destruct (decide (content (InstanceData.state d) = Created)) as [Hcr|Hcr].
  - pose proof (start_answers (instance d) w Hready) as Ha. unfold answers in *.
    destruct (exec (inst_start (instance d)) w) as [[r|] w'] eqn:He; [|done].
    by rewrite (exec_start _ _ _ _ _ Hu Hcr (Hc Hcr) He).
  - destruct (exec_start_refused me d w Hu Hcr) as [e He]. unfold answers. by rewrite He.
Qed.

Lemma data_kill_answers me sig (d : InstanceData T) w :
  data_ok d -> engine_ready w (instance d) -> answers (InstanceData.kill me sig) (d, w).
Proof.
  intros [Hu _ Hc _] Hready. destruct (decide (content (InstanceData.state d) = Started)) as [Hcr|Hcr].
  - pose proof (kill_answers (instance d) sig w Hready) as Ha. unfold answers in *.
    destruct (exec (inst_kill (instance d) sig) w) as [[r|] w'] eqn:He; [|done].
    by rewrite (exec_kill _ _ _ _ _ _ Hu Hcr He).
  - destruct (exec_kill_refused me sig d w Hu Hcr) as [e He]. unfold answers. by rewrite He.
Qed.

Lemma data_delete_answers me (d : InstanceData T) w :
  data_ok d -> engine_ready w (instance d) -> answers (InstanceData.delete me) (d, w).
Proof.
  intros [Hu _ Hc _] Hready.
  destruct (decide (content (InstanceData.state d) = Created \/ content (InstanceData.state d) = Exited)) as [Hd|Hd].
  - pose proof (delete_answers (instance d) w Hready) as Ha. unfold answers in *.
    destruct (exec (inst_delete (instance d)) w) as [[r|] w'] eqn:He; [|done].
    by rewrite (exec_delete _ _ _ _ _ Hu Hd He).
  - destruct (exec_delete_refused me d w Hu ltac:(tauto) ltac:(tauto)) as [e He].
    unfold answers. by rewrite He.
Qed.

Lemma on_data_answers {A} l (p : async (InstanceData T * W) Error A) s d :
  heap s !! l = Some d -> answers p (d, world s) -> answers (on_data l p) s.
Proof.
  unfold answers. intros Hl. rewrite (exec_on_data _ _ _ _ Hl). by destruct (exec p (d, world s)).
Qed.

Lemma now_or_never_answers {S E A} (p : async S E A) (s : S) : answers (now_or_never p) s.
Proof. unfold answers. rewrite exec_now_or_never. by destruct (exec p s) as [[]]. Qed.
Lemma on_data_inv {A} l (p : async (InstanceData T * W) Error A) s d r s' :
  heap s !! l = Some d -> exec (on_data l p) s = (r, s') ->
  exists d' w', s' = with_data l (d', w') s /\ heap s' !! l = Some d'.
Proof.
  intros Hl. rewrite (exec_on_data _ _ _ _ Hl).
  destruct (exec p (d, world s)) as [r0 [d' w']]. intros [= <- <-].
  exists d', w'. split; [done|]. by eapply heap_with_data.
Qed.

Lemma guard_answers {A} b e (k : unit -> async Sh Error A) s :
  answers (k tt) s -> answers (abind (guard b e) k) s.
Proof. by destruct b. Qed.

Lemma get_answers {A} id (k : nat -> async Sh Error A) s :
  wf s ->
  (forall i d, heap s !! i = Some d -> data_ok d -> answers (k i) s) ->
  answers (abind (get_instance id) k) s.
Proof.
  intros Hwf Hk. unfold answers in *. simpl.
  destruct (instances s !! id) as [i|] eqn:Hi; simpl; [|done].
  destruct (wf_get s id i Hwf Hi) as (d & Hd & Hok & _). eauto.
Qed.

Lemma data_answers {A B} l (p : async (InstanceData T * W) Error A)
    (k : A -> async Sh Error B) s d :
  heap s !! l = Some d -> answers p (d, world s) ->
  (forall a d' w', heap (with_data l (d', w') s) !! l = Some d' ->
     answers (k a) (with_data l (d', w') s)) ->
  answers (abind (on_data l p) k) s.
Proof.
  intros Hl Hp Hk. apply answers_bind; [by eapply on_data_answers|].
  intros a s' Hs. destruct (on_data_inv _ _ _ _ _ _ Hl Hs) as (d' & w' & -> & Hd'). by apply Hk.
Qed.

Lemma poll_answers {A} me i (k : _ -> async Sh Error A) s d :
  heap s !! i = Some d ->
  (forall a d' w', heap (with_data i (d', w') s) !! i = Some d' ->
     answers (k a) (with_data i (d', w') s)) ->
  answers (abind (poll_exit me i) k) s.
Proof.
  intros Hl Hk. unfold poll_exit. apply answers_bind.
  - eapply data_answers; [done|apply now_or_never_answers|]. by intros.
  - intros a s' Hs. rewrite exec_abind in Hs.
    destruct (exec (on_data _ _) s) as [ro s2] eqn:Hs2.
    destruct (on_data_inv _ _ _ _ _ _ Hl Hs2) as (d' & w' & -> & Hd').
    destruct ro as [[o|e|]|]; simplify_eq/=. by apply Hk.
Qed.

(** [wait] and the spawned futures are the only ones that may stay pending. *)
Definition bounded (rq : request) : bool :=
  match rq with RqWait _ | RqWorker => false | _ => true end.

Lemma on_host_answers {A} (m : M W Error A) s : answers (on_host m) s.
Proof. unfold answers, on_host. simpl. by destruct (m (world s)). Qed.

Lemma create_answers r s : answers (task_create self r) s.
Proof.
  apply answers_bind; [done|intros config s1 [= _ <-]].
  do 2 apply guard_answers. apply answers_bind; [done|intros ex s1 _].
  apply guard_answers, answers_bind; [apply on_host_answers|intros spec s2 _].
  apply answers_bind; [|intros d s3 _].
  - unfold answers. rewrite exec_on_engine.
    enough (answers (InstanceData.new (cr_id r) (instance_config self r config)) (world s2)) as Ha.
    { revert Ha. unfold answers. by destruct (exec _ (world s2)). }
    apply answers_bind; [apply new_answers|done].
  - apply answers_bind; [done|intros _ s4 _]. apply answers_bind; [done|intros _ s5 _].
    apply answers_bind; [apply on_host_answers|done].
Qed.

(** Every instance is ready. *)
Definition all_ready s : Prop := forall i d, heap s !! i = Some d -> engine_ready (world s) (instance d).

Lemma handle_answers me rq s : wf s -> all_ready s -> bounded rq -> answers (handle self me rq) s.
Proof.
  intros Hwf Hready Hrq. destruct rq as [r|r|r|r|r|r|id|id| |]; try done; apply answers_bind; try done.
  - apply create_answers.
  - apply guard_answers, get_answers; [done|]. intros i d Hd Hok.
    eapply data_answers; [done|by eapply data_start_answers, Hready|done].
  - apply guard_answers, get_answers; [done|]. intros i d Hd Hok.
    eapply data_answers; [done|by eapply data_kill_answers, Hready|done].
  - apply guard_answers, get_answers; [done|]. intros i d Hd Hok.
    eapply data_answers; [done|by eapply data_delete_answers, Hready|]. intros _ d1 w1 Hd1.
    eapply data_answers; [done..|]. intros p d2 w2 Hd2.
    eapply poll_answers; [done|]. by intros [].
  - apply guard_answers, get_answers; [done|]. intros i d Hd Hok.
    eapply data_answers; [done..|]. intros p d2 w2 Hd2.
    eapply poll_answers; [done|]. intros [] d3 w3 Hd3.
    by eapply data_answers.
  - apply get_answers; [done|]. intros i d Hd Hok.
    eapply data_answers; [done..|]. intros [p|] d2 w2 Hd2; [|done]. apply on_host_answers.
  - apply get_answers; [done|]. intros i d Hd Hok. by eapply data_answers.
  - destruct (exec_shutdown s) as (c & He & _). unfold answers. by rewrite He.
Qed.
End liveness.

(** ** Properties *)

(** C1: every request the task service handles on its own is a step of the
    abstract service, over any engine and any host: the table of tasks changes
    as [serves] says, the published events are exactly the ones it says, and
    the state stays well formed (no instance is left locked or in
    [Starting], no two ids share an instance, a started task has a pid). *)
Theorem service_refines_table {W T N K Spec Child HookStatus : Type}
    `{!Instance W T} `{!Notify N K} `{!Host W Spec Child HookStatus}
    (self : Local unit) (me : nat) (rq : request)
    (s s' : Shared W (list Event) T N) (r : outcome Error reply)
    (Hwf : wf s) (Hrun : exec (handle self me rq) s = (Some r, s')) (Hr : r ≠ Panic) :
  wf s' /\
  exists evs, outbox s' = outbox s ++ evs /\ serves rq (view s) r evs (view s').
Proof.
  destruct rq; apply aret_inv in Hrun as (ro & Hrun & ->);
    assert (ro ≠ Panic) as Hro by (by intros ->).
  - by eapply refine_create.
  - by eapply refine_start.
  - by eapply refine_kill.
  - by eapply refine_delete.
  - by eapply refine_wait.
  - by eapply refine_state.
  - by eapply refine_stats.
  - by eapply refine_connect.
  - by eapply refine_shutdown.
  - by eapply refine_worker.
Qed.

(** Over an engine that finishes what it is asked to, every request but
    [wait] is answered: no handler run on its own blocks on a lock, and no
    poll for the exit status waits. *)
Theorem requests_are_answered {W T N K Spec Child HookStatus : Type}
    `{!Instance W T} `{!Notify N K} `{!Host W Spec Child HookStatus}
    (engine_ready : W -> T -> Prop) `{!EngineAnswers W T engine_ready}
    (self : Local unit) (me : nat) (rq : request) (s : Shared W (list Event) T N)
    (Hwf : wf s) (Hready : all_ready engine_ready s) (Hrq : bounded rq) :
  exists r s', exec (handle self me rq) s = (Some r, s').
Proof.
  pose proof (handle_answers engine_ready self me rq s Hwf Hready Hrq) as Ha. unfold answers in Ha.
  destruct (exec (handle self me rq) s) as [[r|] s']; [by exists r, s'|done].
Qed.

(** ** Witnesses: the counting engine on a host with an empty root file system *)

#[export] Instance demo_host : Host nat unit unit unit := {
  decode_options _ := Ok EmptyString;
  toml_from_str _ := Ok (MkConfig true);
  spec_load _ := mret tt;
  canonicalize_rootfs _ _ := mret tt;
  spec_root _ := Some "/rootfs";
  spec_hooks _ := None;
  create_dir_all _ := mret tt;
  mount_rootfs _ _ _ _ := mret tt;
  hook_spawn _ := mret tt;
  hook_write_all _ _ := mret tt;
  hook_kill _ := mret tt;
  hook_wait _ := mret tt;
  process_id := 99%Z;
  collect_metrics _ := mret (MkAny "metrics" []);
}.

#[export] Instance demo_engine_answers : EngineAnswers nat unit (fun _ _ => True).
Proof. by split. Qed.

Definition demo_local : Local unit := MkLocal tt "default" "/run/containerd.sock".

Definition demo_create : CreateTaskRequest :=
  MkCreate "c1" "/bundle" [] false EmptyString EmptyString EmptyString EmptyString EmptyString None.

Definition demo_shared : Shared nat (list Event) unit nat := initial Waitable.new 0 [].

Lemma demo_wf : wf demo_shared.
Proof.
  split; [intros l d Hd|intros id l Hl|intros id id' l Hl|intros t Ht]; simpl in *;
    [by rewrite lookup_nil in Hd|by rewrite lookup_empty in Hl..|by apply not_elem_of_nil in Ht].
Qed.

Lemma service_refines_table_witness :
  exists evs, serves (RqCreate demo_create) ∅ (Ok (RpPid 99)) evs
                {["c1" := (Created, None)]}.
Proof.
  destruct (service_refines_table demo_local 0 (RqCreate demo_create) demo_shared
              (exec (handle demo_local 0 (RqCreate demo_create)) demo_shared).2
              (Ok (RpPid 99)) demo_wf) as [_ (evs & _ & Hs)].
  - vm_compute. reflexivity.
  - discriminate.
  - exists evs. vm_compute in Hs. vm_compute. exact Hs.
Defined.

Lemma requests_are_answered_witness :
  exists r s', exec (handle demo_local 0 (RqCreate demo_create)) demo_shared = (Some r, s').
Proof. by apply (requests_are_answered (fun _ _ => True) demo_local 0 (RqCreate demo_create) demo_shared demo_wf). Defined.
