(* ===== verification/ServiceRuns.v ===== *)
(** * ServiceRuns: every interleaving of the handlers of [Local]

    The handlers run on several threads, and the futures [task_start] spawns
    run beside them.  What holds whatever the interleaving, and what does not. *)

From S2P Require Import Prelude Async RustStr Errors TaskState Waitable InstanceData Events Hooks Local Service.

(** The threads: request [i] is served by thread [i]. *)
Definition requests_pool {W T N K Spec Child HookStatus : Type}
    `{!Instance W T} `{!Notify N K} `{!Host W Spec Child HookStatus}
    (self : Local unit) (rqs : list request)
    : list (async (Shared W (list Event) T N) Error reply) :=
  imap (fun me rq => handle self me rq) rqs.

(** A log in which every exit comes after the start of the same task and pid. *)
Inductive announced : list Event -> Prop :=
  | announced_nil : announced []
  | announced_snoc l e :
      announced l ->
      match e with TaskExit _ _ _ p id => TaskStart id p ∈ l | _ => True end ->
      announced (l ++ [e]).

Lemma announced_before l k c code at_ p id :
  announced l -> l !! k = Some (TaskExit c code at_ p id) ->
  exists j, j < k /\ l !! j = Some (TaskStart id p).
Proof.
  induction 1 as [|l e Hl IH He]; [done|].
  intros [Hk|[Hlen Hk]]%lookup_app_Some.
  - destruct (IH Hk) as (j & Hj & Hs). exists j. split; [done|]. by apply lookup_app_l_Some.
  - apply list_lookup_singleton_Some in Hk as [Hz Heq]. subst e.
    apply list_elem_of_lookup in He as [j Hj]. exists j.
    pose proof (lookup_lt_Some _ _ _ Hj). split; [lia|]. by apply lookup_app_l_Some.
Qed.

Section runs.
Context {W T N K Spec Child HookStatus : Type}.
Context `{!Instance W T} `{!Notify N K} `{!Host W Spec Child HookStatus}.
Context (self : Local unit).
#[local] Existing Instance log_sender.
Abbreviation Sh := (Shared W (list Event) T N).
Implicit Types s : Sh.

Definition log_inv s : Prop :=
  announced (outbox s) /\
  forall t, t ∈ spawned s -> TaskStart (ew_id t) (ew_pid t) ∈ outbox s.

Definition log_rely (_ : nat) s s' : Prop := forall e, e ∈ outbox s -> e ∈ outbox s'.

Definition published (e : Event) s : Prop := e ∈ outbox s.

Lemma published_stable i e : stable log_inv log_rely i (published e).
Proof. intros s s' _ _ Hp Hr. by apply Hr. Qed.

(** A step that publishes nothing, or an event that is not an exit, and
    spawns nothing. *)
Definition harmless s s' : Prop :=
  spawned s' = spawned s /\
  (outbox s' = outbox s \/
   exists e, outbox s' = outbox s ++ [e] /\
     match e with TaskExit _ _ _ _ _ => False | _ => True end).

Lemma harmless_keeps i s s' : log_inv s -> harmless s s' -> log_inv s' /\ log_rely i s s'.
Proof.
  intros [Hl Ht] [Hsp [Ho|(e & Ho & He)]]; unfold log_inv, log_rely; rewrite Hsp, Ho.
  - by split.
  - split; [split|].
    + constructor; [done|]. by destruct e.
    + intros t Hin. apply elem_of_app. auto.
    + intros e' He'. apply elem_of_app. auto.
Qed.

Lemma safe_harmless {E A} i (p : async Sh E A) P :
  steps_in harmless p -> stable log_inv log_rely i P ->
  (forall s s', P s -> log_rely i s s' -> P s') ->
  safe log_inv log_rely i p P (fun _ => P).
Proof.
  intros Hp Hst HP. eapply safe_steps; [done|done|].
  intros s s' HI HPs Hs. pose proof (harmless_keeps i _ _ HI Hs) as [HI' HR].
  split; [done|]. split; [by intros j _|]. by eapply HP.
Qed.

(** *** The pieces of the handlers are harmless *)

Lemma harmless_data {A} l (p : async (InstanceData T * W) Error A) :
  steps_in harmless (on_data (X := list Event) (N := N) l p).
Proof.
  eapply steps_in_mono; [|apply steps_in_zoom, steps_in_any].
  intros s s' (d & dw & _ & _ & ->). split; [done|]. by left.
Qed.

Lemma harmless_engine {A} (p : async W Error A) :
  steps_in harmless (on_engine (T := T) (X := list Event) (N := N) p).
Proof.
  eapply steps_in_mono; [|apply steps_in_zoom, steps_in_any].
  intros s s' (w & w' & _ & _ & ->). split; [done|]. by left.
Qed.

Lemma harmless_host {A} (m : M W Error A) :
  steps_in harmless (on_host (T := T) (X := list Event) (N := N) m).
Proof.
  intros s x s' [= Hs]. split; [|done]. destruct (m (world s)) as [r w]. simplify_eq.
  split; [done|]. by left.
Qed.

Lemma harmless_send e :
  match e with TaskExit _ _ _ _ _ => False | _ => True end ->
  steps_in harmless (send_event (W := W) (T := T) (N := N) self e).
Proof. intros He s x s' [= <- <-]. split; [|done]. split; [done|]. right. by exists e. Qed.

Lemma harmless_done {A} r : steps_in harmless (Done (A := A) (E := Error) r).
Proof. done. Qed.

Lemma harmless_guard b e : steps_in harmless (guard (W := W) (X := list Event) (T := T) (N := N) b e).
Proof. by destruct b. Qed.

Lemma harmless_get id :
  steps_in harmless (get_instance (W := W) (X := list Event) (T := T) (N := N) id).
Proof. intros s x s' [= <- <-]. split; [|done]. split; [done|]. by left. Qed.

Lemma harmless_has id :
  steps_in harmless (has_instance (W := W) (X := list Event) (T := T) (N := N) id).
Proof. intros s x s' [= <- <-]. split; [|done]. split; [done|]. by left. Qed.

Lemma harmless_insert id d :
  steps_in harmless (insert_instance (W := W) (X := list Event) (T := T) (N := N) id d).
Proof. intros s x s' [= <- <-]. split; [|done]. split; [done|]. by left. Qed.

Lemma harmless_remove id :
  steps_in harmless (remove_instance (W := W) (X := list Event) (T := T) (N := N) id).
Proof. intros s x s' [= <- <-]. split; [|done]. split; [done|]. by left. Qed.

Lemma harmless_is_empty : steps_in harmless (is_empty (W := W) (X := list Event) (T := T) (N := N)).
Proof. intros s x s' [= <- <-]. split; [|done]. split; [done|]. by left. Qed.

Lemma harmless_exit {E A} (p : async (cell unit N) E A) :
  steps_in harmless (zoom (fun s => Some (exit s)) with_exit p).
Proof.
  eapply steps_in_mono; [|apply steps_in_zoom, steps_in_any].
  intros s s' (w & w' & _ & _ & ->). split; [done|]. by left.
Qed.

#[local] Hint Resolve harmless_data harmless_engine harmless_host harmless_send harmless_done
  harmless_guard harmless_get harmless_has harmless_insert harmless_remove harmless_is_empty
  harmless_exit : core.

Ltac harmless :=
  repeat first
    [ apply steps_in_bind; [first [by auto | apply harmless_send; exact I]|intros ?]
    | solve [auto]
    | exact I
    | case_match
    | apply steps_in_bind; [|intros ?] ].

Lemma harmless_handle me rq :
  match rq with RqStart _ | RqWorker => False | _ => True end ->
  steps_in harmless (handle (N := N) self me rq).
Proof.
  destruct rq; try done; intros _; (apply steps_in_bind; [|done]).
  - unfold task_create, prepare_rootfs. harmless.
  - unfold task_kill, no_exec. harmless.
  - unfold task_delete, no_exec, poll_exit. harmless.
  - unfold task_wait, no_exec. harmless.
  - unfold task_state, no_exec, poll_exit, config_of. harmless.
  - unfold task_stats. harmless.
  - unfold task_connect. harmless.
  - unfold task_shutdown. apply steps_in_bind; [auto|intros []; [|done]].
    apply steps_in_bind; [by apply steps_in_try|done].
Qed.

Lemma safe_any {E A} me (p : async Sh E A) :
  steps_in harmless p -> safe log_inv log_rely me p (fun _ => True) (fun _ _ => True).
Proof. intros Hp. by apply safe_harmless. Qed.

Lemma safe_send me e (P : Sh -> Prop) (Q : outcome Error unit -> Sh -> Prop) :
  (forall s, log_inv s -> P s ->
     match e with TaskExit _ _ _ p id => published (TaskStart id p) s | _ => True end) ->
  (forall r s, published e s -> Q r s) ->
  safe log_inv log_rely me (send_event (W := W) (T := T) (N := N) self e) P Q.
Proof.
  intros Hpre HQ s x s' [Hl Ht] HP [= <- <-]. split; [|split].
  - split; simpl.
    + constructor; [done|]. specialize (Hpre s (conj Hl Ht) HP). by destruct e.
    + intros t Hin. apply elem_of_app. auto.
  - intros j _ e' He'. apply elem_of_app. by left.
  - exists (published e). split; [apply elem_of_app; right; set_solver|].
    split; [apply published_stable|]. intros s1 _ Hs1. by apply HQ.
Qed.

Lemma safe_start_handler me rq :
  safe log_inv log_rely me (task_start (N := N) self me rq) (fun _ => True) (fun _ _ => True).
Proof.
  eapply safe_bind with (Qp := fun _ _ => True); [by apply safe_any|intros _|done|done].
  eapply safe_bind with (Qp := fun _ _ => True); [by apply safe_any|intros i|done|done].
  eapply safe_bind with (Qp := fun _ _ => True); [by apply safe_any|intros pid|done|done].
  eapply safe_bind with (Qp := fun _ => published (TaskStart (rq_id rq) pid));
    [by apply safe_send|intros u|done|done].
  intros s x s' [Hl Ht] Hp [= <- <-]. split; [|split].
  - split; simpl; [done|]. intros t [Hin|Hin]%elem_of_app; [auto|].
    apply list_elem_of_singleton in Hin as ->. done.
  - by intros j _ e He.
  - exists (fun _ => True). split_and!; [done|done|by intros ???].
Qed.

Lemma safe_worker me :
  safe log_inv log_rely me (worker (N := N) self me) (fun _ => True) (fun _ _ => True).
Proof.
  intros s t s' [Hl Ht] _ Hs. destruct (spawned s) as [|t0 l] eqn:Hsp; [done|].
  simplify_eq. split; [|split].
  - split; simpl; [done|]. intros t' Ht'. apply Ht. set_solver.
  - by intros j _ e He.
  - exists (published (TaskStart (ew_id t) (ew_pid t))). split.
    { apply Ht. set_solver. }
    split; [apply published_stable|].
    change (safe log_inv log_rely me (exit_watch (N := N) self me t)
              (published (TaskStart (ew_id t) (ew_pid t))) (fun _ _ => True)).
    eapply safe_bind; [apply safe_harmless; [apply harmless_data|apply published_stable|]| |done|done].
    + intros s1 s2 Hs1 Hr. by apply Hr.
    + intros res. by apply safe_send.
Qed.

Lemma safe_handle me rq :
  safe log_inv log_rely me (handle (N := N) self me rq) (fun _ => True) (fun _ _ => True).
Proof.
  destruct rq as [r|r|r|r|r|r|id|id| |]; try by apply safe_any, harmless_handle.
  - eapply safe_bind with (Qp := fun _ _ => True); [|by intros ? s _ _|done|done].
    apply safe_start_handler.
  - eapply safe_bind with (Qp := fun _ _ => True); [|by intros ? s _ _|done|done].
    apply safe_worker.
Qed.

Lemma safe_pool_requests rqs s :
  log_inv s ->
  safe_pool log_inv log_rely (fun _ _ _ => True) (requests_pool self rqs, s).
Proof.
  intros Hs. split; [done|]. intros i p. unfold requests_pool. simpl. rewrite list_lookup_imap.
  intros (rq & _ & ->)%fmap_Some. exists (fun _ => True). split_and!; [done|done|apply safe_handle].
Qed.
End runs.

(** *** The poll for the exit of a task

    [wait] of the instance data takes the write lock of the state after the
    instance has answered, so a poll of it is pending while another thread is
    there. *)
Section exited.
Context {W T N K Spec Child HookStatus : Type}.
Context `{!Instance W T} `{!Notify N K} `{!Host W Spec Child HookStatus}.
Abbreviation Sh := (Shared W (list Event) T N).

Lemma poll_exited me (d : InstanceData T) w v w' :
  exec (inst_wait (instance d)) w = (Some (Ok v), w') ->
  exists d', cfg d' = cfg d /\ exec (now_or_never (InstanceData.wait me)) (d, w) =
    (Some (Ok (match writer (InstanceData.state d) with None => Some v | Some _ => None end)), (d', w')).
Proof.
  intros Hw. rewrite exec_now_or_never. destruct (writer (InstanceData.state d)) as [o|] eqn:Ho.
  - exists d. split; [done|]. unfold InstanceData.wait. rewrite exec_abind. simpl.
    rewrite exec_abind, exec_amap_err, exec_on_world, Hw. simpl. by rewrite Ho.
  - exists (data_with d Exited (pid_cell d)). split; [done|]. by rewrite (exec_wait me d w _ _ Ho Hw).
Qed.

Lemma state_of_exited me (s : Sh) id l d p v w' :
  instances s !! id = Some l -> heap s !! l = Some d -> pid_cell d = Some p ->
  exec (inst_wait (instance d)) (world s) = (Some (Ok v), w') ->
  exists r s', exec (task_state me (MkTask id EmptyString)) s = (Some (Ok r), s') /\ st_pid r = p /\
    match writer (InstanceData.state d) with
    | None => st_status r = STOPPED /\ st_exit_status r = v.1
    | Some _ => st_status r = RUNNING /\ st_exit_status r = 0%Z
    end.
Proof.
  intros Hi Hd Hp Hw. destruct (poll_exited me d (world s) v w' Hw) as (d' & Hcfg & Hpoll).
  unfold task_state, no_exec, guard. simpl rq_exec_id. rewrite exec_abind. cbn [negb RustStr.is_empty exec aret].
  rewrite exec_abind. unfold get_instance. rewrite exec_alift. simpl rq_id. rewrite Hi. cbn [fst snd ok_or].
  rewrite exec_abind, (exec_on_data _ _ _ _ Hd). unfold pid. rewrite exec_atomic. cbn [fst snd].
  set (s1 := with_data l (d, world s) s).
  assert (heap s1 !! l = Some d) as Hd1.
  { simpl. by rewrite list_lookup_insert_eq by (by eapply lookup_lt_Some). }
  rewrite exec_abind. unfold poll_exit. rewrite exec_abind, (exec_on_data _ _ _ _ Hd1).
  change (world s1) with (world s). rewrite Hpoll. cbn [exec aret].
  rewrite exec_abind. unfold config_of. erewrite exec_on_data.
  2: { simpl. by rewrite list_lookup_insert_eq by (rewrite length_insert; by eapply lookup_lt_Some). }
  rewrite exec_atomic. simpl. do 2 eexists. split; [done|]. simpl. rewrite Hp. split; [done|].
  by destruct (writer (InstanceData.state d)).
Qed.
End exited.

(** ** Properties *)

(** C12: however the handlers, the spawned futures and the engines interleave,
    containerd is told that a task exited only after it was told that the same
    task started, with the same pid. *)
Theorem exit_follows_start {W T N K Spec Child HookStatus : Type}
    `{!Instance W T} `{!Notify N K} `{!Host W Spec Child HookStatus}
    (self : Local unit) (rqs : list request) (c : cell unit N) (w : W)
    (ts : list (async (Shared W (list Event) T N) Error reply)) (s : Shared W (list Event) T N)
    (Hrun : rtc pool_step (requests_pool self rqs, initial c w []) (ts, s))
    (k : nat) (code : Z) (at_ : Timestamp) (pid : Z) (id : string)
    (Hk : outbox s !! k = Some (TaskExit id code at_ pid id)) :
  exists j, j < k /\ outbox s !! j = Some (TaskStart id pid).
Proof.
  assert (log_inv (initial (T := T) c w [])) as Hinit.
  { split; [constructor|]. intros t Ht. by apply not_elem_of_nil in Ht. }
  pose proof (safe_pool_inv _ _ _ _ _ (safe_pool_requests self rqs _ Hinit) Hrun) as [Ha _].
  by eapply announced_before.
Qed.


(** C14: [task_state] of a task that has exited depends on the lock of its state:
    it is reported as stopped, with its exit status, when the lock is free, and
    as running with the status 0 while another thread holds it, as the spawned
    future does that is about to tell of the exit. *)
Theorem exit_hidden_by_lock {W T N K Spec Child HookStatus : Type}
    `{!Instance W T} `{!Notify N K} `{!Host W Spec Child HookStatus}
    (me : nat) (s : Shared W (list Event) T N) (id : string) (l : nat) (d : InstanceData T)
    (p : Z) (v : Z * DateTime) (w' : W)
    (Hid : instances s !! id = Some l) (Hl : heap s !! l = Some d) (Hpid : pid_cell d = Some p)
    (Hexited : exec (inst_wait (instance d)) (world s) = (Some (Ok v), w')) :
  exists r s', exec (task_state me (MkTask id EmptyString)) s = (Some (Ok r), s') /\ st_pid r = p /\
    match writer (InstanceData.state d) with
    | None => st_status r = STOPPED /\ st_exit_status r = v.1
    | Some _ => st_status r = RUNNING /\ st_exit_status r = 0%Z
    end.
Proof. by eapply state_of_exited. Qed.

(** A task is created, started and killed, and the spawned future runs. *)
Definition demo_requests : list request :=
  [RqCreate demo_create; RqStart (MkTask "c1" EmptyString);
   RqKill (MkKill "c1" EmptyString 9); RqWorker].

Definition demo_service_run :=
  run_schedule (replicate 8 0 ++ replicate 14 1 ++ replicate 8 2 ++ replicate 8 3)
    (requests_pool demo_local demo_requests) demo_shared.

Lemma exit_follows_start_witness :
  exists j, j < 2 /\ outbox demo_service_run.2 !! j = Some (TaskStart "c1" 7).
Proof.
  apply (exit_follows_start demo_local demo_requests Waitable.new 0 demo_service_run.1
           demo_service_run.2) with (code := 137%Z) (at_ := MkTimestamp 5 0).
  - rewrite <- surjective_pairing. apply run_schedule_steps.
  - vm_compute. reflexivity.
Defined.

(** The requests on a task that exits, and the spawned future that tells of it *)
Definition exit_requests : list request :=
  [RqCreate demo_create; RqStart (MkTask "c1" EmptyString); RqKill (MkKill "c1" EmptyString 9);
   RqWait (MkTask "c1" EmptyString); RqDelete (MkTask "c1" EmptyString); RqWorker].

(** Until the wait was answered, before the first step of the delete and of the
    spawned future; and then the future has the lock of the state. *)
Definition exited_run :=
  run_schedule (replicate 8 0 ++ replicate 14 1 ++ replicate 8 2 ++ replicate 8 3)
    (requests_pool demo_local exit_requests) demo_shared.

Definition locked_run := run_schedule (replicate 4 5) exited_run.1 exited_run.2.

Lemma exit_hidden_by_lock_witness :
  exists r s', exec (task_state 6 (MkTask "c1" EmptyString)) locked_run.2 = (Some (Ok r), s') /\
    st_status r = RUNNING /\ st_exit_status r = 0%Z.
Proof.
  destruct (exit_hidden_by_lock 6 locked_run.2 "c1" 0
    (MkInstanceData tt (instance_config demo_local demo_create (MkConfig false)) (Some 7%Z) (MkRwLock Exited (Some 5))) 7
    (137%Z, MkDateTime 5 0) (world locked_run.2)) as (r & s' & Hrun & _ & Hr);
    [vm_compute; reflexivity..|]. exists r, s'. split; [exact Hrun|exact Hr].
Defined.

