(* ===== verification/Sandbox.v ===== *)
(** * Sandbox: [crates/containerd-shim-wasm/src/sandbox]

    The context of a container ([context.rs]), the search of a file on [PATH]
    ([path.rs]) and the default [Sandbox::can_handle] ([mod.rs]).  The file
    system and the environment are the class [FileSystem] over a world [W];
    this code only reads them. *)

From S2P Require Import Prelude RustStr.
From Stdlib Require Import Ascii.

(** ** Data *)

(** [oci_spec::image::Descriptor]; a [MediaType] and a [Digest] are their texts. *)
Record Descriptor := MkDescriptor { media_type : string; desc_digest : string }.

#[export] Instance Descriptor_eq_dec : EqDecision Descriptor.
Proof. solve_decision. Defined.

Record WasmLayer := MkLayer { layer_config : Descriptor; layer : bytes }.

#[export] Instance WasmLayer_eq_dec : EqDecision WasmLayer.
Proof. solve_decision. Defined.

(** [oci_spec::runtime::Spec] and [Process], the fields used *)
Record Process := MkProcess {
  process_args : option (list string);
  process_env : option (list string);
}.

Record Spec := MkSpec {
  process : option Process;
  annotations : option (gmap string string);
}.

(** [enum Source] *)
Inductive Source := File (path : string) | Oci (modules : list WasmLayer).

(** [struct Entrypoint] *)
Record Entrypoint := MkEntrypoint {
  func : string;
  name : option string;
  arg0 : option string;
  source : Source;
}.

(** [trait RuntimeContext] *)
Class RuntimeContext (C : Type) := {
  args : C -> list string;
  envs : C -> list string;
  entrypoint : C -> Entrypoint;
}.

(** [struct WasiContext] *)
Record WasiContext := MkWasiContext { spec : Spec; wasm_layers : list WasmLayer }.

Definition wasi_args (self : WasiContext) : list string :=
  default [] (process (spec self) ≫= process_args).

Definition wasi_envs (self : WasiContext) : list string :=
  default [] (process (spec self) ≫= process_env).

Definition sharp : ascii := "#"%char.

Definition wasi_entrypoint (self : WasiContext) : Entrypoint :=
  let a0 := head (wasi_args self) in
  let entry_point := default EmptyString a0 in
  let '(path, f) := default (entry_point, "_start"%string) (split_once sharp entry_point) in
  MkEntrypoint f (file_stem path) a0
    (match wasm_layers self with [] => File path | ls => Oci ls end).

#[export] Instance wasi_context : RuntimeContext WasiContext := {
  args := wasi_args;
  envs := wasi_envs;
  entrypoint := wasi_entrypoint;
}.

(** [WasmBinaryType] and its [from_bytes], over the two tests of [wasmparser] *)
Inductive WasmBinaryType := Module_ | Component.

Definition binary_type (is_component is_core_wasm : bytes -> bool) (b : bytes)
    : option WasmBinaryType :=
  if is_component b then Some Component else if is_core_wasm b then Some Module_ else None.

(** ** The file system *)

(** [std::env::var_os] and [current_dir], [Path::canonicalize], [is_dir],
    [is_file], the mode of [metadata], the bytes a file opened for reading
    gives, and [wat::parse_file].  An [Option] is [.ok()] of the [Result]. *)
Class FileSystem (W : Type) := {
  var_os : string -> W -> option string;
  current_dir : W -> option string;
  canonicalize : string -> W -> option string;
  is_dir : string -> W -> bool;
  is_file : string -> W -> bool;
  mode : string -> W -> option Z;
  open_file : string -> W -> outcome string bytes;
  wat_parse_file : string -> W -> outcome string bytes;
}.

(** [Read::read_exact] on a buffer of [n] bytes *)
Definition read_exact (n : nat) (contents : bytes) : outcome string bytes :=
  if decide (n <= length contents) then Ok (take n contents)
  else Err "failed to fill whole buffer".

Section resolve.
Context {W : Type} `{!FileSystem W}.

(** [paths]: [std::env::split_paths] splits at [:]. *)
Definition paths (w : W) : list string :=
  match var_os "PATH" w with Some v => split ":" v | None => [] end.

Definition has_separator (file : string) : bool := bool_decide (1 < length (components file)).

(** A directory of the search, resolved against [cwd]. *)
Definition search_dir (w : W) (d : string) : option string :=
  cwd ← current_dir w;
  path ← canonicalize (path_join cwd d) w;
  if is_dir path w then Some path else None.

(** The candidate of one directory. *)
Definition candidate (w : W) (file p : string) : option string :=
  path ← canonicalize (path_join p file) w;
  if is_file path w then Some path else None.

Definition search_dirs (w : W) (file : string) (dirs : list string) : list string :=
  if has_separator file then option_list (current_dir w) else omap (search_dir w) dirs.

(** [PathResolve::resolve_in_dirs]; the iterator as the list of what it yields *)
Definition resolve_in_dirs (file : string) (dirs : list string) (w : W) : list string :=
  omap (candidate w file) (search_dirs w file dirs).

Definition resolve_in_path (file : string) (w : W) : list string :=
  resolve_in_dirs file (paths w) w.

Definition resolve_in_path_or_cwd (file : string) (w : W) : list string :=
  resolve_in_dirs file (paths w ++ option_list (current_dir w)) w.

(** [Source::as_bytes] *)
Definition as_bytes (self : Source) (w : W) : outcome string bytes :=
  match self with
  | File path =>
      let? path := ok_or (head (resolve_in_path_or_cwd path w)) "module not found" in
      open_file path w
  | Oci [m] => Ok (layer m)
  | Oci _ => Err "only a single module is supported when using images with OCI layers"
  end.

Definition wasm_magic : bytes := Byte.x00 :: Byte.x61 :: Byte.x73 :: [Byte.x6d].

(** [Sandbox::can_handle], the default *)
Definition default_can_handle {C} `{!RuntimeContext C} (ctx : C) (w : W) : outcome string unit :=
  match source (entrypoint ctx) with
  | Oci _ => Ok tt
  | File path =>
      let? _ := ok_or (head (resolve_in_path_or_cwd path w)) "module not found" in
      let? contents := open_file path w in
      let? buffer := read_exact 4 contents in
      if decide (buffer = wasm_magic) then Ok tt
      else let? _ := wat_parse_file path w in Ok tt
  end.
End resolve.

(** [trait Sandbox]: an engine.  The futures are run to their end
    ([block_on]) by the only thread of the container. *)
Class Sandbox (W T : Type) := {
  sandbox_default : T;
  run_wasi : T -> WasiContext -> M W string Z;
  can_handle : T -> WasiContext -> M W string unit;
}.

(** ** Lemmas *)

Lemma entrypoint_split (ctx : WasiContext) a rest path f :
  wasi_args ctx = a :: rest ->
  default (a, "_start"%string) (split_once sharp a) = (path, f) ->
  wasi_entrypoint ctx =
  MkEntrypoint f (file_stem path) (Some a)
    (match wasm_layers ctx with [] => File path | ls => Oci ls end).
Proof. intros Ha Hs. unfold wasi_entrypoint. rewrite Ha. simpl. by rewrite Hs. Qed.

Lemma file_stem_extension d stem e :
  plain_name (stem +:+ String dot e) -> stem ≠ EmptyString -> has_char dot e = false ->
  file_stem (d +:+ String slash (stem +:+ String dot e)) = Some stem.
Proof.
  intros Hp Hs He. unfold file_stem. rewrite file_name_last by done. simpl.
  by rewrite stem_of_extension.
Qed.

Section search.
Context {W : Type} `{!FileSystem W}.
Implicit Types (w : W) (file : string).

Lemma candidate_some w file p c :
  candidate w file p = Some c <->
  canonicalize (path_join p file) w = Some c /\ is_file c w = true.
Proof.
  unfold candidate. destruct (canonicalize (path_join p file) w) as [c'|]; simpl; [|naive_solver].
  destruct (is_file c' w) eqn:Hc; split; try done.
  - by intros [= <-].
  - by intros [[= <-] ?].
  - intros [[= <-] ?]. congruence.
Qed.

Lemma resolve_in_dirs_elem file dirs w c :
  c ∈ resolve_in_dirs file dirs w <->
  exists p, p ∈ search_dirs w file dirs /\ canonicalize (path_join p file) w = Some c /\
    is_file c w = true.
Proof.
  unfold resolve_in_dirs. rewrite list_elem_of_omap.
  split; intros (p & Hp & Hc); exists p; (split; [done|]); by apply candidate_some.
Qed.

Lemma resolve_in_dirs_app file ds1 ds2 w :
  has_separator file = false ->
  resolve_in_dirs file (ds1 ++ ds2) w = resolve_in_dirs file ds1 w ++ resolve_in_dirs file ds2 w.
Proof. intros Hf. unfold resolve_in_dirs, search_dirs. rewrite Hf. by rewrite !omap_app. Qed.

Lemma resolve_in_dirs_separator file ds1 ds2 w :
  has_separator file = true -> resolve_in_dirs file ds1 w = resolve_in_dirs file ds2 w.
Proof. intros Hf. unfold resolve_in_dirs, search_dirs. by rewrite Hf. Qed.

Lemma resolve_separator_length file ds w :
  has_separator file = true -> length (resolve_in_dirs file ds w) <= 1.
Proof.
  intros Hf. unfold resolve_in_dirs, search_dirs. rewrite Hf.
  destruct (current_dir w) as [cwd|]; simpl; [|lia]. destruct (candidate w file cwd); simpl; lia.
Qed.

Lemma as_bytes_file path w :
  as_bytes (File path) w =
  match head (resolve_in_path_or_cwd path w) with
  | Some c => open_file c w
  | None => Err "module not found"
  end.
Proof. unfold as_bytes. by destruct (head _). Qed.

Lemma read_exact_ok n contents b :
  read_exact n contents = Ok b <-> n <= length contents /\ b = take n contents.
Proof. unfold read_exact. case_decide; naive_solver. Qed.
End search.

(** ** A file system for the examples *)

(** The current directory, [PATH] and the files with their contents. *)
Record DemoFs := MkDemoFs { demo_cwd : string; demo_path : string; demo_files : gmap string bytes }.

(** Paths without [.] and [..] are canonical. *)
#[export] Instance demo_fs : FileSystem DemoFs := {
  var_os n w := if decide (n = "PATH"%string) then Some (demo_path w) else None;
  current_dir w := Some (demo_cwd w);
  canonicalize p _ := Some p;
  is_dir p w := bool_decide (demo_files w !! p = None);
  is_file p w := bool_decide (is_Some (demo_files w !! p));
  mode p w := match demo_files w !! p with Some _ => Some 493%Z | None => None end;
  open_file p w := ok_or (demo_files w !! path_join (demo_cwd w) p) "No such file";
  wat_parse_file _ _ := Err "invalid";
}.

Definition demo_wasm : bytes := wasm_magic ++ [Byte.x01].

(** [app.wasm] is in [/bin], a directory of [PATH]; the shim runs in [/]. *)
Definition demo_world : DemoFs := MkDemoFs "/" "/sbin:/bin" {[ "/bin/app.wasm"%string := demo_wasm ]}.

Definition demo_ctx (a : string) : WasiContext :=
  MkWasiContext (MkSpec (Some (MkProcess (Some [a]) None)) None) [].

Example demo_entry :
  entrypoint (demo_ctx "/app/app.wasm#entry") =
  MkEntrypoint "entry" (Some "app"%string) (Some "/app/app.wasm#entry"%string) (File "/app/app.wasm").
Proof. reflexivity. Qed.

Example demo_entry_default :
  entrypoint (demo_ctx "my_module.wat") =
  MkEntrypoint "_start" (Some "my_module"%string) (Some "my_module.wat"%string) (File "my_module.wat").
Proof. reflexivity. Qed.

Example demo_entry_function_only :
  entrypoint (demo_ctx "#init") = MkEntrypoint "init" None (Some "#init"%string) (File EmptyString).
Proof. reflexivity. Qed.

Example demo_separators :
  has_separator "app.wasm" = false /\ has_separator "./app.wasm" = true /\
  has_separator "/app.wasm" = true /\ file_stem ".bashrc" = Some ".bashrc"%string /\ file_stem "a/.." = None.
Proof. by vm_compute. Qed.

(** [can_handle] refuses a module that [as_bytes] finds on [PATH], since it
    opens the name of the module and not the file the search found. *)
Example module_on_path_is_refused :
  as_bytes (source (entrypoint (demo_ctx "app.wasm"))) demo_world = Ok demo_wasm /\
  default_can_handle (demo_ctx "app.wasm") demo_world = Err "No such file"%string.
Proof. by vm_compute. Qed.

(** ** Properties *)

(** The first argument [path#func] names the module and the function: the
    function is [func], or [_start] without a [#]; the source is the file
    [path] unless the image has Wasm layers; for a path [d/stem.e] the name is
    [stem]. *)
Theorem entrypoint_of_arg0 (ctx : WasiContext) (a path f : string) (rest : list string) :
  args ctx = a :: rest -> has_char sharp path = false ->
  (a = path /\ f = "_start"%string) \/ a = path +:+ String sharp f ->
  func (entrypoint ctx) = f /\ arg0 (entrypoint ctx) = Some a /\
  source (entrypoint ctx) =
    (if decide (wasm_layers ctx = []) then File path else Oci (wasm_layers ctx)) /\
  (forall d stem e, path = d +:+ String slash (stem +:+ String dot e) ->
     plain_name (stem +:+ String dot e) -> stem ≠ EmptyString -> has_char dot e = false ->
     name (entrypoint ctx) = Some stem).
Proof.
  intros Ha Hpath Hcase. cbn [entrypoint wasi_context].
  rewrite (entrypoint_split ctx a rest path f Ha).
  - simpl. split_and!; [done|done|by destruct (wasm_layers ctx)|].
    intros d stem e -> ???. by apply file_stem_extension.
  - destruct Hcase as [[-> ->]| ->].
    + by rewrite (proj2 (split_once_none _ _) Hpath).
    + by rewrite split_once_app.
Qed.

Lemma entrypoint_of_arg0_witness :
  func (entrypoint (demo_ctx "/app/app.wasm#entry")) = "entry"%string /\
  source (entrypoint (demo_ctx "/app/app.wasm#entry")) = File "/app/app.wasm".
Proof.
  destruct (entrypoint_of_arg0 (demo_ctx "/app/app.wasm#entry") "/app/app.wasm#entry"
              "/app/app.wasm" "entry" [] eq_refl eq_refl (or_intror eq_refl)) as (H1 & _ & H2 & _).
  split; [exact H1|exact H2].
Defined.

(** A file is searched as the [which] command does: every candidate is an
    existing file; a name without a separator is looked up in the entries of
    [PATH], in order, and then in the current directory; a path with a
    separator ignores [PATH] and has at most one candidate. *)
Theorem resolve_search_order {W : Type} `{!FileSystem W} (file : string) (w : W) :
  (forall c, c ∈ resolve_in_path_or_cwd file w -> is_file c w = true) /\
  (if has_separator file
   then resolve_in_path_or_cwd file w = resolve_in_path file w /\
        length (resolve_in_path_or_cwd file w) <= 1
   else resolve_in_path_or_cwd file w =
          resolve_in_path file w ++ resolve_in_dirs file (option_list (current_dir w)) w /\
        resolve_in_path file w = mjoin ((fun d => resolve_in_dirs file [d] w) <$> paths w)).
Proof.
  split; [intros c Hc; by apply resolve_in_dirs_elem in Hc as (?&?&?&?)|].
  unfold resolve_in_path_or_cwd, resolve_in_path.
  destruct (has_separator file) eqn:Hf.
  - split; [by apply resolve_in_dirs_separator|by apply resolve_separator_length].
  - split; [by apply resolve_in_dirs_app|].
    induction (paths w) as [|d ds IH].
    + unfold resolve_in_dirs, search_dirs. by rewrite Hf.
    + rewrite (resolve_in_dirs_app file [d] ds) by done. by rewrite IH.
Qed.

(** On every branch, the default [can_handle] accepts an image with Wasm
    layers, and otherwise exactly the files that the search finds and whose
    path, opened as it was given, begins with the Wasm magic number or parses
    as a text module of at least four bytes.  The bytes the engine reads are
    those of the candidate the search found first. *)
Theorem can_handle_accepts {W C : Type} `{!FileSystem W} `{!RuntimeContext C} (ctx : C) (w : W) :
  default_can_handle ctx w = Ok tt <->
  match source (entrypoint ctx) with
  | Oci _ => True
  | File path =>
      exists c contents, head (resolve_in_path_or_cwd path w) = Some c /\
        as_bytes (File path) w = open_file c w /\
        open_file path w = Ok contents /\ 4 <= length contents /\
        (take 4 contents = wasm_magic \/ exists b, wat_parse_file path w = Ok b)
  end.
Proof.
  unfold default_can_handle. destruct (source (entrypoint ctx)) as [path|ls]; [|done].
  rewrite as_bytes_file. destruct (head (resolve_in_path_or_cwd path w)) as [c|]; simpl; [|naive_solver].
  destruct (open_file path w) as [contents|e|]; simpl; [|naive_solver..].
  unfold read_exact. case_decide as Hlen; simpl; [|naive_solver].
  case_decide as Hmagic; [naive_solver|].
  destruct (wat_parse_file path w); simpl; naive_solver.
Qed.
