(* ===== verification/Executor.v ===== *)
(** * Executor: [crates/containerd-shim-wasm/src/sys/unix/container/executor.rs]

    The executor the container process runs: it decides once, when the
    container is created, between a Linux executable and a Wasm module, and
    runs the container accordingly.  [libcontainer]'s [DefaultExecutor] is a
    parameter; the engine is an instance of [Sandbox]. *)

From S2P Require Import Prelude RustStr Sandbox.

(** [enum ExecutorType<S>] *)
Inductive ExecutorType (T : Type) := Wasm (container : T) | Linux | CantHandle.
Arguments Wasm {T}.
Arguments Linux {T}.
Arguments CantHandle {T}.

(** [struct InnerExecutor]; [Executor] shares one through an [Arc]. *)
Record InnerExecutor (T : Type) := MkInner {
  ty_cell : option (ExecutorType T);
  inner_layers : list WasmLayer;
}.
Arguments MkInner {T}.
Arguments ty_cell {T}.
Arguments inner_layers {T}.

(** [ExecutorValidationError] and [ExecutorError] of [libcontainer] *)
Inductive ExecError := ECantHandle (name : string) | EOther (text : string).

(** How [exec] ends: it returns, or the process exits. *)
Inductive exec_end := Returned | Exited (code : Z).

Definition elf_magic : bytes := Byte.x7f :: Byte.x45 :: Byte.x4c :: [Byte.x46].

Definition executable_magic (buffer : bytes) : bool :=
  bool_decide (buffer = elf_magic) ||
  match buffer with Byte.x23 :: Byte.x21 :: _ => true | _ => false end.

Section executor.
Context {W T : Type} `{!FileSystem W} `{!Sandbox W T}.
(** [S::name()] and [DefaultExecutor::exec] *)
Context (shim_name : string) (default_exec : Spec -> M W ExecError unit).
Abbreviation St := (InnerExecutor T * W)%type.

(** [mode & 0o001 != 0] *)
Definition executable (w : W) (p : string) : bool :=
  match mode p w with Some m => negb (Z.land m 1 =? 0)%Z | None => false end.

(** [is_linux_container] *)
Definition is_linux_container {C} `{!RuntimeContext C} (ctx : C) (w : W) : outcome string unit :=
  match source (entrypoint ctx) with
  | Oci _ => Err "the entry point contains wasm layers"
  | File _ =>
      let? a := ok_or (arg0 (entrypoint ctx)) "no entrypoint provided" in
      let? exe := ok_or (snd <$> list_find (executable w) (resolve_in_path a w))
                    "entrypoint not found" in
      let? contents := open_file exe w in
      let? buffer := read_exact 4 contents in
      if executable_magic buffer then Ok tt else Err "not a valid script or elf file"
  end.

(** [Executor::new] *)
Definition new (layers : list WasmLayer) : InnerExecutor T := MkInner None layers.

(** [Executor::ctx] *)
Definition ctx (self : InnerExecutor T) (sp : Spec) : WasiContext :=
  MkWasiContext sp (inner_layers self).

Definition on_os {E A} (m : M W E A) : M St E A := fun s =>
  let '(r, w) := m s.2 in (r, (s.1, w)).

(** What [get_or_init] runs when the cell is empty. *)
Definition choose {E} (sp : Spec) : M St E (ExecutorType T) :=
  let! c := mget (fun s => ctx s.1 sp) in
  let! linux := mtry (on_os (fun w => (is_linux_container c w, w))) in
  match linux with
  | Ok _ => mret Linux
  | _ =>
      let! handled := mtry (on_os (can_handle (sandbox_default : T) c)) in
      match handled with
      | Ok _ => mret (Wasm sandbox_default)
      | _ => mret CantHandle
      end
  end.

(** [Executor::ty] *)
Definition ty {E} (sp : Spec) : M St E (ExecutorType T) :=
  let! cell := mget (fun s => ty_cell s.1) in
  match cell with
  | Some t => mret t
  | None =>
      let! t := choose sp in
      let! _ := mput (fun s => (MkInner (Some t) (inner_layers s.1), s.2)) in
      mret t
  end.

(** [Executor::validate] *)
Definition validate (sp : Spec) : M St ExecError unit :=
  let! t := ty sp in
  match t with
  | CantHandle => mthrow (ECantHandle shim_name)
  | _ => mret tt
  end.

(** [Executor::exec] *)
Definition exec (sp : Spec) : M St ExecError exec_end :=
  let! t := ty sp in
  match t with
  | CantHandle => mthrow (ECantHandle shim_name)
  | Linux => let! _ := on_os (default_exec sp) in mret Returned
  | Wasm container =>
      let! c := mget (fun s => ctx s.1 sp) in
      let! res := mtry (on_os (run_wasi container c)) in
      match res with
      | Ok code => mret (Exited code)
      | _ => mret (Exited 137)
      end
  end.

(** [Executor::setup_envs] *)
Definition setup_envs (envs : gmap string string) : outcome string unit := Ok tt.

(** ** Lemmas *)

Lemma ty_cached {E} sp t layers w :
  ty (E := E) sp (MkInner (Some t) layers, w) = (Ok t, (MkInner (Some t) layers, w)).
Proof. done. Qed.

Lemma mbind_keep {E A B} (m : M St E A) (k : A -> M St E B) s :
  (m s).2.1 = s.1 -> (forall a s', (k a s').2.1 = s'.1) -> (mbind m k s).2.1 = s.1.
Proof. intros Hm Hk. unfold mbind. destruct (m s) as [[a|e|] s']; simpl in *; congruence. Qed.

Lemma on_os_keep {E A} (m : M W E A) s : (on_os m s).2.1 = s.1.
Proof. unfold on_os. by destruct (m s.2). Qed.

Lemma mtry_keep {E E' A} (m : M St E A) s : (m s).2.1 = s.1 -> (mtry (E' := E') m s).2.1 = s.1.
Proof. unfold mtry. by destruct (m s) as [[]]. Qed.

(** Choosing does not touch the executor. *)
Lemma choose_keep {E} sp s : (choose (E := E) sp s).2.1 = s.1.
Proof.
  unfold choose. apply mbind_keep; [done|intros c s1].
  apply mbind_keep; [apply mtry_keep, on_os_keep|intros r s2]. destruct r as [?|?|]; [done|..].
  all: apply mbind_keep; [apply mtry_keep, on_os_keep|intros [] ?]; done.
Qed.

Lemma choose_no_error {E} sp s e s' : choose (E := E) sp s <> (Err e, s').
Proof.
  unfold choose, mbind, mget, mtry, on_os. cbn.
  destruct (is_linux_container _ _); simpl; [done| |done].
  destruct (can_handle sandbox_default (ctx s.1 sp) s.2) as [[?|?|] ?]; simpl; done.
Qed.

Lemma ty_fresh {E} sp layers w r s' :
  ty (E := E) sp (MkInner None layers, w) = (r, s') -> r ≠ Panic ->
  exists t, r = Ok t /\ s'.1 = MkInner (Some t) layers.
Proof.
  pose proof (choose_keep (E := E) sp (MkInner None layers, w)) as Hk.
  pose proof (choose_no_error (E := E) sp (MkInner None layers, w)) as He.
  unfold ty, mbind at 1, mget. cbn [ty_cell fst]. unfold mbind.
  destruct (choose sp (MkInner None layers, w)) as [[t|e|] s1].
  - intros [= <- <-] _. exists t. simpl in *. by rewrite Hk.
  - by destruct (He e s1).
  - by intros [= <- <-].
Qed.
End executor.

(** ** An engine for the examples: it runs any module the default accepts *)

#[export] Instance demo_sandbox : Sandbox DemoFs unit := {
  sandbox_default := tt;
  run_wasi _ c := fun w => (Ok (Z.of_nat (length (args c))), w);
  can_handle _ c := fun w => (default_can_handle c w, w);
}.

Definition demo_exec (sp : Spec) : M DemoFs ExecError unit := mret tt.

Definition demo_spec (a : string) : Spec := MkSpec (Some (MkProcess (Some [a]) None)) None.

(** A world with a Wasm module in the current directory and a script on [PATH]. *)
Definition demo_bin : DemoFs :=
  MkDemoFs "/" "/bin" (<["/bin/run"%string := Byte.x23 :: Byte.x21 :: Byte.x2f :: [Byte.x62]]>
                        {[ "/app.wasm"%string := demo_wasm ]}).

Example demo_linux :
  (ty (T := unit) (E := string) (demo_spec "run") (new [], demo_bin)).1 = Ok Linux.
Proof. by vm_compute. Qed.

Example demo_wasm_container :
  (ty (T := unit) (E := string) (demo_spec "/app.wasm") (new [], demo_bin)).1 = Ok (Wasm tt).
Proof. by vm_compute. Qed.

(** ** Properties *)

(** A container is run as a Linux container exactly when its image has no
    Wasm layers and the first executable file that the search of its first
    argument on [PATH] finds is an ELF file or a script with a shebang. *)
Theorem linux_container_iff {W C : Type} `{!FileSystem W} `{!RuntimeContext C} (c : C) (w : W) :
  is_linux_container c w = Ok tt <->
  (forall ls, source (entrypoint c) <> Oci ls) /\
  exists a before exe after contents,
    arg0 (entrypoint c) = Some a /\
    resolve_in_path a w = before ++ exe :: after /\
    Forall (fun p => executable w p = false) before /\ executable w exe = true /\
    open_file exe w = Ok contents /\ 4 <= length contents /\
    (take 4 contents = elf_magic \/ take 2 contents = Byte.x23 :: [Byte.x21]).
Proof.
  unfold is_linux_container.
  destruct (source (entrypoint c)) as [path|ls] eqn:Hs; [|naive_solver].
  destruct (arg0 (entrypoint c)) as [a|]; simpl; [|naive_solver].
  assert (forall b : bytes, 4 <= length b -> executable_magic (take 4 b) = true <->
            take 4 b = elf_magic \/ take 2 b = Byte.x23 :: [Byte.x21]) as Hmagic.
  { intros [|x [|y [|z [|u b]]]] Hb; simpl in Hb; try lia. simpl. rewrite !take_0.
    unfold executable_magic. rewrite orb_true_iff, bool_decide_eq_true.
    apply or_iff_compat_l. split; [by destruct x; try done; destruct y|by intros [= -> ->]]. }
  split.
  - destruct (list_find (executable w) (resolve_in_path a w)) as [[i exe]|] eqn:Hf; simpl; [|done].
    destruct (open_file exe w) as [contents|?|] eqn:Ho; simpl; [|done..].
    unfold read_exact. case_decide as Hlen; simpl; [|done].
    destruct (executable_magic (take 4 contents)) eqn:He; [|done]. intros _. split; [done|].
    apply list_find_Some in Hf as (Hi & Hexe & Hbefore).
    exists a, (take i (resolve_in_path a w)), exe, (drop (S i) (resolve_in_path a w)), contents.
    split_and!; [done|by rewrite take_drop_middle| |by apply Is_true_true|done|done|by apply (Hmagic _ Hlen)].
    apply Forall_lookup. intros j p [Hp Hj]%lookup_take_Some.
    apply not_true_iff_false. rewrite <- Is_true_true. eauto.
  - intros (_ & a' & before & exe & after & contents & [= <-] & Hr & Hb & He & Ho & Hlen & Hm).
    rewrite Hr. rewrite (list_find_app_r _ before).
    2:{ apply list_find_None. eapply Forall_impl; [exact Hb|]. intros p Hp. cbv beta in *. rewrite Hp. by intros []. }
    simpl. rewrite decide_True by (by apply Is_true_true). simpl. rewrite Ho. simpl.
    unfold read_exact. rewrite decide_True by done. simpl.
    by rewrite (proj2 (Hmagic _ Hlen) Hm).
Qed.

(** C17: the kind of a container is decided once, by the validation at its
    creation: whatever spec and whatever file system [exec] sees later, a
    container that was refused is refused again, a Linux one goes to the
    default executor, and the process of a Wasm one always exits, with the
    code of the engine, or 137 if the engine failed. *)
Theorem executor_decides_once {W T : Type} `{!FileSystem W} `{!Sandbox W T}
    (shim_name : string) (default_exec : Spec -> M W ExecError unit) (sp : Spec)
    (layers : list WasmLayer) (w : W) (r : outcome ExecError unit) (s' : InnerExecutor T * W) :
  validate shim_name sp (new layers, w) = (r, s') -> r ≠ Panic ->
  exists t, s'.1 = MkInner (Some t) layers /\
    r = match t with CantHandle => Err (ECantHandle shim_name) | _ => Ok tt end /\
    forall sp2 w2,
      (exec shim_name default_exec sp2 (s'.1, w2)).1 =
      match t with
      | CantHandle => Err (ECantHandle shim_name)
      | Linux => omap_ok (fun _ => Returned) (default_exec sp2 w2).1
      | Wasm container =>
          match (run_wasi container (MkWasiContext sp2 layers) w2).1 with
          | Ok code => Ok (Exited code)
          | Err _ => Ok (Exited 137)
          | Panic => Panic
          end
      end.
Proof.
  unfold validate, mbind. intros Hrun Hr.
  destruct (ty sp (new layers, w)) as [r0 s0] eqn:Hty.
  destruct (ty_fresh sp layers w r0 s0 Hty) as (t & -> & Hs0); [by destruct r0; simplify_eq|].
  assert (s' = s0) as -> by (by destruct t; injection Hrun as <- <-).
  exists t. split; [done|]. split; [by destruct t; injection Hrun as <-|].
  intros sp2 w2. rewrite Hs0. unfold exec, mbind. rewrite ty_cached.
  destruct t as [c| |]; simpl; [|by unfold on_os; simpl; destruct (default_exec sp2 w2) as [[]]|done].
  unfold mtry, on_os. simpl. by destruct (run_wasi c _ w2) as [[]].
Qed.

Lemma executor_decides_once_witness :
  exists t, (exec "wasmtime" demo_exec (demo_spec "/app.wasm")
               ((validate (T := unit) "wasmtime" (demo_spec "/app.wasm") (new [], demo_bin)).2.1, demo_bin)).1
            = Ok (Exited 1) /\ t = Wasm tt.
Proof.
  destruct (executor_decides_once (T := unit) "wasmtime" demo_exec (demo_spec "/app.wasm") [] demo_bin
              (Ok tt) (validate (T := unit) "wasmtime" (demo_spec "/app.wasm") (new [], demo_bin)).2)
    as (t & Ht & _ & Hexec); [by vm_compute|done|].
  exists t. injection Ht as <-. split; [|done]. rewrite Hexec. by vm_compute.
Defined.
