(* ===== verification/Engines.v ===== *)
(** * Engines: WasmEdge, Wasmer and WAMR

    [crates/containerd-shim-wasmedge/src/instance.rs],
    [crates/containerd-shim-wasmer/src/instance.rs] and
    [crates/containerd-shim-wamr/src/instance.rs]: each engine is an instance of
    the class [Sandbox], over its SDK as a class, so the executor of
    [Executor.v] runs it.  All three inherit the default [can_handle]. *)

From S2P Require Import Prelude RustStr Sandbox Executor.
From Stdlib Require Import Ascii.

Definition equals : ascii := "="%char.

(** [.context(..)] of anyhow: the error is shown as the context. *)
Definition mcontext {W A} (c : string) (m : M W string A) : M W string A := mmap_err (fun _ => c) m.

(** [name.unwrap_or_else(|| "main".to_string())] *)
Definition module_name (e : Entrypoint) : string := default "main"%string (name e).

(** [source.as_bytes()] *)
Definition read_source {W} `{!FileSystem W} (s : Source) : M W string bytes := fun w => (as_bytes s w, w).

(** ** WasmEdge *)

Module WasmEdge.

(** The value of [WasiModule::create] *)
Record WasiModule := MkWasiModule {
  wasi_args : list string;
  wasi_envs : list string;
  wasi_dirs : list string;
}.

(** [struct WasmEdgeSandbox] *)
Record WasmEdgeSandbox (Config : Type) := MkSandbox { config : Config }.
Arguments MkSandbox {Config}.
Arguments config {Config}.

(** The environment of the process; the plugins and the SDK.  [new_vm] has the
    names of the instances of the store. *)
Class SDK (W Config Mod Vm : Type) := {
  build_config : Config;
  set_var : string -> string -> W -> W;
  var : string -> W -> option string;
  load_plugins : M W string unit;
  nn_preload : string -> M W string unit;
  plugin_names : W -> list string;
  load_plugin_wasi_nn : M W string string;
  wasi_create : WasiModule -> M W string unit;
  wasi_name : string;
  module_from_bytes : Config -> bytes -> M W string Mod;
  new_vm : Config -> list string -> M W string Vm;
  register_module : Vm -> string -> Mod -> M W string Vm;
  run_func : Vm -> string -> string -> M W string unit;
  exit_code : W -> Z;
}.

Section engine.
Context {W Config Mod Vm : Type} `{!SDK W Config Mod Vm} `{!FileSystem W}.
(** Whether the feature [plugin] is on *)
Context (plugin : bool).

Definition prefix : string := "WASMEDGE_".

Definition set_wasmedge_var (w : W) (env : string) : W :=
  match split_once equals env with Some (key, value) => set_var key value w | None => w end.

(** The loop on the variables with the prefix *)
Definition set_wasmedge_vars (envs : list string) (w : W) : W :=
  foldl set_wasmedge_var w (filter (fun env => starts_with prefix env = true) envs).

(** The block under [cfg_if!]: the names of the instances it adds *)
Definition plugin_instances : M W string (list string) :=
  if plugin then
    let! _ := load_plugins in
    let! preload := mget (var "WASMEDGE_WASINN_PRELOAD") in
    let! _ := match preload with Some value => nn_preload value | None => mret tt end in
    let! names := mget plugin_names in
    if decide ("wasi_nn"%string ∈ names) then let! n := load_plugin_wasi_nn in mret [n]
    else mret []
  else mret [].

(** [run_wasi] of [WasmEdgeSandbox] *)
Definition wasmedge_run_wasi (self : WasmEdgeSandbox Config) (ctx : WasiContext) : M W string Z :=
  let e := entrypoint ctx in
  let! _ := mput (set_wasmedge_vars (envs ctx)) in
  let! instances := plugin_instances in
  let! _ := wasi_create (MkWasiModule (args ctx) (envs ctx) ["/:/"%string]) in
  let! wasm_bytes := read_source (source e) in
  let! module := module_from_bytes (config self) wasm_bytes in
  let! store := mtry (new_vm (config self) (wasi_name :: instances)) in
  let! vm := match store with Ok vm => mret vm | _ => mpanic end in
  let! vm := mcontext "registering module" (register_module vm (module_name e) module) in
  let! _ := run_func vm (module_name e) (func e) in
  let! code := mget exit_code in
  mret (wrap_i32 code).

Definition sandbox : Sandbox W (WasmEdgeSandbox Config) := {|
  sandbox_default := MkSandbox build_config;
  Sandbox.run_wasi := wasmedge_run_wasi;
  can_handle _ ctx := fun w => (default_can_handle ctx w, w);
|}.
End engine.

(** [set_var] as the documentation of the standard library states it *)
Class VarLaws (W Config Mod Vm : Type) `{!SDK W Config Mod Vm} : Prop := {
  var_set k k' v w : var k (set_var k' v w) = if decide (k = k') then Some v else var k w;
}.

(** The last entry of the variable [k] among those of WasmEdge *)
Fixpoint last_entry (k : string) (envs : list string) : option string :=
  match envs with
  | [] => None
  | env :: envs' =>
      match last_entry k envs' with
      | Some v => Some v
      | None =>
          if starts_with prefix env then
            match split_once equals env with
            | Some (k', v) => if decide (k = k') then Some v else None
            | None => None
            end
          else None
      end
  end.

Lemma wasmedge_vars_are_exported {W Config Mod Vm : Type} `{!SDK W Config Mod Vm}
    `{!VarLaws W Config Mod Vm} envs k (w : W) :
  var k (set_wasmedge_vars envs w) =
  match last_entry k envs with Some v => Some v | None => var k w end.
Proof.
  unfold set_wasmedge_vars. revert w. induction envs as [|env envs IH]; intros w; [done|].
  rewrite filter_cons. cbn [last_entry]. destruct (starts_with prefix env); simpl; rewrite IH;
    destruct (last_entry k envs); [done| |done|done].
  unfold set_wasmedge_var. destruct (split_once equals env) as [[k' v]|]; [|done].
  rewrite var_set. by destruct (decide (k = k')).
Qed.
End WasmEdge.

(** ** Wasmer *)

Module Wasmer.

(** What is set on [WasiEnv::builder] *)
Record EnvBuilder := MkEnvBuilder {
  program : string;
  env_args : list string;
  env_envs : list (string * string);
  env_preopen : string;
}.

(** The error of a call: [downcast_ref::<WasiError>] *)
Inductive CallError := WasiExit (code : Z) | Runtime (text : string).

(** [struct WasmerSandbox] *)
Record WasmerSandbox (Engine : Type) := MkSandbox { engine : Engine }.
Arguments MkSandbox {Engine}.
Arguments engine {Engine}.

Class SDK (W Engine Mod Inst Fn : Type) := {
  default_engine : Engine;
  module_from_binary : Engine -> bytes -> M W string Mod;
  host_fs : string -> M W string unit;
  instantiate : EnvBuilder -> Mod -> M W string Inst;
  get_function : Inst -> string -> M W string Fn;
  set_status_running : Inst -> W -> W;
  call : Fn -> M W CallError unit;
}.

Section engine.
Context {W Engine Mod Inst Fn : Type} `{!SDK W Engine Mod Inst Fn} `{!FileSystem W}.

(** The pairs of the variables *)
Definition env_pairs (envs : list string) : list (string * string) :=
  (fun v => match split_once equals v with None => (v, EmptyString) | Some kv => kv end) <$> envs.

(** [&args[1..]] is out of range for an empty vector. *)
Definition args_from_1 (l : list string) : outcome string (list string) :=
  match l with [] => Panic | _ :: rest => Ok rest end.

Definition call_status (r : outcome CallError unit) : outcome string Z :=
  match r with
  | Ok _ => Ok 0%Z
  | Err (WasiExit code) => Ok code
  | Err (Runtime e) => Err e
  | Panic => Panic
  end.

(** [run_wasi] of [WasmerSandbox] *)
Definition wasmer_run_wasi (self : WasmerSandbox Engine) (ctx : WasiContext) : M W string Z :=
  let e := entrypoint ctx in
  let! wasm_bytes := read_source (source e) in
  let! module := module_from_binary (engine self) wasm_bytes in
  let! _ := host_fs "/" in
  let! rest := mlift (args_from_1 (args ctx)) in
  let! inst := instantiate (MkEnvBuilder (module_name e) rest (env_pairs (envs ctx)) "/") module in
  let! start := get_function inst (func e) in
  let! _ := mput (set_status_running inst) in
  let! r := fun w => let '(r, w) := call start w in (Ok r, w) in
  mlift (call_status r).

Definition sandbox : Sandbox W (WasmerSandbox Engine) := {|
  sandbox_default := MkSandbox default_engine;
  Sandbox.run_wasi := wasmer_run_wasi;
  can_handle _ ctx := fun w => (default_can_handle ctx w, w);
|}.
End engine.
End Wasmer.

(** ** WAMR *)

Module Wamr.

Record WasiCtx := MkWasiCtx { pre_open : list string; env_vars : list string; arguments : list string }.

(** [struct WamrSandbox] *)
Record WamrSandbox (Runtime : Type) := MkSandbox { runtime : Runtime }.
Arguments MkSandbox {Runtime}.
Arguments runtime {Runtime}.

Class SDK (W Runtime Mod Inst Fn : Type) := {
  new_runtime : Runtime;
  module_from_buf : Runtime -> bytes -> string -> M W string Mod;
  set_wasi_context : WasiCtx -> Mod -> Mod;
  new_instance : Runtime -> Mod -> Z -> M W string Inst;
  find_export_func : Inst -> string -> M W string Fn;
  call : Inst -> Fn -> M W string unit;
}.

Section engine.
Context {W Runtime Mod Inst Fn : Type} `{!SDK W Runtime Mod Inst Fn} `{!FileSystem W}.

(** [run_wasi] of [WamrSandbox] *)
Definition wamr_run_wasi (self : WamrSandbox Runtime) (ctx : WasiContext) : M W string Z :=
  let e := entrypoint ctx in
  let! wasm_bytes := mcontext "Failed to get bytes from source" (read_source (source e)) in
  let! module := mcontext "Failed to create module from bytes"
                   (module_from_buf (runtime self) wasm_bytes (module_name e)) in
  let module := set_wasi_context (MkWasiCtx ["/"%string] (envs ctx) (args ctx)) module in
  let! instance := mcontext "Failed to create instance" (new_instance (runtime self) module (1024 * 64)) in
  let! function := mcontext "Failed to find function" (find_export_func instance (func e)) in
  mcontext "Failed to call function" (let! _ := call instance function in mret 0%Z).

Definition sandbox : Sandbox W (WamrSandbox Runtime) := {|
  sandbox_default := MkSandbox new_runtime;
  Sandbox.run_wasi := wamr_run_wasi;
  can_handle _ ctx := fun w => (default_can_handle ctx w, w);
|}.
End engine.
End Wamr.

(** ** Lemmas *)

(** A bind panics in its first part or in its second one. *)
Lemma mbind_panics {W E A B} (m : M W E A) (k : A -> M W E B) w :
  (m w).1 ≠ Panic ->
  ((mbind m k w).1 = Panic <-> exists a w', m w = (Ok a, w') /\ (k a w').1 = Panic).
Proof.
  unfold mbind. destruct (m w) as [[a|e|] w']; simpl; [|naive_solver|done].
  intros _. split; [eauto|]. by intros (a' & w'' & [= <- <-] & Hk).
Qed.

Lemma mcontext_ok {W A} c (m : M W string A) w a w' :
  mcontext c m w = (Ok a, w') <-> m w = (Ok a, w').
Proof. unfold mcontext, mmap_err. destruct (m w) as [[]]; naive_solver. Qed.

(** The file system and the SDK of Wasmer report what goes wrong as errors. *)
Class WasmerErrors (W Engine Mod Inst Fn : Type) `{!Wasmer.SDK W Engine Mod Inst Fn} `{!FileSystem W} : Prop := {
  open_errors p (w : W) : open_file p w ≠ Panic;
  module_errors e b w : (Wasmer.module_from_binary e b w).1 ≠ Panic;
  host_fs_errors d w : (Wasmer.host_fs d w).1 ≠ Panic;
  instantiate_errors b m w : (Wasmer.instantiate b m w).1 ≠ Panic;
  get_function_errors i f w : (Wasmer.get_function i f w).1 ≠ Panic;
  call_errors f w : (Wasmer.call f w).1 ≠ Panic;
}.

Section wasmer.
Context {W Engine Mod Inst Fn : Type} `{!Wasmer.SDK W Engine Mod Inst Fn} `{!FileSystem W}.
Context `{!WasmerErrors W Engine Mod Inst Fn}.

Lemma read_source_errors s w : (read_source s w).1 ≠ Panic.
Proof.
  unfold read_source. destruct s as [path|[|m [|]]]; simpl; [|done..].
  destruct (head _) as [p|]; [apply open_errors|done].
Qed.

(** What follows the slice of the arguments does not panic. *)
Lemma wasmer_guest_errors b m f w :
  (mbind (Wasmer.instantiate b m) (fun inst =>
   let! start := Wasmer.get_function inst f in
   let! _ := mput (Wasmer.set_status_running inst) in
   let! r := fun w => let '(r, w) := Wasmer.call start w in (Ok r, w) in
   mlift (Wasmer.call_status r)) w).1 ≠ Panic.
Proof.
  rewrite mbind_panics by apply instantiate_errors. intros (inst & w1 & _ & Hp). revert Hp.
  rewrite mbind_panics by apply get_function_errors. intros (start & w2 & _ & Hp). revert Hp.
  unfold mbind, mput. pose proof (call_errors start (Wasmer.set_status_running inst w2)) as Hc.
  destruct (Wasmer.call start _) as [[?|[]|] ?]; done.
Qed.
End wasmer.

(** ** Engines for the examples: the guest exits with 3 *)

#[export] Instance demo_wasmer : Wasmer.SDK DemoFs unit bytes bytes unit := {
  default_engine := tt;
  module_from_binary _ b := mret b;
  host_fs _ := mret tt;
  instantiate _ m := mret m;
  get_function _ _ := mret tt;
  set_status_running _ w := w;
  call _ := mthrow (Wasmer.WasiExit 3);
}.

#[export] Instance demo_wasmer_errors : WasmerErrors DemoFs unit bytes bytes unit.
Proof. split; try done. intros p w. simpl. by destruct (_ !! _). Qed.

#[export] Instance demo_wamr : Wamr.SDK DemoFs unit bytes unit unit := {
  new_runtime := tt;
  module_from_buf _ b _ := mret b;
  set_wasi_context _ m := m;
  new_instance _ _ _ := mret tt;
  find_export_func _ _ := mret tt;
  call _ _ := mthrow "Exited with 3"%string;
}.

(** A world with the variables of the process, for WasmEdge *)
#[export] Instance demo_wasmedge : WasmEdge.SDK (gmap string string) unit unit unit := {
  build_config := tt;
  set_var k v w := <[k := v]> w;
  var k w := w !! k;
  load_plugins := mret tt;
  nn_preload _ := mret tt;
  plugin_names _ := [];
  load_plugin_wasi_nn := mret "wasi_nn"%string;
  wasi_create _ := mret tt;
  wasi_name := "wasi_snapshot_preview1";
  module_from_bytes _ _ := mret tt;
  new_vm _ _ := mret tt;
  register_module _ _ _ := mret tt;
  run_func _ _ _ := mret tt;
  exit_code _ := 3%Z;
}.

#[export] Instance demo_var_laws : WasmEdge.VarLaws (gmap string string) unit unit unit.
Proof. split. intros k k' v w. simpl. rewrite lookup_insert. by repeat case_decide. Qed.

Example demo_wasmedge_vars :
  WasmEdge.var "WASMEDGE_A" (WasmEdge.set_wasmedge_vars ["WASMEDGE_A=1"; "B=2"; "WASMEDGE_A=3=4"]%string ∅)
    = Some "3=4"%string /\
  WasmEdge.var "B" (WasmEdge.set_wasmedge_vars ["B=2"]%string ∅) = None.
Proof. by vm_compute. Qed.

(** An image with one Wasm layer, and the arguments [l] *)
Definition demo_layer_ctx (l : list string) : WasiContext :=
  MkWasiContext (MkSpec (Some (MkProcess (Some l) None)) None)
    [MkLayer (MkDescriptor "application/wasm" "sha256:1") demo_wasm].

Example demo_wasmer_exit :
  (Wasmer.wasmer_run_wasi (Wasmer.MkSandbox tt) (demo_layer_ctx ["a"%string]) demo_world).1 = Ok 3%Z.
Proof. by vm_compute. Qed.

(** ** Properties *)

(** The engine of Wasmer panics exactly for a container without arguments
    whose module could be read and compiled and whose file system could be
    opened: it slices the arguments from the second one. *)
Theorem wasmer_needs_arguments {W Engine Mod Inst Fn : Type} `{!Wasmer.SDK W Engine Mod Inst Fn}
    `{!FileSystem W} `{!WasmerErrors W Engine Mod Inst Fn} (self : Wasmer.WasmerSandbox Engine)
    (ctx : WasiContext) (w : W) :
  (Wasmer.wasmer_run_wasi self ctx w).1 = Panic <->
  args ctx = [] /\
  exists b m w1 w2, as_bytes (source (entrypoint ctx)) w = Ok b /\
    Wasmer.module_from_binary (Wasmer.engine self) b w = (Ok m, w1) /\
    Wasmer.host_fs "/" w1 = (Ok tt, w2).
Proof.
  unfold Wasmer.wasmer_run_wasi. rewrite mbind_panics by apply read_source_errors. split.
  - intros (b & w0 & [= Hb <-] & Hp). revert Hp.
    rewrite mbind_panics by apply module_errors. intros (m & w1 & Hm & Hp). revert Hp.
    rewrite mbind_panics by apply host_fs_errors. intros ([] & w2 & Hfs & Hp). revert Hp.
    destruct (args ctx) as [|a rest]; simpl; [intros _; split; [done|]; by exists b, m, w1, w2|].
    intros Hp. by destruct (wasmer_guest_errors _ _ _ _ Hp).
  - intros (Ha & b & m & w1 & w2 & Hb & Hm & Hfs). exists b, w. unfold read_source. rewrite Hb.
    split; [done|]. unfold mbind. rewrite Hm, Hfs. by rewrite Ha.
Qed.

Lemma wasmer_needs_arguments_witness :
  (Wasmer.wasmer_run_wasi (Wasmer.MkSandbox tt) (demo_layer_ctx []) demo_world).1 = Panic.
Proof.
  apply (proj2 (wasmer_needs_arguments (Wasmer.MkSandbox tt) (demo_layer_ctx []) demo_world)).
  split; [reflexivity|]. exists demo_wasm, demo_wasm, demo_world, demo_world. by vm_compute.
Defined.

(** Under WAMR the process of a Wasm container exits with 0 when the call
    of the function succeeded and with 137 otherwise: no other exit code of a
    guest is ever reported. *)
Theorem wamr_loses_exit_codes {W Runtime Mod Inst Fn : Type} `{!Wamr.SDK W Runtime Mod Inst Fn}
    `{!FileSystem W} (shim_name : string) (default_exec : Spec -> M W ExecError unit) (sp : Spec)
    (self : Wamr.WamrSandbox Runtime) (layers : list WasmLayer) (w : W) (code : Z) :
  (exec (Sandbox0 := Wamr.sandbox) shim_name default_exec sp (MkInner (Some (Wasm self)) layers, w)).1
    = Ok (Exited code) ->
  (code = 0%Z /\ exists i f w1, (Wamr.call i f w1).1 = Ok tt) \/ code = 137%Z.
Proof.
  unfold exec, mbind at 1. rewrite ty_cached. unfold mbind, mget, mtry, on_os. cbn [fst snd run_wasi Wamr.sandbox].
  destruct (Wamr.wamr_run_wasi self _ w) as [[c|e|] w'] eqn:Hr; simpl; [|naive_solver|done].
  intros [= ->]. left. unfold Wamr.wamr_run_wasi in Hr.
  apply mbind_ok in Hr as (b & w1 & _ & Hr). apply mbind_ok in Hr as (m & w2 & _ & Hr).
  apply mbind_ok in Hr as (i & w3 & _ & Hr). apply mbind_ok in Hr as (f & w4 & _ & Hr).
  apply mcontext_ok, mbind_ok in Hr as ([] & w5 & Hcall & [= <- <-]).
  split; [done|]. exists i, f, w4. by rewrite Hcall.
Qed.

Lemma wamr_loses_exit_codes_witness :
  (137%Z = 0%Z /\ exists i f w1, (Wamr.call (W := DemoFs) (Mod := bytes) (Runtime := unit) i f w1).1 = Ok tt)
  \/ 137%Z = 137%Z.
Proof.
  apply (wamr_loses_exit_codes "wamr" (fun _ => mret tt) (spec (demo_layer_ctx ["a"%string]))
           (Wamr.MkSandbox tt) (wasm_layers (demo_layer_ctx ["a"%string])) demo_world 137).
  by vm_compute.
Defined.
