(* ===== verification/PidFd.v ===== *)
(** * PidFd: [crates/containerd-shim-wasm/src/sys/unix/pid_fd.rs]

    Waiting for a process through a pidfd, with the reaper of [containerd_shim]
    as a second source for the exit code.  The system calls, tokio's [AsyncFd]
    and the subscription to the reaper are the class [Processes]. *)

From S2P Require Import Prelude Async.

(** [nix::errno::Errno]: only [ECHILD] matters to the code. *)
Inductive Errno := ECHILD | EOther (n : Z).

(** [nix::sys::wait::WaitStatus] *)
Inductive WaitStatus :=
  | WExited (pid code : Z)
  | WSignaled (pid sig : Z) (core : bool)
  | WStillAlive
  | WOther.

(** [containerd_shim::monitor] *)
Inductive Subject := SPid (pid : Z) | SExec (id : string) (pid : Z).

#[export] Instance Subject_eq_dec : EqDecision Subject.
Proof. solve_decision. Defined.

Record ExitEvent := MkExitEvent { subject : Subject; exit_code : Z }.

(** [monitor_subscribe], [pidfd_open], [AsyncFd::new], [waitid] with [WEXITED]
    and [WNOHANG] on a pidfd, and [AsyncFd::readable], [None] while it is
    pending.  [received] is what the receiver of a subscription yields, one
    event within two seconds of the other, before [recv_timeout] fails. *)
Class Processes (W Fd Sub : Type) := {
  monitor_subscribe : M W string Sub;
  pidfd_open : Z -> M W string Fd;
  async_fd : Fd -> M W string Fd;
  waitid : Fd -> M W Errno WaitStatus;
  readable : Fd -> W -> option (outcome string unit * W);
  received : Sub -> W -> list ExitEvent;
}.

(** [struct PidFd] *)
Record PidFd (Fd Sub : Type) := MkPidFd { fd : Fd; pid : Z; subs : Sub }.
Arguments MkPidFd {Fd Sub}.
Arguments fd {Fd Sub}.
Arguments pid {Fd Sub}.
Arguments subs {Fd Sub}.

(** The [while let] loop of [try_wait_pid]. *)
Fixpoint try_wait_pid (p : Z) (events : list ExitEvent) : outcome Errno Z :=
  match events with
  | [] => Err ECHILD
  | ev :: events' =>
      match subject ev with
      | SPid q => if decide (p = q) then Ok (exit_code ev) else try_wait_pid p events'
      | SExec _ _ => try_wait_pid p events'
      end
  end.

Section pid_fd.
Context {W Fd Sub : Type} `{!Processes W Fd Sub}.
(** The [std::io::Error] of an [Errno] *)
Context (errno_text : Errno -> string).

(** [PidFd::new] *)
Definition new (p : Z) : M W string (PidFd Fd Sub) :=
  let! subs := monitor_subscribe in
  let! pidfd := pidfd_open p in
  mret (MkPidFd pidfd p subs).

(** The exit code the reaper recorded. *)
Definition from_reaper (self : PidFd Fd Sub) : async W string WaitStatus :=
  let* events := atomic (fun w => (received (subs self) w, w)) in
  let* status := Done (map_err errno_text (try_wait_pid (pid self) events)) in
  aret (WExited (pid self) status).

(** [fd.readable().await?] *)
Definition wait_readable (f : Fd) : async W string unit :=
  let* r := await (readable f) in Done r.

(** The loop of [wait].  [fuel] bounds its iterations; running out of it is
    the outcome [Panic], which two iterations never reach
    ([pidfd_wait_ends]). *)
Fixpoint wait_loop (fuel : nat) (self : PidFd Fd Sub) (f : Fd) : async W string WaitStatus :=
  match fuel with
  | O => Done Panic
  | S fuel =>
      let* r := atry (alift (waitid f)) in
      match r with
      | Ok WStillAlive => let* _ := wait_readable f in wait_loop fuel self f
      | Ok status => aret status
      | Err ECHILD => from_reaper self
      | Err e => Done (Err (errno_text e))
      | Panic => Done Panic
      end
  end.

(** [PidFd::wait] *)
Definition wait (self : PidFd Fd Sub) : async W string WaitStatus :=
  let* f := alift (async_fd (fd self)) in
  wait_loop 2 self f.
End pid_fd.

(** What pidfd_open(2) and waitid(2) document: [alive f w] holds until the
    process of [f] terminates; while it does not terminate the descriptor is
    not readable, and [waitid] finds it alive only before it has terminated. *)
Class ProcessLaws (W Fd Sub : Type) `{!Processes W Fd Sub} (alive : Fd -> W -> Prop) : Prop := {
  alive_async_fd f : forall w g w', async_fd f w = (Ok g, w') -> g = f;
  no_panic_async_fd f w : (async_fd f w).1 ≠ Panic;
  no_panic_waitid f w : (waitid f w).1 ≠ Panic;
  waitid_alive f w w' : waitid f w = (Ok WStillAlive, w') -> alive f w;
  readable_dead f w r w' : readable f w = Some (r, w') -> r ≠ Panic /\ ~ alive f w';
  dead_waitid f g w : ~ alive f w -> ~ alive f (waitid g w).2;
  dead_async_fd f g w : ~ alive f w -> ~ alive f (async_fd g w).2;
  dead_readable f g w r w' : ~ alive f w -> readable g w = Some (r, w') -> ~ alive f w';
}.

(** ** Lemmas *)

Section laws.
Context {W Fd Sub : Type} `{!Processes W Fd Sub} (alive : Fd -> W -> Prop)
  `{!ProcessLaws W Fd Sub alive} (errno_text : Errno -> string).
Implicit Types (w : W) (f : Fd) (self : PidFd Fd Sub).

(** What the other tasks and the operating system do keeps dead processes
    dead. *)
Definition dead_stays (i : nat) w w' : Prop := forall f, ~ alive f w -> ~ alive f w'.

Abbreviation safe_wait := (safe (fun _ : W => True) dead_stays).

(** What a finished wait reports: never a process that is still alive. *)
Definition wait_post (r : outcome string WaitStatus) (w : W) : Prop :=
  r ≠ Panic /\ r ≠ Ok WStillAlive.

Lemma stable_dead i f : stable (fun _ => True) dead_stays i (fun w => ~ alive f w).
Proof. intros w w' _ _ Hf Hd. by apply Hd. Qed.

Lemma stable_const i (P : Prop) : stable (S := W) (fun _ => True) dead_stays i (fun _ => P).
Proof. by intros ?????. Qed.

Lemma try_wait_pid_no_panic p events : try_wait_pid p events ≠ Panic.
Proof. induction events as [|[[]] ? IH]; simpl; repeat case_decide; done. Qed.

Lemma safe_from_reaper i self P : safe_wait i (from_reaper errno_text self) P wait_post.
Proof.
  unfold from_reaper. simpl. intros w evs w' _ _ [= <- <-].
  split_and!; [done|by intros ???|]. exists (fun _ => True). split_and!; [done|by intros ?????|].
  pose proof (try_wait_pid_no_panic (pid self) (received (subs self) w)).
  by destruct (try_wait_pid _ _); simpl.
Qed.

(** What an iteration does with the result of [waitid]. *)
Lemma safe_iteration i fuel self f P Q :
  stable (fun _ => True) dead_stays i P ->
  (forall w w', P w -> waitid f w = (Ok WStillAlive, w') -> Q w') ->
  stable (fun _ => True) dead_stays i Q ->
  safe_wait i (let* _ := wait_readable f in wait_loop errno_text fuel self f) Q wait_post ->
  safe_wait i (wait_loop errno_text (S fuel) self f) P wait_post.
Proof.
  intros HP HQ HstQ Hrest. simpl. intros w x w' _ HPw [= Hw].
  pose proof (no_panic_waitid f w) as Hp. rewrite Hw in Hp. simpl in Hp.
  split_and!; [done|intros j _ g Hg; pose proof (dead_waitid g f w Hg) as Hd; by rewrite Hw in Hd|].
  destruct x as [[]|[]|]; simpl; try done.
  3:{ exists Q. split_and!; [by eapply HQ|done|exact Hrest]. }
  all: exists (fun _ => True); split_and!; [done|by intros ?????|].
  all: try by intros ???.
  apply safe_from_reaper.
Qed.

Lemma safe_wait_readable i fuel self f :
  safe_wait i (wait_loop errno_text fuel self f) (fun w => ~ alive f w) wait_post ->
  safe_wait i (let* _ := wait_readable f in wait_loop errno_text fuel self f) (fun _ => True) wait_post.
Proof.
  intros Hl. simpl. intros w r w' _ _ Hr. destruct (readable_dead _ _ _ _ Hr) as [Hp Hd].
  split_and!; [done|intros j _ g Hg; by eapply dead_readable|].
  destruct r as [[]|e|]; simpl; [|exists (fun _ => True); split_and!; [done|by intros ?????|by intros ???]|done].
  exists (fun w => ~ alive f w). split_and!; [done|apply stable_dead|exact Hl].
Qed.

(** Two iterations are enough: after the descriptor is readable, [waitid]
    cannot find the process alive. *)
Lemma safe_wait_loop i self f : safe_wait i (wait_loop errno_text 2 self f) (fun _ => True) wait_post.
Proof.
  apply (safe_iteration _ _ _ _ _ (fun _ => True)); [by intros ?????|done|by intros ?????|].
  apply safe_wait_readable. eapply (safe_iteration _ _ _ _ _ (fun _ => False)).
  - apply stable_dead.
  - intros w w' Hd Hw. by apply Hd, (waitid_alive f w w').
  - by intros ?????.
  - simpl. by intros ????.
Qed.

Lemma safe_pidfd_wait i self : safe_wait i (wait errno_text self) (fun _ => True) wait_post.
Proof.
  unfold wait. intros w x w' _ _ [= Hw].
  split_and!; [done|intros j _ g Hg; pose proof (dead_async_fd g (fd self) w Hg) as Hd; by rewrite Hw in Hd|].
  pose proof (no_panic_async_fd (fd self) w) as Hp. rewrite Hw in Hp. simpl in Hp.
  exists (fun _ => True). split_and!; [done|by intros ?????|].
  destruct x as [f|e|]; [apply safe_wait_loop|by intros ???|done].
Qed.
End laws.

(** ** A process for the examples: how it terminated, [DReaped] once its
    status was collected *)

Inductive DemoStatus := DExited (code : Z) | DReaped.

Record DemoProcess := MkDemoProcess { exited : option DemoStatus; events : list ExitEvent }.

#[export] Instance demo_processes : Processes DemoProcess unit unit := {
  monitor_subscribe := mret tt;
  pidfd_open _ := mret tt;
  async_fd f := mret f;
  waitid _ w :=
    match exited w with
    | None => (Ok WStillAlive, w)
    | Some (DExited c) => (Ok (WExited 7 c), MkDemoProcess (Some DReaped) (events w))
    | Some DReaped => (Err ECHILD, w)
    end;
  readable _ w := match exited w with None => None | Some _ => Some (Ok tt, w) end;
  received _ w := events w;
}.

Definition demo_alive (_ : unit) (w : DemoProcess) : Prop := exited w = None.

#[export] Instance demo_process_laws : ProcessLaws DemoProcess unit unit demo_alive.
Proof.
  split; unfold demo_alive; simpl.
  - by intros [] ? [].
  - done.
  - intros _ w. by destruct (exited w) as [[]|].
  - intros _ w w'. by destruct (exited w) as [[]|].
  - intros _ w r w'. destruct (exited w) eqn:Hw; [|done]. intros [= <- <-]. by rewrite Hw.
  - intros _ _ w. by destruct (exited w) as [[]|] eqn:Hw; simpl; rewrite ?Hw.
  - done.
  - intros _ _ w r w'. destruct (exited w) eqn:Hw; [|done]. intros _ [= <- <-]. by rewrite Hw.
Qed.

(** The kernel: the process exits with code 3. *)
Definition demo_exit : async DemoProcess string WaitStatus :=
  let* _ := atomic (fun w => (tt, MkDemoProcess (Some (DExited 3)) (events w))) in aret WOther.

Definition demo_pidfd : PidFd unit unit := MkPidFd tt 7%Z tt.

Definition demo_errno (e : Errno) : string := "errno".

(** The wait finds the process alive, the process exits, the wait goes on. *)
Example demo_wait_run :
  run_schedule [0; 0; 0; 1; 0; 0; 0] (wait demo_errno demo_pidfd :: [demo_exit]) (MkDemoProcess None [])
  = (Done (Ok (WExited 7 3)) :: [Done (Ok WOther)], MkDemoProcess (Some DReaped) []).
Proof. by vm_compute. Qed.

(** ** Properties *)

(** [try_wait_pid] gives the exit code of the first event for its pid, and
    [ECHILD] when the reaper reports none before the timeout. *)
Theorem try_wait_pid_first (p : Z) (evs : list ExitEvent) :
  (forall c, try_wait_pid p evs = Ok c <->
     exists before ev after, evs = before ++ ev :: after /\ subject ev = SPid p /\
      exit_code ev = c /\ Forall (fun e => subject e ≠ SPid p) before) /\
  (try_wait_pid p evs = Err ECHILD <-> Forall (fun e => subject e ≠ SPid p) evs) /\
  try_wait_pid p evs ≠ Panic.
Proof.
  induction evs as [|ev evs [IHc [IHe IHp]]]; simpl.
  - split_and!; [|done..]. intros c. split; [done|]. by intros ([] & ? & ? & ? & _).
  - destruct (decide (subject ev = SPid p)) as [Hs|Hs].
    + rewrite Hs, decide_True by done. split_and!; [|split; [done|by intros [? _]%Forall_cons]|done].
      intros c. split.
      * intros [= <-]. by exists [], ev, evs.
      * intros ([|e before] & ev' & after & [= <- ->] & Hs' & <- & Hb); [done|].
        by apply Forall_cons in Hb as [? _].
    + assert ((match subject ev with
               | SPid q => if decide (p = q) then Ok (exit_code ev) else try_wait_pid p evs
               | SExec _ _ => try_wait_pid p evs
               end) = try_wait_pid p evs) as ->
        by (destruct (subject ev); [rewrite decide_False by congruence|]; reflexivity).
      rewrite IHe, Forall_cons. split_and!; [|naive_solver|done]. intros c. rewrite IHc. split.
      * intros (b & e & a & -> & ? & ? & ?). exists (ev :: b), e, a. by rewrite Forall_cons.
      * intros ([|e b] & ev' & a & [= <- ->] & ? & ? & Hb); [done|].
        apply Forall_cons in Hb as [_ Hb]. eauto 10.
Qed.



(** A process that has terminated is always reported: with the status
    [waitid] gives or, when the reaper of the shim was faster, with the exit
    code of its event. *)
Theorem exited_process_is_reported {W Fd Sub : Type} `{!Processes W Fd Sub}
    (alive : Fd -> W -> Prop) `{!ProcessLaws W Fd Sub alive} (errno_text : Errno -> string)
    (self : PidFd Fd Sub) (w w1 : W) :
  ~ alive (fd self) w -> async_fd (fd self) w = (Ok (fd self), w1) ->
  (exec (wait errno_text self) w).1 = Some
    match waitid (fd self) w1 with
    | (Ok st, _) => Ok st
    | (Err ECHILD, w2) =>
        match try_wait_pid (pid self) (received (subs self) w2) with
        | Ok c => Ok (WExited (pid self) c)
        | Err e => Err (errno_text e)
        | Panic => Panic
        end
    | (Err e, _) => Err (errno_text e)
    | (Panic, _) => Panic
    end /\
  (waitid (fd self) w1).1 ≠ Ok WStillAlive.
Proof.
  intros Hd Hfd. assert (~ alive (fd self) w1) as Hd1.
  { pose proof (dead_async_fd (fd self) (fd self) w Hd) as H. by rewrite Hfd in H. }
  assert ((waitid (fd self) w1).1 ≠ Ok WStillAlive) as Hst.
  { destruct (waitid (fd self) w1) as [r w2] eqn:Hw. simpl. intros ->.
    by apply Hd1, (waitid_alive _ _ _ Hw). }
  split; [|done]. unfold wait. rewrite exec_abind, exec_alift, Hfd. cbn [fst snd wait_loop].
  rewrite exec_abind, exec_atry, exec_alift.
  destruct (waitid (fd self) w1) as [[[]|[]|] w2]; simpl in *; try done.
  by destruct (try_wait_pid (pid self) (received (subs self) w2)).
Qed.

Lemma exited_process_is_reported_witness :
  (exec (wait demo_errno demo_pidfd)
     (MkDemoProcess (Some DReaped) [MkExitEvent (SPid 7) 5])).1 = Some (Ok (WExited 7 5)).
Proof.
  destruct (exited_process_is_reported demo_alive demo_errno demo_pidfd
              (MkDemoProcess (Some DReaped) [MkExitEvent (SPid 7) 5])
              (MkDemoProcess (Some DReaped) [MkExitEvent (SPid 7) 5])) as [H _]; [done|done|].
  exact H.
Defined.
