(* ===== verification/Store.v ===== *)
(** * Store: the services of containerd, and
    [crates/containerd-shim-wasm/src/containerd/lease.rs]

    The gRPC services of containerd are the class [Containerd]: each call is a
    computation over a world [W] that may fail with a text.  A lease keeps the
    content written under it from being collected until it is released. *)

From S2P Require Import Prelude RustStr.

(** [Info], [Image] and [Container] of containerd, with the fields used *)
Record Info := MkInfo { info_digest : string; labels : gmap string string }.
Record Image := MkImage { image_name : string; target : option string }.
Record Container := MkContainer { container_image : string }.

Inductive WriteAction := Stat | Write | Commit.

Record WriteContentRequest := MkWrite {
  w_ref : string;
  w_action : WriteAction;
  w_total : Z;
  w_offset : Z;
  w_expected : string;
  w_labels : gmap string string;
  w_data : bytes;
}.

Record WriteContentResponse := MkWriteResponse { r_offset : Z; r_digest : string }.

(** [tonic::Status]: whether its code is [AlreadyExists], and its text. *)
Record GrpcStatus := MkGrpcStatus { already_exists : bool; grpc_text : string }.

(** [Tx] is the sender of the channel that feeds a request stream, [Rx] the
    response stream. *)
Class Containerd (W Channel Tx Rx : Type) := {
  grpc_connect : string -> M W string Channel;
  content_read : Channel -> string -> string -> M W string (list bytes);
  content_delete : Channel -> string -> string -> M W string unit;
  content_info : Channel -> string -> string -> M W string (option Info);
  content_update : Channel -> string -> Info -> list string -> M W string (option Info);
  content_write : Channel -> string -> string -> Tx -> M W GrpcStatus Rx;
  images_get : Channel -> string -> string -> M W string (option Image);
  containers_get : Channel -> string -> string -> M W string (option Container);
  leases_create : Channel -> string -> string -> gmap string string -> M W string (option string);
  leases_delete : Channel -> string -> string -> M W string unit;
  mpsc_channel : W -> Tx * W;
  tx_send : Tx -> WriteContentRequest -> M W string unit;
  rx_message : Rx -> M W string (option WriteContentResponse);
  expiry_24h : W -> string;
}.

Section lease.
Context {W Channel Tx Rx : Type} `{!Containerd W Channel Tx Rx}.

(** [LeaseGuard]: the client and the request that deletes the lease *)
Record LeaseGuard := MkLeaseGuard {
  lease_client : Channel;
  lease_id : string;
  lease_namespace : string;
}.

(** [LeaseGuardInner::release] *)
Definition inner_release (g : LeaseGuard) : M W string unit :=
  mmap_err (fun _ => "Failed to remove lease")
    (leases_delete (lease_client g) (lease_namespace g) (lease_id g)).

(** [LeaseGuard::release]: the guard is not dropped again. *)
Definition release (g : LeaseGuard) : M W string unit := inner_release g.

(** [Drop for LeaseGuard]: a failure is only logged. *)
Definition drop_lease (g : LeaseGuard) (w : W) : W := (inner_release g w).2.
End lease.

Arguments LeaseGuard : clear implicits.

(** A scope that owns a lease and gives it up on every way out but [Ok]. *)
Definition scoped {W E A} (m : M W E A) (cleanup : W -> W) : M W E A := fun w =>
  match m w with
  | (Ok a, w') => (Ok a, w')
  | (r, w') => (r, cleanup w')
  end.
