(* ===== verification/Client.v ===== *)
(** * Client: [crates/containerd-shim-wasm/src/containerd/client.rs]

    The client of containerd's content store: it saves content in chunks under
    a lease, and loads the Wasm layers of a container's image, precompiled if
    the engine has a compiler.  Its futures are awaited one after the other by
    one task: they are computations over the world of containerd. *)

From S2P Require Import Prelude RustStr Errors Sandbox Store.

Definition PRECOMPILE_PREFIX : string := "runwasi.io/precompiled".

(** 15 MB *)
Definition MAX_WRITE_CHUNK_SIZE_BYTES : Z := (1024 * 1024 * 15)%Z.

(** [oci_spec::image::ImageManifest] *)
Record ImageManifest := MkManifest { manifest_config : Descriptor; manifest_layers : list Descriptor }.

(** What [oci_spec], [serde_json] and [sha256] compute. *)
Class ImageFormat := {
  sha256_digest : bytes -> string;
  parse_digest : string -> outcome string string;
  parse_manifest : bytes -> outcome string ImageManifest;
  (** whether the [architecture] of the [Platform] is [Arch::Wasm] *)
  parse_platform : bytes -> outcome string bool;
}.

(** [trait Compiler]: the hash of the cache key and the compilation. *)
Record Compiler (W : Type) := MkCompiler {
  cache_key_hash : Z;
  compile : list WasmLayer -> M W string (list (option bytes));
}.
Arguments MkCompiler {W}.
Arguments cache_key_hash {W}.
Arguments compile {W}.

(** [struct Client] *)
Record Client (Channel : Type) := MkClient { inner : Channel; client_namespace : string }.
Arguments MkClient {Channel}.
Arguments inner {Channel}.
Arguments client_namespace {Channel}.

(** [precompile_label] *)
Definition precompile_label (name : string) (version_hash : Z) : string :=
  PRECOMPILE_PREFIX +:+ "/" +:+ name +:+ "/" +:+ pretty version_hash.

(** [is_wasm_layer] *)
Definition is_wasm_layer (media_type : string) (supported_layer_types : list string) : bool :=
  bool_decide (media_type ∈ supported_layer_types).

(** [data[offset as usize..end as usize]]: panics out of range. *)
Definition slice (data : bytes) (offset end_ : Z) : outcome Error bytes :=
  if decide (0 <= offset <= end_ /\ end_ <= Z.of_nat (length data))%Z
  then Ok (take (Z.to_nat (end_ - offset)) (drop (Z.to_nat offset) data))
  else Panic.

Section client.
Context {W Channel Tx Rx : Type} `{!Containerd W Channel Tx Rx} `{!ImageFormat}.
Context (self : Client Channel).

(** [WriteContent] *)
Record WriteContent := MkWriteContent { wc_lease : LeaseGuard Channel; wc_digest : string }.

Definition containerd_err {A} (m : M W string A) : M W Error A := mmap_err E_Containerd m.

(** [.into_inner().field.ok_or_else(|| ..)] after a call *)
Definition call_some {A} (m : M W string (option A)) (none : string) : M W Error A :=
  let! o := containerd_err m in mlift (ok_or o (E_Containerd none)).

(** [Client::connect] *)
Definition connect (address ns : string) : M W Error (Client Channel) :=
  let! inner := containerd_err (grpc_connect address) in
  mret (MkClient inner ns).

(** [Client::read_content] *)
Definition read_content (digest : string) : M W Error bytes :=
  let! msgs := containerd_err (content_read (inner self) (client_namespace self) digest) in
  mret (concat msgs).

(** [Client::delete_content] *)
Definition delete_content (digest : string) : M W Error unit :=
  containerd_err (content_delete (inner self) (client_namespace self) digest).

(** [Client::lease] *)
Definition lease (reference : string) : M W Error (LeaseGuard Channel) :=
  let! expire := mget expiry_24h in
  let! id := call_some (leases_create (inner self) (client_namespace self) reference
                          {["containerd.io/gc.expire" := expire]})
               ("unable to create lease for  " +:+ reference) in
  mret (MkLeaseGuard (inner self) id (client_namespace self)).

(** [send_message] *)
Definition send_message (request : WriteContentRequest) (rx : Rx) (tx : Tx) (digest : string)
    : M W Error WriteContentResponse :=
  let! _ := mmap_err (fun err => E_Containerd ("commit request error: " +:+ err))
              (tx_send tx request) in
  let! o := mmap_err (fun err => E_Containerd ("response stream error: " +:+ err))
              (rx_message rx) in
  mlift (ok_or o (E_Containerd ("no response received after write content request for " +:+ digest))).

(** The [while] loop of [save_content].  [fuel] bounds the iterations: one
    more than the length of the data is enough (see [write_chunks_total]). *)
Fixpoint write_chunks (fuel : nat) (data : bytes) (offset : Z) (rx : Rx) (tx : Tx)
    (expected : string) : M W Error (option unit) :=
  let len := Z.of_nat (length data) in
  if decide (offset < len)%Z then
    match fuel with
    | O => mret None
    | S fuel =>
        let end_ := Z.min (offset + MAX_WRITE_CHUNK_SIZE_BYTES) len in
        let! chunk := mlift (slice data offset end_) in
        let! _ := send_message
                    (MkWrite EmptyString Write 0 offset EmptyString ∅ chunk) rx tx expected in
        write_chunks fuel data end_ rx tx expected
    end
  else mret (Some tt).

(** The labelled block of [save_content]: the digest containerd reports. *)
Definition write_content (lease : LeaseGuard Channel) (data : bytes) (reference expected : string)
    (labels : gmap string string) : M W Error string :=
  let! tx := (fun w => let '(tx, w') := mpsc_channel w in (Ok tx, w')) in
  let len := Z.of_nat (length data) in
  let! _ := containerd_err (tx_send tx (MkWrite reference Stat 0 0 expected ∅ [])) in
  let! stream := mtry (content_write (inner self) (client_namespace self) (lease_id lease) tx) in
  match stream with
  | Err e => if already_exists e then mret expected else mthrow (E_Containerd (grpc_text e))
  | Panic => mpanic
  | Ok rx =>
      let! response := call_some (rx_message rx)
                         ("no response received after write request for " +:+ expected) in
      let! _ := write_chunks (S (length data)) data (r_offset response) rx tx expected in
      let! response := send_message (MkWrite EmptyString Commit len len expected labels [])
                         rx tx expected in
      if decide (r_offset response ≠ len) then
        mthrow (E_Containerd ("failed to write all bytes, expected " +:+ pretty len +:+
                              " got " +:+ pretty (r_offset response)))
      else if decide (r_digest response ≠ expected) then
        mthrow (E_Containerd ("unexpected digest, expected " +:+ expected +:+
                              " got " +:+ r_digest response))
      else mret (r_digest response)
  end.

(** [Client::save_content]: the lease is dropped on every way out but the
    last, which hands it over. *)
Definition save_content (data : bytes) (unique_id : string) (labels : gmap string string)
    : M W Error WriteContent :=
  let expected := "sha256:" +:+ sha256_digest data in
  let reference := "precompile-" +:+ unique_id in
  let! lease := lease reference in
  let! digest := scoped (write_content lease data reference expected labels) (drop_lease lease) in
  mret (MkWriteContent lease digest).

(** [Client::get_info] *)
Definition get_info (content_digest : string) : M W Error Info :=
  call_some (content_info (inner self) (client_namespace self) content_digest)
    ("failed to get info for content " +:+ content_digest).

(** [Client::update_info] *)
Definition update_info (info : Info) : M W Error Info :=
  call_some (content_update (inner self) (client_namespace self) info ["labels"])
    ("failed to update info for content " +:+ info_digest info).

(** [Client::get_image] *)
Definition get_image (name : string) : M W Error Image :=
  call_some (images_get (inner self) (client_namespace self) name)
    ("failed to get image for image " +:+ name).

(** [Client::extract_image_content_sha] *)
Definition extract_image_content_sha (image : Image) : outcome Error string :=
  ok_or (target image)
    (E_Containerd ("failed to get image content sha for image " +:+ image_name image)).

(** [Client::get_container] *)
Definition get_container (name : string) : M W Error Container :=
  call_some (containers_get (inner self) (client_namespace self) name)
    ("failed to get image for container " +:+ name).

(** [Client::get_image_manifest_and_digest] *)
Definition get_image_manifest_and_digest (image_name : string) : M W Error (ImageManifest * string) :=
  let! image := get_image image_name in
  let! sha := mlift (extract_image_content_sha image) in
  let! image_digest := mlift (map_err E_Oci (parse_digest sha)) in
  let! content := read_content image_digest in
  let! manifest := mlift (map_err E_Oci (parse_manifest content)) in
  mret (manifest, image_digest).

(** [Client::read_original_layer] *)
Definition read_original_layer (config : Descriptor) : M W Error WasmLayer :=
  let! module := read_content (desc_digest config) in
  mret (MkLayer config module).

(** [Client::read_precompiled_layer] *)
Definition read_precompiled_layer (config : Descriptor) (precompile_id : string)
    : M W Error WasmLayer :=
  let! info := get_info (desc_digest config) in
  match labels info !! precompile_id with
  | None => mthrow (E_NotFound "precompiled layer not found")
  | Some label =>
      let! digest := mlift (map_err E_Oci (parse_digest label)) in
      let! module := read_content digest in
      mret (MkLayer config module)
  end.

(** One iteration of the loop that reads the layers: the layer, and whether it
    has to be compiled. *)
Definition read_layer (precompile_id : string) (config : Descriptor) : M W Error (WasmLayer * bool) :=
  let! r := mtry (read_precompiled_layer config precompile_id) in
  match r with
  | Ok layer => mret (layer, false)
  | _ => let! layer := read_original_layer config in mret (layer, true)
  end.

Definition gc_ref_label (i : nat) : string :=
  "containerd.io/gc.ref.content.precompile." +:+ pretty i.

(** The updates of the labels of a layer and of the image after the content of
    the [i]-th layer was saved. *)
Definition label_precompiled (precompile_id image_digest : string) (i : nat)
    (original : Descriptor) (digest : string) : M W Error unit :=
  let! original_layer := get_info (desc_digest original) in
  let! _ := update_info (MkInfo (info_digest original_layer)
              (<[gc_ref_label i := digest]> (<[precompile_id := digest]> (labels original_layer)))) in
  let! image_content := get_info image_digest in
  let! _ := update_info (MkInfo (info_digest image_content)
              (<[precompile_id := "true"]> (<[gc_ref_label i := digest]> (labels image_content)))) in
  mret tt.

(** One iteration of the loop over the compiled layers. *)
Definition store_compiled (precompile_id image_digest : string) (i : nat)
    (l : WasmLayer) (compiled : option bytes) : M W Error WasmLayer :=
  match compiled with
  | None => mret l
  | Some compiled_layer =>
      let original_config := layer_config l in
      let! content := save_content compiled_layer precompile_id
                        {[precompile_id +:+ "/original" := desc_digest original_config]} in
      let! _ := scoped (label_precompiled precompile_id image_digest i original_config
                          (wc_digest content)) (drop_lease (wc_lease content)) in
      let! _ := mtry (release (wc_lease content)) in
      mret (MkLayer original_config compiled_layer)
  end.

Fixpoint store_all (precompile_id image_digest : string) (i : nat) (ls : list WasmLayer)
    (cs : list (option bytes)) : M W Error (list WasmLayer) :=
  match ls, cs with
  | l :: ls', c :: cs' =>
      let! x := store_compiled precompile_id image_digest i l c in
      let! xs := store_all precompile_id image_digest (S i) ls' cs' in
      mret (x :: xs)
  | _, _ => mret []
  end.

(** The layers that the engine gets: compiled and saved if they were not. *)
Definition precompile_layers (compiler : Compiler W) (precompile_id image_digest : string)
    (ls : list WasmLayer) : M W Error (list WasmLayer) :=
  let! r := mtry (compile compiler ls) in
  match r with
  | Ok compiled_layers =>
      if decide (length compiled_layers ≠ length ls) then
        mthrow (E_FailedPrecondition "precompile returned wrong number of layers")
      else store_all precompile_id image_digest 0 ls compiled_layers
  | _ => mret ls
  end.

(** [load_modules], from the Wasm layers that the manifest has *)
Definition load_layers (engine_name image_digest : string) (configs : list Descriptor)
    (compiler : option (Compiler W)) : M W Error (list WasmLayer) :=
  match configs with
  | [] => mret []
  | _ =>
      match compiler with
      | None => mapM_M read_original_layer configs
      | Some compiler =>
          let precompile_id := precompile_label engine_name (cache_key_hash compiler) in
          let! image_info := get_info image_digest in
          let unlabelled := bool_decide (labels image_info !! precompile_id = None) in
          let! read := mapM_M (read_layer precompile_id) configs in
          let needs_precompile := unlabelled || existsb snd read in
          let ls := fst <$> read in
          if needs_precompile then precompile_layers compiler precompile_id image_digest ls
          else mret ls
      end
  end.

(** The layers of a manifest that the engine takes *)
Definition wasm_configs (supported_layer_types : list string) (manifest : ImageManifest) : list Descriptor :=
  filter (fun x => is_wasm_layer (media_type x) supported_layer_types) (manifest_layers manifest).

(** [Client::load_modules] *)
Definition load_modules (containerd_id engine_name : string) (supported_layer_types : list string)
    (compiler : option (Compiler W)) : M W Error (list WasmLayer) :=
  let! container := get_container containerd_id in
  let! mi := get_image_manifest_and_digest (container_image container) in
  let '(manifest, image_digest) := mi in
  let! image_config := read_content (desc_digest (manifest_config manifest)) in
  let! is_wasm := mlift (map_err E_Json (parse_platform image_config)) in
  if negb is_wasm then mret []
  else load_layers engine_name image_digest (wasm_configs supported_layer_types manifest) compiler.
End client.

(** ** Saving content

    [sent w] is what was sent on the write streams so far. *)

Class Recording (W Channel Tx Rx : Type) `{!Containerd W Channel Tx Rx}
    (sent : W -> list WriteContentRequest) : Prop := {
  sent_send tx req w :
    sent (tx_send tx req w).2 = sent w ++ (if is_ok (tx_send tx req w).1 then [req] else []);
  sent_message rx : keeps sent (rx_message rx);
  sent_write c ns l tx : keeps sent (content_write c ns l tx);
  sent_lease c ns r ls : keeps sent (leases_create c ns r ls);
  sent_channel w : sent (mpsc_channel w).2 = sent w;
}.

(** Requests whose data follow each other from [offset] on. *)
Fixpoint contiguous (offset : Z) (reqs : list WriteContentRequest) : Prop :=
  match reqs with
  | [] => True
  | r :: reqs' =>
      w_offset r = offset /\ contiguous (offset + Z.of_nat (length (w_data r))) reqs'
  end.

(** A chunk: a [Write] of at least one byte that fits a message. *)
Definition is_chunk (r : WriteContentRequest) : Prop :=
  w_action r = Write /\
  (0 < Z.of_nat (length (w_data r)) <= MAX_WRITE_CHUNK_SIZE_BYTES)%Z.

Section saving.
Context {W Channel Tx Rx : Type} `{!Containerd W Channel Tx Rx} `{!ImageFormat}.
Context (sent : W -> list WriteContentRequest) `{!Recording W Channel Tx Rx sent}.
Context (self : Client Channel).

Lemma send_message_ok req rx tx d w resp w' :
  send_message req rx tx d w = (Ok resp, w') -> sent w' = sent w ++ [req].
Proof.
  unfold send_message. intros ([] & w1 & Hs & Hk)%mbind_ok.
  apply mbind_ok in Hk as (o & w2 & Hm & [= _ <-]).
  unfold mmap_err in *. pose proof (sent_send tx req w) as H1.
  destruct (tx_send tx req w) as [r wa]. simpl in *. destruct r; simplify_eq/=.
  pose proof (sent_message rx w1) as H2.
  destruct (rx_message rx w1) as [r wb]. simpl in *. simplify_eq. by rewrite H2.
Qed.

Lemma slice_ok data a b x :
  slice data a b = Ok x ->
  (0 <= a <= b /\ b <= Z.of_nat (length data))%Z /\
  x ++ drop (Z.to_nat b) data = drop (Z.to_nat a) data /\ Z.of_nat (length x) = (b - a)%Z.
Proof.
  unfold slice. case_decide as Hd; [|done]. intros [= <-]. split; [done|]. split.
  - replace (Z.to_nat b) with (Z.to_nat a + Z.to_nat (b - a)) by lia.
    by rewrite <- drop_drop, take_drop.
  - rewrite length_take, length_drop. lia.
Qed.

(** The loop never runs out of the fuel [save_content] gives it. *)
Lemma write_chunks_total fuel data offset rx tx d w w' :
  (Z.of_nat (length data) - Z.max 0 offset < Z.of_nat fuel)%Z ->
  write_chunks fuel data offset rx tx d w ≠ (Ok None, w').
Proof.
  revert offset w. induction fuel as [|fuel IH]; intros offset w Hfuel; simpl;
    case_decide as Hlt; try done; [lia|].
  destruct (slice data offset _) as [x|e|] eqn:Hs; try done.
  apply slice_ok in Hs as (Hb & _ & _). unfold mbind, mlift.
  destruct (send_message _ _ _ _ w) as [[r|e|] w1]; try done.
  apply IH. unfold MAX_WRITE_CHUNK_SIZE_BYTES in *. lia.
Qed.

(** What the loop sent is the rest of the data. *)
Lemma write_chunks_sent fuel data offset rx tx d w w' :
  write_chunks fuel data offset rx tx d w = (Ok (Some tt), w') ->
  exists reqs, sent w' = sent w ++ reqs /\ Forall is_chunk reqs /\ contiguous offset reqs /\
    concat (w_data <$> reqs) = drop (Z.to_nat offset) data.
Proof.
  assert (forall offset, ¬ (offset < Z.of_nat (length data))%Z ->
            [] = drop (Z.to_nat offset) data) as Hend.
  { intros o Ho. by rewrite drop_ge by lia. }
  revert offset w. induction fuel as [|fuel IH]; intros offset w; simpl; case_decide as Hlt; try done.
  1, 3: intros [= <-]; exists []; rewrite app_nil_r; split_and!; [done..|by apply Hend].
  intros (x & w1 & [= Hs <-] & (r & w2 & Hsend & Hrun)%mbind_ok)%mbind_ok.
  apply send_message_ok in Hsend. apply slice_ok in Hs as (Hb & Hx & Hlen).
  apply IH in Hrun as (reqs & Hsent & Hch & Hco & Hcat).
  exists (MkWrite EmptyString Write 0 offset EmptyString ∅ x :: reqs). split_and!.
  - by rewrite Hsent, Hsend, <- app_assoc.
  - constructor; [|done]. split; [done|]. simpl. unfold MAX_WRITE_CHUNK_SIZE_BYTES in *. lia.
  - split; [done|]. simpl. rewrite Hlen. by replace (offset + _)%Z with
      (Z.min (offset + MAX_WRITE_CHUNK_SIZE_BYTES) (Z.of_nat (length data))) by lia.
  - change (x ++ concat (w_data <$> reqs) = drop (Z.to_nat offset) data). by rewrite Hcat.
Qed.

Definition stat_request (reference expected : string) : WriteContentRequest :=
  MkWrite reference Stat 0 0 expected ∅ [].

Definition commit_request (data : bytes) (expected : string) (labels : gmap string string)
    : WriteContentRequest :=
  let len := Z.of_nat (length data) in MkWrite EmptyString Commit len len expected labels [].

#[local] Opaque write_chunks.

Lemma write_content_sent l data reference expected labels w d w' :
  write_content self l data reference expected labels w = (Ok d, w') ->
  d = expected /\
  (sent w' = sent w ++ [stat_request reference expected] \/
   exists offset reqs,
     sent w' = sent w ++ stat_request reference expected :: reqs ++
                 [commit_request data expected labels] /\
     Forall is_chunk reqs /\ contiguous offset reqs /\
     concat (w_data <$> reqs) = drop (Z.to_nat offset) data).
Proof.
  unfold write_content. intros (tx & w1 & Htx & Hrun)%mbind_ok.
  pose proof (sent_channel w) as H1. destruct (mpsc_channel w) as [tx0 w0]. simplify_eq/=.
  apply mbind_ok in Hrun as ([] & w2 & Hstat & Hrun).
  pose proof (sent_send tx (stat_request reference expected) w1) as H2.
  unfold containerd_err, mmap_err in Hstat. fold (stat_request reference expected) in Hstat.
  destruct (tx_send tx (stat_request reference expected) w1) as [[[]|e|] wa]; simplify_eq/=.
  apply mbind_ok in Hrun as (stream & w3 & Hwrite & Hrun).
  pose proof (sent_write (inner self) (client_namespace self) (lease_id l) tx w2) as H3.
  unfold mtry in Hwrite. destruct (content_write _ _ _ tx w2) as [[rx|e|] wb]; simplify_eq/=.
  2:{ destruct (already_exists e); [|done]. injection Hrun as <- <-.
      split; [done|]. left. by rewrite H3, H2, H1. }
  apply mbind_ok in Hrun as (resp & w4 & Hresp & Hrun).
  assert (sent w4 = sent w3) as H4.
  { pose proof (sent_message rx w3) as Hm. unfold call_some, containerd_err, mmap_err in Hresp.
    apply mbind_ok in Hresp as (o & w5 & Ho & [= _ <-]).
    destruct (rx_message rx w3) as [r wc]. by simplify_eq/=. }
  apply mbind_ok in Hrun as (o & w5 & Hchunks & Hrun).
  destruct o as [[]|].
  2:{ exfalso. refine (write_chunks_total _ _ _ _ _ _ _ _ _ Hchunks). lia. }
  apply write_chunks_sent in Hchunks as (reqs & H5 & Hch & Hco & Hcat).
  apply mbind_ok in Hrun as (resp2 & w6 & Hcommit & Hrun). apply send_message_ok in Hcommit.
  case_decide as Hoff; [done|]. case_decide as Hdig; [done|]. injection Hrun as <- <-.
  split; [done|]. right. exists (r_offset resp), reqs. split_and!; try done.
  rewrite Hcommit, H5, H4, H3, H2, H1, <- !app_assoc. done.
Qed.
End saving.

(** ** Leases

    [open_leases w] is the number of leases that were created and whose
    deletion was not asked for yet. *)

Class CountsLeases (W Channel Tx Rx : Type) `{!Containerd W Channel Tx Rx}
    (open_leases : W -> Z) : Prop := {
  open_create c ns r ls w :
    open_leases (leases_create c ns r ls w).2 =
    (open_leases w + if (leases_create c ns r ls w).1 is Ok (Some _) then 1 else 0)%Z;
  open_delete c ns id w : open_leases (leases_delete c ns id w).2 = (open_leases w - 1)%Z;
  open_read c ns d : keeps open_leases (content_read c ns d);
  open_info c ns d : keeps open_leases (content_info c ns d);
  open_update c ns i m : keeps open_leases (content_update c ns i m);
  open_write c ns l tx : keeps open_leases (content_write c ns l tx);
  open_image c ns n : keeps open_leases (images_get c ns n);
  open_container c ns n : keeps open_leases (containers_get c ns n);
  open_send tx r : keeps open_leases (tx_send tx r);
  open_message rx : keeps open_leases (rx_message rx);
  open_channel w : open_leases (mpsc_channel w).2 = open_leases w;
}.

Section leases.
Context {W Channel Tx Rx : Type} `{!Containerd W Channel Tx Rx} `{!ImageFormat}.
Context (open_leases : W -> Z) `{!CountsLeases W Channel Tx Rx open_leases}.
Context (self : Client Channel).

#[local] Hint Resolve open_read open_info open_update open_write open_image open_container
  open_send open_message keeps_bind keeps_ret keeps_map_err keeps_try keeps_mapM : core.

Lemma keeps_call_some {A} (m : M W string (option A)) e :
  keeps open_leases m -> keeps open_leases (call_some m e).
Proof. intros Hm. unfold call_some, containerd_err. auto. Qed.

#[local] Hint Resolve keeps_call_some : core.

Lemma keeps_read d : keeps open_leases (read_content self d).
Proof. unfold read_content, containerd_err. apply keeps_bind; [auto|done]. Qed.

#[local] Hint Resolve keeps_read : core.

Lemma keeps_send req rx tx d : keeps open_leases (send_message req rx tx d).
Proof. unfold send_message. auto. Qed.

#[local] Hint Resolve keeps_send : core.

#[local] Transparent write_chunks.

Lemma keeps_chunks fuel data offset rx tx d :
  keeps open_leases (write_chunks fuel data offset rx tx d).
Proof.
  revert offset. induction fuel as [|fuel IH]; intros offset; simpl; case_decide; try done; auto.
Qed.

Lemma keeps_write_content l data reference expected labels :
  keeps open_leases (write_content self l data reference expected labels).
Proof.
  unfold write_content, containerd_err. apply keeps_bind.
  { intros w. pose proof (open_channel w). by destruct (mpsc_channel w). }
  intros tx. apply keeps_bind; [auto|intros _]. apply keeps_bind; [auto|].
  intros [rx|e|]; [|by destruct (already_exists e)|done].
  apply keeps_bind; [auto|intros resp]. apply keeps_bind; [apply keeps_chunks|intros _].
  apply keeps_bind; [auto|intros resp2]. by repeat case_decide.
Qed.

Lemma open_drop (g : LeaseGuard Channel) w : open_leases (drop_lease g w) = (open_leases w - 1)%Z.
Proof.
  unfold drop_lease, inner_release, mmap_err.
  pose proof (open_delete (lease_client g) (lease_namespace g) (lease_id g) w) as Hd.
  by destruct (leases_delete _ _ _ w).
Qed.

(** Saved content holds one more lease; a failure holds none. *)
Lemma open_save data id labels w :
  open_leases (save_content self data id labels w).2 =
  (open_leases w + if is_ok (save_content self data id labels w).1 then 1 else 0)%Z.
Proof.
  unfold save_content, lease, mbind, mget, scoped, mret, call_some, containerd_err, mmap_err, mlift.
  pose proof (open_create (inner self) (client_namespace self) ("precompile-" +:+ id)
                {["containerd.io/gc.expire" := expiry_24h w]} w) as Hc.
  unfold mbind. destruct (leases_create _ _ _ _ w) as [[[l|]|e|] w1]; simpl in *; try lia.
  pose proof (keeps_write_content (MkLeaseGuard (inner self) l (client_namespace self)) data
                ("precompile-" +:+ id) ("sha256:" +:+ sha256_digest data) labels w1) as Hw.
  destruct (write_content _ _ _ _ _ _ w1) as [[d|e|] w2]; simpl in *; rewrite ?open_drop; lia.
Qed.
Lemma keeps_get_info d : keeps open_leases (get_info self d).
Proof. unfold get_info. auto. Qed.

Lemma keeps_update_info i : keeps open_leases (update_info self i).
Proof. unfold update_info. auto. Qed.

#[local] Hint Resolve keeps_get_info keeps_update_info : core.

Lemma keeps_label pid img i o d : keeps open_leases (label_precompiled self pid img i o d).
Proof.
  unfold label_precompiled. apply keeps_bind; [auto|intros a].
  apply keeps_bind; [auto|intros _]. apply keeps_bind; [auto|intros b]. by apply keeps_bind.
Qed.

(** The lease of saved content is released or dropped before the loop goes on. *)
Lemma keeps_store_compiled pid img i l c : keeps open_leases (store_compiled self pid img i l c).
Proof.
  destruct c as [data|]; [|done]. intros w. unfold store_compiled, mbind.
  pose proof (open_save data pid {[pid +:+ "/original" := desc_digest (layer_config l)]} w) as Hs.
  destruct (save_content _ _ _ _ w) as [[content|e|] w1]; simpl in *; try lia.
  unfold scoped. pose proof (keeps_label pid img i (layer_config l) (wc_digest content) w1) as Hl.
  destruct (label_precompiled _ _ _ _ _ _ w1) as [[u|e|] w2]; simpl in *; rewrite ?open_drop; try lia.
  unfold mtry. pose proof (open_drop (wc_lease content) w2) as Hr. unfold drop_lease in Hr.
  change (release (wc_lease content)) with (inner_release (wc_lease content)).
  destruct (inner_release (wc_lease content) w2) as [[v|e|] w3]; simpl in *; lia.
Qed.

Lemma keeps_store_all pid img i ls cs : keeps open_leases (store_all self pid img i ls cs).
Proof.
  revert i cs. induction ls as [|l ls IH]; intros i [|c cs]; try done. simpl.
  apply keeps_bind; [apply keeps_store_compiled|intros x]. by apply keeps_bind.
Qed.

Lemma keeps_precompile compiler pid img ls :
  keeps open_leases (compile compiler ls) ->
  keeps open_leases (precompile_layers self compiler pid img ls).
Proof.
  intros Hc. unfold precompile_layers. apply keeps_bind; [auto|].
  intros [cs|e|]; try done. case_decide; [done|]. apply keeps_store_all.
Qed.

Lemma keeps_read_original c : keeps open_leases (read_original_layer self c).
Proof. unfold read_original_layer. by apply keeps_bind. Qed.

Lemma keeps_read_layer pid c : keeps open_leases (read_layer self pid c).
Proof.
  unfold read_layer. apply keeps_bind.
  - apply keeps_try. unfold read_precompiled_layer. apply keeps_bind; [auto|intros info].
    destruct (labels info !! pid); [|done]. apply keeps_bind; [auto|intros d]. by apply keeps_bind.
  - intros [l|e|]; [done| |]; (apply keeps_bind; [apply keeps_read_original|done]).
Qed.

Lemma keeps_load id name types compiler :
  (forall c ls, compiler = Some c -> keeps open_leases (compile c ls)) ->
  keeps open_leases (load_modules self id name types compiler).
Proof.
  intros Hc. unfold load_modules. apply keeps_bind; [unfold get_container; auto|intros container].
  apply keeps_bind.
  { unfold get_image_manifest_and_digest. apply keeps_bind; [unfold get_image; auto|intros image].
    do 4 (apply keeps_bind; [auto|intros ?]). done. }
  intros [manifest image_digest]. apply keeps_bind; [auto|intros config].
  apply keeps_bind; [auto|intros []]; [|done]. simpl. unfold load_layers.
  break_match; [done|]. destruct compiler as [compiler|].
  - apply keeps_bind; [auto|intros info].
    apply keeps_bind; [apply keeps_mapM; intros; apply keeps_read_layer|intros read].
    destruct (_ || _); [|done]. apply keeps_precompile. by apply Hc.
  - apply keeps_mapM. intros. apply keeps_read_original.
Qed.
End leases.

(** ** The layers *)

Section layers.
Context {W Channel Tx Rx : Type} `{!Containerd W Channel Tx Rx} `{!ImageFormat}.
Context (self : Client Channel).

Lemma read_original_config c w l w' :
  read_original_layer self c w = (Ok l, w') -> layer_config l = c.
Proof. unfold read_original_layer. by intros (m & w1 & _ & [= <- _])%mbind_ok. Qed.

Lemma read_precompiled_config c pid w l w' :
  read_precompiled_layer self c pid w = (Ok l, w') -> layer_config l = c.
Proof.
  unfold read_precompiled_layer. intros (info & w1 & _ & Hrun)%mbind_ok.
  destruct (labels info !! pid); [|done].
  apply mbind_ok in Hrun as (d & w2 & _ & Hrun). by apply mbind_ok in Hrun as (m & w3 & _ & [= <- _]).
Qed.

Lemma read_layer_config pid c w x w' :
  read_layer self pid c w = (Ok x, w') -> layer_config x.1 = c.
Proof.
  unfold read_layer. intros (r & w1 & Hr & Hrun)%mbind_ok. unfold mtry in Hr.
  destruct (read_precompiled_layer self c pid w) as [[l|e|] w2] eqn:Hp; simplify_eq/=.
  - injection Hrun as <- <-. by eapply read_precompiled_config.
  - apply mbind_ok in Hrun as (l & w3 & Ho & [= <- _]). by eapply read_original_config.
Qed.

Lemma store_compiled_config pid img i l c w x w' :
  store_compiled self pid img i l c w = (Ok x, w') -> layer_config x = layer_config l.
Proof.
  destruct c as [data|]; simpl; [|by intros [= <- _]].
  intros (content & w1 & _ & Hrun)%mbind_ok. apply mbind_ok in Hrun as (u & w2 & _ & Hrun).
  by apply mbind_ok in Hrun as (v & w3 & _ & [= <- _]).
Qed.

Lemma store_all_config pid img i ls cs w xs w' :
  length cs = length ls ->
  store_all self pid img i ls cs w = (Ok xs, w') -> layer_config <$> xs = layer_config <$> ls.
Proof.
  revert i cs w xs w'. induction ls as [|l ls IH]; intros i [|c cs] w xs w' Hlen; try done; simpl.
  - by intros [= <- _].
  - intros (x & w1 & Hx & Hrun)%mbind_ok. apply mbind_ok in Hrun as (xs' & w2 & Hxs & [= <- _]).
    apply store_compiled_config in Hx. simpl. rewrite Hx. f_equal.
    eapply IH; [|exact Hxs]. simpl in Hlen. lia.
Qed.

Lemma precompile_config compiler pid img ls w xs w' :
  precompile_layers self compiler pid img ls w = (Ok xs, w') ->
  layer_config <$> xs = layer_config <$> ls.
Proof.
  unfold precompile_layers. intros (r & w1 & _ & Hrun)%mbind_ok.
  destruct r as [cs|e|]; [|by injection Hrun as <- _..].
  case_decide as Hlen; [done|]. by eapply store_all_config.
Qed.

Lemma store_all_none pid img i ls w :
  store_all self pid img i ls (replicate (length ls) None) w = (Ok ls, w).
Proof.
  revert i. induction ls as [|l ls IH]; intros i; [done|]. simpl.
  unfold mbind at 1. simpl. unfold mbind. by rewrite IH.
Qed.
End layers.

(** ** Properties *)




(** Layers none of which the compiler can compile are used as they are, and
    nothing is stored: neither content nor label records that the compiler
    was asked, so the next load asks it again. *)
Theorem uncompilable_layers_are_not_recorded {W Channel Tx Rx : Type}
    `{!Containerd W Channel Tx Rx} `{!ImageFormat} (self : Client Channel)
    (compiler : Compiler W) (precompile_id digest : string) (ls : list WasmLayer) (w w' : W)
    (Hnone : compile compiler ls w = (Ok (replicate (length ls) None), w')) :
  precompile_layers self compiler precompile_id digest ls w = (Ok ls, w').
Proof.
  unfold precompile_layers, mbind, mtry. rewrite Hnone. rewrite length_replicate.
  rewrite decide_False by auto. apply store_all_none.
Qed.

(** ** Witnesses: a store in memory *)

Record DemoStore := MkDemoStore {
  ds_sent : list WriteContentRequest;
  ds_open : Z;
  ds_blobs : gmap string bytes;
  ds_labels : gmap string (gmap string string);
}.

(** The data written since the last stat. *)
Fixpoint written (reqs : list WriteContentRequest) (acc : bytes) : bytes :=
  match reqs with
  | [] => acc
  | r :: reqs' =>
      written reqs' (match w_action r with Stat => [] | Write => acc ++ w_data r | Commit => acc end)
  end.

Definition demo_send (r : WriteContentRequest) (s : DemoStore) : DemoStore :=
  let sent := ds_sent s ++ [r] in
  MkDemoStore sent (ds_open s)
    (match w_action r with Commit => <[w_expected r := written sent []]> (ds_blobs s) | _ => ds_blobs s end)
    (ds_labels s).

(** The answer to the last request: the offset to go on from, the digest. *)
Definition demo_answer (s : DemoStore) : WriteContentResponse :=
  match last (ds_sent s) with
  | Some r => MkWriteResponse (w_offset r) (w_expected r)
  | None => MkWriteResponse 0 EmptyString
  end.

#[export] Instance demo_store : Containerd DemoStore unit unit unit := {
  grpc_connect _ := mret tt;
  content_read _ _ d s := (match ds_blobs s !! d with Some b => Ok [b] | None => Err "not found" end, s);
  content_delete _ _ _ := mret tt;
  content_info _ _ d s := (Ok (Some (MkInfo d (default ∅ (ds_labels s !! d)))), s);
  content_update _ _ i _ s :=
    (Ok (Some i), MkDemoStore (ds_sent s) (ds_open s) (ds_blobs s)
                    (<[info_digest i := labels i]> (ds_labels s)));
  content_write _ _ _ _ := mret tt;
  images_get _ _ n := mret (Some (MkImage n (Some "manifest")));
  containers_get _ _ _ := mret (Some (MkContainer "image"));
  leases_create _ _ r _ s :=
    (Ok (Some r), MkDemoStore (ds_sent s) (ds_open s + 1) (ds_blobs s) (ds_labels s));
  leases_delete _ _ _ s :=
    (Ok tt, MkDemoStore (ds_sent s) (ds_open s - 1) (ds_blobs s) (ds_labels s));
  mpsc_channel s := (tt, s);
  tx_send _ r s := (Ok tt, demo_send r s);
  rx_message _ s := (Ok (Some (demo_answer s)), s);
  expiry_24h _ := "2025-01-02T00:00:00Z";
}.

#[export] Instance demo_format : ImageFormat := {
  sha256_digest b := pretty (length b);
  parse_digest := Ok;
  parse_manifest _ := Ok (MkManifest (MkDescriptor "config" "cfg")
                            [MkDescriptor "application/wasm" "l0"; MkDescriptor "text/plain" "l1"]);
  parse_platform _ := Ok true;
}.

#[export] Instance demo_recording : Recording DemoStore unit unit unit ds_sent.
Proof. by split. Qed.

#[export] Instance demo_counts : CountsLeases DemoStore unit unit unit ds_open.
Proof. split; try done; intros; simpl; lia. Qed.

Definition demo_client : Client unit := MkClient tt "default".

Definition demo_world : DemoStore :=
  MkDemoStore [] 0 {["manifest" := []; "cfg" := []; "l0" := [Byte.x61]]} ∅.

Definition demo_compiler : Compiler DemoStore :=
  MkCompiler 5 (fun ls => mret ((fun _ => Some [Byte.x62; Byte.x63]) <$> ls)).

Definition demo_data : bytes := [Byte.x61; Byte.x62].


Definition demo_load := load_modules demo_client "c1" "demo" ["application/wasm"] (Some demo_compiler).



(** A store where everything is labelled already. *)
Definition labelled_store : Containerd unit unit unit unit := {|
  grpc_connect _ := mret tt;
  content_read _ _ _ := mret [[Byte.x62]];
  content_delete _ _ _ := mret tt;
  content_info _ _ d := mret (Some (MkInfo d {[precompile_label "demo" 5 := "sha256:1"]}));
  content_update _ _ i _ := mret (Some i);
  content_write _ _ _ _ := mret tt;
  images_get _ _ n := mret (Some (MkImage n (Some "manifest")));
  containers_get _ _ _ := mret (Some (MkContainer "image"));
  leases_create _ _ r _ := mret (Some r);
  leases_delete _ _ _ := mret tt;
  mpsc_channel s := (tt, s);
  tx_send _ _ := mret tt;
  rx_message _ := mret None;
  expiry_24h _ := EmptyString;
|}.

Lemma uncompilable_layers_are_not_recorded_witness :
  precompile_layers demo_client (MkCompiler 5 (fun ls => mret (replicate (length ls) None)))
    "label" "manifest" [MkLayer (MkDescriptor "application/wasm" "l0") demo_data] demo_world =
  (Ok [MkLayer (MkDescriptor "application/wasm" "l0") demo_data], demo_world).
Proof. apply uncompilable_layers_are_not_recorded. reflexivity. Defined.
