(* ===== verification/ContentStore.v ===== *)
(** * ContentStore: what containerd's content store promises, and the cache of
    precompiled modules

    The abstract state of the store is a [View].  Its collector may run at any
    time and then keeps what can be reached from the images and the leases
    through the labels of the contents ([kept], [collected]); the class
    [ContentLaws] states the services of [Store.v] over views.  Against that
    interface the cache of [Client.v] works: what the first load of an image
    compiled, every later load finds, whatever was collected in between. *)

From S2P Require Import Prelude RustStr Errors Sandbox Store Client.

(** ** The abstract store *)

Record View := MkView {
  blobs : gmap string bytes;
  labelled : gmap string (gmap string string);
  images : gmap string string;
  containers : gmap string string;
  leased : gmap string (gset string);
}.

Definition labels_at (v : View) (d : string) : gmap string string := default ∅ (labelled v !! d).
Definition lease_of (v : View) (l : string) : gset string := default ∅ (leased v !! l).

(** A label with this prefix is a reference to the content it names. *)
Definition GC_REF : string := "containerd.io/gc.ref.content".
Definition is_gc_ref (k : string) : bool := starts_with GC_REF k.

(** What the collector keeps *)
Inductive kept (v : View) : string -> Prop :=
  | kept_image n d : images v !! n = Some d -> kept v d
  | kept_lease l d : d ∈ lease_of v l -> kept v d
  | kept_ref d k d' : kept v d -> labels_at v d !! k = Some d' -> is_gc_ref k -> kept v d'.

Record collected (v v' : View) : Prop := {
  same_images : images v' = images v;
  same_containers : containers v' = containers v;
  same_leases l : lease_of v' l = lease_of v l;
  same_kept d : kept v d -> blobs v' !! d = blobs v !! d /\ labels_at v' d = labels_at v d;
}.

Lemma kept_collected v v' d : collected v v' -> kept v d -> kept v' d.
Proof.
  intros [Hi _ Hl Hk]. induction 1 as [n d Hd|l d Hd|d k d' Hd IH Hlab Hk'].
  - apply (kept_image _ n). by rewrite Hi.
  - apply (kept_lease _ l). by rewrite Hl.
  - eapply kept_ref; [exact IH| |exact Hk']. by rewrite (proj2 (Hk d Hd)).
Qed.

#[export] Instance collected_preorder : PreOrder collected.
Proof.
  split; [by intros v; split|]. intros v1 v2 v3 H12 H23.
  split.
  - by rewrite (same_images _ _ H23), (same_images _ _ H12).
  - by rewrite (same_containers _ _ H23), (same_containers _ _ H12).
  - intros l. by rewrite (same_leases _ _ H23), (same_leases _ _ H12).
  - intros d Hd. destruct (same_kept _ _ H12 d Hd) as [<- <-]. apply (same_kept _ _ H23).
    by apply (kept_collected _ _ d H12).
Qed.

(** The effects of the services *)
Definition link_lease (l d : string) (v : View) : View :=
  MkView (blobs v) (labelled v) (images v) (containers v) (<[l := {[d]} ∪ lease_of v l]> (leased v)).
Definition close_lease (l : string) (v : View) : View :=
  MkView (blobs v) (labelled v) (images v) (containers v) (delete l (leased v)).
Definition set_labels (d : string) (ls : gmap string string) (v : View) : View :=
  MkView (blobs v) (<[d := ls]> (labelled v)) (images v) (containers v) (leased v).
Definition commit (l d : string) (b : bytes) (ls : gmap string string) (v : View) : View :=
  link_lease l d (MkView (<[d := b]> (blobs v)) (<[d := ls]> (labelled v)) (images v) (containers v) (leased v)).

(** What the client does without taking anything away: the store collects, a
    lease holds a content that is there, new content is written. *)
Inductive step (v : View) : View -> Prop :=
  | step_gc v' : collected v v' -> step v v'
  | step_link l d : is_Some (blobs v !! d) -> step v (link_lease l d v)
  | step_commit l d b ls : blobs v !! d = None -> step v (commit l d b ls v).

(** The text of the digest of a content *)
Definition content_digest `{!ImageFormat} (b : bytes) : string := "sha256:" +:+ sha256_digest b.

(** ** The laws

    For the calls on one channel in one namespace.  Reads answer when what
    they ask for is there; during every call the store may collect.  SHA-256 is
    taken to be free of collisions. *)
Class ContentLaws (W Channel Tx Rx : Type) `{!Containerd W Channel Tx Rx} `{!ImageFormat}
    (ch : Channel) (ns : string) (view : W -> View) (lease_of_stream : Rx -> string) : Prop := {
  digest_text s d : parse_digest s = Ok d -> d = s;
  digest_parses b : parse_digest (content_digest b) = Ok (content_digest b);
  no_collision a b : sha256_digest a = sha256_digest b -> a = b;
  content_addressed w d b : blobs (view w) !! d = Some b -> d = content_digest b;
  containers_get_known n i w : containers (view w) !! n = Some i ->
    (containers_get ch ns n w).1 = Ok (Some (MkContainer i));
  containers_get_quiet n w : collected (view w) (view (containers_get ch ns n w).2);
  images_get_known n d w : images (view w) !! n = Some d ->
    (images_get ch ns n w).1 = Ok (Some (MkImage n (Some d)));
  images_get_quiet n w : collected (view w) (view (images_get ch ns n w).2);
  content_read_known d b w : blobs (view w) !! d = Some b ->
    exists msgs, (content_read ch ns d w).1 = Ok msgs /\ concat msgs = b;
  content_read_quiet d w : collected (view w) (view (content_read ch ns d w).2);
  content_info_known d w : is_Some (blobs (view w) !! d) ->
    (content_info ch ns d w).1 = Ok (Some (MkInfo d (labels_at (view w) d)));
  content_info_quiet d w : collected (view w) (view (content_info ch ns d w).2);
  content_update_labels i j w w' : content_update ch ns i ["labels"] w = (Ok (Some j), w') ->
    collected (set_labels (info_digest i) (labels i) (view w)) (view w');
  leases_create_quiet r ls w : collected (view w) (view (leases_create ch ns r ls w).2);
  leases_delete_closes id w :
    collected (close_lease id (view w)) (view (leases_delete ch ns id w).2) \/
    collected (view w) (view (leases_delete ch ns id w).2);
  mpsc_channel_quiet w : collected (view w) (view (mpsc_channel w).2);
  tx_send_quiet tx req w : collected (view w) (view (tx_send tx req w).2);
  content_write_exists l tx req w w1 w2 e :
    tx_send tx req w = (Ok tt, w1) -> w_action req = Stat ->
    content_write ch ns l tx w1 = (Err e, w2) -> already_exists e = true ->
    is_Some (blobs (view w1) !! w_expected req) /\
    collected (link_lease l (w_expected req) (view w1)) (view w2);
  content_write_opens l tx rx w w1 : content_write ch ns l tx w = (Ok rx, w1) ->
    lease_of_stream rx = l /\ collected (view w) (view w1) /\
    collected (view w1) (view (rx_message rx w1).2);
  rx_message_quiet tx req rx w w1 :
    tx_send tx req w = (Ok tt, w1) -> w_action req ≠ Commit ->
    collected (view w1) (view (rx_message rx w1).2);
  rx_message_commit tx req rx w w1 w2 r :
    tx_send tx req w = (Ok tt, w1) -> w_action req = Commit ->
    rx_message rx w1 = (Ok (Some r), w2) -> r_digest r = w_expected req ->
    blobs (view w1) !! w_expected req = None /\
    exists b, collected (commit (lease_of_stream rx) (w_expected req) b (w_labels req) (view w1)) (view w2);
}.

(** ** The lemmas on views *)

Lemma labels_at_set d ls d' v :
  labels_at (set_labels d ls v) d' = if decide (d' = d) then ls else labels_at v d'.
Proof.
  unfold labels_at, set_labels. simpl. case_decide as Hd.
  - subst. by rewrite lookup_insert_eq.
  - by rewrite lookup_insert_ne.
Qed.

Lemma lease_of_link l d v l' :
  lease_of (link_lease l d v) l' = if decide (l' = l) then {[d]} ∪ lease_of v l else lease_of v l'.
Proof.
  unfold lease_of at 1, link_lease. simpl. case_decide as Hl.
  - subst. by rewrite lookup_insert_eq.
  - by rewrite lookup_insert_ne.
Qed.

Lemma lease_of_link_elem l d v l' d' : d' ∈ lease_of v l' -> d' ∈ lease_of (link_lease l d v) l'.
Proof. rewrite lease_of_link. case_decide; set_solver. Qed.

Lemma in_link_lease l d v : d ∈ lease_of (link_lease l d v) l.
Proof. rewrite lease_of_link, decide_True by done. set_solver. Qed.

(** A content that is there is not touched by what is written. *)
Lemma blob_step v v' d : step v v' -> kept v d -> is_Some (blobs v !! d) ->
  blobs v' !! d = blobs v !! d /\ labels_at v' d = labels_at v d.
Proof.
  intros [v1 Hgc|l d1 _|l d1 b ls Hnew] Hd [b' Hb]; [by apply (same_kept _ _ Hgc)|done|].
  assert (d ≠ d1) as Hne by congruence. unfold labels_at. simpl.
  by rewrite !lookup_insert_ne by done.
Qed.

Lemma images_step v v' : step v v' -> images v' = images v /\ containers v' = containers v.
Proof. intros [v1 Hgc|l d _|l d b ls _]; [|done..]. split; apply Hgc. Qed.

Lemma lease_step v v' l d : step v v' -> d ∈ lease_of v l -> d ∈ lease_of v' l.
Proof.
  intros [v1 Hgc|l1 d1 _|l1 d1 b ls _] Hd; [by rewrite (same_leases _ _ Hgc)|by apply lease_of_link_elem|].
  unfold commit. apply lease_of_link_elem. exact Hd.
Qed.

(** [stable P]: nothing that the client and the collector do ends [P]. *)
Definition stable (P : View -> Prop) : Prop := forall v v', step v v' -> P v -> P v'.

Lemma stable_rtc P v v' : stable P -> rtc step v v' -> P v -> P v'.
Proof. intros HP Hs. induction Hs; eauto. Qed.

(** A content with its bytes, held by a lease *)
Definition held (l d : string) (b : bytes) (v : View) : Prop := d ∈ lease_of v l /\ blobs v !! d = Some b.

Lemma stable_held l d b : stable (held l d b).
Proof.
  intros v v' Hs [Hl Hb]. split; [by eapply lease_step|].
  destruct (blob_step v v' d) as [-> _]; [done|by eapply kept_lease|by rewrite Hb|done].
Qed.

(** ** An image in the store

    The manifest [manifest] of the image of a container, whose bytes are
    [mbytes], and its configuration [cbytes]; containerd labelled the manifest
    with references to its contents when it fetched the image. *)

Section image.
Context `{!ImageFormat}.
Context (cid img mdigest : string) (manifest : ImageManifest) (mbytes cbytes : bytes).

Definition contents : list string :=
  desc_digest (manifest_config manifest) :: (desc_digest <$> manifest_layers manifest).

(** The reference to a content, under a label that is not one of the cache *)
Definition referenced (d : string) (v : View) : Prop :=
  is_Some (blobs v !! d) /\
  exists k, labels_at v mdigest !! k = Some d /\ is_gc_ref k /\ forall i, k ≠ gc_ref_label i.

Record pulled (v : View) : Prop := {
  pulled_container : containers v !! cid = Some img;
  pulled_image : images v !! img = Some mdigest;
  pulled_manifest : blobs v !! mdigest = Some mbytes;
  pulled_config : blobs v !! desc_digest (manifest_config manifest) = Some cbytes;
  pulled_contents d : d ∈ contents -> referenced d v;
}.

Lemma kept_manifest v : pulled v -> kept v mdigest.
Proof. intros Hp. eapply kept_image, (pulled_image v Hp). Qed.

Lemma kept_referenced d v : kept v mdigest -> referenced d v -> kept v d.
Proof. intros Hm (_ & k & Hk & Hgc & _). by eapply kept_ref. Qed.

Lemma manifest_step v v' : step v v' -> pulled v ->
  blobs v' !! mdigest = blobs v !! mdigest /\ labels_at v' mdigest = labels_at v mdigest.
Proof.
  intros Hs Hp. apply (blob_step v v' mdigest Hs (kept_manifest v Hp)). by rewrite (pulled_manifest v Hp).
Qed.

Lemma content_step v v' d : step v v' -> pulled v -> d ∈ contents ->
  blobs v' !! d = blobs v !! d /\ labels_at v' d = labels_at v d.
Proof.
  intros Hs Hp Hd. pose proof (pulled_contents v Hp d Hd) as Href.
  eapply blob_step; [done| |by destruct Href]. by apply kept_referenced; [apply kept_manifest|].
Qed.

Lemma stable_pulled : stable pulled.
Proof.
  intros v v' Hs Hp. destruct (manifest_step v v' Hs Hp) as [Hb Hl].
  destruct (images_step _ _ Hs) as [Hi Hc]. pose proof Hp as [H1 H2 H3 H4 H5]. split.
  - by rewrite Hc.
  - by rewrite Hi.
  - by rewrite Hb.
  - destruct (content_step v v' (desc_digest (manifest_config manifest)) Hs Hp) as [-> _]; [by left|done].
  - intros d Hd. destruct (content_step v v' d Hs Hp Hd) as [Hbd _].
    destruct (H5 d Hd) as [Hb' (k & Hk & Hgc & Hne)]. split; [by rewrite Hbd|].
    exists k. by rewrite Hl.
Qed.

(** The [i]-th layer, with digest [d], has [b] as its precompiled content. *)
Definition cached (pid : string) (i : nat) (d : string) (b : bytes) (v : View) : Prop :=
  labels_at v d !! pid = Some (content_digest b) /\
  labels_at v mdigest !! gc_ref_label i = Some (content_digest b) /\
  blobs v !! content_digest b = Some b.

Lemma gc_ref_label_ref i : is_gc_ref (gc_ref_label i).
Proof. apply (bool_decide_pack _). by eexists. Qed.

(** The cache of the layers [dn], the first ones of the image *)
Definition cache (pid : string) (dn : list (Descriptor * bytes)) (v : View) : Prop :=
  pulled v /\ Forall (fun x => desc_digest x.1 ∈ contents) dn /\
  forall i cf b, dn !! i = Some (cf, b) -> cached pid i (desc_digest cf) b v.

Lemma stable_cache pid dn : stable (cache pid dn).
Proof.
  intros v v' Hs (Hp & Hin & Hc). split_and!; [by eapply stable_pulled|done|].
  intros i cf b Hi. destruct (Hc i cf b Hi) as (H1 & H2 & H3).
  destruct (content_step v v' (desc_digest cf) Hs Hp) as [_ Hl].
  { by apply (proj1 (Forall_lookup _ _) Hin i (cf, b) Hi). }
  destruct (manifest_step v v' Hs Hp) as [_ Hm]. unfold cached. rewrite Hl, Hm. split_and!; [done..|].
  destruct (blob_step v v' (content_digest b) Hs) as [-> _]; [|by rewrite H3|done].
  eapply kept_ref; [by apply kept_manifest|exact H2|apply gc_ref_label_ref].
Qed.

(** What a collection leaves *)
Lemma cache_collected pid dn v v' : collected v v' -> cache pid dn v ->
  cache pid dn v' /\ labels_at v' mdigest = labels_at v mdigest /\
  forall d, d ∈ contents -> labels_at v' d = labels_at v d.
Proof.
  intros Hs%step_gc Hc. split_and!; [by eapply stable_cache|apply (manifest_step v v' Hs), Hc|].
  intros d Hd. apply (content_step v v' d Hs); [apply Hc|done].
Qed.

(** A lease is not what keeps the cache. *)
Lemma cache_close pid dn l v : cache pid dn v -> cache pid dn (close_lease l v).
Proof. intros (Hp & Hin & Hc). split_and!; [by destruct Hp; split|done|done]. Qed.

(** *** The labels of the cache *)

Context (pid : string) (pid_no_ref : is_gc_ref pid = false) (manifest_apart : mdigest ∉ contents).

Lemma pid_gc_ref_label i : pid ≠ gc_ref_label i.
Proof. intros ->. pose proof (gc_ref_label_ref i) as Hgc. by rewrite pid_no_ref in Hgc. Qed.

Lemma gc_ref_label_inj i j : gc_ref_label i = gc_ref_label j -> i = j.
Proof. intros Heq%str_app_inj_r. by apply (inj pretty). Qed.

Definition layer_labels (i : nat) (g : string) (ls : gmap string string) : gmap string string :=
  <[gc_ref_label i := g]> (<[pid := g]> ls).

Definition manifest_labels (i : nat) (g : string) (ls : gmap string string) : gmap string string :=
  <[pid := "true"]> (<[gc_ref_label i := g]> ls).

Lemma cache_label_layer dn cf b v :
  let d := desc_digest cf in
  cache pid dn v -> d ∈ contents -> d ∉ (fun x => desc_digest x.1) <$> dn ->
  let v' := set_labels d (layer_labels (length dn) (content_digest b) (labels_at v d)) v in
  cache pid dn v' /\ labels_at v' d !! pid = Some (content_digest b).
Proof.
  intros d (Hp & Hin & Hc) Hd Hnew v'.
  assert (mdigest ≠ d) as Hm by congruence. split.
  - split_and!; [|done|].
    + destruct Hp as [H1 H2 H3 H4 H5]. split; [done..|]. intros d' Hd'.
      destruct (H5 d' Hd') as [Hb (k & Hk)]. split; [done|]. exists k.
      unfold v'. by rewrite labels_at_set, decide_False by done.
    + intros i cf' b' Hi. destruct (Hc i cf' b' Hi) as (H1 & H2 & H3).
      assert (desc_digest cf' ≠ d) as Hne.
      { intros Heq. apply Hnew, list_elem_of_fmap. exists (cf', b'). split; [done|].
        by eapply list_elem_of_lookup_2. }
      unfold cached, v'. rewrite !labels_at_set, !decide_False by done. done.
  - unfold v', layer_labels. rewrite labels_at_set, decide_True by done.
    rewrite lookup_insert_ne by (apply not_eq_sym, pid_gc_ref_label). by rewrite lookup_insert_eq.
Qed.

Lemma cache_label_manifest dn cf b v :
  let d := desc_digest cf in
  cache pid dn v -> d ∈ contents -> labels_at v d !! pid = Some (content_digest b) ->
  blobs v !! content_digest b = Some b ->
  let v' := set_labels mdigest (manifest_labels (length dn) (content_digest b) (labels_at v mdigest)) v in
  cache pid (dn ++ [(cf, b)]) v' /\ labels_at v' mdigest !! pid = Some "true"%string.
Proof.
  intros d (Hp & Hin & Hc) Hd Hlab Hblob v'.
  assert (labels_at v' mdigest = manifest_labels (length dn) (content_digest b) (labels_at v mdigest)) as Hml.
  { unfold v'. by rewrite labels_at_set, decide_True. }
  assert (forall d', d' ∈ contents -> labels_at v' d' = labels_at v d') as Hother.
  { intros d' Hd'. unfold v'. rewrite labels_at_set, decide_False; congruence. }
  split; [split_and!|].
  - destruct Hp as [H1 H2 H3 H4 H5]. split; [done..|]. intros d' Hd'.
    destruct (H5 d' Hd') as [Hb (k & Hk & Hgc & Hne)]. split; [done|]. exists k. split; [|done].
    rewrite Hml. unfold manifest_labels. rewrite !lookup_insert_ne; [done|by apply not_eq_sym|].
    intros <-. by rewrite pid_no_ref in Hgc.
  - apply Forall_app. auto.
  - intros i cf' b' [Hi|[Hge Hi]]%lookup_app_Some.
    + destruct (Hc i cf' b' Hi) as (H1 & H2 & H3). apply lookup_lt_Some in Hi as Hlt.
      split_and!; [|rewrite Hml|done].
      * rewrite Hother; [done|]. apply list_elem_of_lookup_2 in Hi.
        by apply (proj1 (Forall_forall _ _) Hin _ Hi).
      * unfold manifest_labels. rewrite !lookup_insert_ne; [done| |apply pid_gc_ref_label].
        intros Heq%gc_ref_label_inj. lia.
    + apply list_lookup_singleton_Some in Hi as [Hi0 [= <- <-]].
      replace i with (length dn) by lia. split_and!; [by rewrite Hother|rewrite Hml|done].
      unfold manifest_labels. rewrite lookup_insert_ne by apply pid_gc_ref_label. by rewrite lookup_insert_eq.
  - rewrite Hml. apply lookup_insert_eq.
Qed.
End image.

(** ** The client over the store *)

Section client.
Context {W Channel Tx Rx : Type} `{!Containerd W Channel Tx Rx} `{!ImageFormat}.
Context (self : Client Channel) (view : W -> View) (lease_of_stream : Rx -> string).
Context `{!ContentLaws W Channel Tx Rx (inner self) (client_namespace self) view lease_of_stream}.

(** [quiet m]: whatever its outcome, [m] only lets the store collect. *)
Definition quiet {E A} (m : M W E A) : Prop := forall w, collected (view w) (view (m w).2).

Lemma quiet_bind {E A B} (m : M W E A) (k : A -> M W E B) :
  quiet m -> (forall a, quiet (k a)) -> quiet (mbind m k).
Proof.
  intros Hm Hk w. unfold mbind. specialize (Hm w). destruct (m w) as [[a|e|] w1]; [|done..].
  by etransitivity; [|apply Hk].
Qed.

Lemma quiet_lift {E A} (r : outcome E A) : quiet (mlift r).
Proof. intros w. done. Qed.

Lemma quiet_map_err {E E' A} (f : E -> E') (m : M W E A) : quiet m -> quiet (mmap_err f m).
Proof. intros Hm w. unfold mmap_err. specialize (Hm w). by destruct (m w). Qed.

Lemma quiet_try {E E' A} (m : M W E A) : quiet m -> quiet (mtry (E' := E') m).
Proof. intros Hm w. unfold mtry. specialize (Hm w). by destruct (m w) as [[]]. Qed.

Lemma quiet_mapM {E A B} (f : A -> M W E B) l : (forall x, quiet (f x)) -> quiet (mapM_M f l).
Proof.
  intros Hf. induction l as [|x l IH]; [by intros w|]. simpl.
  apply quiet_bind; [done|intros y]. apply quiet_bind; [done|]. by intros ys w.
Qed.

Lemma quiet_call {A} (m : M W string (option A)) none : quiet m -> quiet (call_some m none).
Proof. intros Hm. apply quiet_bind; [by apply quiet_map_err|]. intros o. apply quiet_lift. Qed.

Lemma quiet_world {E A} (m : M W E A) w r w' : quiet m -> m w = (r, w') -> collected (view w) (view w').
Proof. intros Hm Hw. specialize (Hm w). by rewrite Hw in Hm. Qed.

Lemma quiet_get_info d : quiet (get_info self d).
Proof. apply quiet_call. intros w. apply content_info_quiet. Qed.

Lemma quiet_read d : quiet (read_content self d).
Proof.
  apply quiet_bind; [apply quiet_map_err; intros w; apply content_read_quiet|]. by intros msgs w.
Qed.

Lemma quiet_read_layer pid c : quiet (read_layer self pid c).
Proof.
  apply quiet_bind.
  - apply quiet_try, quiet_bind; [apply quiet_get_info|intros info].
    destruct (labels info !! pid) as [label|]; [|apply (quiet_lift (Err _))].
    apply quiet_bind; [apply quiet_lift|intros d]. apply quiet_bind; [apply quiet_read|]. by intros m w.
  - assert (quiet (let! layer := read_original_layer self c in mret (layer, true))) as Ho.
    { apply quiet_bind; [|by intros l w]. apply quiet_bind; [apply quiet_read|]. by intros m w. }
    intros [l|e|]; [by intros w|done..].
Qed.

Lemma call_world {A} (m : M W string (option A)) none w a w' :
  call_some m none w = (Ok a, w') -> w' = (m w).2.
Proof.
  unfold call_some, containerd_err, mbind, mmap_err, mlift.
  destruct (m w) as [[o|e|] w1]; simpl; [|done..]. by intros [= _ <-].
Qed.

(** What the reads answer *)
Lemma call_known {A} (m : M W string (option A)) none a w :
  (m w).1 = Ok (Some a) -> exists w', call_some m none w = (Ok a, w') /\ w' = (m w).2.
Proof.
  intros Hm. unfold call_some, containerd_err, mbind, mmap_err. destruct (m w) as [r w']. simpl in *. subst.
  by exists w'.
Qed.

Lemma get_info_known d w : is_Some (blobs (view w) !! d) ->
  exists w', get_info self d w = (Ok (MkInfo d (labels_at (view w) d)), w') /\ collected (view w) (view w').
Proof.
  intros Hd. edestruct (call_known (content_info (inner self) (client_namespace self) d)) as (w' & Hw & _).
  { by apply content_info_known. }
  exists w'. split; [exact Hw|]. eapply quiet_world; [apply quiet_get_info|exact Hw].
Qed.

Lemma read_known d b w : blobs (view w) !! d = Some b ->
  exists w', read_content self d w = (Ok b, w') /\ collected (view w) (view w').
Proof.
  intros (msgs & Hm & <-)%content_read_known.
  assert (exists w', read_content self d w = (Ok (concat msgs), w')) as [w' Hw].
  { unfold read_content, containerd_err, mbind, mmap_err.
    destruct (content_read _ _ d w) as [r w']. simpl in *. subst. by exists w'. }
  exists w'. split; [exact Hw|]. eapply quiet_world; [apply quiet_read|exact Hw].
Qed.

(** *** Saving content *)

Lemma send_message_inv req rx tx d w resp w' :
  send_message req rx tx d w = (Ok resp, w') ->
  exists w1, tx_send tx req w = (Ok tt, w1) /\ rx_message rx w1 = (Ok (Some resp), w').
Proof.
  unfold send_message, mmap_err. intros ([] & w1 & Hs & Hrun)%mbind_ok.
  apply mbind_ok in Hrun as (o & w2 & Hm & Hrun).
  destruct (tx_send tx req w) as [[[]|e|] w3]; simplify_eq/=. exists w1. split; [done|].
  unfold mlift, ok_or in Hrun. by destruct (rx_message rx w1) as [[[resp'|]|e|] w4]; simplify_eq/=.
Qed.

Lemma tx_sent tx req w r w' : tx_send tx req w = (r, w') -> collected (view w) (view w').
Proof. intros Hs. pose proof (tx_send_quiet tx req w) as Hq. by rewrite Hs in Hq. Qed.

Lemma send_quiet req rx tx d w resp w' :
  w_action req ≠ Commit -> send_message req rx tx d w = (Ok resp, w') -> rtc step (view w) (view w').
Proof.
  intros Ha (w1 & Hs & Hr)%send_message_inv. apply (rtc_l _ _ (view w1)); [|apply rtc_once]; apply step_gc.
  - by eapply tx_sent.
  - pose proof (rx_message_quiet tx req rx w w1 Hs Ha) as Hq. by rewrite Hr in Hq.
Qed.

Lemma write_chunks_quiet fuel data offset rx tx d w o w' :
  write_chunks fuel data offset rx tx d w = (Ok o, w') -> rtc step (view w) (view w').
Proof.
  revert offset w. induction fuel as [|fuel IH]; intros offset w; simpl; case_decide; try by intros [= _ <-].
  intros (x & w1 & [= _ <-] & (r & w2 & Hs & Hrun)%mbind_ok)%mbind_ok.
  apply send_quiet in Hs; [|done]. apply IH in Hrun. by etransitivity.
Qed.

#[local] Opaque write_chunks.

Lemma content_digest_inj a b : content_digest a = content_digest b -> a = b.
Proof. intros Heq%str_app_inj_r. by eapply no_collision. Qed.

(** The content with the digest of [data] is [data]. *)
Lemma blob_of_digest data w : is_Some (blobs (view w) !! content_digest data) ->
  blobs (view w) !! content_digest data = Some data.
Proof.
  intros [b Hb]. pose proof (content_addressed w _ b Hb) as Hd. apply content_digest_inj in Hd. by subst.
Qed.

Lemma held_collected l d b v v' : collected v v' -> held l d b v -> held l d b v'.
Proof. intros Hc. apply stable_held. by apply step_gc. Qed.

Lemma held_link l data w w' : is_Some (blobs (view w) !! content_digest data) ->
  collected (link_lease l (content_digest data) (view w)) (view w') ->
  rtc step (view w) (view w') /\ held l (content_digest data) data (view w').
Proof.
  intros Hb Hc. split.
  - eapply rtc_l; [by apply (step_link _ l)|]. by apply rtc_once, step_gc.
  - eapply held_collected; [exact Hc|]. split; [apply in_link_lease|]. by apply (blob_of_digest data w).
Qed.

Lemma held_commit l data b ls w w' : blobs (view w) !! content_digest data = None ->
  collected (commit l (content_digest data) b ls (view w)) (view w') ->
  rtc step (view w) (view w') /\ held l (content_digest data) data (view w').
Proof.
  intros Hnew Hc. split.
  - eapply rtc_l; [by apply (step_commit _ l)|]. by apply rtc_once, step_gc.
  - assert (held l (content_digest data) b (view w')) as [Hl Hb].
    { eapply held_collected; [exact Hc|]. split; [apply in_link_lease|]. simpl. apply lookup_insert_eq. }
    split; [done|]. by apply blob_of_digest.
Qed.

Lemma write_content_held l data reference ls w d w' :
  write_content self l data reference (content_digest data) ls w = (Ok d, w') ->
  d = content_digest data /\ rtc step (view w) (view w') /\ held (lease_id l) d data (view w').
Proof.
  unfold write_content. intros (tx & w1 & Hch & Hrun)%mbind_ok.
  assert (rtc step (view w) (view w1)) as H1.
  { pose proof (mpsc_channel_quiet w) as Hq. destruct (mpsc_channel w) as [tx' w1']. simplify_eq/=.
    by apply rtc_once, step_gc. }
  apply mbind_ok in Hrun as ([] & w2 & Hs & Hrun). unfold containerd_err, mmap_err in Hs.
  set (req := MkWrite reference Stat 0 0 (content_digest data) ∅ []) in *.
  destruct (tx_send tx req w1) as [[[]|e|] w2'] eqn:Hsend; simplify_eq/=.
  assert (rtc step (view w) (view w2)) as H2.
  { etransitivity; [exact H1|]. apply rtc_once, step_gc.
    by eapply tx_sent. }
  apply mbind_ok in Hrun as (stream & w3 & Hw & Hrun). unfold mtry in Hw.
  destruct (content_write _ _ _ _ w2) as [[rx|e|] w3'] eqn:Hcw; simplify_eq/=.
  - apply content_write_opens in Hcw as (Hl & Hq & Hq').
    apply mbind_ok in Hrun as (resp & w4 & Hr & Hrun). apply mbind_ok in Hrun as (o & w5 & Hc & Hrun).
    apply mbind_ok in Hrun as (resp' & w6 & Hcommit & Hrun).
    case_decide; [done|]. case_decide as Hdig; [done|]. injection Hrun as <- <-.
    assert (rtc step (view w2) (view w4)) as H4.
    { apply (rtc_l _ _ (view w3)); [by apply step_gc|]. apply rtc_once, step_gc.
      by apply call_world in Hr as ->. }
    apply write_chunks_quiet in Hc. apply send_message_inv in Hcommit as (w7 & Hs7 & Hr7).
    destruct (rx_message_commit _ _ _ _ _ _ _ Hs7 eq_refl Hr7) as (Hnew & b & Hb); [done|].
    apply tx_sent in Hs7.
    destruct (held_commit _ _ _ _ _ _ Hnew Hb) as [Hst Hheld].
    rewrite Hdig.
    split_and!; [done| |by rewrite <- Hl]. etransitivity; [exact H2|].
    etransitivity; [exact H4|]. etransitivity; [exact Hc|].
    eapply rtc_l; [by apply step_gc|exact Hst].
  - destruct (already_exists e) eqn:He; [|done]. injection Hrun as <- <-.
    destruct (content_write_exists _ _ _ _ _ _ _ Hsend eq_refl Hcw He) as [Hb Hc].
    destruct (held_link _ _ _ _ Hb Hc) as [Hst Hheld]. split_and!; [done| |done].
    etransitivity; [exact H2|exact Hst].
Qed.

Lemma save_content_held data pid ls w wc w' :
  save_content self data pid ls w = (Ok wc, w') ->
  wc_digest wc = content_digest data /\ rtc step (view w) (view w') /\
  held (lease_id (wc_lease wc)) (content_digest data) data (view w') /\
  lease_client (wc_lease wc) = inner self /\ lease_namespace (wc_lease wc) = client_namespace self.
Proof.
  unfold save_content. intros (l & w1 & Hl & Hrun)%mbind_ok.
  apply mbind_ok in Hrun as (d & w2 & Hw & [= <- <-]). unfold scoped in Hw.
  destruct (write_content _ _ _ _ _ _ w1) as [[d'|e|] w3] eqn:Hwc; simplify_eq.
  apply write_content_held in Hwc as (-> & Hst & Hheld). simpl.
  unfold lease, mget in Hl. apply mbind_ok in Hl as (ex & w4 & [= <- <-] & Hl).
  apply mbind_ok in Hl as (id & w4 & Hc & [= <- <-]).
  split_and!; [done| |done..]. etransitivity; [|exact Hst].
  apply rtc_once, step_gc. eapply quiet_world; [|exact Hc]. apply quiet_call.
  intros w0. apply leases_create_quiet.
Qed.

(** *** The cache of the layers of an image *)

Context (cid img mdigest : string) (manifest : ImageManifest) (mbytes cbytes : bytes).
Context (pid : string) (pid_no_ref : is_gc_ref pid = false) (manifest_apart : mdigest ∉ contents manifest).
Abbreviation cache := (cache cid img mdigest manifest mbytes cbytes pid).

Lemma update_labels i j w w' : update_info self i w = (Ok j, w') ->
  collected (set_labels (info_digest i) (labels i) (view w)) (view w').
Proof.
  unfold update_info, call_some, containerd_err, mbind, mmap_err, mlift. intros Hu.
  destruct (content_update _ _ i _ w) as [[[j'|]|e|] w1] eqn:Hc; simplify_eq/=.
  by eapply content_update_labels.
Qed.

Lemma info_of_blob d w i w' : is_Some (blobs (view w) !! d) -> get_info self d w = (Ok i, w') ->
  i = MkInfo d (labels_at (view w) d) /\ collected (view w) (view w').
Proof.
  intros Hd Hi. destruct (get_info_known d w Hd) as (w1 & Hw & _). rewrite Hi in Hw.
  injection Hw as -> ->. split; [done|]. eapply quiet_world; [apply quiet_get_info|exact Hi].
Qed.

(** The two updates of labels add a layer to the cache. *)
Lemma label_caches dn cf b l w w' :
  cache dn (view w) -> desc_digest cf ∈ contents manifest ->
  desc_digest cf ∉ (fun x => desc_digest x.1) <$> dn ->
  held l (content_digest b) b (view w) ->
  label_precompiled self pid mdigest (length dn) cf (content_digest b) w = (Ok tt, w') ->
  cache (dn ++ [(cf, b)]) (view w') /\ labels_at (view w') mdigest !! pid = Some "true"%string.
Proof.
  intros Hc Hd Hnew Hh Hrun. unfold label_precompiled in Hrun. set (d := desc_digest cf) in *.
  apply mbind_ok in Hrun as (i1 & w1 & Hi1 & Hrun). apply mbind_ok in Hrun as (j1 & w2 & Hu1 & Hrun).
  apply mbind_ok in Hrun as (i2 & w3 & Hi2 & Hrun). apply mbind_ok in Hrun as (j2 & w4 & Hu2 & [= <-]).
  apply info_of_blob in Hi1 as [-> Hq1]; [|by apply Hc]. apply update_labels in Hu1. simpl in Hu1.
  apply (held_collected _ _ _ _ _ Hq1) in Hh. apply (cache_collected _ _ _ _ _ _ _ _ _ _ Hq1) in Hc as (Hc & _ & Hl1).
  rewrite <- Hl1 in Hu1 by done.
  destruct (cache_label_layer cid img mdigest manifest mbytes cbytes pid pid_no_ref manifest_apart dn cf b (view w1))
    as [Hc2 Hlab]; [done..|]. fold d in Hc2, Hlab.
  set (v2 := set_labels d _ _) in Hc2, Hlab. change (collected v2 (view w2)) in Hu1.
  apply (held_collected _ _ _ v2 _ Hu1) in Hh.
  apply (cache_collected _ _ _ _ _ _ _ _ _ _ Hu1) in Hc2 as (Hc2 & _ & Hl2). rewrite <- Hl2 in Hlab by done.
  apply info_of_blob in Hi2 as [-> Hq3]; [|by rewrite (pulled_manifest _ _ _ _ _ _ _ (proj1 Hc2))].
  apply update_labels in Hu2. simpl in Hu2. apply (held_collected _ _ _ _ _ Hq3) in Hh.
  apply (cache_collected _ _ _ _ _ _ _ _ _ _ Hq3) in Hc2 as (Hc3 & Hm3 & Hl3).
  rewrite <- Hm3 in Hu2. rewrite <- Hl3 in Hlab by done.
  destruct (cache_label_manifest cid img mdigest manifest mbytes cbytes pid pid_no_ref manifest_apart dn cf b (view w3))
    as [Hc4 Hlab4]; [done..|by apply Hh|].
  set (v4 := set_labels mdigest _ _) in Hc4, Hlab4. change (collected v4 (view w4)) in Hu2.
  apply (cache_collected _ _ _ _ _ _ _ _ _ _ Hu2) in Hc4 as (Hc5 & Hm5 & _). by rewrite Hm5.
Qed.

Definition labelled_true (v : View) : Prop := labels_at v mdigest !! pid = Some "true"%string.

(** Storing a compiled layer adds it to the cache, where it stays when its
    lease is gone. *)
Lemma store_compiled_caches dn l b w x w' :
  let cf := layer_config l in
  cache dn (view w) -> desc_digest cf ∈ contents manifest ->
  desc_digest cf ∉ (fun x => desc_digest x.1) <$> dn ->
  store_compiled self pid mdigest (length dn) l (Some b) w = (Ok x, w') ->
  x = MkLayer cf b /\ cache (dn ++ [(cf, b)]) (view w') /\ labelled_true (view w').
Proof.
  intros cf Hc Hd Hnew Hrun. unfold store_compiled in Hrun. cbv zeta in Hrun. fold cf in Hrun.
  apply mbind_ok in Hrun as (wc & w1 & Hsave & Hrun). apply mbind_ok in Hrun as ([] & w2 & Hlab & Hrun).
  apply mbind_ok in Hrun as (r & w3 & Hrel & [= <- <-]). split; [done|].
  apply save_content_held in Hsave as (Hdig & Hst & Hheld & Hch & Hns). rewrite Hdig in Hlab.
  unfold scoped in Hlab. destruct (label_precompiled _ _ _ _ _ _ w1) as [[[]|e|] w2'] eqn:Hl; simplify_eq.
  assert (cache dn (view w1)) as Hc1 by (eapply stable_rtc; [apply stable_cache|exact Hst|exact Hc]).
  destruct (label_caches dn cf b _ w1 w2 Hc1 Hd Hnew Hheld Hl) as [Hc2 Ht].
  assert (w3 = (leases_delete (inner self) (client_namespace self) (lease_id (wc_lease wc)) w2).2) as ->.
  { unfold mtry, release, inner_release, mmap_err in Hrel. rewrite Hch, Hns in Hrel.
    destruct (leases_delete _ _ _ w2) as [[[]|e|] w4]; by simplify_eq/=. }
  set (l' := lease_id _). unfold labelled_true.
  destruct (leases_delete_closes l' w2) as [Hq|Hq].
  - apply (cache_close _ _ _ _ _ _ _ _ l') in Hc2.
    apply (cache_collected _ _ _ _ _ _ _ _ _ _ Hq) in Hc2 as (Hc3 & Hm & _). by rewrite Hm.
  - apply (cache_collected _ _ _ _ _ _ _ _ _ _ Hq) in Hc2 as (Hc3 & Hm & _). by rewrite Hm.
Qed.

Lemma store_all_caches ls bs dn w xs w' :
  let cfs := layer_config <$> ls in
  cache dn (view w) -> Forall (fun cf => desc_digest cf ∈ contents manifest) cfs ->
  NoDup ((fun x => desc_digest x.1) <$> dn ++ zip cfs bs) -> length ls = length bs ->
  store_all self pid mdigest (length dn) ls (Some <$> bs) w = (Ok xs, w') ->
  xs = zip_with MkLayer cfs bs /\ cache (dn ++ zip cfs bs) (view w') /\
  (labelled_true (view w) \/ ls ≠ [] -> labelled_true (view w')).
Proof.
  simpl. revert bs dn w xs. induction ls as [|l ls IH]; intros [|b bs] dn w xs Hc Hin Hnd Hlen Hrun; try done.
  - simpl in *. injection Hrun as <- <-. rewrite app_nil_r.
    split_and!; [done|done|by intros [?|?]].
  - rewrite !fmap_cons in *. simpl zip_with in *. apply Forall_cons in Hin as [Hl Hin].
    change (store_all self pid mdigest (length dn) (l :: ls) (Some b :: (Some <$> bs)) w = (Ok xs, w')) in Hrun.
    simpl in Hrun. apply mbind_ok in Hrun as (x & w1 & Hx & Hrun). apply mbind_ok in Hrun as (ys & w2 & Hys & [= <- <-]).
    rewrite (cons_middle (layer_config l, b)), app_assoc in Hnd |- *.
    apply store_compiled_caches in Hx as (-> & Hc1 & Ht); [|done..|].
    + replace (S (length dn)) with (length (dn ++ [(layer_config l, b)])) in Hys by (rewrite length_app; simpl; lia).
      apply IH in Hys as (-> & Hc2 & Ht2); [|done|done|done|simpl in Hlen; lia]. split_and!; [done|done|auto].
    + rewrite !fmap_app in Hnd. apply NoDup_app in Hnd as ((_ & Hnd & _)%NoDup_app & _ & _).
      intros Hd. apply (Hnd _ Hd). by left.
Qed.
(** *** Loading *)

Context (manifest_parses : parse_manifest mbytes = Ok manifest) (platform_wasm : parse_platform cbytes = Ok true).
Abbreviation pulled := (pulled cid img mdigest manifest mbytes cbytes).

Lemma pulled_collected v v' : collected v v' -> pulled v -> pulled v'.
Proof. intros Hs%step_gc. by apply stable_pulled. Qed.

Lemma manifest_known w : pulled (view w) ->
  exists w', get_image_manifest_and_digest self img w = (Ok (manifest, mdigest), w') /\
    collected (view w) (view w').
Proof.
  intros Hp. unfold get_image_manifest_and_digest.
  edestruct (call_known (images_get (inner self) (client_namespace self) img)) as (w1 & Hi & Hw1).
  { by apply images_get_known, Hp. }
  unfold get_image, mbind at 1. rewrite Hi. cbn [extract_image_content_sha target ok_or].
  assert (collected (view w) (view w1)) as Hq1 by (rewrite Hw1; apply images_get_quiet).
  assert (parse_digest mdigest = Ok mdigest) as Hd.
  { rewrite (content_addressed w mdigest mbytes) by apply Hp. apply digest_parses. }
  unfold mbind at 1, mlift, extract_image_content_sha. simpl. unfold mbind at 1. rewrite Hd. simpl.
  apply (pulled_collected _ _ Hq1) in Hp.
  destruct (read_known mdigest mbytes w1) as (w2 & Hr & Hq2); [by apply Hp|].
  unfold mbind at 1. rewrite Hr. unfold mbind, mret. rewrite manifest_parses. simpl.
  exists w2. split; [done|]. by etransitivity.
Qed.

(** Until the layers, the loads of an image in the store are alike. *)
Lemma load_reaches_layers name types compiler w : pulled (view w) ->
  exists w', load_modules self cid name types compiler w =
      load_layers self name mdigest (wasm_configs types manifest) compiler w' /\
    collected (view w) (view w').
Proof.
  intros Hp. unfold load_modules.
  edestruct (call_known (containers_get (inner self) (client_namespace self) cid)) as (w1 & Hi & Hw1).
  { by apply containers_get_known, Hp. }
  unfold get_container, mbind at 1. rewrite Hi. cbn [container_image].
  assert (collected (view w) (view w1)) as Hq1 by (rewrite Hw1; apply containers_get_quiet).
  apply (pulled_collected _ _ Hq1) in Hp. destruct (manifest_known w1 Hp) as (w2 & Hm & Hq2).
  unfold mbind at 1. rewrite Hm. apply (pulled_collected _ _ Hq2) in Hp.
  destruct (read_known (desc_digest (manifest_config manifest)) cbytes w2) as (w3 & Hr & Hq3); [by apply Hp|].
  unfold mbind at 1. rewrite Hr. unfold mbind, mlift. rewrite platform_wasm. simpl.
  exists w3. split; [done|]. etransitivity; [exact Hq1|]. by etransitivity.
Qed.

(** A layer of the cache is read from it. *)
Lemma read_layer_cached dn cf b w : cache dn (view w) -> (cf, b) ∈ dn ->
  exists w', read_layer self pid cf w = (Ok (MkLayer cf b, false), w') /\ collected (view w) (view w').
Proof.
  intros Hcache Hd. pose proof Hcache as (Hp & Hin & Hc). apply list_elem_of_lookup in Hd as [i Hi].
  pose proof (proj1 (Forall_lookup _ _) Hin i _ Hi) as Hcf. simpl in Hcf.
  destruct (Hc i cf b Hi) as (Hl & _ & Hb). unfold read_layer, read_precompiled_layer.
  destruct (get_info_known (desc_digest cf) w) as (w1 & Hi1 & Hq1); [by apply (pulled_contents _ _ _ _ _ _ _ Hp)|].
  destruct (cache_collected _ _ _ _ _ _ _ _ _ _ Hq1 Hcache) as ((_ & _ & Hc1) & _). destruct (Hc1 i cf b Hi) as (_ & _ & Hb1).
  destruct (read_known _ _ w1 Hb1) as (w2 & Hr & Hq2). exists w2. split; [|by etransitivity].
  unfold mbind, mtry, mlift. rewrite Hi1. simpl. rewrite Hl, digest_parses. simpl. by rewrite Hr.
Qed.

Lemma read_layers_cached dn l w : cache dn (view w) -> (forall x, x ∈ l -> x ∈ dn) ->
  exists w', mapM_M (read_layer self pid) (fst <$> l) w = (Ok ((fun x => (MkLayer x.1 x.2, false)) <$> l), w') /\
    collected (view w) (view w').
Proof.
  revert w. induction l as [|[cf b] l IH]; intros w Hc Hl; [by exists w|].
  destruct (read_layer_cached dn cf b w Hc) as (w1 & Hr & Hq1); [apply Hl; by left|].
  pose proof (cache_collected _ _ _ _ _ _ _ _ _ _ Hq1 Hc) as (Hc1 & _ & _).
  destruct (IH w1 Hc1) as (w2 & Hm & Hq2); [intros x Hx; apply Hl; by right|].
  exists w2. split; [|by etransitivity]. rewrite !fmap_cons. cbn [mapM_M fst]. unfold mbind. by rewrite Hr, Hm.
Qed.
(** The compiler answers with a compilation of every layer, and does not touch
    the store. *)
Definition compiles_all (compiler : Compiler W) : Prop :=
  forall ls w, exists bs w', compile compiler ls w = (Ok (Some <$> bs), w') /\ collected (view w) (view w').

Lemma pulled_cache v : pulled v -> cache [] v.
Proof. intros Hp. by split_and!; [|constructor|]. Qed.

Lemma configs_in_contents types : Forall (fun cf => desc_digest cf ∈ contents manifest) (wasm_configs types manifest).
Proof.
  apply Forall_forall. intros cf [_ Hcf]%list_elem_of_filter. right. by apply list_elem_of_fmap_2.
Qed.

Lemma first_load_caches name compiler cfs w xs w' :
  precompile_label name (cache_key_hash compiler) = pid ->
  pulled (view w) -> labels_at (view w) mdigest !! pid = None -> compiles_all compiler ->
  Forall (fun cf => desc_digest cf ∈ contents manifest) cfs -> NoDup (desc_digest <$> cfs) ->
  load_layers self name mdigest cfs (Some compiler) w = (Ok xs, w') ->
  exists bs, xs = zip_with MkLayer cfs bs /\ length cfs = length bs /\ cache (zip cfs bs) (view w') /\
    (cfs = [] \/ labelled_true (view w')).
Proof.
  intros Hpid Hp Hnone Hall Hin Hnd Hrun. unfold load_layers in Hrun. rewrite Hpid in Hrun.
  destruct (decide (cfs = [])) as [->|Hne].
  { injection Hrun as <- <-. exists []. split_and!; [done..| |by left]. by apply pulled_cache. }
  replace (match cfs with [] => _ | _ :: _ => _ end) with (
    let! image_info := get_info self mdigest in
    let! read := mapM_M (read_layer self pid) cfs in
    if bool_decide (labels image_info !! pid = None) || existsb snd read
    then precompile_layers self compiler pid mdigest (fst <$> read) else mret (fst <$> read))
    in Hrun by (by destruct cfs).
  apply mbind_ok in Hrun as (info & w1 & Hi & Hrun). apply mbind_ok in Hrun as (read & w2 & Hm & Hrun).
  apply info_of_blob in Hi as [-> Hq1]; [|by rewrite (pulled_manifest _ _ _ _ _ _ _ Hp)]. simpl in Hrun.
  rewrite bool_decide_eq_true_2 in Hrun by done. simpl in Hrun.
  assert (collected (view w1) (view w2)) as Hq2.
  { eapply quiet_world; [|exact Hm]. apply quiet_mapM, quiet_read_layer. }
  assert (layer_config <$> (fst <$> read) = cfs) as Hcfg.
  { apply (mapM_M_Forall2 (fun c x => layer_config x.1 = c)) in Hm; [|intros; by eapply read_layer_config].
    rewrite <- list_fmap_compose. by apply Forall2_fmap_eq. }
  unfold precompile_layers in Hrun. apply mbind_ok in Hrun as (r & w3 & Hc & Hrun).
  destruct (Hall (fst <$> read) w2) as (bs & w3' & Hcomp & Hq3). unfold mtry in Hc. rewrite Hcomp in Hc.
  injection Hc as <- <-. case_decide as Hlen; [done|]. rewrite length_fmap in Hlen.
  assert (length cfs = length bs) as Hl by (rewrite <- Hcfg, length_fmap; lia).
  assert (cache [] (view w3')) as Hc3.
  { apply pulled_cache. do 3 (eapply pulled_collected; [eassumption|]). done. }
  apply (store_all_caches (fst <$> read) bs []) in Hrun as (-> & Hc & Ht); [|done|by rewrite Hcfg| |lia].
  - exists bs. rewrite Hcfg in *. split_and!; [done..|]. right. apply Ht. right. intros Hnil. apply Hne.
    by rewrite <- Hcfg, Hnil.
  - rewrite Hcfg. simpl. enough ((fun x => desc_digest x.1) <$> zip cfs bs = desc_digest <$> cfs) as -> by done.
    rewrite <- (fst_zip cfs bs) at 2 by lia. by rewrite <- list_fmap_compose.
Qed.

Lemma cached_load name key compile cfs bs w :
  precompile_label name key = pid -> length cfs = length bs -> cache (zip cfs bs) (view w) ->
  cfs = [] \/ labelled_true (view w) ->
  exists w', load_layers self name mdigest cfs (Some (MkCompiler key compile)) w = (Ok (zip_with MkLayer cfs bs), w') /\
    collected (view w) (view w').
Proof.
  intros Hpid Hl Hc Ht. unfold load_layers. cbn [cache_key_hash]. rewrite Hpid.
  destruct (decide (cfs = [])) as [->|Hne]; [by exists w|]. destruct Ht as [|Ht]; [done|].
  destruct (get_info_known mdigest w) as (w1 & Hi & Hq1).
  { by rewrite (pulled_manifest _ _ _ _ _ _ _ (proj1 Hc)). }
  pose proof (cache_collected _ _ _ _ _ _ _ _ _ _ Hq1 Hc) as (Hc1 & _).
  destruct (read_layers_cached (zip cfs bs) (zip cfs bs) w1 Hc1) as (w2 & Hm & Hq2); [done|].
  rewrite fst_zip in Hm by lia. exists w2. split; [|by etransitivity].
  destruct cfs as [|cf cfs]; [done|]. set (l := cf :: cfs) in *. unfold mbind. rewrite Hi. cbn [labels].
  rewrite bool_decide_eq_false_2 by (rewrite Ht; done). rewrite Hm.
  assert (existsb snd ((fun x => (MkLayer x.1 x.2, false)) <$> zip l bs) = false) as ->.
  { clear. generalize (zip l bs) as xs. by induction xs. }
  simpl orb. unfold mret. do 2 f_equal. clear. revert bs.
  induction l as [|x l IH]; intros [|b bs]; [done..|]. cbn. f_equal. apply IH.
Qed.
End client.

(** ** A content store in memory, for the examples

    The collector runs after every change.  It keeps what an image, a lease or
    a label of any content names, which is at least what [kept] has. *)

Definition retained (v : View) (d : string) : bool :=
  existsb (fun x => bool_decide (x.2 = d)) (map_to_list (images v))
  || existsb (fun x : string * gset string => bool_decide (d ∈ x.2)) (map_to_list (leased v))
  || existsb (fun x => existsb (fun y => is_gc_ref y.1 && bool_decide (y.2 = d)) (map_to_list x.2))
       (map_to_list (labelled v)).

Definition collect (v : View) : View :=
  MkView (filter (fun x => retained v x.1) (blobs v)) (filter (fun x => retained v x.1) (labelled v))
    (images v) (containers v) (leased v).

Lemma existsb_lookup {A} (f : string * A -> bool) (m : gmap string A) k x :
  m !! k = Some x -> f (k, x) -> existsb f (map_to_list m) = true.
Proof.
  intros Hk Hf. apply existsb_exists. exists (k, x). split; [|by destruct (f _)].
  by apply list_elem_of_In, elem_of_map_to_list.
Qed.

Lemma kept_retained v d : kept v d -> retained v d.
Proof.
  intros Hd. unfold retained. destruct Hd as [n d Hn|l d Hl|d k d' _ Hk Hgc].
  - by rewrite (existsb_lookup _ _ n d Hn) by (by apply bool_decide_pack).
  - unfold lease_of in Hl. destruct (leased v !! l) as [ds|] eqn:Hls; [|set_solver].
    rewrite (existsb_lookup _ (leased v) l ds Hls) by (by apply bool_decide_pack). by rewrite orb_true_r.
  - unfold labels_at in Hk. destruct (labelled v !! d) as [ls|] eqn:Hls; [|done].
    rewrite (existsb_lookup _ (labelled v) d ls Hls); [by rewrite orb_true_r|].
    rewrite (existsb_lookup _ ls k d' Hk); [done|]. simpl. rewrite bool_decide_eq_true_2 by done. by rewrite andb_true_r.
Qed.

Lemma collect_collected v : collected v (collect v).
Proof.
  split; [done..|]. intros d Hd%kept_retained. unfold collect, labels_at. simpl. split.
  - destruct (blobs v !! d) as [b|] eqn:Hb.
    + by apply map_lookup_filter_Some.
    + apply map_lookup_filter_None. by left.
  - f_equal. destruct (labelled v !! d) as [ls|] eqn:Hb.
    + by apply map_lookup_filter_Some.
    + apply map_lookup_filter_None. by left.
Qed.

(** The contents, what was written on the open stream, and the last request *)
Record Registry := MkRegistry {
  raw : View;
  stream_expected : string;
  stream_data : bytes;
  last_request : option WriteContentRequest;
}.

Section registry.
Context `{!ImageFormat}.

(** Only contents with the right digest are served. *)
Definition served (v : View) : View :=
  MkView (filter (fun x => x.1 = content_digest x.2) (blobs v)) (labelled v) (images v)
    (containers v) (leased v).

Definition reg_view (r : Registry) : View := served (raw r).

Definition with_raw (v : View) (r : Registry) : Registry :=
  MkRegistry (collect v) (stream_expected r) (stream_data r) (last_request r).

Definition reg_send (req : WriteContentRequest) (r : Registry) : Registry :=
  match w_action req with
  | Stat => MkRegistry (raw r) (w_expected req) [] (Some req)
  | Write => MkRegistry (raw r) (stream_expected r) (stream_data r ++ w_data req) (Some req)
  | Commit => MkRegistry (raw r) (stream_expected r) (stream_data r) (Some req)
  end.

Definition reg_commit (lease : string) (req : WriteContentRequest) (r : Registry)
    : outcome string (option WriteContentResponse) * Registry :=
  let b := stream_data r in
  if decide (content_digest b = w_expected req /\ blobs (reg_view r) !! w_expected req = None)
  then (Ok (Some (MkWriteResponse (Z.of_nat (length b)) (w_expected req))),
        with_raw (commit lease (w_expected req) b (w_labels req) (reg_view r)) r)
  else (Err "commit failed"%string, r).

Definition reg_write (l : string) (r : Registry) : outcome GrpcStatus string * Registry :=
  match blobs (reg_view r) !! stream_expected r with
  | Some _ => (Err (MkGrpcStatus true "already exists"),
               with_raw (link_lease l (stream_expected r) (reg_view r)) r)
  | None => (Ok l, MkRegistry (raw r) (stream_expected r) (stream_data r) None)
  end.

(** A lease is created once, and holds nothing yet. *)
Definition reg_lease (reference : string) (r : Registry) : outcome string (option string) * Registry :=
  let v := raw r in
  match leased v !! reference with
  | Some _ => (Err "already exists"%string, r)
  | None => (Ok (Some reference),
             MkRegistry (MkView (blobs v) (labelled v) (images v) (containers v) (<[reference := ∅]> (leased v)))
               (stream_expected r) (stream_data r) (last_request r))
  end.

Definition reg_delete (d : string) (r : Registry) : outcome string unit * Registry :=
  let v := reg_view r in
  match blobs v !! d with
  | Some _ => (Ok tt, with_raw (MkView (delete d (blobs v)) (delete d (labelled v)) (images v) (containers v) (leased v)) r)
  | None => (Err "not found"%string, r)
  end.

#[export] Instance registry : Containerd Registry unit unit string := {
  grpc_connect _ := mret tt;
  content_read _ _ d r := (match blobs (reg_view r) !! d with Some b => Ok [b] | None => Err "not found" end, r);
  content_delete _ _ := reg_delete;
  content_info _ _ d r :=
    (match blobs (reg_view r) !! d with
     | Some _ => Ok (Some (MkInfo d (labels_at (reg_view r) d)))
     | None => Err "not found"
     end, r);
  content_update _ _ i _ r := (Ok (Some i), with_raw (set_labels (info_digest i) (labels i) (reg_view r)) r);
  content_write _ _ l _ := reg_write l;
  images_get _ _ n r :=
    (match images (raw r) !! n with Some d => Ok (Some (MkImage n (Some d))) | None => Err "not found" end, r);
  containers_get _ _ n r :=
    (match containers (raw r) !! n with Some i => Ok (Some (MkContainer i)) | None => Err "not found" end, r);
  leases_create _ _ reference _ := reg_lease reference;
  leases_delete _ _ id r := (Ok tt, with_raw (close_lease id (reg_view r)) r);
  mpsc_channel r := (tt, r);
  tx_send _ req r := (Ok tt, reg_send req r);
  rx_message l r :=
    match last_request r with
    | Some req =>
        match w_action req with Commit => reg_commit l req r | _ => (Ok (Some (MkWriteResponse 0 EmptyString)), r) end
    | None => (Ok (Some (MkWriteResponse 0 EmptyString)), r)
    end;
  expiry_24h _ := "2025-01-02T00:00:00Z";
}.

Definition addressed (v : View) : Prop := forall d b, blobs v !! d = Some b -> d = content_digest b.

Lemma served_addressed v : addressed (served v).
Proof. by intros d b [_ Hd]%map_lookup_filter_Some. Qed.

Lemma served_collected v : addressed v -> collected v (served v).
Proof.
  intros Hv. split; [done..|]. intros d _. split; [|done]. simpl.
  destruct (blobs v !! d) as [b|] eqn:Hb.
  - apply map_lookup_filter_Some. split; [done|]. by apply Hv.
  - apply map_lookup_filter_None. by left.
Qed.

Lemma with_raw_collected v r : addressed v -> collected v (reg_view (with_raw v r)).
Proof.
  intros Hv. etransitivity; [apply collect_collected|]. apply served_collected.
  intros d b [Hb _]%map_lookup_filter_Some. by apply Hv.
Qed.

Lemma reg_commit_addressed l d b ls r : d = content_digest b -> addressed (commit l d b ls (reg_view r)).
Proof.
  intros Hd d' b'. simpl. intros [[<- <-]|[_ Hb]]%lookup_insert_Some; [done|].
  exact (served_addressed (raw r) d' b' Hb).
Qed.

Lemma reg_lease_collected reference r : collected (reg_view r) (reg_view (reg_lease reference r).2).
Proof.
  unfold reg_lease. destruct (leased (raw r) !! reference) as [ds|] eqn:Hr; [done|]. split; [done..| |done].
  intros l. unfold lease_of. simpl. destruct (decide (l = reference)) as [->|Hne].
  - by rewrite lookup_insert_eq, Hr.
  - by rewrite lookup_insert_ne.
Qed.

(** Digests without collisions, which are their own texts *)
Class ExactDigests : Prop := {
  exact_text s d : parse_digest s = Ok d -> d = s;
  exact_parses b : parse_digest (content_digest b) = Ok (content_digest b);
  exact_inj a b : sha256_digest a = sha256_digest b -> a = b;
}.
Context `{!ExactDigests}.

#[export] Instance registry_laws : ContentLaws Registry unit unit string tt "ns" reg_view id.
Proof.
  split.
  - apply exact_text.
  - apply exact_parses.
  - apply exact_inj.
  - intros w d b Hb. by eapply (served_addressed (raw w)).
  - intros n i w Hi. simpl in *. by rewrite Hi.
  - done.
  - intros n d w Hi. simpl in *. by rewrite Hi.
  - done.
  - intros d b w Hb. exists [b]. split; [|apply app_nil_r].
    change (match blobs (reg_view w) !! d with
            | Some b => Ok [b]
            | None => Err "not found"%string
            end = Ok [b]). by rewrite Hb.
  - done.
  - intros d w [b Hb]. change (match blobs (reg_view w) !! d with
        | Some _ => Ok (Some (MkInfo d (labels_at (reg_view w) d)))
        | None => Err "not found"%string
        end = Ok (Some (MkInfo d (labels_at (reg_view w) d)))). by rewrite Hb.
  - done.
  - intros i j w w' [= <- <-]. apply with_raw_collected. intros d b. apply served_addressed.
  - intros r ls. apply reg_lease_collected.
  - intros id w. left. apply with_raw_collected. intros d b. apply served_addressed.
  - done.
  - intros tx req w. cbn. by destruct (w_action req) eqn:Ha; unfold reg_send; rewrite Ha.
  - intros l tx req w w1 w2 e [= <-] Ha Hw He. unfold reg_send in *. rewrite Ha in *.
    change (reg_write l (MkRegistry (raw w) (w_expected req) [] (Some req)) = (Err e, w2)) in Hw. unfold reg_write in Hw.
    destruct (blobs _ !! stream_expected _) as [b|] eqn:Hb; [|done]. injection Hw as <- <-. split.
    + exists b. exact Hb.
    + apply (with_raw_collected (link_lease l (w_expected req) (reg_view w))).
      intros d b'. apply served_addressed.
  - intros l tx rx w w1 Hw. change (reg_write l w = (Ok rx, w1)) in Hw. unfold reg_write in Hw. destruct (blobs _ !! stream_expected w); [done|].
    injection Hw as <- <-. split_and!; reflexivity.
  - intros tx req rx w w1 [= <-] Ha. unfold reg_send. cbn. by destruct (w_action req) eqn:Ha'; cbn; rewrite Ha'.
  - intros tx req rx w w1 w2 r [= <-] Ha Hr Hd. unfold reg_send in *. rewrite Ha in *. cbn in Hr. rewrite Ha in Hr.
    unfold reg_commit in Hr. case_decide as Hc; [|done]. destruct Hc as [Hdig Hnew]. injection Hr as <- <-.
    split; [exact Hnew|]. exists (stream_data w). apply with_raw_collected. apply reg_commit_addressed.
    by symmetry.
Qed.

End registry.

(** The digest of the examples is the content itself. *)
Definition registry_manifest : ImageManifest :=
  MkManifest (MkDescriptor "config" "sha256:c")
    [MkDescriptor "application/wasm" "sha256:a"; MkDescriptor "text/plain" "sha256:t";
     MkDescriptor "application/wasm" "sha256:b"].

#[export] Instance registry_format : ImageFormat := {
  sha256_digest := String.string_of_list_byte;
  parse_digest := Ok;
  parse_manifest _ := Ok registry_manifest;
  parse_platform _ := Ok true;
}.

Lemma string_of_bytes_inj a b : String.string_of_list_byte a = String.string_of_list_byte b -> a = b.
Proof.
  intros Hab. rewrite <- (String.list_byte_of_string_of_list_byte a), Hab.
  apply String.list_byte_of_string_of_list_byte.
Qed.

#[export] Instance registry_exact : ExactDigests.
Proof. split; [by intros s d [= ->]|done|intros a b; apply string_of_bytes_inj]. Qed.

Definition reg_client : Client unit := MkClient tt "ns".

Definition content (b : Byte.byte) : string * bytes := (content_digest [b], [b]).

(** The image [img] of the container [c1], with two Wasm layers *)
Definition reg_world : Registry :=
  MkRegistry
    (MkView (list_to_map (content <$> [Byte.x6d; Byte.x63; Byte.x61; Byte.x62; Byte.x74]))
       {["sha256:m" :=
           {["containerd.io/gc.ref.content.config" := "sha256:c";
             "containerd.io/gc.ref.content.l.0" := "sha256:a";
             "containerd.io/gc.ref.content.l.1" := "sha256:t";
             "containerd.io/gc.ref.content.l.2" := "sha256:b"]}]}
       {["img" := "sha256:m"]} {["c1" := "img"]} ∅)
    EmptyString [] None.

(** An engine whose compilation puts a byte before the module *)
Definition reg_compiler (key : Z) (mark : Byte.byte) : Compiler Registry :=
  MkCompiler key (fun ls => mret ((fun l => Some (mark :: layer l)) <$> ls)).

(** One that must not be asked *)
Definition idle_compiler {W} (key : Z) : Compiler W := MkCompiler key (fun _ => mpanic).

Definition reg_load (c : Compiler Registry) : M Registry Error (list WasmLayer) :=
  load_modules reg_client "c1" "wasmtime" ["application/wasm"] (Some c).

Example reg_load_compiles :
  (fun l => map layer l) <$> ok_opt (reg_load (reg_compiler 1 Byte.x31) reg_world).1 =
  Some [[Byte.x31; Byte.x61]; [Byte.x31; Byte.x62]].
Proof. vm_compute. reflexivity. Qed.

(** ** Properties *)


(** The references of the manifest, in the order of its contents *)
Lemma reg_referenced d k : is_Some (blobs (reg_view reg_world) !! d) ->
  labels_at (reg_view reg_world) "sha256:m" !! k = Some d -> is_gc_ref k -> (forall i, k ≠ gc_ref_label i) ->
  referenced "sha256:m" d (reg_view reg_world).
Proof. intros Hb Hk Hgc Hne. split; [exact Hb|]. exists k. auto. Qed.

Lemma reg_pulled : pulled "c1" "img" "sha256:m" registry_manifest [Byte.x6d] [Byte.x63] (reg_view reg_world).
Proof.
  split; [vm_compute; reflexivity..|].
  enough (Forall (fun d => referenced "sha256:m" d (reg_view reg_world)) (contents registry_manifest)) as Hf
    by (intros d Hd; exact (proj1 (Forall_forall _ _) Hf d Hd)).
  apply Forall_cons_2; [|apply Forall_cons_2; [|apply Forall_cons_2; [|apply Forall_cons_2; [|constructor]]]].
  - by apply (reg_referenced _ "containerd.io/gc.ref.content.config"); [eexists| | |intros i].
  - by apply (reg_referenced _ "containerd.io/gc.ref.content.l.0"); [eexists| | |intros i].
  - by apply (reg_referenced _ "containerd.io/gc.ref.content.l.1"); [eexists| | |intros i].
  - by apply (reg_referenced _ "containerd.io/gc.ref.content.l.2"); [eexists| | |intros i].
Qed.


(** The labels that protect the precompiled layers from the collector are not
    per engine: when an engine with another key loads the image, the contents
    of the first one are collected, and its next load compiles again. *)
Fact engines_evict_each_other :
  let first := (reg_load (reg_compiler 1 Byte.x31) reg_world).2 in
  let second := (reg_load (reg_compiler 2 Byte.x32) first).2 in
  is_ok (reg_load (idle_compiler 1) first).1 = true /\
  (reg_load (idle_compiler 1) second).1 = Panic.
Proof. by vm_compute. Qed.
