(* ===== verification/WasmInstance.v ===== *)
(** * WasmInstance: [crates/containerd-shim-wasm/src/shim/shim.rs] and
    [crates/containerd-shim-wasm/src/sys/unix/container]

    The [Instance] of the Wasm shims.  A container lives in a process of its
    own, a zygote, which runs closures for the shim ([container.rs]); the
    instance starts it, and a background task waits for its process and
    records the exit code ([instance.rs]).  [libcontainer] and the zygote
    library are the class [Youki] and the parameters of the sections. *)

From S2P Require Import Prelude RustStr Errors Sandbox Executor PidFd Store Client Waitable InstanceData Hooks InstanceUtils Async.

Create HintDb grows discriminated.

(** ** [trait Shim] *)

(** [Shim::supported_layers_types], the default *)
Definition supported_layers_types : list string :=
  "application/vnd.bytecodealliance.wasm.component.layer.v0+wasm"%string :: ["application/wasm"%string].

(** [enum NoCompiler] and [NO_COMPILER]: the type has no value. *)
Inductive NoCompiler :=.

Definition NO_COMPILER : option NoCompiler := None.

Definition no_compiler_compiler {W} (c : NoCompiler) : Compiler W := match c with end.

(** What the code uses of an implementation of [Shim]. *)
Record ShimType (W : Type) := MkShimType {
  shim_name : string;
  shim_compiler : W -> option (Compiler W) * W;
  shim_layers_types : list string;
}.
Arguments MkShimType {W}.
Arguments shim_name {W}.
Arguments shim_compiler {W}.
Arguments shim_layers_types {W}.

(** An implementation that keeps the defaults of the trait. *)
Definition default_shim {W} (n : string) : ShimType W :=
  MkShimType n (fun w => (no_compiler_compiler <$> NO_COMPILER, w)) supported_layers_types.

(** ** The state of the shim *)

(** [struct Instance<S>]: the cell and the zygote by their index *)
Record WasmInst := MkWasmInst { exit_cell : nat; container : nat; inst_id : string }.

(** The task [start] spawns. *)
Record Reaper (Fd Sub : Type) := MkReaper { reaper_cell : nat; reaper_fd : PidFd Fd Sub }.
Arguments MkReaper {Fd Sub}.
Arguments reaper_cell {Fd Sub}.
Arguments reaper_fd {Fd Sub}.

(** [struct EngineOciClient] *)
Record OciClient (W Channel : Type) := MkOciClient {
  oci_inner : Client Channel;
  precompiler : option (Compiler W);
  oci_layer_types : list string;
  oci_name : string;
}.
Arguments MkOciClient {W Channel}.
Arguments oci_inner {W Channel}.
Arguments precompiler {W Channel}.
Arguments oci_layer_types {W Channel}.
Arguments oci_name {W Channel}.

(** The operating system, the [CONTAINER] of every zygote, the exit cells, the
    static [OCI_CLIENT] and the tasks spawned so far. *)
Record World (W Y N Fd Sub Channel : Type) := MkWorld {
  os : W;
  zygotes : list (option Y);
  cells : list (cell (Z * DateTime) N);
  oci_client : option (OciClient W Channel);
  reapers : list (Reaper Fd Sub);
}.
Arguments MkWorld {W Y N Fd Sub Channel}.
Arguments os {W Y N Fd Sub Channel}.
Arguments zygotes {W Y N Fd Sub Channel}.
Arguments cells {W Y N Fd Sub Channel}.
Arguments oci_client {W Y N Fd Sub Channel}.
Arguments reapers {W Y N Fd Sub Channel}.

(** [youki]'s [Container]: the methods take [&mut self]. *)
Class Youki (W Y : Type) := {
  youki_pid : Y -> option Z;
  youki_start : M (Y * W) string unit;
  youki_kill : Z -> bool -> M (Y * W) string unit;
  youki_delete : bool -> M (Y * W) string unit;
  (** [Signal::try_from] *)
  signal_try_from : Z -> option Z;
}.

(** [wire_error] is what [Zygote::run] reports of an error of the closure, and
    [wire_panic] of a panic of it, [None] if the caller panics too;
    [Spec::load], [set_logger_kv], the texts of an [Error] and of an [Errno],
    and [Utc::now]. *)
Class ShimHost (W : Type) := {
  wire_error : string -> string;
  wire_panic : option string;
  spec_load : string -> M W string Spec;
  set_logger_kv : list (string * string) -> W -> W;
  error_text : Error -> string;
  errno_text : Errno -> string;
  now : W -> DateTime;
}.

(** The files [InstanceConfig] opens. *)
Class Files (W File : Type) := {
  file_open : string -> M W IoError File;
  read_options : File -> M W string Options;
  open_rw : string -> M W IoError File;
}.

(** What is given to [ContainerBuilder] *)
Record Builder (File T : Type) := MkBuilder {
  builder_id : string;
  builder_executor : InnerExecutor T;
  builder_root : string;
  builder_stdin : option File;
  builder_stdout : option File;
  builder_stderr : option File;
  builder_bundle : string;
  as_sibling : bool;
  with_systemd : bool;
}.
Arguments MkBuilder {File T}.

(** [with_root_path] and [build] of [ContainerBuilder] *)
Class YoukiBuild (W Y File T : Type) := {
  with_root_path : string -> M W string unit;
  youki_build : Builder File T -> M W string Y;
}.

Section wasm_instance.
Context {W Y N K Fd Sub Channel Tx Rx File T : Type}.
Context `{!Youki W Y} `{!Notify N K} `{!Processes W Fd Sub} `{!Containerd W Channel Tx Rx}.
Context `{!ImageFormat} `{!ShimHost W} `{!Files W File} `{!YoukiBuild W Y File T}.
Abbreviation St := (World W Y N Fd Sub Channel).

(** *** Access to the state *)

Definition with_os (w : W) (s : St) : St :=
  MkWorld w (zygotes s) (cells s) (oci_client s) (reapers s).
Definition with_zygote (z : nat) (c : option Y) (s : St) : St :=
  MkWorld (os s) (<[z := c]> (zygotes s)) (cells s) (oci_client s) (reapers s).
Definition with_cell (l : nat) (c : cell (Z * DateTime) N) (s : St) : St :=
  MkWorld (os s) (zygotes s) (<[l := c]> (cells s)) (oci_client s) (reapers s).
Definition with_oci (c : option (OciClient W Channel)) (s : St) : St :=
  MkWorld (os s) (zygotes s) (cells s) c (reapers s).

Definition on_os {E A} (m : M W E A) : M St E A := fun s =>
  let '(r, w) := m (os s) in (r, with_os w s).

Definition on_os_async {E A} (p : async W E A) : async St E A :=
  zoom (fun s => Some (os s)) with_os p.

Definition on_cell {E A} (l : nat) (p : async (cell (Z * DateTime) N) E A) : async St E A :=
  zoom (fun s => cells s !! l) (with_cell l) p.

(** *** [container.rs] *)

Definition panic_reply {A} : outcome string A :=
  match wire_panic with Some e => Err e | None => Panic end.

(** [Container::run_impl]: the closure runs in the zygote's process, on the
    [CONTAINER] there. *)
Definition run_impl {A} (z : nat) (f : M (option Y * W) string A) : M St string A := fun s =>
  match zygotes s !! z with
  | Some c =>
      let '(r, (c', w)) := f (c, os s) in
      (match r with Ok a => Ok a | Err e => Err (wire_error e) | Panic => panic_reply end,
       with_zygote z c' (with_os w s))
  | None => (Panic, s)
  end.

(** [Container::run_init] *)
Definition run_init (z : nat) (f : M W string Y) : M St string unit :=
  run_impl z (fun cw =>
    match f cw.2 with
    | (Ok y, w) => (Ok tt, (Some y, w))
    | (Err e, w) => (Err e, (cw.1, w))
    | (Panic, w) => (Panic, (cw.1, w))
    end).

(** [c.as_mut().expect("Container not initialized")] *)
Definition on_container {A} (f : M (Y * W) string A) : M (option Y * W) string A := fun cw =>
  match cw.1 with
  | None => (Panic, cw)
  | Some y => let '(r, (y', w)) := f (y, cw.2) in (r, (Some y', w))
  end.

(** [Container::run] *)
Definition run {A} (z : nat) (f : M (Y * W) string A) : M St string A := run_impl z (on_container f).

(** [Zygote::global().spawn()]: a process whose [CONTAINER] is empty. *)
Definition spawn_zygote {E} : M St E nat := fun s =>
  (Ok (length (zygotes s)),
   MkWorld (os s) (zygotes s ++ [None]) (cells s) (oci_client s) (reapers s)).

(** [Container::build] *)
Definition build (f : M W string Y) : M St string nat :=
  let! z := spawn_zygote in
  let! _ := run_init z f in
  mret z.

(** [Container::pid], [start], [kill] and [delete] *)
Definition container_pid (z : nat) : M St string Z :=
  let! o := run z (mget (fun yw => youki_pid yw.1)) in
  mlift (ok_or o "Failed to obtain PID").

Definition container_start (z : nat) : M St string unit := run z youki_start.

Definition container_kill (z : nat) (signal : Z) : M St string unit :=
  run z (let! sig := mlift (ok_or (signal_try_from (wrap_i32 signal)) "invalid signal number") in
         youki_kill sig true).

Definition container_delete (z : nat) : M St string unit := run z (youki_delete true).

(** *** [instance.rs] *)

(** The implementation of [Shim]. *)
Context (S : ShimType W).

(** [pod_id] *)
Definition pod_id (sp : Spec) : option string :=
  annotations sp ≫= fun a => a !! "io.kubernetes.cri.sandbox-id".

(** The options of the logger that [new] sets. *)
Definition logger_kv (id : string) (sp : Spec) : list (string * string) :=
  match pod_id sp with
  | Some pod => ("instance"%string, id) :: [("pod"%string, pod)]
  | None => [("instance"%string, id)]
  end.

(** [if let Ok(f) = ..] *)
Definition ok_file (m : M W IoError File) : M W string (option File) :=
  let! r := mtry m in
  mret (match r with Ok f => Some f | _ => None end).

(** The closure of [new] that builds the container. *)
Definition build_closure (id : string) (cfg : InstanceConfig) (modules : list WasmLayer)
    : M W string Y :=
  let! sp := spec_load (path_join (bundle cfg) "config.json") in
  let! _ := mput (set_logger_kv (logger_kv id sp)) in
  let! rootdir := mmap_err error_text (determine_rootdir file_open read_options cfg (shim_name S)) in
  let! _ := with_root_path rootdir in
  let! i := ok_file (open_stdin open_rw cfg) in
  let! o := ok_file (open_stdout open_rw cfg) in
  let! e := ok_file (open_stderr open_rw cfg) in
  youki_build (MkBuilder id (Executor.new modules) rootdir i o e (bundle cfg) true
                 (systemd_cgroup (config cfg))).

(** What [OCI_CLIENT.get_or_try_init] runs. *)
Definition connect_oci (cfg : InstanceConfig) : M W Error (OciClient W Channel) :=
  let! client := Client.connect (containerd_address cfg) (namespace cfg) in
  let! compiler := (fun w => let '(c, w') := shim_compiler S w in (Ok c, w')) in
  mret (MkOciClient client compiler (shim_layers_types S) (shim_name S)).

(** [OCI_CLIENT.get_or_try_init]: the cell keeps other tasks out while it is
    being initialised, and is never emptied: what it gives is read from the
    state. *)
Definition init_oci_client (cfg : InstanceConfig) : M St Error unit := fun s =>
  match oci_client s with
  | Some _ => (Ok tt, s)
  | None =>
      match on_os (connect_oci cfg) s with
      | (Ok c, s') => (Ok tt, with_oci (Some c) s')
      | (Err e, s') => (Err e, s')
      | (Panic, s') => (Panic, s')
      end
  end.

(** [OciClient::load_modules] *)
Definition oci_load_modules (c : OciClient W Channel) (id : string) : M W Error (list WasmLayer) :=
  Client.load_modules (oci_inner c) id (oci_name c) (oci_layer_types c) (precompiler c).

Definition load_with_client (id : string) : M St Error (list WasmLayer) := fun s =>
  match oci_client s with
  | Some c => on_os (oci_load_modules c id) s
  | None => (Panic, s)
  end.

(** [anyhow::Error] into [SandboxError] *)
Definition any {A} (m : M St string A) : async St Error A := alift (mmap_err E_Any m).

Definition new_cell : async St Error nat :=
  atomic (fun s => (length (cells s),
    MkWorld (os s) (zygotes s) (cells s ++ [Waitable.new]) (oci_client s) (reapers s))).

(** [Instance::new] *)
Definition wasm_new (id : string) (cfg : InstanceConfig) : async St Error WasmInst :=
  let* _ := alift (init_oci_client cfg) in
  let* loaded := atry (alift (load_with_client id)) in
  let modules := match loaded with Ok ls => ls | _ => [] end in
  let* z := any (build (build_closure id cfg modules)) in
  let* c := new_cell in
  aret (MkWasmInst c z id).

Definition read_now {E} : async St E DateTime := atomic (fun s => (now (os s), s)).

(** The [drop] of the guard: [set_guard_with(|| (137, Utc::now()))] *)
Definition drop_exit_guard (c : nat) : async St Error unit :=
  let* t := read_now in
  let* _ := atry (E' := Error) (on_cell c (drop_guard (set_guard_with (fun _ => (137%Z, t))))) in
  aret tt.

Definition spawn_reaper (r : Reaper Fd Sub) : async St Error unit :=
  atomic (fun s => (tt, MkWorld (os s) (zygotes s) (cells s) (oci_client s) (reapers s ++ [r]))).

(** [Instance::start] *)
Definition wasm_start (self : WasmInst) : async St Error Z :=
  on_failure (
    let* pid := any (container_pid (container self)) in
    let* pidfd := any (on_os (PidFd.new pid)) in
    let* _ := any (container_start (container self)) in
    let* _ := spawn_reaper (MkReaper (exit_cell self) pidfd) in
    aret (wrap_u32 pid))
  (drop_exit_guard (exit_cell self)).

(** The status of the match on the result of the wait, an [i32]. *)
Definition status_code (r : outcome string WaitStatus) : Z :=
  match r with
  | Ok (WExited _ status) => status
  | Ok (WSignaled _ sig _) => 128 + sig
  | Ok _ => 137
  | _ => 137
  end.

(** The task [start] spawns; [_guard] is dropped at its end. *)
Definition reap (r : Reaper Fd Sub) : async St Error unit :=
  adefer (
    let* res := atry (on_os_async (PidFd.wait errno_text (reaper_fd r))) in
    let* t := read_now in
    let* _ := atry (E' := Error) (on_cell (reaper_cell r) (Waitable.set (wrap_u32 (status_code res), t))) in
    aret tt)
  (drop_exit_guard (reaper_cell r)).

(** [Instance::kill] and [delete] *)
Definition wasm_kill (self : WasmInst) (signal : Z) : async St Error unit :=
  any (container_kill (container self) signal).

Definition wasm_delete (self : WasmInst) : async St Error unit :=
  any (container_delete (container self)).

(** [Instance::wait]; the wait of a cell has no error. *)
Definition wasm_wait (self : WasmInst) : async St Empty_set (Z * DateTime) :=
  let* r := atry (on_cell (exit_cell self) Waitable.wait) in
  match r with Ok v => aret v | _ => apanic end.

#[export] Instance wasm_instance : Instance St WasmInst := {
  inst_new := wasm_new;
  inst_start := wasm_start;
  inst_kill := wasm_kill;
  inst_delete := wasm_delete;
  inst_wait := wasm_wait;
}.

(** *** How the state grows

    Exit codes are never replaced, containers never uninitialised. *)

Definition exit_of (s : St) (c : nat) : option (Z * DateTime) := cells s !! c ≫= value.

Record grows (s s' : St) : Prop := {
  grows_exit : forall c v, exit_of s c = Some v -> exit_of s' c = Some v;
  grows_cells : length (cells s) <= length (cells s');
  grows_zygotes : forall z, (exists y, zygotes s !! z = Some (Some y)) ->
                    exists y, zygotes s' !! z = Some (Some y);
  grows_reapers : forall r, r ∈ reapers s -> r ∈ reapers s';
}.

#[export] Instance grows_preorder : PreOrder grows.
Proof.
  split; [by split|]. intros s1 s2 s3 [He1 Hc1 Hz1 Hr1] [He2 Hc2 Hz2 Hr2].
  split; eauto; lia.
Qed.

Lemma grows_os w s : grows s (with_os w s).
Proof. by split. Qed.

Lemma grows_oci c s : grows s (with_oci c s).
Proof. by split. Qed.

Lemma grows_zygote z c s :
  ((exists y, zygotes s !! z = Some (Some y)) -> is_Some c) -> grows s (with_zygote z c s).
Proof.
  intros Hc. split; try done. intros z' [y Hy]. simpl.
  destruct (decide (z = z')) as [<-|Hne]; [|rewrite list_lookup_insert_ne by done; eauto].
  destruct Hc as [y' ->]; [eauto|]. exists y'.
  apply list_lookup_insert_eq. by eapply lookup_lt_Some.
Qed.

Lemma grows_cell l c0 c s :
  cells s !! l = Some c0 -> (forall v, value c0 = Some v -> value c = Some v) ->
  grows s (with_cell l c s).
Proof.
  intros Hl Hv. split; try done; unfold exit_of; simpl; [|by rewrite length_insert].
  intros c' v Hv'. destruct (decide (l = c')) as [<-|Hne]; [|by rewrite list_lookup_insert_ne].
  rewrite list_lookup_insert_eq by (by eapply lookup_lt_Some). rewrite Hl in Hv'. by apply Hv.
Qed.

Lemma grows_append s w zs cs rs o :
  grows s (MkWorld w (zygotes s ++ zs) (cells s ++ cs) o (reapers s ++ rs)).
Proof.
  split; unfold exit_of; simpl.
  - intros c v Hv. destruct (cells s !! c) as [x|] eqn:Hc; [|done].
    by rewrite (lookup_app_l_Some _ _ _ _ Hc).
  - rewrite length_app. lia.
  - intros z [y Hy]. exists y. by apply lookup_app_l_Some.
  - set_solver.
Qed.

Definition mgrows {E A} (m : M St E A) : Prop := forall s, grows s (m s).2.

Lemma mgrows_bind {E A B} (m : M St E A) (k : A -> M St E B) :
  mgrows m -> (forall a, mgrows (k a)) -> mgrows (mbind m k).
Proof.
  intros Hm Hk s. unfold mbind. specialize (Hm s).
  destruct (m s) as [[a|e|] s1]; [|done..]. etrans; [exact Hm|apply Hk].
Qed.

Lemma mgrows_on_os {E A} (m : M W E A) : mgrows (on_os m).
Proof. intros s. unfold on_os. destruct (m (os s)). apply grows_os. Qed.

Lemma mgrows_run_impl {A} z (f : M (option Y * W) string A) :
  (forall y w, is_Some (f (Some y, w)).2.1) -> mgrows (run_impl z f).
Proof.
  intros Hf s. unfold run_impl. destruct (zygotes s !! z) as [c|] eqn:Hz; [|reflexivity].
  destruct (f (c, os s)) as [r [c' w]] eqn:Hfc. etrans; [apply grows_os|].
  apply grows_zygote. intros [y Hy]. simpl in Hy. rewrite Hz in Hy. injection Hy as ->.
  specialize (Hf y (os s)). by rewrite Hfc in Hf.
Qed.

Lemma mgrows_run {A} z (f : M (Y * W) string A) : mgrows (run z f).
Proof.
  apply mgrows_run_impl. intros y w. unfold on_container. simpl. by destruct (f (y, w)) as [r [y' w']].
Qed.

Lemma mgrows_build f : mgrows (build f).
Proof.
  apply mgrows_bind; [|intros z; apply mgrows_bind; [|by intros ??]].
  - intros s. unfold spawn_zygote. simpl.
    pose proof (grows_append s (os s) [None] [] [] (oci_client s)) as Hg. by rewrite !app_nil_r in Hg.
  - apply mgrows_run_impl. intros y w. simpl. by destruct (f w) as [[]].
Qed.

(** A container that [build] returned is initialised. *)
Lemma build_initialises f s z s' :
  build f s = (Ok z, s') -> exists y, zygotes s' !! z = Some (Some y).
Proof.
  unfold build. intros (z0 & s1 & [= <- <-] & Hk)%mbind_ok.
  apply mbind_ok in Hk as ([] & s2 & Hi & [= <- <-]).
  unfold run_init, run_impl in Hi. simpl in Hi. rewrite list_lookup_middle in Hi by done.
  unfold panic_reply in Hi.
  destruct (f (os s)) as [[y|e|] w], wire_panic; simpl in Hi; simplify_eq; exists y; simpl;
    apply list_lookup_insert_eq; rewrite length_app; simpl; lia.
Qed.

Lemma build_result f s :
  build f s =
  let '(r, w) := f (os s) in
  let s' c := MkWorld w (<[length (zygotes s) := c]> (zygotes s ++ [None])) (cells s) (oci_client s)
                (reapers s) in
  match r with
  | Ok y => (Ok (length (zygotes s)), s' (Some y))
  | Err e => (Err (wire_error e), s' None)
  | Panic => (panic_reply, s' None)
  end.
Proof.
  unfold build, mbind, spawn_zygote, run_init, run_impl. cbn [zygotes].
  rewrite list_lookup_middle by done. cbn [fst snd os].
  unfold panic_reply. by destruct (f (os s)) as [[y|e|] w], wire_panic.
Qed.

Lemma run_initialised {A} z (f : M (Y * W) string A) s y :
  zygotes s !! z = Some (Some y) ->
  run z f s =
  let '(r, (y', w)) := f (y, os s) in
  (match r with Ok a => Ok a | Err e => Err (wire_error e) | Panic => panic_reply end,
   with_zygote z (Some y') (with_os w s)).
Proof.
  intros Hz. unfold run, run_impl. rewrite Hz. unfold on_container. simpl.
  by destruct (f (y, os s)) as [r [y' w]].
Qed.

(** *** Every step of every operation lets the state grow *)

Definition cell_keeps (c c' : cell (Z * DateTime) N) : Prop :=
  forall v, value c = Some v -> value c' = Some v.

Lemma steps_set v : steps_in cell_keeps (Waitable.set v).
Proof.
  intros c x c' [= Hc]. unfold oncecell_set in Hc.
  destruct (value c) eqn:Hv; simplify_eq; simpl.
  - by split; [intros ?|].
  - split; [intros u Hu; simpl in *; congruence|]. intros c' y c'' [= <- <-]. by split; [intros ?|].
Qed.

Lemma steps_wait : steps_in cell_keeps Waitable.wait.
Proof.
  intros c k c' [= <- <-]. split; [by intros ?|]. intros c1 o c1' [= <- <-].
  split; [by intros ?|]. destruct (value c1); simpl; [done|]. intros c2 x c2' Hw.
  destruct (notified_ready _ _); [|done]. injection Hw as <- <-. split; [by intros ?|].
  intros c3 o3 c3' [= <- <-]. split; [by intros ?|]. by destruct (value c3).
Qed.

Lemma steps_on_cell {E A} l (p : async (cell (Z * DateTime) N) E A) :
  steps_in cell_keeps p -> steps_in grows (on_cell l p).
Proof.
  intros Hp. eapply steps_in_mono; [|by apply steps_in_zoom].
  intros s s' (c & c' & Hl & Hc & ->). by eapply grows_cell.
Qed.

Lemma steps_on_os_async {E A} (p : async W E A) : steps_in grows (on_os_async p).
Proof.
  eapply steps_in_mono; [|apply steps_in_zoom, steps_in_any].
  intros s s' (w & w' & _ & _ & ->). apply grows_os.
Qed.

Lemma mgrows_map_err {E E' A} (f : E -> E') (m : M St E A) : mgrows m -> mgrows (mmap_err f m).
Proof. intros Hm s. unfold mmap_err. specialize (Hm s). by destruct (m s). Qed.

Lemma mgrows_lift {E A} (r : outcome E A) : mgrows (mlift r).
Proof. by intros s. Qed.

Lemma steps_lift {E A} (m : M St E A) : mgrows m -> steps_in grows (alift m).
Proof. apply steps_in_alift. Qed.

Lemma steps_any {A} (m : M St string A) : mgrows m -> steps_in grows (any m).
Proof. intros Hm. by apply steps_in_alift, mgrows_map_err. Qed.

Lemma steps_read_now {E} : steps_in grows (read_now (E := E)).
Proof. by apply steps_in_atomic. Qed.

Lemma mgrows_init cfg : mgrows (init_oci_client cfg).
Proof.
  intros s. unfold init_oci_client. destruct (oci_client s); [reflexivity|].
  pose proof (mgrows_on_os (connect_oci cfg) s) as Hg.
  destruct (on_os (connect_oci cfg) s) as [[c|e|] s']; [|done..].
  etrans; [exact Hg|apply grows_oci].
Qed.

Lemma mgrows_load id : mgrows (load_with_client id).
Proof. intros s. unfold load_with_client. destruct (oci_client s); [apply mgrows_on_os|reflexivity]. Qed.

Lemma steps_new_cell : steps_in grows new_cell.
Proof.
  apply steps_in_atomic. intros s. simpl.
  pose proof (grows_append s (os s) [] [Waitable.new] [] (oci_client s)) as Hg.
  by rewrite !app_nil_r in Hg.
Qed.

Lemma steps_spawn_reaper r : steps_in grows (spawn_reaper r).
Proof.
  apply steps_in_atomic. intros s. simpl.
  pose proof (grows_append s (os s) [] [] [r] (oci_client s)) as Hg. by rewrite !app_nil_r in Hg.
Qed.

#[local] Hint Resolve steps_in_bind steps_in_try steps_in_on_failure steps_in_defer steps_in_map_err
  steps_any steps_lift mgrows_run mgrows_build mgrows_on_os mgrows_lift mgrows_bind mgrows_init
  mgrows_load mgrows_map_err steps_on_cell steps_on_os_async steps_set steps_wait steps_read_now
  steps_new_cell steps_spawn_reaper : grows.

Lemma steps_drop_exit_guard c : steps_in grows (drop_exit_guard c).
Proof.
  unfold drop_exit_guard, drop_guard. apply steps_in_bind; [eauto with grows|intros t].
  apply steps_in_bind; [|done]. apply steps_in_try, steps_on_cell, steps_in_bind; [|done].
  apply steps_in_try, steps_set.
Qed.

#[local] Hint Resolve steps_drop_exit_guard : grows.

Lemma steps_wasm_new id cfg : steps_in grows (wasm_new id cfg).
Proof.
  unfold wasm_new. apply steps_in_bind; [eauto with grows|intros _].
  apply steps_in_bind; [eauto with grows|intros loaded].
  apply steps_in_bind; [eauto with grows|intros z].
  apply steps_in_bind; [eauto with grows|done].
Qed.

Lemma steps_start_body self :
  steps_in grows (
    let* pid := any (container_pid (container self)) in
    let* pidfd := any (on_os (PidFd.new pid)) in
    let* _ := any (container_start (container self)) in
    let* _ := spawn_reaper (MkReaper (exit_cell self) pidfd) in
    aret (wrap_u32 pid)).
Proof.
  apply steps_in_bind; [apply steps_any, mgrows_bind; eauto with grows|intros p].
  apply steps_in_bind; [eauto with grows|intros f].
  apply steps_in_bind; [apply steps_any, mgrows_run|intros _].
  apply steps_in_bind; [eauto with grows|done].
Qed.

Lemma steps_wasm_start self : steps_in grows (wasm_start self).
Proof. apply steps_in_on_failure; [apply steps_start_body|apply steps_drop_exit_guard]. Qed.

Lemma steps_reap r : steps_in grows (reap r).
Proof.
  apply steps_in_defer; [|eauto with grows].
  apply steps_in_bind; [eauto with grows|intros res].
  apply steps_in_bind; [eauto with grows|intros t].
  apply steps_in_bind; [eauto with grows|done].
Qed.

Lemma steps_wasm_kill self sig : steps_in grows (wasm_kill self sig).
Proof. apply steps_any, mgrows_run. Qed.

Lemma steps_wasm_delete self : steps_in grows (wasm_delete self).
Proof. apply steps_any, mgrows_run. Qed.

Lemma steps_wasm_wait self : steps_in grows (wasm_wait self).
Proof.
  apply steps_in_bind; [eauto with grows|]. by intros [[]| |].
Qed.

(** *** What the tasks leave, in every interleaving *)

Inductive task :=
  | TNew (id : string) (cfg : InstanceConfig)
  | TStart (self : WasmInst)
  | TKill (self : WasmInst) (signal : Z)
  | TDelete (self : WasmInst)
  | TWait (self : WasmInst)
  | TReap (r : Reaper Fd Sub).

(** The instance is what [new] returns. *)
Definition task_prog (t : task) : async St Error (option WasmInst) :=
  match t with
  | TNew id cfg => let* i := wasm_new id cfg in aret (Some i)
  | TStart self => let* _ := wasm_start self in aret None
  | TKill self signal => let* _ := wasm_kill self signal in aret None
  | TDelete self => let* _ := wasm_delete self in aret None
  | TWait self => let* _ := amap_err no_error (wasm_wait self) in aret None
  | TReap r => let* _ := reap r in aret None
  end.

(** The cell a task needs. *)
Definition task_valid (s : St) (t : task) : Prop :=
  match t with
  | TNew _ _ => True
  | TStart self | TKill self _ | TDelete self | TWait self => exit_cell self < length (cells s)
  | TReap r => reaper_cell r < length (cells s)
  end.

(** An instance whose cell exists and whose container is initialised. *)
Definition ready (s : St) (i : WasmInst) : Prop :=
  exit_cell i < length (cells s) /\ exists y, zygotes s !! container i = Some (Some y).

Definition task_post (t : task) (r : outcome Error (option WasmInst)) (s : St) : Prop :=
  match t with
  | TNew _ _ => forall i, r = Ok (Some i) -> ready s i
  | TStart self =>
      if is_ok r then exists rp, rp ∈ reapers s /\ reaper_cell rp = exit_cell self
      else is_Some (exit_of s (exit_cell self))
  | TReap rp => is_Some (exit_of s (reaper_cell rp))
  | _ => True
  end.

Lemma steps_task t : steps_in grows (task_prog t).
Proof.
  destruct t; (apply steps_in_bind; [|done]);
    eauto using steps_wasm_new, steps_wasm_start, steps_wasm_kill, steps_wasm_delete,
      steps_in_map_err, steps_wasm_wait, steps_reap.
Qed.

Abbreviation gsafe := (safe (fun _ : St => True) (fun _ => grows)).

(** Assertions that growing keeps. *)
Definition upward (P : St -> Prop) : Prop := forall s s', grows s s' -> P s -> P s'.

Lemma upward_stable i P : upward P -> stable (fun _ => True) (fun _ => grows) i P.
Proof. intros HP s s' _ _ Hs Hg. by apply (HP s s'). Qed.

Lemma upward_cell c : upward (fun s => c < length (cells s)).
Proof. intros s s' [_ Hc _ _]. lia. Qed.

Lemma upward_exit c : upward (fun s => is_Some (exit_of s c)).
Proof. intros s s' [He _ _ _] [v Hv]. exists v. by apply He. Qed.

Lemma upward_ready i : upward (fun s => ready s i).
Proof. intros s s' [_ Hc Hz _] [Hi Hy]. split; [lia|by apply Hz]. Qed.

Lemma upward_reaper c : upward (fun s => exists rp, rp ∈ reapers s /\ reaper_cell rp = c).
Proof. intros s s' [_ _ _ Hr] (rp & Hrp & Hc). eauto. Qed.

#[local] Hint Resolve upward_cell upward_exit upward_ready upward_reaper : grows.

Lemma safe_grow {E A} i (p : async St E A) P :
  steps_in grows p -> upward P -> gsafe i p P (fun _ => P).
Proof.
  intros Hp HP. eapply safe_steps; [exact Hp|by apply upward_stable|].
  intros s s' _ Hs Hg. split_and!; [done|done|by apply (HP s s')].
Qed.

(** One step of a task, with what it leaves to the rest of the task. *)
Lemma gsafe_step {E A X} i (f : St -> option (X * St)) (k : X -> async St E A) P Q :
  (forall s x s', P s -> f s = Some (x, s') ->
     grows s s' /\ exists P', P' s' /\ upward P' /\ gsafe i (k x) P' Q) ->
  gsafe i (Step f k) P Q.
Proof.
  intros Hf s x s' _ HP Hs. destruct (Hf s x s' HP Hs) as (Hg & P' & HP' & Hup & Hk).
  split_and!; [done|done|]. exists P'. split_and!; [done|by apply upward_stable|done].
Qed.

Lemma exit_of_with_cell c c' s :
  c < length (cells s) -> exit_of (with_cell c c' s) c = value c'.
Proof. intros Hc. unfold exit_of. simpl. by rewrite list_lookup_insert_eq. Qed.

(** Once dropped, the guard has left an exit code. *)
Lemma safe_drop_exit_guard i c :
  gsafe i (drop_exit_guard c) (fun s => c < length (cells s))
    (fun r s => r ≠ Panic /\ is_Some (exit_of s c)).
Proof.
  apply gsafe_step. intros s t s' Hc [= _ <-]. split; [done|].
  exists (fun s => c < length (cells s)). split_and!; [done|apply upward_cell|]. clear s Hc.
  apply gsafe_step. intros s x s' Hc Hs.
  destruct (cells s !! c) as [c0|] eqn:Hl; [|done]. unfold oncecell_set in Hs. cbn in Hs.
  destruct (value c0) as [v|] eqn:Hv; injection Hs as <- <-.
  - split; [eapply grows_cell; [exact Hl|done]|].
    exists (fun s => is_Some (exit_of s c)). split_and!; [|apply upward_exit|by intros s' _ Hs'].
    rewrite exit_of_with_cell by done. by exists v.
  - split; [eapply grows_cell; [exact Hl|congruence]|].
    exists (fun s => is_Some (exit_of s c)). split_and!; [|apply upward_exit|].
    { rewrite exit_of_with_cell by done. by eexists. }
    clear s Hc Hl. apply gsafe_step. intros s x s' He Hs.
    destruct (cells s !! c) as [c1|] eqn:Hl; [|done]. injection Hs as <- <-.
    split; [eapply grows_cell; [exact Hl|done]|].
    exists (fun s => is_Some (exit_of s c)). split_and!; [|apply upward_exit|by intros s' _ Hs'].
    rewrite exit_of_with_cell by (by eapply lookup_lt_Some). simpl.
    unfold exit_of in He. by rewrite Hl in He.
Qed.

Lemma safe_then_drop_guard {A} i c (r : outcome Error A) :
  gsafe i (then_drop (drop_exit_guard c) r) (fun s => c < length (cells s))
    (fun r' s => r' = r /\ is_Some (exit_of s c)).
Proof.
  apply safe_then_drop. eapply safe_weaken; [| |apply safe_drop_exit_guard]; [done|].
  by intros [] s _ [??].
Qed.

Lemma safe_reap i r :
  gsafe i (reap r) (fun s => reaper_cell r < length (cells s))
    (fun _ s => is_Some (exit_of s (reaper_cell r))).
Proof.
  eapply (safe_defer _ _ _ _ _ _ (fun _ s => reaper_cell r < length (cells s)));
    [|intros x; eapply safe_weaken; [| |apply safe_then_drop_guard]; [done|by intros ? s _ [_ ?]]].
  apply safe_grow; [|eauto with grows].
  apply steps_in_bind; [eauto with grows|intros res].
  apply steps_in_bind; [eauto with grows|intros t].
  apply steps_in_bind; [eauto with grows|done].
Qed.

(** A bind whose first part only has to let the state grow. *)
Lemma gsafe_bind {E A B} i (p : async St E A) (k : A -> async St E B) P
    (Q : outcome E B -> St -> Prop) :
  steps_in grows p -> upward P -> (forall a, gsafe i (k a) P Q) ->
  (forall e s, P s -> Q (Err e) s) -> (forall s, P s -> Q Panic s) ->
  gsafe i (abind p k) P Q.
Proof.
  intros Hp HP Hk He Hpanic.
  eapply safe_bind; [by apply safe_grow|exact Hk|intros e s _; apply He|intros s _; apply Hpanic].
Qed.

Definition start_post (self : WasmInst) (r : outcome Error Z) (s : St) : Prop :=
  if is_ok r then exists rp, rp ∈ reapers s /\ reaper_cell rp = exit_cell self
  else is_Some (exit_of s (exit_cell self)).

Lemma safe_wasm_start i self :
  gsafe i (wasm_start self) (fun s => exit_cell self < length (cells s)) (start_post self).
Proof.
  apply (safe_on_failure _ _ _ _ _ _ (fun r s => exit_cell self < length (cells s) /\
           (is_ok r = true -> exists rp, rp ∈ reapers s /\ reaper_cell rp = exit_cell self))).
  - do 3 (apply gsafe_bind;
            [eauto using mgrows_bind with grows|eauto with grows|intros ?|done..]).
    rename a0 into pidfd.
    apply gsafe_step. intros s [] s' Hc [= <-]. split.
    + pose proof (grows_append s (os s) [] [] [MkReaper (exit_cell self) pidfd] (oci_client s)) as Hg.
      by rewrite !app_nil_r in Hg.
    + eexists (fun s => exit_cell self < length (cells s) /\
                 exists rp, rp ∈ reapers s /\ reaper_cell rp = exit_cell self).
      split_and!; [done| | |].
      * eexists. split; [by apply elem_of_app; right; apply list_elem_of_singleton|done].
      * intros s1 s2 Hg [??]. split; [by eapply upward_cell|by eapply upward_reaper].
      * by intros s1 _ [??].
  - intros a s _ [_ Hr]. by apply Hr.
  - intros r Hr. eapply safe_weaken; [| |apply safe_then_drop_guard]; [by intros s _ [? _]|].
    intros r' s _ [-> He]. unfold start_post. by destruct r as [a| |]; [destruct (Hr a)|..].
Qed.

(** [build] in a step of its own leaves an initialised container. *)
Lemma safe_build {B} i f (k : nat -> async St Error B) (Q : outcome Error B -> St -> Prop) :
  (forall z, gsafe i (k z) (fun s => exists y, zygotes s !! z = Some (Some y)) Q) ->
  (forall e s, Q (Err e) s) -> (forall s, Q Panic s) ->
  gsafe i (abind (any (build f)) k) (fun _ => True) Q.
Proof.
  intros Hk He Hp. apply gsafe_step. intros s r s' _ [= Hr].
  unfold mmap_err in Hr. destruct (build f s) as [r0 s0] eqn:Hb. injection Hr as <- <-.
  split; [pose proof (mgrows_build f s) as Hg; by rewrite Hb in Hg|].
  destruct r0 as [z|e|]; simpl.
  - exists (fun s => exists y, zygotes s !! z = Some (Some y)).
    split_and!; [by eapply build_initialises| |apply Hk].
    intros s1 s2 Hg Hz. by apply Hg.
  - exists (fun _ => True). split_and!; [done|done|by intros ???].
  - exists (fun _ => True). split_and!; [done|done|by intros ???].
Qed.

Lemma safe_new i id cfg :
  gsafe i (wasm_new id cfg) (fun _ => True) (fun r s => forall w, r = Ok w -> ready s w /\ inst_id w = id).
Proof.
  unfold wasm_new.
  apply gsafe_bind; [eauto with grows|done|intros _|done..].
  apply gsafe_bind; [eauto with grows|done|intros loaded|done..].
  apply safe_build; [intros z|done..].
  apply gsafe_step. intros s c s' Hz [= <- <-]. split.
  - pose proof (grows_append s (os s) [] [Waitable.new] [] (oci_client s)) as Hg.
    by rewrite !app_nil_r in Hg.
  - exists (fun s' => ready s' (MkWasmInst (length (cells s)) z id)).
    split_and!; [|apply upward_ready|].
    + split; simpl; [rewrite length_app; simpl; lia|done].
    + by intros s1 _ Hs w [= <-].
Qed.

(** What [wait] returns is the exit code of the instance. *)
Abbreviation csafe := (safe (fun _ : cell (Z * DateTime) N => True) (fun _ => cell_keeps)).

Definition holds_value (r : outcome (Z * DateTime) (Z * DateTime)) (c : cell (Z * DateTime) N) : Prop :=
  forall v, r = Ok v -> value c = Some v.

Lemma safe_cell_get i (k : option (Z * DateTime) -> async (cell (Z * DateTime) N) (Z * DateTime) (Z * DateTime)) :
  (forall v, k (Some v) = aret v) -> csafe i (k None) (fun _ => True) holds_value ->
  csafe i (abind Waitable.get k) (fun _ => True) holds_value.
Proof.
  intros Hk Hn c o c' _ _ [= <- <-]. split_and!; [done|by intros ???|].
  destruct (value c) as [v|] eqn:Hv; [|by exists (fun _ => True)].
  exists (fun c => value c = Some v). split_and!; [done| |].
  - intros c1 c2 _ _ Hc Hkeep. by apply Hkeep.
  - simpl. rewrite Hk. by intros c1 _ Hc1 v' [= <-].
Qed.

Lemma safe_cell_wait i : csafe i Waitable.wait (fun _ => True) holds_value.
Proof.
  apply (safe_bind _ _ _ _ _ _ (fun _ _ => True)); [|intros k|done..].
  { apply safe_await; [intros c k c' _ _ [= <- <-]; by split_and!; [|intros ???|]|by intros ????]. }
  apply safe_cell_get; [done|].
  apply (safe_bind _ _ _ _ _ _ (fun _ _ => True)); [|intros []|done..].
  { apply safe_await; [|by intros ????]. intros c x c' _ _ Hs. destruct (notified_ready _ _); [|done].
    injection Hs as <- <-. by split_and!; [|intros ???|]. }
  apply safe_cell_get; [done|by intros ???].
Qed.

Lemma safe_wasm_wait i self :
  gsafe i (wasm_wait self) (fun s => exit_cell self < length (cells s))
    (fun r s => forall v, r = Ok v -> exit_of s (exit_cell self) = Some v).
Proof.
  eapply (safe_bind _ _ _ _ _ _ (fun r s => forall v, r = Ok (Ok v) -> exit_of s (exit_cell self) = Some v));
    [|intros [v| |]; [by intros s _ Hs v' [= <-]; apply Hs|done..]|done..].
  apply safe_try. eapply safe_weaken; [| |apply (safe_zoom _ _ _ _ _ _ i _ _ _ ) with (4 := safe_cell_wait i)].
  - intros s _ Hc. apply lookup_lt_is_Some in Hc as [c Hc]. by exists c.
  - intros [v| |] s _ (c & Hc & Hv); [|done..]. intros v' [= <-]. unfold exit_of. rewrite Hc. by apply Hv.
  - done.
  - intros s s' c _ _ Hg Hc.
    destruct (lookup_lt_is_Some_2 (cells s') (exit_cell self)) as [c' Hc'].
    { pose proof (grows_cells _ _ Hg). apply lookup_lt_Some in Hc. lia. }
    exists c'. split; [done|]. intros v Hv. pose proof (grows_exit _ _ Hg (exit_cell self) v) as He.
    unfold exit_of in He. rewrite Hc, Hc' in He. by apply He.
  - intros s c c' _ Hc _ Hk. destruct (other_thread i) as [j Hj]. split_and!; [done| |].
    + intros _ _. eapply grows_cell; [exact Hc|exact (Hk j Hj)].
    + apply list_lookup_insert_eq. by eapply lookup_lt_Some.
Qed.

Lemma gsafe_pre {E A} i (p : async St E A) (P P' : St -> Prop) Q :
  gsafe i p P' Q -> (forall s, P s -> P' s) -> gsafe i p P Q.
Proof. intros Hp HP. eapply safe_weaken; [| |exact Hp]; [by intros s _; apply HP|done]. Qed.

Lemma gsafe_true {E A} i (p : async St E A) P (Q : outcome E A -> St -> Prop) :
  steps_in grows p -> (forall r s, Q r s) -> gsafe i p P Q.
Proof.
  intros Hp HQ. eapply safe_weaken; [| |apply (safe_grow i p (fun _ => True) Hp)]; [done|done|].
  by intros ???.
Qed.

Lemma safe_task i t s :
  task_valid s t -> gsafe i (task_prog t) (fun s' => grows s s') (task_post t).
Proof.
  intros Hv. destruct t as [id cfg|self|self sig|self|self|r]; simpl in Hv.
  - eapply safe_bind; [eapply gsafe_pre; [apply safe_new|done]|..]; [|done..].
    intros w s1 _ Hw i' [= <-]. by apply Hw.
  - eapply safe_bind; [eapply gsafe_pre; [apply safe_wasm_start|]|..].
    + intros s' [_ Hc _ _]. lia.
    + intros a s' _ Hs. exact Hs.
    + intros e s' _ Hs. exact Hs.
    + intros s' _ Hs. exact Hs.
  - apply gsafe_true; [exact (steps_task (TKill self sig))|done].
  - apply gsafe_true; [exact (steps_task (TDelete self))|done].
  - apply gsafe_true; [exact (steps_task (TWait self))|done].
  - eapply safe_bind; [eapply gsafe_pre; [apply safe_reap|]|..].
    + intros s' [_ Hc _ _]. lia.
    + intros a s' _ Hs. exact Hs.
    + intros e s' _ Hs. exact Hs.
    + intros s' _ Hs. exact Hs.
Qed.

(** What holds of the tasks of a pool in every interleaving. *)
Lemma tasks_post tasks s0 ts s i t r :
  Forall (task_valid s0) tasks -> rtc pool_step (task_prog <$> tasks, s0) (ts, s) ->
  tasks !! i = Some t -> ts !! i = Some (Done r) -> task_post t r s.
Proof.
  intros Hv Hrun Ht Hr.
  assert (safe_pool (fun _ => True) (fun _ => grows)
            (fun i r s => forall t, tasks !! i = Some t -> task_post t r s)
            (task_prog <$> tasks, s0)) as Hsafe.
  { split; [done|]. intros j p Hp. simpl in Hp.
    apply list_lookup_fmap_Some in Hp as (u & -> & Hu).
    exists (fun s' => grows s0 s'). split_and!; [reflexivity|apply upward_stable; intros s1 s2 ? ?; by etrans|].
    eapply safe_weaken; [| |apply safe_task; by eapply Forall_lookup_1]; [done|].
    intros r' s' _ Hpost u' Hu'. by simplify_eq. }
  exact (safe_pool_done _ _ _ _ _ _ _ Hsafe Hrun Hr t Ht).
Qed.

Lemma tasks_grow tasks s0 ts s ts' s' :
  rtc pool_step (task_prog <$> tasks, s0) (ts, s) -> rtc pool_step (ts, s) (ts', s') -> grows s s'.
Proof.
  intros Hrun Hrun'.
  assert (Forall (steps_in grows) (task_prog <$> tasks)) as Hall
    by (apply Forall_fmap, Forall_true, steps_task).
  destruct (pool_steps_in grows (_, s0) _ Hall Hrun) as [_ Hts].
  exact (proj1 (pool_steps_in grows (ts, s) _ Hts Hrun')).
Qed.

(** *** The task that waits for the process *)

Lemma exec_on_os_async {E A} (p : async W E A) s :
  exec (on_os_async p) s = let '(r, w) := exec p (os s) in (r, with_os w s).
Proof. apply exec_zoom; [done|done|intros t w [= <-]; by destruct t|done]. Qed.

Lemma exec_on_cell {E A} l (p : async (cell (Z * DateTime) N) E A) s c :
  cells s !! l = Some c ->
  exec (on_cell l p) s = let '(r, c') := exec p c in (r, with_cell l c' s).
Proof.
  intros Hl. apply exec_zoom; [| | |done].
  - intros s' c' [c0 Hc0]. simpl. apply list_lookup_insert_eq. by eapply lookup_lt_Some.
  - intros s' c1 c2. unfold with_cell. simpl. by rewrite list_insert_insert_eq.
  - intros s' c' Hc'. unfold with_cell. rewrite list_insert_id by done. by destruct s'.
Qed.

Lemma exec_drop_exit_guard c s c0 :
  cells s !! c = Some c0 ->
  exists s', exec (drop_exit_guard c) s = (Some (Ok tt), s') /\
    exit_of s' c = Some (default (137%Z, now (os s)) (value c0)).
Proof.
  intros Hl. unfold drop_exit_guard, read_now.
  rewrite exec_abind, exec_atomic. cbn [fst snd].
  rewrite exec_abind, exec_atry, (exec_on_cell _ _ _ _ Hl).
  pose proof (exec_drop_guard (fun _ => (137%Z, now (os s))) c0) as [H1 H2].
  destruct (exec (drop_guard _) c0) as [r c1]. simpl in *. subst r.
  eexists. split; [done|]. rewrite exit_of_with_cell by (by eapply lookup_lt_Some). done.
Qed.

Lemma exec_then_drop_guard {A} c (r : outcome Error A) s c0 :
  cells s !! c = Some c0 ->
  exists s', exec (then_drop (drop_exit_guard c) r) s = (Some r, s') /\
    exit_of s' c = Some (default (137%Z, now (os s)) (value c0)).
Proof.
  intros Hl. destruct (exec_drop_exit_guard c s c0 Hl) as (s' & Hrun & He).
  exists s'. split; [|done]. unfold then_drop. by rewrite exec_abind, exec_atry, Hrun.
Qed.

(** What the reaper records for the result of the wait. *)
Definition recorded_status (r : outcome string WaitStatus) : Z :=
  match r with
  | Ok (WExited _ status) => wrap_u32 status
  | Ok (WSignaled _ sig _) => wrap_u32 (128 + sig)
  | _ => 137
  end.

Lemma exec_reap r s c res w :
  cells s !! reaper_cell r = Some c -> value c = None ->
  exec (PidFd.wait errno_text (reaper_fd r)) (os s) = (Some res, w) ->
  exists s', exec (reap r) s = (Some (match res with Panic => Panic | _ => Ok tt end), s') /\
    exit_of s' (reaper_cell r) = Some (recorded_status res, now w).
Proof.
  intros Hl Hv Hw. unfold reap.
  rewrite exec_adefer, exec_abind, exec_atry, exec_on_os_async, Hw.
  assert (recorded_status res = wrap_u32 (status_code res)) as Hcode by (by destruct res as [[]| |]).
  destruct res as [st|e|].
  3:{ destruct (exec_then_drop_guard (A := unit) _ Panic (with_os w s) c Hl) as (s' & Hrun & He).
      exists s'. split; [done|]. by rewrite He, Hv. }
  all: unfold read_now; rewrite exec_abind, exec_atomic; cbn [fst snd].
  all: rewrite exec_abind, exec_atry, (exec_on_cell _ _ (with_os w s) c), exec_set, Hv by exact Hl.
  all: cbn [exec aret].
  all: match goal with |- context [then_drop _ ?x] => match goal with |- context [with_cell ?l ?c' ?s0] =>
         destruct (exec_then_drop_guard l x (with_cell l c' s0) c') as (s' & Hrun & He);
           [apply list_lookup_insert_eq; by eapply lookup_lt_Some|] end end.
  all: exists s'; split; [exact Hrun|]; by rewrite He, Hcode.
Qed.

(** ** Properties *)

(** C9: in every interleaving of the operations of any number of instances and
    of the tasks they spawned: an exit code that was recorded is never
    replaced; a [start] that succeeded has spawned the task that records the
    exit code, and one that failed or panicked has recorded it itself; and a
    spawned task that ended, in whatever way, has left an exit code.  So a
    wait for an instance that was started is always answered. *)
Theorem exit_code_always_set (tasks : list task) (s0 s1 s : St)
    (ts1 ts : list (async St Error (option WasmInst))) :
  Forall (task_valid s0) tasks ->
  rtc pool_step (task_prog <$> tasks, s0) (ts1, s1) -> rtc pool_step (ts1, s1) (ts, s) ->
  (forall c v, exit_of s1 c = Some v -> exit_of s c = Some v) /\
  (forall i self r, tasks !! i = Some (TStart self) -> ts !! i = Some (Done r) ->
     if is_ok r then exists rp, rp ∈ reapers s /\ reaper_cell rp = exit_cell self
     else is_Some (exit_of s (exit_cell self))) /\
  (forall i rp r, tasks !! i = Some (TReap rp) -> ts !! i = Some (Done r) ->
     is_Some (exit_of s (reaper_cell rp))).
Proof.
  intros Hv Hrun1 Hrun.
  assert (rtc pool_step (task_prog <$> tasks, s0) (ts, s)) as Hall by (by etrans).
  split_and!.
  - apply (grows_exit _ _ (tasks_grow _ _ _ _ _ _ Hrun1 Hrun)).
  - intros i self r Ht Hr. exact (tasks_post _ _ _ _ _ _ _ Hv Hall Ht Hr).
  - intros i rp r Ht Hr. exact (tasks_post _ _ _ _ _ _ _ Hv Hall Ht Hr).
Qed.

(** C26: the container of an instance that [new] returned stays initialised in
    every interleaving, so each of its methods reaches the container of
    [libcontainer] and never the panic of an uninitialised one; its error and
    its panic are reported as the zygote reports them. *)
Theorem new_container_is_reached (tasks : list task) (s0 s : St)
    (ts : list (async St Error (option WasmInst))) (i : nat) (id : string)
    (cfg : InstanceConfig) (inst : WasmInst) :
  Forall (task_valid s0) tasks -> rtc pool_step (task_prog <$> tasks, s0) (ts, s) ->
  tasks !! i = Some (TNew id cfg) -> ts !! i = Some (Done (Ok (Some inst))) ->
  exists y, zygotes s !! container inst = Some (Some y) /\
    forall A (f : M (Y * W) string A), (run (container inst) f s).1 =
      match (f (y, os s)).1 with
      | Ok a => Ok a
      | Err e => Err (wire_error e)
      | Panic => panic_reply
      end.
Proof.
  intros Hv Hrun Ht Hr.
  destruct (tasks_post _ _ _ _ _ _ _ Hv Hrun Ht Hr inst eq_refl) as [_ [y Hy]].
  exists y. split; [done|]. intros A f. rewrite (run_initialised _ _ _ _ Hy).
  by destruct (f (y, os s)) as [r [y' w]].
Qed.

(** C38: the task that [start] spawned records the exit status of the process,
    [128] plus the signal for a process that was killed, and [137] when the
    wait failed or panicked; the status is a 32-bit unsigned integer. *)
Theorem reaper_records_status (r : Reaper Fd Sub) (s : St) (c : cell (Z * DateTime) N)
    (res : outcome string WaitStatus) (w : W) :
  cells s !! reaper_cell r = Some c -> value c = None ->
  exec (PidFd.wait errno_text (reaper_fd r)) (os s) = (Some res, w) ->
  exists code, exit_of (exec (reap r) s).2 (reaper_cell r) = Some (code, now w) /\
    (0 <= code <= u32_max)%Z /\
    match res with
    | Ok (WExited _ status) => (0 <= status <= u32_max)%Z -> code = status
    | Ok (WSignaled _ sig _) => (0 <= sig <= 64)%Z -> code = (128 + sig)%Z
    | _ => code = 137%Z
    end.
Proof.
  intros Hl Hv Hw. destruct (exec_reap r s c res w Hl Hv Hw) as (s' & Hrun & He).
  exists (recorded_status res). rewrite Hrun. split; [exact He|].
  split.
  - destruct res as [[]| |]; simpl; unfold u32_max; (apply wrap_u32_range || lia).
  - destruct res as [[]| |]; simpl; try done; intros Hz; unfold wrap_u32, u32_max in *;
      by rewrite Z.mod_small by lia.
Qed.

(** An instance whose Wasm layers cannot be obtained is still created: its
    container is built without modules, to run the files of the image. *)
Theorem modules_are_optional (id : string) (cfg : InstanceConfig) (s : St)
    (client : OciClient W Channel) (e : Error) (w : W) :
  oci_client s = Some client -> oci_load_modules client id (os s) = (Err e, w) ->
  (exec (wasm_new id cfg) s).1 = Some
    match (build_closure id cfg [] w).1 with
    | Ok _ => Ok (MkWasmInst (length (cells s)) (length (zygotes s)) id)
    | Err e' => Err (E_Any (wire_error e'))
    | Panic => map_err E_Any panic_reply
    end.
Proof.
  intros Hc Hl.
  assert (load_with_client id s = (Err e, with_os w s)) as Hload
    by (unfold load_with_client, on_os; by rewrite Hc, Hl).
  unfold wasm_new. rewrite exec_abind, exec_alift. unfold init_oci_client. rewrite Hc. cbn [fst snd].
  rewrite exec_abind, exec_atry, exec_alift, Hload. cbn [fst snd].
  rewrite exec_abind. unfold any. rewrite exec_alift. unfold mmap_err.
  rewrite build_result. cbn [os cells zygotes with_os]. unfold panic_reply.
  by destruct (build_closure id cfg [] w) as [[y|e'|] w'], wire_panic.
Qed.
End wasm_instance.

(** ** A shim for the examples, over the store of [Client.v]

    Processes exit with code 3 as soon as they are waited for. *)

#[export] Instance demo_engine_processes : Processes DemoStore unit unit := {
  monitor_subscribe := mret tt;
  pidfd_open _ := mret tt;
  async_fd f := mret f;
  waitid _ := mret (WExited 7 3);
  readable _ w := Some (Ok tt, w);
  received _ _ := [];
}.

#[export] Instance demo_youki : Youki DemoStore unit := {
  youki_pid _ := Some 7%Z;
  youki_start := mret tt;
  youki_kill _ _ := mret tt;
  youki_delete _ := mret tt;
  signal_try_from z := if decide (1 <= z <= 31)%Z then Some z else None;
}.

#[export] Instance demo_shim_host : ShimHost DemoStore := {
  wire_error e := e;
  wire_panic := Some "panic"%string;
  spec_load _ := mret (MkSpec None None);
  set_logger_kv _ w := w;
  error_text e := "error";
  errno_text e := "errno";
  now _ := MkDateTime 100 0;
}.

#[export] Instance demo_no_files : Files DemoStore unit := {
  file_open _ := mthrow (MkIoError NotFound "No such file");
  read_options _ := mret (MkOptions None);
  open_rw _ := mret tt;
}.

#[export] Instance demo_youki_build : YoukiBuild DemoStore unit unit unit := {
  with_root_path _ := mret tt;
  youki_build _ := mret tt;
}.

Definition DemoShim := World DemoStore unit nat unit unit unit.

Definition demo_shim : ShimType DemoStore := default_shim "demo".

Definition demo_cfg : InstanceConfig :=
  MkInstanceConfig EmptyString EmptyString EmptyString "/bundle" "default" "/run/c.sock" (MkConfig false).

(** One instance whose container is initialised and one whose zygote died
    before it was. *)
Definition demo_shim_world : DemoShim :=
  MkWorld Client.demo_world [Some tt; None] [Waitable.new; Waitable.new] None [].

Definition demo_inst (i : nat) : WasmInst := MkWasmInst i i "c".

Definition demo_reaper : Reaper unit unit := MkReaper 0 (MkPidFd tt 7 tt).

(** A start of each, the reaper of the first, and a new instance. *)
Definition demo_tasks : list (task (Fd := unit) (Sub := unit)) :=
  TStart (demo_inst 0) :: TStart (demo_inst 1) :: TReap demo_reaper :: [TNew "c2" demo_cfg].

Definition demo_pool : list (async DemoShim Error (option WasmInst)) := task_prog demo_shim <$> demo_tasks.

Definition demo_schedule : list nat := [0; 0; 0; 0; 1; 1; 1; 1; 1; 3; 3; 2; 2; 2; 2; 2; 2; 2; 2; 2; 2; 2; 3; 3; 3].

Definition demo_end := run_schedule demo_schedule demo_pool demo_shim_world.

Example demo_codes :
  exit_of demo_end.2 0 = Some (3, MkDateTime 100 0)%Z /\
  exit_of demo_end.2 1 = Some (137, MkDateTime 100 0)%Z /\
  demo_end.1 !! 0 = Some (Done (Ok None)) /\
  demo_end.1 !! 1 = Some (Done (Err (E_Any "panic"))) /\
  demo_end.1 !! 2 = Some (Done (Ok None)) /\
  demo_end.1 !! 3 = Some (Done (Ok (Some (MkWasmInst 2 2 "c2")))).
Proof. vm_compute. auto 10. Qed.

Lemma demo_tasks_valid : Forall (task_valid demo_shim_world) demo_tasks.
Proof. repeat constructor. Qed.

Lemma demo_run : rtc pool_step (demo_pool, demo_shim_world) (demo_end.1, demo_end.2).
Proof. rewrite <- surjective_pairing. apply run_schedule_steps. Qed.

Lemma exit_code_always_set_witness :
  is_Some (exit_of demo_end.2 1) /\ is_Some (exit_of demo_end.2 0) /\
  exists rp, rp ∈ reapers demo_end.2 /\ reaper_cell rp = 0.
Proof.
  destruct (exit_code_always_set demo_shim demo_tasks demo_shim_world demo_shim_world demo_end.2
              demo_pool demo_end.1) as (_ & Hstart & Hreap).
  - exact demo_tasks_valid.
  - reflexivity.
  - exact demo_run.
  - destruct demo_codes as (_ & _ & H0 & H1 & H2 & _). split_and!.
    + exact (Hstart 1 (demo_inst 1) _ eq_refl H1).
    + exact (Hreap 2 demo_reaper _ eq_refl H2).
    + exact (Hstart 0 (demo_inst 0) _ eq_refl H0).
Defined.

Lemma new_container_is_reached_witness :
  exists y, zygotes demo_end.2 !! 2 = Some (Some y) /\
    (run 2 (youki_kill 9 true) demo_end.2).1 = Ok tt.
Proof.
  destruct (new_container_is_reached demo_shim demo_tasks demo_shim_world demo_end.2 demo_end.1 3
              "c2" demo_cfg (MkWasmInst 2 2 "c2")) as (y & Hy & Hrun).
  - exact demo_tasks_valid.
  - exact demo_run.
  - reflexivity.
  - apply demo_codes.
  - exists y. split; [exact Hy|]. rewrite (Hrun unit (youki_kill 9 true)). reflexivity.
Defined.

Lemma reaper_records_status_witness :
  exists code, exit_of (exec (reap demo_reaper) demo_shim_world).2 0 =
    Some (code, MkDateTime 100 0) /\ code = 3%Z.
Proof.
  destruct (reaper_records_status demo_reaper demo_shim_world Waitable.new (Ok (WExited 7 3))
              Client.demo_world) as (code & He & _ & Hc); [reflexivity..|].
  exists code. split; [exact He|]. apply Hc. unfold u32_max. lia.
Defined.

(** The store has no container under its name: no layers can be loaded. *)
Definition demo_oci : OciClient DemoStore unit :=
  MkOciClient Client.demo_client None supported_layers_types "demo".

Definition demo_empty_store : DemoShim :=
  MkWorld (MkDemoStore [] 0 ∅ ∅) [] [] (Some demo_oci) [].

Lemma modules_are_optional_witness :
  (exec (wasm_new demo_shim "c2" demo_cfg) demo_empty_store).1 = Some (Ok (MkWasmInst 0 0 "c2")).
Proof.
  rewrite (modules_are_optional demo_shim "c2" demo_cfg demo_empty_store demo_oci
             (E_Containerd "not found") (os demo_empty_store)); [reflexivity..].
Defined.
