(* ===== verification/OciTar.v ===== *)
(** * OciTar: [crates/oci-tar-builder/src/lib.rs]

    The builder of an OCI archive with Wasm layers.  The archive is the list of
    its entries; a file, a configuration and a JSON text are strings of bytes.
    SHA-256, the file system, the JSON of [oci_spec] and [serde_json] and the
    headers of [tar] are the class [OciLib]. *)

From S2P Require Import Prelude RustStr.
From Stdlib Require Import Ascii.

(** [oci_spec::image::MediaType], the values used *)
Inductive MediaType := ImageLayer | ImageManifest_ | ImageIndex_ | ImageConfig | Other (s : string).

(** [Descriptor], [Platform], [ImageManifest] and [ImageIndex], with the fields
    the builders set *)
Record Platform := MkPlatform { platform_os : string; platform_architecture : string }.

Record Descriptor := MkDescriptor {
  media_type : MediaType;
  desc_digest : string;
  desc_size : Z;
  desc_platform : option Platform;
  desc_annotations : option (gmap string string);
}.

Record ImageManifest := MkManifest {
  manifest_layers : list Descriptor;
  manifest_config : Descriptor;
  manifest_annotations : gmap string string;
}.

Record ImageIndex := MkIndex { index_manifests : list Descriptor }.

(** [struct OciLayout] and [struct DockerManifest] *)
Record OciLayout := MkOciLayout { image_layout_version : string }.

Definition default_layout : OciLayout := MkOciLayout "1.0.0".

Record DockerManifest := MkDocker {
  docker_config : string;
  repo_tags : list string;
  docker_layers : list string;
}.

(** [trait OciConfig] *)
Class OciConfig (C : Type) := {
  os : C -> string;
  architecture : C -> string;
  config_layers : C -> list string;
  config_to_string : C -> outcome string string;
}.

(** [struct Builder<C>] *)
Record Builder (C : Type) := MkBuilder {
  configs : list (C * string * MediaType);
  layers : list (string * string);
}.
Arguments MkBuilder {C}.
Arguments configs {C}.
Arguments layers {C}.

(** An entry of the archive: its header and its data. *)
Record Entry := MkEntry { entry_path : string; entry_mode : Z; entry_size : Z; entry_data : string }.

(** [sha256], [std::fs], the checks of [Digest::try_from] and of
    [Header::set_path], and the JSON of the values. *)
Class OciLib := {
  digest : string -> string;
  try_digest : string -> outcome string string;
  metadata_len : string -> outcome string Z;
  file_open : string -> outcome string string;
  digest_try_from : string -> outcome string string;
  set_path : string -> outcome string unit;
  manifest_json : ImageManifest -> outcome string string;
  index_json : ImageIndex -> outcome string string;
  layout_json : OciLayout -> outcome string string;
  docker_json : list DockerManifest -> outcome string string;
}.

(** [tar::Builder]: [append] and [finish] may fail as the writer does;
    [archive] is what was written. *)
Class TarWriter (T : Type) := {
  tar_append : Entry -> M T string unit;
  tar_finish : M T string unit;
  archive : T -> list Entry;
}.

Class TarLaws (T : Type) `{!TarWriter T} : Prop := {
  append_ok e t t' : tar_append e t = (Ok tt, t') -> archive t' = archive t ++ [e];
  finish_ok t t' : tar_finish t = (Ok tt, t') -> archive t' = archive t;
}.

Definition WASM_LAYER_MEDIA_TYPE : string :=
  "application/vnd.bytecodealliance.wasm.component.layer.v0+wasm".

(** [IndexMap::insert]: a new key goes last, an old one keeps its place. *)
Fixpoint index_insert {A} (k : string) (v : A) (l : list (string * A)) : list (string * A) :=
  match l with
  | [] => [(k, v)]
  | (k', v') :: l' => if decide (k = k') then (k, v) :: l' else (k', v') :: index_insert k v l'
  end.

Definition colon : ascii := ":"%char.

(** [.context(..)] *)
Definition context {A} (c : string) (r : outcome string A) : outcome string A := map_err (fun _ => c) r.

Definition size_of (s : string) : Z := Z.of_nat (String.length s).

Definition blob_path (dgst : string) : string := "blobs/sha256/" +:+ dgst.

Section builder.
Context {C : Type} `{!OciConfig C} `{!OciLib} {T : Type} `{!TarWriter T}.
Implicit Types self : Builder C.

(** [Default::default] *)
Definition empty_builder : Builder C := MkBuilder [] [].

(** [Builder::add_config], [add_layer] and [add_layer_with_media_type] *)
Definition add_config (config : C) (name : string) (mt : MediaType) (self : Builder C) : Builder C :=
  MkBuilder (configs self ++ [(config, name, mt)]) (layers self).

Definition add_layer (layer : string) (self : Builder C) : Builder C :=
  MkBuilder (configs self) (layers self ++ [(layer, EmptyString)]).

Definition add_layer_with_media_type (layer mt : string) (self : Builder C) : Builder C :=
  MkBuilder (configs self) (layers self ++ [(layer, mt)]).

(** A header with a path and a mode, and the data after it. *)
Definition append_entry (ctx path : string) (m size : Z) (data : string) : M T string unit :=
  let! _ := mlift (context ctx (set_path path)) in
  tar_append (MkEntry path m size data).

Definition blob_mode : Z := 292. (** [0o444] *)
Definition file_mode : Z := 420. (** [0o644] *)

Definition layer_media_type (mt : string) : MediaType :=
  if is_empty mt then ImageLayer else Other mt.

(** The accumulators of the loops: [layer_digests] and [mfst]. *)
Definition Acc := (list (string * Descriptor) * DockerManifest)%type.

(** One iteration of the loop on the layers. *)
Definition add_layer_blob (acc : Acc) (layer : string * string) : M T string Acc :=
  let '(layer_digests, mfst) := acc in
  let! dgst := mlift (context "failed to digest layer" (try_digest layer.1)) in
  let! len := mlift (context "could not get layer metadata" (metadata_len layer.1)) in
  let! d := mlift (digest_try_from ("sha256:" +:+ dgst)) in
  let desc := MkDescriptor (layer_media_type layer.2) d len None None in
  let! _ := mlift (context "could not set path for layer" (set_path (blob_path dgst))) in
  let! f := mlift (context "could not open layer" (file_open layer.1)) in
  let! _ := tar_append (MkEntry (blob_path dgst) blob_mode len f) in
  mret (index_insert ("sha256:" +:+ dgst) desc layer_digests,
        MkDocker (docker_config mfst) (repo_tags mfst) (docker_layers mfst ++ [blob_path dgst])).

(** The annotations of the manifest: [split(':')] at index 1 of a name with a
    [:]. *)
Definition annotations_of (name : string) : gmap string string :=
  let ref := if has_char colon name then
               match split colon name with
               | _ :: r :: _ => {["org.opencontainers.image.ref.name" := r]}
               | _ => ∅
               end
             else ∅ in
  <["io.containerd.image.name" := name]> ref.

(** One iteration of the loop on the configs. *)
Definition add_config_blobs (layer_digests : list (string * Descriptor))
    (acc : list Descriptor * DockerManifest) (config : C * string * MediaType)
    : M T string (list Descriptor * DockerManifest) :=
  let '(manifests, mfst) := acc in
  let '(c, name, mt) := config in
  let! s := mlift (config_to_string c) in
  let dgst := digest s in
  let! _ := append_entry "could not set path for config" (blob_path dgst) blob_mode (size_of s) s in
  let! d := mlift (digest_try_from ("sha256:" +:+ dgst)) in
  let desc := MkDescriptor mt d (size_of s) None None in
  let annotations := annotations_of name in
  let mfst := MkDocker (blob_path dgst) (repo_tags mfst ++ [name]) (docker_layers mfst) in
  let! manifest := mlift (context "failed to serialize manifest"
                            (manifest_json (MkManifest (snd <$> layer_digests) desc annotations))) in
  let mdgst := digest manifest in
  let! _ := append_entry "could not set path for manifest" (blob_path mdgst) blob_mode
              (size_of manifest) manifest in
  let! md := mlift (digest_try_from ("sha256:" +:+ mdgst)) in
  let mdesc := MkDescriptor ImageManifest_ md (size_of manifest)
                 (Some (MkPlatform (os c) (architecture c))) (Some annotations) in
  mret (manifests ++ [mdesc], mfst).

(** [Builder::build] *)
Definition build (self : Builder C) : M T string unit :=
  if decide (1 < length (configs self)) then mthrow "only one config is supported"
  else
    let! acc := foldM_M add_layer_blob ([], MkDocker EmptyString [] []) (layers self) in
    let '(layer_digests, mfst) := acc in
    let! res := foldM_M (add_config_blobs layer_digests) ([], mfst) (configs self) in
    let '(manifests, mfst) := res in
    let! s := mlift (context "failed to serialize index" (index_json (MkIndex manifests))) in
    let! _ := append_entry "could not set path to index.json" "index.json" file_mode (size_of s) s in
    let! layout := mlift (context "failed to serialize oci-layout" (layout_json default_layout)) in
    let! _ := append_entry "could not set path for oci-layout file" "oci-layout" file_mode
                (size_of layout) layout in
    let! mfst_data := mlift (context "failed to serialize manifest" (docker_json [mfst])) in
    let! _ := mlift (set_path "manifest.json") in
    let! _ := tar_append (MkEntry "manifest.json" file_mode (size_of mfst_data) mfst_data) in
    tar_finish.
End builder.

(** ** Lemmas *)

Lemma index_insert_keys {A} k (v : A) l k' :
  k' ∈ (index_insert k v l).*1 <-> k' = k \/ k' ∈ l.*1.
Proof.
  induction l as [|[k1 v1] l IH]; simpl; [set_solver|].
  destruct (decide (k = k1)) as [<-|Hne]; simpl; set_solver.
Qed.

Lemma index_insert_nodup {A} k (v : A) l : NoDup l.*1 -> NoDup (index_insert k v l).*1.
Proof.
  induction l as [|[k1 v1] l IH]; simpl; intros Hl.
  - apply NoDup_singleton.
  - destruct (decide (k = k1)) as [<-|Hne]; simpl; [done|].
    apply NoDup_cons in Hl as [Hk1 Hl]. apply NoDup_cons. split; [|by apply IH].
    rewrite index_insert_keys. by intros [->|?].
Qed.

Lemma index_insert_Forall {A} (P : string * A -> Prop) k v l :
  P (k, v) -> Forall P l -> Forall P (index_insert k v l).
Proof.
  intros Hk Hl. induction Hl as [|[k1 v1] l H1 Hl IH]; simpl; [by constructor|].
  destruct (decide (k = k1)) as [<-|Hne]; by constructor.
Qed.

(** A new key goes last. *)
Lemma index_insert_fresh {A} k (v : A) l : k ∉ l.*1 -> index_insert k v l = l ++ [(k, v)].
Proof.
  induction l as [|[k1 v1] l IH]; simpl; intros Hk; [done|].
  rewrite decide_False by set_solver. rewrite IH by set_solver. done.
Qed.

Section archive.
Context {C : Type} `{!OciConfig C} `{!OciLib} {T : Type} `{!TarWriter T} `{!TarLaws T}.

(** The file system does not change while the archive is built: the digest
    and the length of a file are those of what is read from it, and a
    [Digest] is its text. *)
Class StableFiles : Prop := {
  digest_of_file p d s : try_digest p = Ok d -> file_open p = Ok s -> d = digest s;
  length_of_file p n s : metadata_len p = Ok n -> file_open p = Ok s -> n = size_of s;
  digest_text s d : digest_try_from s = Ok d -> d = s;
}.
Context `{!StableFiles}.

Definition sha256_of (s : string) : string := "sha256:" +:+ digest s.

(** The entry of a blob: named by the digest of its data. *)
Definition blob (s : string) : Entry := MkEntry (blob_path (digest s)) blob_mode (size_of s) s.

Lemma append_entry_ok ctx path m size data (t t' : T) :
  append_entry ctx path m size data t = (Ok tt, t') ->
  archive t' = archive t ++ [MkEntry path m size data].
Proof.
  unfold append_entry. intros (u & t1 & [= _ <-] & Ha)%mbind_ok. by apply append_ok.
Qed.

Lemma lift_bind_ok {A B} (r : outcome string A) (k : A -> M T string B) t b t' :
  mbind (mlift r) k t = (Ok b, t') -> exists a, r = Ok a /\ k a t = (Ok b, t').
Proof. intros (a & t1 & [= -> <-] & Hk)%mbind_ok. eauto. Qed.

Lemma context_ok {A} c (r : outcome string A) a : context c r = Ok a -> r = Ok a.
Proof. destruct r; naive_solver. Qed.

(** The descriptors of the layers [ls] with the bytes [ss]: one for each digest,
    at the place of its first layer and with the media type of its last. *)
Definition layer_desc (l : string * string) (s : string) : Descriptor :=
  MkDescriptor (layer_media_type l.2) (sha256_of s) (size_of s) None None.

Definition layer_digests_of (ls : list (string * string)) (ss : list string) : list (string * Descriptor) :=
  foldl (fun acc x => index_insert (sha256_of x.2) (layer_desc x.1 x.2) acc) [] (zip ls ss).

Lemma layer_digests_app ls ss l s :
  length ls = length ss ->
  layer_digests_of (ls ++ [l]) (ss ++ [s]) = index_insert (sha256_of s) (layer_desc l s) (layer_digests_of ls ss).
Proof. intros Hl. unfold layer_digests_of. by rewrite zip_with_app, foldl_app by done. Qed.

(** Induction on the layers from the last one *)
Lemma layers_ind (P : list (string * string) -> list string -> Prop) :
  P [] [] -> (forall ls ss l s, length ls = length ss -> P ls ss -> P (ls ++ [l]) (ss ++ [s])) ->
  forall ls ss, length ls = length ss -> P ls ss.
Proof.
  intros Hnil Hs ls. induction ls as [|l ls IH] using rev_ind; intros ss Hl.
  - by destruct ss.
  - destruct ss as [|s ss _] using rev_ind; rewrite !length_app in Hl; simpl in Hl; [lia|].
    assert (length ls = length ss) as Hl' by lia. by apply Hs, IH.
Qed.

Lemma layer_digests_keys ls ss : length ls = length ss ->
  NoDup (layer_digests_of ls ss).*1 /\
  Forall (fun kd => kd.1 = desc_digest kd.2) (layer_digests_of ls ss) /\
  forall k, k ∈ (layer_digests_of ls ss).*1 <-> k ∈ sha256_of <$> ss.
Proof.
  revert ls ss. refine (layers_ind (fun ls ss => _) _ _); [by split_and!; [constructor|constructor|]|].
  intros ls ss l s Hl (Hnd & Hkd & Hk). rewrite layer_digests_app by done. split_and!.
  - by apply index_insert_nodup.
  - by apply index_insert_Forall.
  - intros k. rewrite index_insert_keys, Hk, fmap_app. set_solver.
Qed.

(** Layers with different contents are described in their order. *)
Lemma layer_digests_distinct ls ss : length ls = length ss -> NoDup (sha256_of <$> ss) ->
  snd <$> layer_digests_of ls ss = zip_with layer_desc ls ss.
Proof.
  intros Hl Hnd.
  enough (NoDup (sha256_of <$> ss) -> snd <$> layer_digests_of ls ss = zip_with layer_desc ls ss) by auto.
  clear Hnd. revert ls ss Hl. refine (layers_ind (fun ls ss => _) _ _); [done|]. intros ls ss l s Hl IH Hnd.
  rewrite fmap_app in Hnd. apply NoDup_app in Hnd as (Hnd & Hs & _).
  rewrite layer_digests_app, zip_with_app by done. rewrite index_insert_fresh.
  - by rewrite fmap_app, IH.
  - rewrite (proj2 (proj2 (layer_digests_keys ls ss Hl))). intros Hin. apply (Hs _ Hin). by left.
Qed.

(** What the loop on the layers has written and collected. *)
Definition layers_inv (t0 : T) (seen : list (string * string)) (acc : Acc) (t : T) : Prop :=
  exists ss, archive t = archive t0 ++ (blob <$> ss) /\
    Forall2 (fun l s => file_open l.1 = Ok s) seen ss /\ acc.1 = layer_digests_of seen ss /\
    docker_layers acc.2 = entry_path <$> (blob <$> ss) /\ repo_tags acc.2 = [].

Lemma layers_inv_step t0 seen layer acc t acc' t' :
  layers_inv t0 seen acc t -> add_layer_blob acc layer t = (Ok acc', t') ->
  layers_inv t0 (seen ++ [layer]) acc' t'.
Proof.
  destruct acc as [lds mfst]. intros (ss & Ht & Hss & Hlds & Hdock & Htags) Hrun.
  unfold add_layer_blob in Hrun.
  apply lift_bind_ok in Hrun as (dg & Hdg%context_ok & Hrun).
  apply lift_bind_ok in Hrun as (len & Hlen%context_ok & Hrun).
  apply lift_bind_ok in Hrun as (d & Hd & Hrun).
  apply lift_bind_ok in Hrun as (u & _ & Hrun).
  apply lift_bind_ok in Hrun as (s & Hs%context_ok & Hrun).
  apply mbind_ok in Hrun as ([] & t1 & Ha & [= <- <-]).
  apply append_ok in Ha.
  pose proof (digest_of_file _ _ _ Hdg Hs) as ->.
  pose proof (length_of_file _ _ _ Hlen Hs) as ->. apply digest_text in Hd as ->.
  exists (ss ++ [s]). simpl in *. rewrite !fmap_app. split_and!.
  - by rewrite Ha, Ht, app_assoc.
  - apply Forall2_app; [done|]. by constructor.
  - rewrite layer_digests_app by (by eapply Forall2_length). by rewrite Hlds.
  - by rewrite Hdock.
  - done.
Qed.

Lemma layers_loop ls t acc t' :
  foldM_M add_layer_blob ([], MkDocker EmptyString [] []) ls t = (Ok acc, t') ->
  layers_inv t ls acc t'.
Proof.
  intros Hrun. eapply foldM_M_ok; [|..|exact Hrun].
  - intros seen x b w b' w'. apply layers_inv_step.
  - exists []. simpl. by rewrite app_nil_r.
Qed.

(** What one configuration adds. *)
Lemma add_config_blobs_ok lds mds mfst c name mt t mds' mfst' t' :
  add_config_blobs lds (mds, mfst) (c, name, mt) t = (Ok (mds', mfst'), t') ->
  exists cfg m,
    config_to_string c = Ok cfg /\
    manifest_json (MkManifest (snd <$> lds) (MkDescriptor mt (sha256_of cfg) (size_of cfg) None None)
                     (annotations_of name)) = Ok m /\
    archive t' = archive t ++ blob cfg :: [blob m] /\
    mds' = mds ++ [MkDescriptor ImageManifest_ (sha256_of m) (size_of m)
                     (Some (MkPlatform (os c) (architecture c))) (Some (annotations_of name))] /\
    mfst' = MkDocker (blob_path (digest cfg)) (repo_tags mfst ++ [name]) (docker_layers mfst).
Proof.
  unfold add_config_blobs. intros Hrun.
  apply lift_bind_ok in Hrun as (cfg & Hcfg & Hrun).
  apply mbind_ok in Hrun as ([] & t1 & Ha%append_entry_ok & Hrun).
  apply lift_bind_ok in Hrun as (d & ->%digest_text & Hrun).
  apply lift_bind_ok in Hrun as (m & Hm%context_ok & Hrun).
  apply mbind_ok in Hrun as ([] & t2 & Ha2%append_entry_ok & Hrun).
  apply lift_bind_ok in Hrun as (d2 & ->%digest_text & [= <- <- <-]).
  exists cfg, m. split_and!; try done. by rewrite Ha2, Ha, <- app_assoc.
Qed.

(** What a complete archive of the configuration [c] with the layers [ls] adds to
    [old]: the blobs of the layers, of the configuration and of the manifest,
    and then the index, the layout and the docker manifest. *)
Definition complete_archive (c : C) (name : string) (mt : MediaType) (ls : list (string * string))
    (old new : list Entry) : Prop :=
  exists blobs descs cfg m idx layout docker,
    new = old ++ blobs ++ blob cfg :: blob m ::
      MkEntry "index.json" file_mode (size_of idx) idx ::
      MkEntry "oci-layout" file_mode (size_of layout) layout ::
      [MkEntry "manifest.json" file_mode (size_of docker) docker] /\
    Forall (fun e => e = blob (entry_data e)) blobs /\
    NoDup (desc_digest <$> descs) /\
    (forall l, l ∈ ls -> exists s, file_open l.1 = Ok s /\ sha256_of s ∈ desc_digest <$> descs) /\
    (forall d, d ∈ descs -> exists s, desc_digest d = sha256_of s /\ blob s ∈ blobs) /\
    config_to_string c = Ok cfg /\
    manifest_json (MkManifest descs (MkDescriptor mt (sha256_of cfg) (size_of cfg) None None)
                     (annotations_of name)) = Ok m /\
    index_json (MkIndex [MkDescriptor ImageManifest_ (sha256_of m) (size_of m)
                           (Some (MkPlatform (os c) (architecture c)))
                           (Some (annotations_of name))]) = Ok idx /\
    docker_json [MkDocker (blob_path (digest cfg)) [name] (entry_path <$> blobs)] = Ok docker /\
    exists ss, Forall2 (fun l s => file_open l.1 = Ok s) ls ss /\ blobs = blob <$> ss /\
      descs = snd <$> layer_digests_of ls ss.

Lemma build_complete (c : C) (name : string) (mt : MediaType) (ls : list (string * string)) (t t' : T) :
  build (MkBuilder [(c, name, mt)] ls) t = (Ok tt, t') ->
  complete_archive c name mt ls (archive t) (archive t').
Proof.
  unfold build. rewrite decide_False by (simpl; lia). simpl configs. simpl layers.
  intros ([lds mfst] & t1 & Hls%layers_loop & Hrun)%mbind_ok.
  apply mbind_ok in Hrun as ([mds mfst'] & t2 & Hcfg & Hrun).
  cbn [foldM_M] in Hcfg. apply mbind_ok in Hcfg as ([mds1 mfst1] & t2' & Hcfg & [= -> -> ->]).
  destruct (add_config_blobs_ok _ _ _ _ _ _ _ _ _ _ Hcfg) as (cfg & m & Hc & Hm & Ha & -> & ->).
  apply lift_bind_ok in Hrun as (idx & Hidx%context_ok & Hrun).
  apply mbind_ok in Hrun as ([] & t3 & Ha3%append_entry_ok & Hrun).
  apply lift_bind_ok in Hrun as (layout & Hlay%context_ok & Hrun).
  apply mbind_ok in Hrun as ([] & t4 & Ha4%append_entry_ok & Hrun).
  apply lift_bind_ok in Hrun as (docker & Hdock%context_ok & Hrun).
  apply lift_bind_ok in Hrun as (u & _ & Hrun).
  apply mbind_ok in Hrun as ([] & t5 & Ha5%append_ok & Hfin%finish_ok).
  destruct Hls as (ss & Ht & Hss & Hlds & Hd & Htags). simpl in *. subst lds. apply Forall2_length in Hss as Hlen.
  destruct (layer_digests_keys ls ss Hlen) as (Hnd & Hkd & Hkeys).
  assert (desc_digest <$> (layer_digests_of ls ss).*2 = (layer_digests_of ls ss).*1) as Hdd.
  { rewrite <- list_fmap_compose. apply list_fmap_ext. intros i kd Hi. simpl.
    by rewrite (Forall_lookup_1 _ _ _ _ Hkd Hi). }
  exists (blob <$> ss), (layer_digests_of ls ss).*2, cfg, m, idx, layout, docker. rewrite Hdd. split_and!; try done.
  - rewrite Hfin, Ha5, Ha4, Ha3, Ha, Ht. by rewrite <- !app_assoc.
  - by apply Forall_fmap, Forall_true.
  - intros l [i Hi]%list_elem_of_lookup. destruct (Forall2_lookup_l _ _ _ _ _ Hss Hi) as (s & Hs & Hf).
    exists s. split; [done|]. apply Hkeys. by eapply list_elem_of_fmap_2, list_elem_of_lookup_2.
  - intros d Hdin. apply (list_elem_of_fmap_2 desc_digest) in Hdin. rewrite Hdd in Hdin.
    apply Hkeys, list_elem_of_fmap in Hdin as (s & -> & Hs). exists s. split; [done|]. by apply list_elem_of_fmap_2.
  - by rewrite <- Hdock, Htags, Hd.
  - by exists ss.
Qed.
End archive.

(** ** Files for the examples *)

(** The digest of a text is its length, and its name is its contents. *)
#[export] Instance demo_lib : OciLib := {
  digest s := pretty (String.length s);
  try_digest p := Ok (pretty (String.length p));
  metadata_len p := Ok (size_of p);
  file_open p := Ok p;
  digest_try_from := Ok;
  set_path _ := Ok tt;
  manifest_json m := Ok ("manifest of " +:+ join "," (desc_digest <$> manifest_layers m));
  index_json i := Ok ("index of " +:+ join "," (desc_digest <$> index_manifests i));
  layout_json l := Ok (image_layout_version l);
  docker_json ds := Ok (join "," (docker_config <$> ds));
}.

#[export] Instance demo_writer : TarWriter (list Entry) := {
  tar_append e t := (Ok tt, t ++ [e]);
  tar_finish := mret tt;
  archive t := t;
}.

#[export] Instance demo_tar_laws : TarLaws (list Entry).
Proof. split; simpl; [by intros e t t' [= <-]|by intros t t' [= <-]]. Qed.

#[export] Instance demo_stable : StableFiles.
Proof. split; simpl; by intros; simplify_eq. Qed.

#[export] Instance demo_config : OciConfig string := {
  os _ := "wasip1";
  architecture _ := "wasm";
  config_layers _ := [];
  config_to_string := Ok;
}.

Definition demo_builder : Builder string :=
  add_config "{}" "ghcr.io/app:latest" ImageConfig
    (add_layer "abc" (add_layer_with_media_type "main" WASM_LAYER_MEDIA_TYPE (add_layer "abc" empty_builder))).

Example demo_archive :
  entry_path <$> (build (T := list Entry) demo_builder []).2 =
  ["blobs/sha256/3"; "blobs/sha256/4"; "blobs/sha256/3"; "blobs/sha256/2"; "blobs/sha256/29";
   "index.json"; "oci-layout"; "manifest.json"]%string.
Proof. by vm_compute. Qed.

(** The tag of a name whose registry has a port is not its tag. *)
Example ref_name_with_port :
  annotations_of "localhost:5000/app:latest" !! "org.opencontainers.image.ref.name"%string =
  Some "5000/app"%string.
Proof. by vm_compute. Qed.

(** ** Properties *)

(** C19: the archive of a builder with one configuration is complete and
    content-addressed: it holds the blobs of the layers, of the configuration
    and of the manifest, each under the digest and with the size of its data,
    then the index, the layout and the docker manifest.  The manifest has
    exactly the layers that were added, each digest once and in the order of the
    first layers that have them, and refers to the configuration; the index
    refers to the manifest. *)
Theorem archive_is_complete {C T : Type} `{!OciConfig C} `{!OciLib} `{!TarWriter T} `{!TarLaws T}
    `{!StableFiles} (c : C) (name : string) (mt : MediaType) (ls : list (string * string)) (t t' : T) :
  build (MkBuilder [(c, name, mt)] ls) t = (Ok tt, t') ->
  exists blobs descs cfg m idx layout docker,
    archive t' = archive t ++ blobs ++ blob cfg :: blob m ::
      MkEntry "index.json" file_mode (size_of idx) idx ::
      MkEntry "oci-layout" file_mode (size_of layout) layout ::
      [MkEntry "manifest.json" file_mode (size_of docker) docker] /\
    Forall (fun e => e = blob (entry_data e)) blobs /\
    NoDup (desc_digest <$> descs) /\
    (forall l, l ∈ ls -> exists s, file_open l.1 = Ok s /\ sha256_of s ∈ desc_digest <$> descs) /\
    (forall d, d ∈ descs -> exists s, desc_digest d = sha256_of s /\ blob s ∈ blobs) /\
    config_to_string c = Ok cfg /\
    manifest_json (MkManifest descs (MkDescriptor mt (sha256_of cfg) (size_of cfg) None None)
                     (annotations_of name)) = Ok m /\
    index_json (MkIndex [MkDescriptor ImageManifest_ (sha256_of m) (size_of m)
                           (Some (MkPlatform (os c) (architecture c)))
                           (Some (annotations_of name))]) = Ok idx /\
    docker_json [MkDocker (blob_path (digest cfg)) [name] (entry_path <$> blobs)] = Ok docker /\
    exists ss, Forall2 (fun l s => file_open l.1 = Ok s) ls ss /\ blobs = blob <$> ss /\
      descs = snd <$> layer_digests_of ls ss.
Proof. apply build_complete. Qed.

Lemma archive_is_complete_witness :
  exists descs, manifest_json (MkManifest descs (MkDescriptor ImageConfig "sha256:2" 2 None None)
                  (annotations_of "ghcr.io/app:latest")) = Ok "manifest of sha256:3,sha256:4"%string /\
    NoDup (desc_digest <$> descs).
Proof.
  destruct (archive_is_complete (T := list Entry) "{}"%string "ghcr.io/app:latest" ImageConfig
              (layers demo_builder) [] (build demo_builder []).2)
    as (blobs & descs & cfg & m & idx & layout & docker & Ha & _ & Hnd & _ & _ & Hc & Hm & _).
  { vm_compute. reflexivity. }
  injection Hc as <-. exists descs. split; [|exact Hnd].
  assert (m = "manifest of sha256:3,sha256:4"%string) as Hmd; [|by rewrite <- Hmd].
  assert (((build (T := list Entry) demo_builder []).2 !! 4) = Some (blob m)) as Hl.
  { change ((build (T := list Entry) demo_builder []).2) with (archive (build (T := list Entry) demo_builder []).2).
    rewrite Ha. assert (length blobs = 3) as Hb; [|by do 4 (destruct blobs as [|? blobs]; try done)].
    apply (f_equal length) in Ha. rewrite !length_app in Ha.
    assert (length (archive (build (T := list Entry) demo_builder []).2) = 8) as H8 by (by vm_compute).
    fold demo_builder in Ha. change (MkBuilder _ _) with demo_builder in Ha. rewrite H8 in Ha.
    cbn [length archive demo_writer] in Ha. lia. }
  vm_compute in Hl. congruence.
Defined.
