(* ===== verification/OciTarBin.v ===== *)
(** * OciTarBin: [crates/oci-tar-builder/src/bin.rs]

    The command over the builder of [OciTar.v]: it reads its flags, collects
    the layers of an image or of a Wasm artifact, and writes the archive to a
    file.  The file system, the terminal and [oci_wasm] are the class
    [BinLib]; the JSON of an [ImageConfiguration] is [ConfigJson]. *)

From S2P Require Import Prelude RustStr OciTar.
From Stdlib Require Import Ascii.

(** [struct Args] *)
Record Args := MkArgs {
  out_path : option string;
  arg_name : string;
  tag : string;
  repo : string;
  module : list string;
  layer : list string;
  components : option string;
  as_artifact : bool;
}.

(** [oci_spec]'s [ImageConfiguration] and its [Config], the fields set here *)
Record ImageConfiguration := MkImageConfiguration {
  entrypoint : list string;
  labels : gmap string string;
  image_os : string;
  image_architecture : string;
  diff_ids : list string;
}.

(** [to_string_pretty] *)
Class ConfigJson := { image_json : ImageConfiguration -> outcome string string }.

Definition unwrap {E A} (r : outcome E A) : outcome E A := match r with Err _ => Panic | _ => r end.

(** [impl OciConfig for ImageConfiguration] of [lib.rs] *)
#[export] Instance image_configuration `{!ConfigJson} : OciConfig ImageConfiguration := {
  os := image_os;
  architecture := image_architecture;
  config_layers := diff_ids;
  config_to_string c := unwrap (image_json c);
}.

(** [oci_wasm]: a [WasmConfig], its JSON, and the media types *)
Class WasmConfigLib (WC : Type) := {
  wasm_os : WC -> string;
  wasm_layer_digests : WC -> list string;
  wasm_json : WC -> outcome string string;
  WASM_ARCHITECTURE : string;
  WASM_MANIFEST_CONFIG_MEDIA_TYPE : string;
  WASM_ARTIFACT_LAYER_MEDIA_TYPE : string;
}.

(** [impl OciConfig for WasmConfig] of [lib.rs] *)
#[export] Instance wasm_config {WC} `{!WasmConfigLib WC} : OciConfig WC := {
  os := wasm_os;
  architecture _ := WASM_ARCHITECTURE;
  config_layers := wasm_layer_digests;
  config_to_string c := unwrap (wasm_json c);
}.

(** [std::env], [std::fs] and [println!]; [WasmConfig::from_component] and
    [from_module].  [create_file] gives the writer of a file and
    [close_file] is its end; an entry of a directory may be an error. *)
Class BinLib (W T WC : Type) := {
  current_dir : W -> outcome string string;
  create_dir_all : string -> M W string unit;
  read_dir : string -> M W string (list (outcome string string));
  create_file : string -> M W string T;
  close_file : string -> T -> W -> W;
  remove_file : string -> M W string unit;
  println : string -> W -> W;
  from_component : string -> M W string WC;
  from_module : string -> M W string WC;
}.

Section bin.
Context `{!OciLib} `{!ConfigJson} {W T WC : Type} `{!TarWriter T} `{!WasmConfigLib WC} `{!BinLib W T WC}.

Definition say {E} (s : string) : M W E unit := mput (println s).

Definition munwrap {E A} (m : M W E A) : M W E A := fun w => let '(r, w') := m w in (unwrap r, w').

(** The end of both commands: the archive is written to [f], and removed when
    that failed. *)
Definition write_archive {C} `{!OciConfig C} (builder : Builder C) (out_dir clean : string) (f : T)
    : M W string unit := fun w =>
  let '(r, t) := build builder f in
  let w := close_file out_dir t w in
  match r with
  | Ok _ => say ("Successfully created oci tar file " +:+ out_dir) w
  | Err e =>
      (let! _ := say ("Building oci tar file " +:+ out_dir +:+ " failed: " +:+ e) in
       mmap_err (fun _ => clean) (remove_file out_dir)) w
  | Panic => (Panic, w)
  end.

(** *** [generate_wasm_artifact] *)

Definition artifact_source (args : Args) : M W string (WC * string) :=
  match components args with
  | Some path =>
      let! paths := read_dir path in
      let! _ := if decide (length paths = 1) then mret tt
                else say ("Currently only supports a single component file " +:+ debug_str path) in
      let! conf := from_component path in
      mret (conf, path)
  | None =>
      match module args with
      | module_path :: _ => let! conf := from_module module_path in mret (conf, module_path)
      | [] => mpanic
      end
  end.

Definition generate_wasm_artifact (args : Args) (out_dir : string) : M W string unit :=
  let! _ := say "Generating wasm artifact" in
  let! source := artifact_source args in
  let '(conf, path) := source in
  let builder := add_config conf (repo args +:+ "/" +:+ arg_name args +:+ ":" +:+ tag args)
                   (Other WASM_MANIFEST_CONFIG_MEDIA_TYPE) empty_builder in
  let builder := add_layer_with_media_type path WASM_ARTIFACT_LAYER_MEDIA_TYPE builder in
  let! _ := say ("Creating oci tar file " +:+ out_dir) in
  let! f := create_file out_dir in
  write_archive builder out_dir "Failed to clean up oci tar file on error" f.

(** *** [generate_wasi_image] *)

Definition ImageBuilder : Type := Builder ImageConfiguration * list string.

(** [add_layer_with_media_type] and the push on [layer_digests] *)
Definition push_layer (acc : ImageBuilder) (path mt : string) : outcome string ImageBuilder :=
  let? d := context "failed to calculate digest for module" (try_digest path) in
  Ok (add_layer_with_media_type path mt acc.1, acc.2 ++ [d]).

Definition add_module (acc : ImageBuilder) (module_path : string) : M W string ImageBuilder :=
  mlift (push_layer acc module_path WASM_LAYER_MEDIA_TYPE).

(** The type and the path of a [--layer]: the first and the last part at [=] *)
Definition layer_type (layer_config : string) : string := default EmptyString (head (split "=" layer_config)).
Definition layer_path (layer_config : string) : string := default EmptyString (last (split "=" layer_config)).

Definition add_typed_layer (acc : ImageBuilder) (layer_config : string) : M W string ImageBuilder :=
  mlift (push_layer acc (layer_path layer_config) (layer_type layer_config)).

Definition is_wasm_file (path : string) : bool := bool_decide (default EmptyString (extension path) = "wasm").

Definition add_component (acc : ImageBuilder) (path : outcome string string) : M W string ImageBuilder :=
  let! path := mlift path in
  if is_wasm_file path then add_module acc path
  else
    let! _ := say ("Skipping Unknown file type: " +:+ debug_str path +:+ " with extension " +:+
                   debug_str (default EmptyString (extension path))) in
    mret acc.

Definition add_components (acc : ImageBuilder) (components : option string) : M W string ImageBuilder :=
  match components with
  | Some components_path =>
      let! paths := read_dir components_path in
      foldM_M add_component acc paths
  | None => mret acc
  end.

(** The configuration of the image: its label makes it unique. *)
Definition image_config (entry_point : string) (layer_digests : list string) : ImageConfiguration :=
  MkImageConfiguration [entry_point]
    {["containerd.runwasi.layers"%string := digest (join EmptyString layer_digests)]} "wasip1" "wasm" [].

Definition generate_wasi_image (args : Args) (out_dir : string) : M W string unit :=
  let! _ := say "Generating wasm oci image" in
  let entry_point := arg_name args +:+ ".wasm" in
  let! acc := foldM_M add_module (empty_builder, []) (module args) in
  let! acc := foldM_M add_typed_layer acc (layer args) in
  let! acc := add_components acc (components args) in
  let builder := add_config (image_config entry_point acc.2)
                   (repo args +:+ "/" +:+ arg_name args +:+ ":" +:+ tag args) ImageConfig acc.1 in
  let! _ := say ("Creating oci tar file " +:+ out_dir) in
  let! f := munwrap (create_file out_dir) in
  write_archive builder out_dir "Failed to remove temporary file" f.

(** *** [main] *)

Definition output (args : Args) : M W string string :=
  match out_path args with
  | Some out_path =>
      match path_parent out_path with
      | Some parent => let! _ := munwrap (create_dir_all parent) in mret out_path
      | None => mpanic
      end
  | None => fun w => (unwrap (current_dir w), w)
  end.

Definition main (args : Args) : M W string unit :=
  let! out_dir := output args in
  match module args, components args with
  | _ :: _, Some _ => say "Mutually exclusive flags: module and components"
  | [], None => say "Must supply module or components"
  | _, _ =>
      munwrap (if as_artifact args then generate_wasm_artifact args out_dir
               else generate_wasi_image args out_dir)
  end.
End bin.

(** ** Lemmas *)

(** What the documentation of [std::fs] states: a created file is empty; what
    was written to a file is in it until it is removed. *)
Class BinLaws (W T WC : Type) `{!TarWriter T} `{!BinLib W T WC} := {
  stored : string -> W -> option (list Entry);
  created_empty p w f w' : create_file p w = (Ok f, w') -> archive f = [];
  stored_close p t w : stored p (close_file p t w) = Some (archive t);
  stored_println p s w : stored p (println s w) = stored p w;
  stored_removed p w w' : remove_file p w = (Ok tt, w') -> stored p w' = None;
}.

(** A directory is not a file: it cannot be written, and what [oci_wasm] reads
    is not a component. *)
Class DirectoryLaws (W T WC : Type) `{!BinLib W T WC} : Prop := {
  current_dir_is_directory w d : current_dir w = Ok d -> forall w', is_ok (create_file d w').1 = false;
  directory_is_no_component p w l w' : read_dir p w = (Ok l, w') -> forall w2, is_ok (from_component p w2).1 = false;
}.

Section lemmas.
Context `{!OciLib} `{!ConfigJson} {W T WC : Type} `{!TarWriter T} `{!WasmConfigLib WC} `{!BinLib W T WC}.

(** The builder has the layers [files], whose digests were collected. *)
Definition collected (files : list (string * string)) (acc : ImageBuilder) : Prop :=
  acc.1 = MkBuilder [] files /\ Forall2 (fun f d => try_digest f.1 = Ok d) files acc.2.

Lemma push_layer_ok files acc path mt acc' :
  collected files acc -> push_layer acc path mt = Ok acc' -> collected (files ++ [(path, mt)]) acc'.
Proof.
  intros [Hb Hd] Hp. unfold push_layer in Hp.
  destruct (context _ _) as [d|?|] eqn:Hc; simplify_eq/=. apply context_ok in Hc. split; simpl.
  - by rewrite Hb.
  - apply Forall2_app; [done|]. by repeat constructor.
Qed.

(** A loop that pushes one layer per element *)
Lemma push_loop {A} (f : A -> string * string) (step : ImageBuilder -> A -> M W string ImageBuilder)
    files l acc w acc' w' :
  (forall acc x, step acc x = mlift (push_layer acc (f x).1 (f x).2)) ->
  collected files acc -> foldM_M step acc l w = (Ok acc', w') -> collected (files ++ (f <$> l)) acc'.
Proof.
  intros Hstep Hc Hrun. eapply (foldM_M_ok _ (fun seen acc _ => collected (files ++ (f <$> seen)) acc));
    [|..|exact Hrun].
  - intros seen x b w1 b' w2 Hb Hx. rewrite Hstep in Hx. injection Hx as Hx <-.
    rewrite fmap_app, app_assoc. simpl. rewrite (surjective_pairing (f x)). by eapply push_layer_ok.
  - simpl. by rewrite app_nil_r.
Qed.

Definition wasm_file (p : string) : string * string := (p, WASM_LAYER_MEDIA_TYPE).
Definition typed_layer (l : string) : string * string := (layer_path l, layer_type l).

Lemma component_loop files paths acc w acc' w' :
  collected files acc -> foldM_M add_component acc paths w = (Ok acc', w') ->
  exists ps, paths = Ok <$> ps /\ collected (files ++ (wasm_file <$> filter (fun p => is_wasm_file p = true) ps)) acc'.
Proof.
  intros Hc Hrun. eapply (foldM_M_ok _ (fun seen acc _ => exists ps, seen = Ok <$> ps /\
    collected (files ++ (wasm_file <$> filter (fun p => is_wasm_file p = true) ps)) acc)); [|..|exact Hrun].
  - intros seen x b w1 b' w2 (ps & -> & Hb) Hx. unfold add_component in Hx.
    apply mbind_ok in Hx as (p & w3 & [= -> <-] & Hx). exists (ps ++ [p]). rewrite fmap_app.
    split; [done|]. rewrite filter_app, fmap_app, app_assoc. rewrite filter_cons.
    destruct (is_wasm_file p); simpl.
    + injection Hx as Hx <-. by eapply push_layer_ok.
    + apply mbind_ok in Hx as ([] & w4 & _ & [= <- <-]). by rewrite app_nil_r.
  - exists []. simpl. by rewrite app_nil_r.
Qed.

Lemma components_ok files comps acc w acc' w' :
  collected files acc -> add_components acc comps w = (Ok acc', w') ->
  exists ps, match comps with
             | None => ps = []
             | Some dir => exists w1 w2, read_dir dir w1 = (Ok (Ok <$> ps), w2)
             end /\
    collected (files ++ (wasm_file <$> filter (fun p => is_wasm_file p = true) ps)) acc'.
Proof.
  intros Hc Hrun. destruct comps as [dir|]; simpl in Hrun.
  - apply mbind_ok in Hrun as (paths & w1 & Hr & Hrun).
    destruct (component_loop _ _ _ _ _ _ Hc Hrun) as (ps & -> & Hps). eauto 10.
  - injection Hrun as <- <-. exists []. simpl. by rewrite app_nil_r.
Qed.

Lemma munwrap_ok {E A} (m : M W E A) w a w' : munwrap m w = (Ok a, w') -> m w = (Ok a, w').
Proof. unfold munwrap. destruct (m w) as [[?|?|] ?]; naive_solver. Qed.

Lemma munwrap_panics {E A} (m : M W E A) w : is_ok (m w).1 = false -> (munwrap m w).1 = Panic.
Proof. unfold munwrap. by destruct (m w) as [[?|?|] ?]. Qed.

(** A sequence does not succeed if its continuation never does. *)
Lemma mbind_not_ok {E A B} (m : M W E A) (k : A -> M W E B) w :
  (forall a w', m w = (Ok a, w') -> is_ok (k a w').1 = false) -> is_ok (mbind m k w).1 = false.
Proof. unfold mbind. destruct (m w) as [[a|?|] w']; simpl; auto. Qed.

Lemma write_archive_ok `{!TarLaws T} `{!BinLaws W T WC} `{!StableFiles} {C} `{!OciConfig C} (c : C) name mt ls
    out clean f w w' :
  archive f = [] -> write_archive (MkBuilder [(c, name, mt)] ls) out clean f w = (Ok tt, w') ->
  stored out w' = None \/
  exists new, stored out w' = Some new /\ complete_archive c name mt ls [] new.
Proof.
  intros Hf. unfold write_archive. destruct (build _ f) as [[[]|e|] t] eqn:Hb; [|..|done].
  - intros [= <-]. right. exists (archive t). rewrite stored_println, stored_close. split; [done|].
    rewrite <- Hf. by apply build_complete.
  - intros Hr. left. apply mbind_ok in Hr as ([] & w1 & _ & Hr). unfold mmap_err in Hr.
    destruct (remove_file out w1) as [[[]|?|] ?] eqn:Hrm; simplify_eq/=. by eapply stored_removed.
Qed.
End lemmas.

(** ** A file system for the examples: the archives by path *)

Record DemoDisk := MkDemoDisk { disk : gmap string (list Entry); lines : list string }.

#[export] Instance demo_config_json : ConfigJson := {
  image_json c := Ok (join "," (entrypoint c) +:+ default EmptyString (labels c !! "containerd.runwasi.layers"%string));
}.

#[export] Instance demo_wasm_config : WasmConfigLib string := {
  wasm_os _ := "wasip1";
  wasm_layer_digests _ := [];
  wasm_json := Ok;
  WASM_ARCHITECTURE := "wasm";
  WASM_MANIFEST_CONFIG_MEDIA_TYPE := "application/vnd.wasm.config.v0+json";
  WASM_ARTIFACT_LAYER_MEDIA_TYPE := "application/wasm";
}.

#[export] Instance demo_bin_lib : BinLib DemoDisk (list Entry) string := {
  current_dir _ := Ok "/tmp"%string;
  create_dir_all _ := mret tt;
  read_dir p := if decide (p = "comps"%string) then mret [Ok "comps/b.wasm"; Ok "comps/README"]%string
                else mthrow "not a directory"%string;
  create_file p := if decide (p = "/tmp"%string) then mthrow "is a directory"%string else mret [];
  close_file p t w := MkDemoDisk (<[p := t]> (disk w)) (lines w);
  remove_file p := mput (fun w => MkDemoDisk (base.delete p (disk w)) (lines w));
  println s w := MkDemoDisk (disk w) (lines w ++ [s]);
  from_component p := if decide (p = "comps"%string) then mthrow "is a directory"%string else mret "{}"%string;
  from_module _ := mret "{}"%string;
}.

#[export] Instance demo_bin_laws : BinLaws DemoDisk (list Entry) string.
Proof.
  refine {| stored p w := disk w !! p |}.
  - intros p w f w'. simpl. by destruct (decide _); intros [= <- _].
  - intros p t w. apply lookup_insert_eq.
  - done.
  - intros p w w' [= <-]. apply lookup_delete_eq.
Defined.

#[export] Instance demo_directories : DirectoryLaws DemoDisk (list Entry) string.
Proof.
  split.
  - by intros w d [= <-] w'.
  - intros p w l w'. simpl. by destruct (decide (p = "comps"%string)).
Qed.

Definition demo_args (out : option string) (artifact : bool) : Args :=
  MkArgs out "app" "latest" "ghcr.io" [] ["text/plain=a=README"%string] (Some "comps"%string) artifact.

Example demo_image :
  main (demo_args (Some "out/app.tar"%string) false) (MkDemoDisk ∅ []) =
  (Ok tt, MkDemoDisk (disk (main (demo_args (Some "out/app.tar"%string) false) (MkDemoDisk ∅ [])).2)
    ["Generating wasm oci image"; "Skipping Unknown file type: " +:+ debug_str "comps/README" +:+
       " with extension " +:+ debug_str ""; "Creating oci tar file out/app.tar";
     "Successfully created oci tar file out/app.tar"]%string).
Proof. by vm_compute. Qed.

(** ** Properties *)

(** C21: the image that the command writes is complete.  Its layers are the
    modules, the typed layers and the Wasm files of the components directory,
    in that order; the label of its configuration is the digest of the digests
    of exactly these files; and the file holds the complete archive of them,
    unless writing it failed, and then there is no file. *)
Theorem wasi_image_is_complete `{!OciLib} `{!ConfigJson} {W T WC : Type} `{!TarWriter T} `{!WasmConfigLib WC}
    `{!BinLib W T WC} `{!TarLaws T} `{!BinLaws W T WC} `{!StableFiles} (args : Args) (out_dir : string) (w w' : W) :
  generate_wasi_image args out_dir w = (Ok tt, w') ->
  exists ps digests,
    match components args with
    | None => ps = []
    | Some dir => exists w1 w2, read_dir dir w1 = (Ok (Ok <$> ps), w2)
    end /\
    let files := (wasm_file <$> module args) ++ (typed_layer <$> layer args) ++
                 (wasm_file <$> filter (fun p => is_wasm_file p = true) ps) in
    Forall2 (fun f d => try_digest f.1 = Ok d) files digests /\
    (stored out_dir w' = None \/
     exists new, stored out_dir w' = Some new /\
       complete_archive (image_config (arg_name args +:+ ".wasm") digests)
         (repo args +:+ "/" +:+ arg_name args +:+ ":" +:+ tag args) ImageConfig files [] new).
Proof.
  unfold generate_wasi_image. intros (u & w1 & _ & Hrun)%mbind_ok.
  apply mbind_ok in Hrun as (acc1 & w2 & Hm & Hrun). apply mbind_ok in Hrun as (acc2 & w3 & Hl & Hrun).
  apply mbind_ok in Hrun as ([b ds] & w4 & Hcomp & Hrun). apply mbind_ok in Hrun as (u' & w5 & _ & Hrun).
  apply mbind_ok in Hrun as (f & w6 & Hf%munwrap_ok%created_empty & Hrun).
  assert (collected [] (empty_builder, [])) as Hnil by (split; [done|constructor]).
  apply (push_loop wasm_file) with (files := []) in Hm; [|done|done].
  apply (push_loop typed_layer _ _ _ _ _ _ _ (fun _ _ => eq_refl) Hm) in Hl.
  destruct (components_ok _ _ _ _ _ _ Hl Hcomp) as (ps & Hps & Hb & Hd). simpl in Hb. subst b.
  exists ps, ds. split; [done|]. simpl. rewrite app_assoc. split; [exact Hd|].
  eapply write_archive_ok; [exact Hf|exact Hrun].
Qed.

Lemma wasi_image_is_complete_witness :
  exists digests, Forall2 (fun f d => try_digest f.1 = Ok d)
    (("README", "text/plain") :: [("comps/b.wasm", WASM_LAYER_MEDIA_TYPE)])%string digests.
Proof.
  destruct (wasi_image_is_complete (WC := string) (demo_args None false) "app.tar" (MkDemoDisk ∅ [])
              (generate_wasi_image (demo_args None false) "app.tar" (MkDemoDisk ∅ [])).2)
    as (ps & digests & (w1 & w2 & Hps) & Hd & _); [by vm_compute|].
  exists digests.
  assert (ps = ["comps/b.wasm"; "comps/README"]%string) as ->; [|exact Hd].
  cbn in Hps. destruct ps as [|p [|p' [|]]]; injection Hps; by intros; subst.
Defined.

(** Without [--out-path] the command always panics, since it tries to write
    the archive over the current directory; and so does [--as-artifact] with
    [--components], which it reads both as a directory and as a component. *)
Theorem main_cannot_write_here `{!OciLib} `{!ConfigJson} {W T WC : Type} `{!TarWriter T} `{!WasmConfigLib WC}
    `{!BinLib W T WC} `{!DirectoryLaws W T WC} (args : Args) (w : W) :
  (module args = [] <-> is_Some (components args)) ->
  out_path args = None \/ (as_artifact args = true /\ is_Some (components args)) ->
  (main args w).1 = Panic.
Proof.
  intros Hflags Hbad. unfold main.
  assert (forall out_dir w', output args w = (Ok out_dir, w') ->
    is_ok ((if as_artifact args then generate_wasm_artifact args out_dir
            else generate_wasi_image args out_dir) w').1 = false) as Hgen.
  { intros out_dir w' Ho.
    assert (out_path args = None -> forall w2, is_ok (create_file out_dir w2).1 = false) as Hno.
    { intros Hn. unfold output in Ho. rewrite Hn in Ho. destruct (current_dir w) as [d|?|] eqn:Hd; simplify_eq/=.
      by eapply current_dir_is_directory. }
    destruct (as_artifact args) eqn:Ha.
    - apply mbind_not_ok. intros _ w1 _. apply mbind_not_ok. intros [conf path] w2 Hs.
      apply mbind_not_ok. intros _ w3 _. apply mbind_not_ok. intros f w4 Hf.
      destruct Hbad as [Hn|[_ [dir Hdir]]]; [by specialize (Hno Hn w3); rewrite Hf in Hno|].
      unfold artifact_source in Hs. rewrite Hdir in Hs.
      apply mbind_ok in Hs as (paths & w5 & Hread & Hs). apply mbind_ok in Hs as (u & w6 & _ & Hs).
      apply mbind_ok in Hs as (conf' & w7 & Hconf & _).
      pose proof (directory_is_no_component _ _ _ _ Hread w6) as Hc. by rewrite Hconf in Hc.
    - destruct Hbad as [Hn|[Ha' _]]; [|done].
      do 4 (apply mbind_not_ok; intros ? ? _). apply mbind_not_ok. intros _ w3 _.
      apply mbind_not_ok. intros f w4 Hf%munwrap_ok. specialize (Hno Hn w3). by rewrite Hf in Hno. }
  unfold mbind at 1. destruct (output args w) as [[out_dir|e|] w'] eqn:Ho; [| |done].
  - specialize (Hgen out_dir w' eq_refl).
    destruct (module args) as [|m ms], (components args) as [c|]; try (by apply munwrap_panics).
    + by destruct (proj1 Hflags eq_refl).
    + by specialize (proj2 Hflags (ex_intro _ c eq_refl)).
  - exfalso. unfold output in Ho. destruct (out_path args) as [p|]; [destruct (path_parent p)|]; simpl in Ho.
    + unfold mbind, munwrap in Ho. by destruct (create_dir_all _ w) as [[]].
    + done.
    + by destruct (current_dir w).
Qed.

Lemma main_cannot_write_here_witness :
  (main (demo_args None false) (MkDemoDisk ∅ [])).1 = Panic /\
  (main (demo_args (Some "out/app.tar"%string) true) (MkDemoDisk ∅ [])).1 = Panic.
Proof.
  split; apply (main_cannot_write_here (WC := string)); simpl; try by split; eauto.
  - by left.
  - right. by split; eauto.
Defined.
