(* ===== verification/OciHelpers.v ===== *)
(** * OciHelpers: the module [oci_helpers] of
    [crates/containerd-shim-wasm/src/testing.rs]

    What the tests ask of containerd through its command [ctr]: an image made
    with the builder of [OciTar.v] is imported, a container is created on it,
    and both are removed again.  Files, processes and the clock are the class
    [CtrHost]; what a process prints is its bytes. *)

From S2P Require Import Prelude Async RustStr Store OciTar OciTarBin.
From Stdlib Require Import Ascii.

(** [tempfile], [std::fs], the writer of an archive, what the builder of
    archives reads, [std::process] and [Instant::now] in nanoseconds.
    [spawn_wait] is [spawn()?.wait()?.success()] and [output] the [stdout] of
    [output()?]; [piped c g] runs [c] with its output in the input of [g] and
    gives what [g] printed. *)
Class CtrHost (W T : Type) := {
  tempdir : M W string string;
  drop_tempdir : string -> W -> W;
  write : string -> string -> M W string unit;
  read : string -> M W string string;
  remove_file : string -> M W string unit;
  create_tar : string -> M W string T;
  close_tar : string -> T -> W -> W;
  oci_lib : W -> OciLib;
  spawn_wait : list string -> M W string bool;
  output : list string -> M W string string;
  piped : list string -> list string -> M W string string;
  from_utf8 : string -> outcome string string;
  instant : W -> Z;
}.

Definition TEST_NAMESPACE : string := "runwasi-test".

(** [struct OCICleanup] and [struct ImageContent] *)
Record OCICleanup := MkCleanup { image_name : string; container_name : string }.
Record ImageContent := MkContent { content_bytes : string; content_media_type : string }.

(** [str::contains] *)
Fixpoint contains (p s : string) : bool :=
  starts_with p s || match s with String _ s' => contains p s' | EmptyString => false end.

Section helpers.
Context {W T : Type} `{!TarWriter T} `{!CtrHost W T} `{!ConfigJson}.

(** [Command::new("ctr").arg("-n").arg(TEST_NAMESPACE)] *)
Definition ctr (l : list string) : list string := "ctr" :: "-n" :: TEST_NAMESPACE :: l.

(** The status of a command that is to succeed *)
Definition run_ctr (l : list string) (failed : string) : M W string unit :=
  let! success := spawn_wait (ctr l) in
  if success : bool then mret tt else mthrow failed.

Definition clean_container (name : string) : M W string unit :=
  run_ctr ["c"; "rm"; name] "failed to clean container".

Definition create_container (name image : string) : M W string unit :=
  run_ctr ["c"; "create"; image; name] " failed to create container for image".

Definition remove_content (digest : string) : M W string unit :=
  run_ctr ["content"; "rm"; digest] "failed to remove content".

(** One layer of [import_image] *)
Definition add_content (dir : string) (acc : nat * Builder ImageConfiguration) (content : ImageContent)
    : M W string (nat * Builder ImageConfiguration) :=
  let '(i, builder) := acc in
  let path := path_join dir (pretty i +:+ ".wasm") in
  let! _ := write path (content_bytes content) in
  mret (S i, add_layer_with_media_type path (content_media_type content) builder).

Definition test_image : ImageConfiguration := MkImageConfiguration ["_start"] ∅ "wasip1" "wasm" [].

(** [File::create] and [builder.build(f)]; [f] is closed at its end. *)
Definition write_tar (builder : Builder ImageConfiguration) (img_path : string) : M W string unit :=
  let! f := create_tar img_path in
  fun w => let '(r, t) := @OciTar.build _ _ (oci_lib w) T _ builder f in (r, close_tar img_path t w).

(** A temporary directory lives as long as the function that made it. *)
Definition with_tempdir {A} (body : string -> M W string A) : M W string A :=
  let! dir := tempdir in
  fun w => let '(r, w') := body dir w in (r, drop_tempdir dir w').

Definition import_image (name : string) (wasm_content : list ImageContent) : M W string unit :=
  with_tempdir (fun dir =>
    let! acc := foldM_M (add_content dir) (0, empty_builder) wasm_content in
    let builder := add_config test_image name ImageConfig acc.2 in
    let img_path := path_join dir "img.tar" in
    let! _ := write_tar builder img_path in
    run_ctr ["image"; "import"; "--all-platforms"; img_path] " failed to import image").

(** The fields of a line are its parts at single spaces. *)
Definition sha_of_listing (stdout : string) : outcome string string :=
  match split " "%char (trim stdout) with
  | _ :: _ :: sha :: _ => Ok sha
  | _ => Err "failed to get image sha"%string
  end.

Definition get_image_sha (name : string) : M W string string :=
  let! out := piped (ctr ["i"; "ls"]) ["grep"; name] in
  let! stdout := mlift (from_utf8 out) in
  mlift (sha_of_listing stdout).

(** The first and the last part at [=], of [get_image_label] and [get_content_label] *)
Definition label_of (stdout : string) : string * string :=
  let label := split "="%char stdout in
  (trim (default EmptyString (head label)), trim (default EmptyString (last label))).

Definition get_image_label : M W string (string * string) :=
  let! out := piped (ctr ["i"; "ls"]) ["grep"; "-ohE"; "runwasi.io/precompiled/.*"] in
  let! stdout := mlift (from_utf8 out) in
  mret (label_of stdout).

Definition get_content_label : M W string (string * string) :=
  let! out := piped (ctr ["content"; "ls"])
                ["grep"; "-ohE"; "runwasi.io/precompiled/[[:alpha:]]*/[0-9]+=.*"] in
  let! stdout := mlift (from_utf8 out) in
  mret (label_of stdout).

(** Both [expect]s panic. *)
Definition image_exists (name : string) : M W string bool :=
  let! out := munwrap (output (ctr ["i"; "ls"; "--quiet"])) in
  let! stdout := munwrap (mlift (from_utf8 out)) in
  mret (contains name stdout).

(** [Duration::from_secs(60)] in nanoseconds *)
Definition removal_timeout : Z := (60 * 10 ^ 9)%Z.

(** One iteration of the loop: whether it is the last *)
Definition removal_round (content_sha : string) (start : Z) : M W string bool :=
  let! out := output (ctr ["content"; "get"; content_sha]) in
  if is_empty out then mret true
  else mget (fun w => bool_decide (removal_timeout < instant w - start)%Z).

Fixpoint removal_loop (rounds : nat) (content_sha : string) (start : Z) : async W string unit :=
  match rounds with
  | O => await (fun _ => None)
  | S rounds' =>
      let* finished := alift (removal_round content_sha start) in
      if finished : bool then aret tt else removal_loop rounds' content_sha start
  end.

(** [rounds] are the iterations of the loop; after them it is pending. *)
Definition wait_for_content_removal (rounds : nat) (content_sha : string) : async W string unit :=
  let* start := atomic (fun w => (instant w, w)) in
  removal_loop rounds content_sha start.

(** An image without a digest does not exist. *)
Definition clean_image (rounds : nat) (name : string) : async W string unit :=
  let* sha := atry (alift (get_image_sha name)) in
  match sha with
  | Ok image_sha =>
      let* _ := alift (run_ctr ["i"; "rm"; name] "failed to clean image") in
      wait_for_content_removal rounds image_sha
  | _ => aret tt
  end.

(** [.unwrap()] of a future *)
Definition aunwrap {A} (p : async W string A) : async W string A :=
  let* r := atry p in match r with Ok a => aret a | _ => apanic end.

(** [Drop for OCICleanup] *)
Definition drop_cleanup (rounds : nat) (self : OCICleanup) : async W string unit :=
  let* _ := aunwrap (alift (clean_container (container_name self))) in
  aunwrap (clean_image rounds (image_name self)).
End helpers.

(** ** The laws of the host *)

(** Writing a file, or creating the file of an archive, leaves the others
    alone; the archive is stored when its file is closed; the builder reads
    what the files hold. *)
Class CtrLaws (W T : Type) `{!TarWriter T} `{!CtrHost W T} := {
  file : string -> W -> option string;
  stored : string -> W -> option (list Entry);
  write_file p s w w' : write p s w = (Ok tt, w') ->
    file p w' = Some s /\ forall q, q <> p -> file q w' = file q w;
  create_file_keeps p w t w' : create_tar p w = (Ok t, w') ->
    archive t = [] /\ forall q, q <> p -> file q w' = file q w;
  stored_closed p t w : stored p (close_tar p t w) = Some (archive t);
  lib_reads w p s : @file_open (oci_lib w) p = Ok s -> file p w = Some s;
  lib_stable w :: @StableFiles (oci_lib w);
}.

(** Commands leave the files of a test alone; a file that was removed is gone. *)
Class BundleLaws (W T : Type) `{!TarWriter T} `{!CtrHost W T} `{!CtrLaws W T} : Prop := {
  read_file p s w w' : read p w = (Ok s, w') -> file p w = Some s;
  removed_file p w w' : remove_file p w = (Ok tt, w') -> file p w' = None;
  spawn_keeps c q w : file q (spawn_wait c w).2 = file q w;
  output_keeps c q w : file q (output c w).2 = file q w;
}.

(** A process takes time. *)
Class TickLaw (W T : Type) `{!CtrHost W T} (tick : Z) : Prop := {
  tick_positive : (0 < tick)%Z;
  output_takes c w : (instant w + tick <= instant (output c w).2)%Z;
}.

(** ** Names of the layers *)

Lemma pretty_nat_no_slash (i : nat) : has_char slash (pretty i) = false.
Proof.
  unfold pretty, pretty_nat, pretty, pretty_N. case_decide; [done|]. by rewrite pretty_go_has_char.
Qed.

Lemma layer_name_relative (i : nat) : starts_with "/" (pretty i +:+ ".wasm") = false.
Proof.
  pose proof (pretty_nat_no_slash i) as Hs. destruct (pretty i) as [|a s]; [done|]. simpl in Hs.
  apply bool_decide_eq_false. intros [y Hy]. simpl in Hy.
  destruct (decide ("/"%char = a)) as [<-|]; [done|done].
Qed.

Lemma layer_paths_differ dir (i j : nat) :
  path_join dir (pretty i +:+ ".wasm") = path_join dir (pretty j +:+ ".wasm") -> i = j.
Proof.
  intros H. apply path_join_inj in H; [|apply layer_name_relative..].
  apply str_app_inj_l in H. by apply (inj pretty) in H.
Qed.

Lemma layer_path_not_image dir (i : nat) : path_join dir (pretty i +:+ ".wasm") <> path_join dir "img.tar".
Proof.
  intros H. apply path_join_inj in H; [|apply layer_name_relative|done].
  apply (f_equal last_char) in H. by rewrite last_char_app in H.
Qed.

(** ** The import of an image *)

Section import.
Context {W T : Type} `{!TarWriter T} `{!TarLaws T} `{!CtrHost W T} `{!CtrLaws W T} `{!ConfigJson}.
#[local] Arguments file {W T TarWriter CtrHost CtrLaws} : rename.

(** The files of the layers hold the contents, in order. *)
Definition layers_written (dir : string) (contents : list ImageContent)
    (acc : nat * Builder ImageConfiguration) (w : W) : Prop :=
  acc.1 = length contents /\ configs acc.2 = [] /\
  layers acc.2 = imap (fun i c => (path_join dir (pretty i +:+ ".wasm"), content_media_type c)) contents /\
  forall i c, contents !! i = Some c -> file (path_join dir (pretty i +:+ ".wasm")) w = Some (content_bytes c).

Lemma add_content_ok dir contents content acc w acc' w' :
  layers_written dir contents acc w -> add_content dir acc content w = (Ok acc', w') ->
  layers_written dir (contents ++ [content]) acc' w'.
Proof.
  destruct acc as [i b]. intros (Hi & Hc & Hl & Hf) Hrun. simpl in *. subst i.
  apply mbind_ok in Hrun as ([] & w1 & Hw & [= <- <-]). apply write_file in Hw as [Hnew Hold].
  split_and!; simpl.
  - rewrite length_app. simpl. lia.
  - done.
  - rewrite Hl, imap_app. simpl. by rewrite Nat.add_0_r.
  - intros j c Hj. destruct (decide (j = length contents)) as [->|Hne].
    + rewrite list_lookup_middle in Hj by done. by injection Hj as <-.
    + assert (j < length contents) by (apply lookup_lt_Some in Hj; rewrite length_app in Hj; simpl in Hj; lia).
      rewrite lookup_app_l in Hj by done. rewrite Hold; [by apply Hf|].
      by intros Heq%layer_paths_differ.
Qed.

(** What [ctr] is asked to import: the archive of the image at a path, with the
    contents as its layers. *)
Definition imports (name : string) (contents : list ImageContent) (w : W) (es : list Entry) : Prop :=
  exists ls, @complete_archive _ _ (oci_lib w) test_image name ImageConfig ls [] es /\
    Forall2 (fun l c => file l.1 w = Some (content_bytes c) /\ l.2 = content_media_type c) ls contents.

Lemma write_tar_ok (c : ImageConfiguration) name layers p w w' :
  write_tar (MkBuilder [(c, name, ImageConfig)] layers) p w = (Ok tt, w') ->
  exists w1 es, (forall q, q <> p -> file q w1 = file q w) /\ stored p w' = Some es /\
    @complete_archive _ _ (oci_lib w1) c name ImageConfig layers [] es.
Proof.
  unfold write_tar. intros (f & w1 & Hf & Hw)%mbind_ok. simpl in Hw.
  destruct (@OciTar.build _ _ _ _ _ _ f) as [r t] eqn:Hb. injection Hw as -> <-.
  apply create_file_keeps in Hf as [Hempty Hkeep]. exists w1, (archive t).
  split_and!; [done|apply stored_closed|]. rewrite <- Hempty. by apply build_complete.
Qed.
Lemma import_image_ok name contents w w' :
  import_image name contents w = (Ok tt, w') ->
  exists dir w1 w2 w3 es, stored (path_join dir "img.tar") w2 = Some es /\
    imports name contents w1 es /\
    spawn_wait (ctr ["image"; "import"; "--all-platforms"; path_join dir "img.tar"]) w2 = (Ok true, w3) /\
    w' = drop_tempdir dir w3.
Proof.
  intros (dir & w0 & _ & Hrun)%mbind_ok. simpl in Hrun.
  destruct (mbind _ _ w0) as [r w3] eqn:Hbody. injection Hrun as -> <-.
  apply mbind_ok in Hbody as (acc & wl & Hl & Hbody).
  assert (layers_written dir contents acc wl) as (_ & Hc & Hls & Hf).
  { eapply (foldM_M_ok _ (layers_written dir)); [|..|exact Hl].
    - intros seen x b u b' u'. apply add_content_ok.
    - by split_and!. }
  apply mbind_ok in Hbody as ([] & w2 & Hw & Hbody). unfold add_config in Hw. rewrite Hc in Hw.
  apply write_tar_ok in Hw as (w1 & es & Hkeep & Hst & Hcomplete).
  apply mbind_ok in Hbody as (ok & w4 & Hs & Hend). destruct ok; [|done]. injection Hend as ->.
  exists dir, w1, w2, w3, es. split_and!; [exact Hst| |exact Hs|done].
  exists (layers acc.2). split; [exact Hcomplete|].
  rewrite Hls. apply Forall2_same_length_lookup. split; [by rewrite length_imap|].
  intros i l c Hi Hci. rewrite list_lookup_imap, Hci in Hi. injection Hi as <-. simpl. split; [|done].
  rewrite Hkeep by apply layer_path_not_image. by apply Hf.
Qed.
End import.

(** ** The wait for the removal of content *)

Section removal.
Context {W T : Type} `{!CtrHost W T} (tick : Z) `{!TickLaw W T tick}.

(** One iteration took at least [tick]; the loop goes on only within the
    minute. *)
Lemma removal_round_time sha start w :
  (instant w + tick <= instant (removal_round sha start w).2)%Z /\
  ((removal_round sha start w).1 = Ok false -> (instant (removal_round sha start w).2 - start <= removal_timeout)%Z).
Proof.
  pose proof (output_takes (tick := tick) (ctr ["content"; "get"; sha]) w) as Ht.
  unfold removal_round, mbind. destruct (output _ w) as [[out|e|] w1]; simpl in *; [|done..].
  destruct (is_empty out); simpl; [done|]. split; [done|].
  intros [= Hb]. apply bool_decide_eq_false in Hb. lia.
Qed.

(** Why the loop ended: a command that could not be run, nothing left to get,
    or the end of the minute. *)
Definition removal_over (sha : string) (start : Z) (r : outcome string unit) (w : W) : Prop :=
  match r with
  | Ok _ => (exists w0, output (ctr ["content"; "get"; sha]) w0 = (Ok EmptyString, w)) \/
            (removal_timeout < instant w - start)%Z
  | Err e => exists w0, output (ctr ["content"; "get"; sha]) w0 = (Err e, w)
  | Panic => exists w0, output (ctr ["content"; "get"; sha]) w0 = (Panic, w)
  end.

Lemma removal_round_over sha start w r w' :
  removal_round sha start w = (r, w') ->
  match r with
  | Ok false => True
  | Ok true => removal_over sha start (Ok tt) w'
  | Err e => removal_over sha start (Err e) w'
  | Panic => removal_over sha start Panic w'
  end.
Proof.
  unfold removal_round, mbind. destruct (output _ w) as [[out|e|] w1] eqn:Ho; [|by intros [= <- <-]; exists w..].
  destruct out as [|a s]; simpl; [intros [= <- <-]; left; by exists w|].
  unfold mget. intros [= <- <-]. case_bool_decide; [by right|done].
Qed.

Lemma removal_loop_ends rounds sha start w :
  (start + removal_timeout < instant w + tick * Z.of_nat rounds)%Z ->
  (0 < rounds) ->
  exists r w', exec (removal_loop rounds sha start) w = (Some r, w') /\ removal_over sha start r w'.
Proof.
  revert w. induction rounds as [|n IH]; intros w Ht Hn; [lia|]. clear Hn.
  destruct (removal_round_time sha start w) as [Htime Hmore].
  cbn [removal_loop]. rewrite exec_abind, exec_alift. cbn [fst snd].
  destruct (removal_round sha start w) as [[[]|e|] w1] eqn:Hr; simpl in *;
    pose proof (removal_round_over _ _ _ _ _ Hr) as Hover; simpl in Hover.
  - by exists (Ok tt), w1.
  - specialize (Hmore eq_refl). apply IH; [lia|]. destruct n; [|lia]. simpl in *. lia.
  - by exists (Err e), w1.
  - by exists Panic, w1.
Qed.
End removal.

(** ** Properties *)

(** C31: the wait for the removal of content ends: when every process takes at
    least [tick], a minute's worth of iterations is enough, whatever [ctr]
    answers; it ends because nothing is left to get, because more than a minute
    is over, or because a command could not be run. *)
Theorem content_removal_wait_ends {W T : Type} `{!CtrHost W T} (tick : Z) `{!TickLaw W T tick}
    (rounds : nat) (sha : string) (w : W) (Hrounds : (removal_timeout < tick * Z.of_nat rounds)%Z) :
  exists r w', exec (wait_for_content_removal rounds sha) w = (Some r, w') /\
    removal_over sha (instant w) r w'.
Proof.
  unfold wait_for_content_removal. rewrite exec_abind, exec_atomic. cbn [fst snd].
  apply (removal_loop_ends tick); [lia|].
  destruct rounds; [|lia]. unfold removal_timeout in Hrounds. lia.
Qed.

(** A listing whose columns are separated by one space gives the digest of the
    image, its third column. *)
Theorem sha_is_the_third_column (name typ sha rest : string) :
  trim (name +:+ " " +:+ typ +:+ " " +:+ sha +:+ " " +:+ rest) = name +:+ " " +:+ typ +:+ " " +:+ sha +:+ " " +:+ rest ->
  has_char " " name = false -> has_char " " typ = false -> has_char " " sha = false ->
  sha_of_listing (name +:+ " " +:+ typ +:+ " " +:+ sha +:+ " " +:+ rest) = Ok sha.
Proof.
  intros Htrim Hn Ht Hs. unfold sha_of_listing. rewrite Htrim.
  change (name +:+ " " +:+ typ +:+ " " +:+ sha +:+ " " +:+ rest) with
    (name +:+ String " " (typ +:+ String " " (sha +:+ String " " rest))).
  by rewrite !split_app_sep by done.
Qed.

(** ** A machine for the examples

    The files, the archives, the clock, which every process moves by a little
    more than a minute, and the commands that were run. *)

Record DemoMachine := MkDemoMachine {
  files : gmap string string;
  tars : gmap string (list Entry);
  clock : Z;
  commands : list (list string);
}.

Definition demo_tick : Z := (61 * 10 ^ 9)%Z.

Definition demo_command (c : list string) (m : DemoMachine) : DemoMachine :=
  MkDemoMachine (files m) (tars m) (clock m + demo_tick) (commands m ++ [c]).

(** The builder reads the files; the digest of a text is its length. *)
Definition demo_read (m : DemoMachine) (p : string) : outcome string string := ok_or (files m !! p) "not found"%string.

Definition demo_machine_lib (m : DemoMachine) : OciLib := {|
  OciTar.digest s := pretty (String.length s);
  try_digest p := omap_ok (fun s => pretty (String.length s)) (demo_read m p);
  metadata_len p := omap_ok size_of (demo_read m p);
  file_open := demo_read m;
  digest_try_from := Ok;
  set_path _ := Ok tt;
  manifest_json x := Ok ("manifest of " +:+ join "," (desc_digest <$> manifest_layers x));
  index_json x := Ok ("index of " +:+ join "," (desc_digest <$> index_manifests x));
  layout_json l := Ok (image_layout_version l);
  docker_json ds := Ok (join "," (docker_config <$> ds));
|}.

#[export] Instance demo_ctr : CtrHost DemoMachine (list Entry) := {
  tempdir := mret "/tmp/t"%string;
  drop_tempdir _ m := m;
  write p s m := (Ok tt, MkDemoMachine (<[p := s]> (files m)) (tars m) (clock m) (commands m));
  read p m := (demo_read m p, m);
  remove_file p m := (Ok tt, MkDemoMachine (base.delete p (files m)) (tars m) (clock m) (commands m));
  create_tar _ := mret [];
  close_tar p t m := MkDemoMachine (files m) (<[p := t]> (tars m)) (clock m) (commands m);
  oci_lib := demo_machine_lib;
  spawn_wait c m := (Ok true, demo_command c m);
  output c m := (Ok "some content"%string, demo_command c m);
  piped c g m := (Ok "image type sha256:1 0B"%string, demo_command g (demo_command c m));
  from_utf8 := Ok;
  instant := clock;
}.

#[export] Instance demo_ctr_laws : CtrLaws DemoMachine (list Entry).
Proof.
  refine {| file p m := files m !! p; stored p m := tars m !! p |}.
  - intros p s w w' [= <-]. simpl. split; [apply lookup_insert_eq|]. intros q Hq. by apply lookup_insert_ne.
  - by intros p w t w' [= <- <-].
  - intros p t w. apply lookup_insert_eq.
  - intros w p s. simpl. unfold demo_read. by destruct (files w !! p); intros [= ->].
  - intros w. split; simpl; [..|by intros; simplify_eq]; intros p x s; destruct (demo_read w p); intros; by simplify_eq/=.
Defined.

#[export] Instance demo_bundle_laws : BundleLaws DemoMachine (list Entry).
Proof.
  split; simpl; [|by intros p w w' [= <-]; apply lookup_delete_eq|done|done].
  intros p s w w'. unfold demo_read. by destruct (files w !! p); intros [= ->].
Qed.

#[export] Instance demo_ticks : TickLaw DemoMachine (list Entry) demo_tick.
Proof. split; [done|]. intros c w. simpl. lia. Qed.

Definition demo_machine : DemoMachine := MkDemoMachine ∅ ∅ 0 [].

Lemma content_removal_wait_ends_witness :
  exists r w', exec (wait_for_content_removal 1 "sha256:1") demo_machine = (Some r, w') /\
    (removal_timeout < instant w' - 0)%Z.
Proof.
  destruct (content_removal_wait_ends demo_tick 1 "sha256:1" demo_machine) as (r & w' & Hrun & Hover); [done|].
  exists r, w'. split; [exact Hrun|]. vm_compute in Hrun. injection Hrun as <- <-. done.
Defined.

Lemma sha_is_the_third_column_witness : sha_of_listing "image type sha256:1 0B" = Ok "sha256:1"%string.
Proof. apply (sha_is_the_third_column "image" "type" "sha256:1" "0B"); reflexivity. Defined.

(** A column that is padded moves the others: the digest is the third part. *)
Example padded_listing : sha_of_listing "image  type sha256:1 0B" = Ok "type"%string.
Proof. by vm_compute. Qed.
