(* ===== verification/Import.v ===== *)
(** * Import: from the archive of an image to the engine

    The composition of [OciTar.v] and [OciHelpers.v], which build the archive of
    an image and have it imported, with [Client.v] over the store of
    [ContentStore.v], which loads it for an engine.  The class [ImportLaws]
    states what containerd does on an import ([imported]) and on the creation of
    a container, and that the JSON of one crate is read by the other. *)

From S2P Require Import Prelude RustStr Errors Sandbox Store Client ContentStore OciTar OciTarBin OciHelpers.

(** ** The values of the two sides *)

(** The bytes of a text, and its digest *)
Definition bytes_of (s : string) : bytes := String.list_byte_of_string s.

Lemma bytes_of_inj s s' : bytes_of s = bytes_of s' -> s = s'.
Proof.
  unfold bytes_of. intros H.
  by rewrite <- (String.string_of_list_byte_of_string s), H, String.string_of_list_byte_of_string.
Qed.

(** The text of a media type, [Display for MediaType] *)
Definition media_text (mt : MediaType) : string :=
  match mt with
  | ImageLayer => "application/vnd.oci.image.layer.v1.tar"
  | ImageManifest_ => "application/vnd.oci.image.manifest.v1+json"
  | ImageIndex_ => "application/vnd.oci.image.index.v1+json"
  | ImageConfig => "application/vnd.oci.image.config.v1+json"
  | Other s => s
  end.

(** The fields of the builder's values that the client reads *)
Definition client_descriptor (d : OciTar.Descriptor) : Sandbox.Descriptor :=
  Sandbox.MkDescriptor (media_text (OciTar.media_type d)) (OciTar.desc_digest d).

Definition client_manifest (m : OciTar.ImageManifest) : Client.ImageManifest :=
  Client.MkManifest (client_descriptor (OciTar.manifest_config m))
    (client_descriptor <$> OciTar.manifest_layers m).

(** The images that an index names, with the digests of their manifests *)
Definition named_manifests (i : ImageIndex) : list (string * string) :=
  omap (fun d => (fun n => (n, OciTar.desc_digest d)) <$>
                   (desc_annotations d ≫= lookup "io.containerd.image.name"%string))
    (index_manifests i).

(** ** What containerd does *)

Definition set_container (name image : string) (v : View) : View :=
  MkView (ContentStore.blobs v) (labelled v) (images v) (<[name := image]> (containers v)) (leased v).

Section effect.
Context `{!ImageFormat} (parse_index : string -> list (string * string)).
Context (child_key : Client.ImageManifest -> nat -> string).

(** The blobs of an archive are written under the digests in their names. *)
Definition put_blob (v : View) (e : Entry) : View :=
  match strip_prefix "blobs/sha256/" (entry_path e) with
  | Some d => MkView (<["sha256:" +:+ d := bytes_of (entry_data e)]> (ContentStore.blobs v))
                (labelled v) (images v) (containers v) (leased v)
  | None => v
  end.

(** The labels that keep what a manifest has *)
Definition child_labels (m : Client.ImageManifest) : gmap string string :=
  list_to_map (imap (fun i d => (child_key m i, d)) (contents m)).

Definition name_image (v : View) (x : string * string) : View :=
  match ContentStore.blobs v !! x.2 with
  | Some b =>
      match parse_manifest b with
      | Ok m => MkView (ContentStore.blobs v) (<[x.2 := child_labels m ∪ labels_at v x.2]> (labelled v))
                  (<[x.1 := x.2]> (images v)) (containers v) (leased v)
      | _ => v
      end
  | None => v
  end.

Definition index_of (es : list Entry) : list (string * string) :=
  match List.find (fun e => bool_decide (entry_path e = "index.json"%string)) es with
  | Some e => parse_index (entry_data e)
  | None => []
  end.

Definition imported (es : list Entry) (v : View) : View := foldl name_image (foldl put_blob v es) (index_of es).
End effect.

(** ** The laws *)

(** The index and the manifest of an archive are read as they were written, and
    a configuration is for Wasm when its architecture is; both sides have the
    same SHA-256.  A command that succeeds had its effect, and the store may have
    collected since; a temporary directory is not in the store. *)
Class ImportLaws (W T : Type) `{!ImageFormat} `{!TarWriter T} `{!CtrHost W T} `{!CtrLaws W T} `{!ConfigJson}
    (view : W -> View) := {
  parse_index : string -> list (string * string);
  child_key : Client.ImageManifest -> nat -> string;
  index_reads w i s : @index_json (oci_lib w) i = Ok s -> parse_index s = named_manifests i;
  manifest_reads w m s : @manifest_json (oci_lib w) m = Ok s -> parse_manifest (bytes_of s) = Ok (client_manifest m);
  config_reads c s : image_json c = Ok s ->
    parse_platform (bytes_of s) = Ok (bool_decide (image_architecture c = "wasm"%string));
  same_digest w s : @digest (oci_lib w) s = sha256_digest (bytes_of s);
  child_key_inj m i j : child_key m i = child_key m j -> i = j;
  child_key_ref m i : is_gc_ref (child_key m i) = true;
  child_key_free m i j : child_key m i ≠ gc_ref_label j;
  import_done path es w w' : stored path w = Some es ->
    spawn_wait (ctr ["image"; "import"; "--all-platforms"; path]) w = (Ok true, w') ->
    ContentStore.collected (imported parse_index child_key es (view w)) (view w');
  create_done name image w w' : spawn_wait (ctr ["c"; "create"; image; name]) w = (Ok true, w') ->
    ContentStore.collected (set_container name image (view w)) (view w');
  tempdir_apart dir w : ContentStore.collected (view w) (view (drop_tempdir dir w));
}.

(** ** Containers do not matter to the collector *)

Lemma kept_set_container n i v d : kept (set_container n i v) d <-> kept v d.
Proof.
  split; induction 1 as [m d Hd|l d Hl|d k d' _ IH Hk Hgc].
  1, 4: by apply (kept_image _ m). 1, 3: by apply (kept_lease _ l). all: by apply (kept_ref _ d k d').
Qed.

Lemma step_set_container n i v v' : step v v' -> step (set_container n i v) (set_container n i v').
Proof.
  intros [v1 [Hi Hc Hl Hk]|l d Hb|l d b ls Hb].
  - apply step_gc. split; [exact Hi|simpl; by rewrite Hc|exact Hl|].
    intros d Hd. apply (Hk d). by apply (kept_set_container n i).
  - exact (step_link (set_container n i v) l d Hb).
  - exact (step_commit (set_container n i v) l d b ls Hb).
Qed.

Lemma steps_set_container n i v v' : rtc step v v' -> rtc step (set_container n i v) (set_container n i v').
Proof. intros H. eapply rtc_congruence; [|exact H]. intros. by apply step_set_container. Qed.

(** ** The archive in the store *)

(** What the engine gets of a content *)
Definition content_text (c : ImageContent) : string := media_text (layer_media_type (content_media_type c)).

Definition engine_layer `{!ImageFormat} (c : ImageContent) : WasmLayer :=
  let b := bytes_of (content_bytes c) in MkLayer (Sandbox.MkDescriptor (content_text c) (content_digest b)) b.

Section archive.
Context {W Channel Tx Rx T : Type} `{!Containerd W Channel Tx Rx} `{!ImageFormat}.
Context `{!TarWriter T} `{!TarLaws T} `{!CtrHost W T} `{!CtrLaws W T} `{!ConfigJson}.
Context (self : Client Channel) (view : W -> View) (lease_of_stream : Rx -> string).
Context `{!ContentLaws W Channel Tx Rx (inner self) (client_namespace self) view lease_of_stream}.
Context `{!ImportLaws W T view}.
#[local] Arguments file {W T TarWriter CtrHost CtrLaws} : rename.

Lemma sha256_content (w : W) s : @sha256_of (oci_lib w) s = content_digest (bytes_of s).
Proof. unfold sha256_of, content_digest. by rewrite same_digest. Qed.

Lemma digest_inj (w : W) s s' : @digest (oci_lib w) s = @digest (oci_lib w) s' -> s = s'.
Proof. rewrite !same_digest. intros Heq. by apply bytes_of_inj, (no_collision (view := view)). Qed.

(** Entries whose blobs have the digests of their data *)
Definition addressed_entry (w : W) (e : Entry) : Prop :=
  forall d, strip_prefix "blobs/sha256/" (entry_path e) = Some d -> d = @digest (oci_lib w) (entry_data e).

Lemma addressed_blob w s : addressed_entry w (@blob (oci_lib w) s).
Proof. intros d. unfold blob, blob_path. cbn [entry_path entry_data]. rewrite strip_prefix_app. by intros [= <-]. Qed.

Definition has_blob (w : W) (s : string) (v : View) : Prop :=
  ContentStore.blobs v !! content_digest (bytes_of s) = Some (bytes_of s).

Lemma put_blob_keeps w s e v : addressed_entry w e -> has_blob w s v -> has_blob w s (put_blob v e).
Proof.
  unfold has_blob, put_blob. intros He Hv. destruct (strip_prefix _ _) as [d|] eqn:Hd; [|done].
  apply He in Hd as ->. cbn [ContentStore.blobs]. apply lookup_insert_Some.
  destruct (decide (entry_data e = s)) as [->|Hne]; [left; by rewrite <- sha256_content with (w := w)|].
  right. split; [|done]. rewrite <- sha256_content with (w := w). intros Heq%str_app_inj_r. by apply digest_inj in Heq.
Qed.

Lemma put_blob_new w s v : has_blob w s (put_blob v (@blob (oci_lib w) s)).
Proof.
  unfold has_blob, put_blob, blob, blob_path. cbn [entry_path entry_data]. rewrite strip_prefix_app.
  cbn [ContentStore.blobs]. rewrite <- sha256_content with (w := w). apply lookup_insert_eq.
Qed.

Lemma put_blobs w s es v : Forall (addressed_entry w) es ->
  has_blob w s v \/ @blob (oci_lib w) s ∈ es -> has_blob w s (foldl put_blob v es).
Proof.
  intros Hes. revert v. induction Hes as [|e es He Hes IH]; intros v [Hv|Hs]; simpl; [done|by apply elem_of_nil in Hs|..].
  - apply IH. left. by apply (put_blob_keeps w).
  - apply IH. apply elem_of_cons in Hs as [<-|Hs]; [left; apply put_blob_new|by right].
Qed.

(** Only the blobs change. *)
Lemma put_blobs_labels es v : labelled (foldl put_blob v es) = labelled v.
Proof.
  revert v. induction es as [|e es IH]; intros v; simpl; [done|]. rewrite IH. unfold put_blob. by destruct (strip_prefix _ _).
Qed.

(** The reference to each of the contents of a manifest that was named *)
Lemma child_labelled m d (old : gmap string string) : d ∈ contents m ->
  exists k, (child_labels child_key m ∪ old) !! k = Some d /\ is_gc_ref k /\ forall i, k ≠ gc_ref_label i.
Proof.
  intros [i Hi]%list_elem_of_lookup. exists (child_key m i). split_and!; [|by rewrite child_key_ref|apply child_key_free].
  apply lookup_union_Some_l. apply elem_of_list_to_map_1.
  - rewrite fmap_imap. apply NoDup_alt. intros j k x Hj Hk. rewrite list_lookup_imap in Hj, Hk.
    destruct (contents m !! j), (contents m !! k); simplify_eq/=. by eapply child_key_inj.
  - apply list_elem_of_lookup. exists i. by rewrite list_lookup_imap, Hi.
Qed.

Lemma named_pulled name md m mb cb v cid :
  parse_manifest mb = Ok m -> ContentStore.blobs v !! md = Some mb ->
  ContentStore.blobs v !! Sandbox.desc_digest (Client.manifest_config m) = Some cb ->
  (forall d, d ∈ contents m -> is_Some (ContentStore.blobs v !! d)) ->
  pulled cid name md m mb cb (set_container cid name (name_image child_key v (name, md))).
Proof.
  intros Hp Hb Hc Hall. unfold name_image. cbn [fst snd]. rewrite Hb, Hp. split; simpl.
  - apply lookup_insert_eq.
  - apply lookup_insert_eq.
  - done.
  - done.
  - intros d Hd. split; [by apply Hall|]. unfold labels_at. simpl. rewrite lookup_insert_eq. by apply child_labelled.
Qed.

(** *** The archive of [import_image] *)

(** What the manifest of the archive says of the contents *)
Definition content_desc (w : W) (c : ImageContent) : OciTar.Descriptor :=
  @layer_desc (oci_lib w) (EmptyString, content_media_type c) (content_bytes c).

Definition archive_manifest (w : W) (cfg name : string) (cs : list ImageContent) : OciTar.ImageManifest :=
  OciTar.MkManifest (content_desc w <$> cs)
    (OciTar.MkDescriptor ImageConfig (@sha256_of (oci_lib w) cfg) (size_of cfg) None None) (annotations_of name).

Lemma imported_contents (w : W) name cs es : NoDup (content_bytes <$> cs) -> imports name cs w es ->
  exists cfg m, parse_platform (bytes_of cfg) = Ok true /\
    parse_manifest (bytes_of m) = Ok (client_manifest (archive_manifest w cfg name cs)) /\
    Forall (addressed_entry w) es /\ @blob (oci_lib w) cfg ∈ es /\ @blob (oci_lib w) m ∈ es /\
    Forall (fun c => @blob (oci_lib w) (content_bytes c) ∈ es) cs /\
    index_of parse_index es = [(name, content_digest (bytes_of m))].
Proof.
  intros Hnd (ls & (blobs & descs & cfg & m & idx & layout & docker & Hes & _ & _ & _ & _ & Hcfg & Hm & Hidx & _ &
    ss & Hss & -> & ->) & Hls).
  assert (ss = content_bytes <$> cs) as ->.
  { apply list_eq. intros i. apply option_eq. intros s. rewrite list_lookup_fmap. split.
    - intros Hi. destruct (Forall2_lookup_r _ _ _ _ _ Hss Hi) as (l & Hl & Hs%lib_reads).
      destruct (Forall2_lookup_l _ _ _ _ _ Hls Hl) as (c & -> & Hf & _). simpl. congruence.
    - destruct (cs !! i) as [c|] eqn:Hi; [|done]. intros [= <-].
      destruct (Forall2_lookup_r _ _ _ _ _ Hls Hi) as (l & Hl & Hf & _).
      destruct (Forall2_lookup_l _ _ _ _ _ Hss Hl) as (s & -> & Hs%lib_reads). congruence. }
  rewrite (layer_digests_distinct (H := oci_lib w) (T := T)) in Hm.
  2: by eapply Forall2_length.
  2: { apply NoDup_fmap_2_strong; [|done]. intros s s' _ _. unfold sha256_of. intros Heq%str_app_inj_r. by eapply digest_inj. }
  replace (zip_with _ ls _) with (content_desc w <$> cs) in Hm.
  2: { clear -Hls. induction Hls as [|l c ls cs [_ Hl] _ IH]; [done|].
    refine (f_equal2 cons _ IH). unfold content_desc, layer_desc. simpl. by rewrite Hl. }
  simpl in Hes. exists cfg, m. split_and!.
  - simpl in Hcfg. unfold unwrap in Hcfg. destruct (image_json test_image) as [s|e|] eqn:Hj; simplify_eq.
    by rewrite (config_reads _ _ Hj).
  - by apply (manifest_reads w) in Hm.
  - subst es. apply Forall_app. split; [apply Forall_fmap, Forall_true; intros; apply addressed_blob|].
    do 2 (apply Forall_cons; split; [apply addressed_blob|]). by repeat constructor.
  - subst es. set_solver.
  - subst es. set_solver.
  - apply Forall_forall. intros c Hc. subst es. apply elem_of_app. left. by do 2 apply list_elem_of_fmap_2.
  - subst es. unfold index_of.
    assert (forall l es, List.find (fun e => bool_decide (entry_path e = "index.json"%string))
        ((@blob (oci_lib w) <$> l) ++ es) = List.find (fun e => bool_decide (entry_path e = "index.json"%string)) es) as Hskip.
    { intros l es. induction l as [|s l IH]; [done|]. exact IH. }
    rewrite Hskip. transitivity (parse_index idx); [reflexivity|]. rewrite (index_reads _ _ _ Hidx). unfold named_manifests. simpl.
    unfold annotations_of. rewrite lookup_insert_eq. simpl. by rewrite sha256_content.
Qed.

(** An image of the contents in the store, with the container [cid] *)
Definition image_of (cid name : string) (cs : list ImageContent) (v : View) : Prop :=
  exists man mb cb, pulled cid name (content_digest mb) man mb cb v /\
    parse_manifest mb = Ok man /\ parse_platform cb = Ok true /\
    Client.manifest_layers man = (fun c => layer_config (engine_layer c)) <$> cs.

Lemma stable_image_of cid name cs : stable (image_of cid name cs).
Proof.
  intros v v' Hs (man & mb & cb & Hp & Hrest). exists man, mb, cb. split; [|done]. by eapply stable_pulled.
Qed.

Lemma imported_image w name cs es v cid : NoDup (content_bytes <$> cs) -> imports name cs w es ->
  image_of cid name cs (set_container cid name (imported parse_index child_key es v)).
Proof.
  intros Hnd Him. destruct (imported_contents w name cs es Hnd Him)
    as (cfg & m & Hplat & Hman & Hes & Hcfg & Hm & Hcs & Hidx).
  exists (client_manifest (archive_manifest w cfg name cs)), (bytes_of m), (bytes_of cfg).
  split_and!; [|done|done|].
  - unfold imported. rewrite Hidx. simpl. apply named_pulled.
    + done.
    + by apply (put_blobs w); [|right].
    + simpl. rewrite sha256_content. by apply (put_blobs w); [|right].
    + intros d Hd. apply elem_of_cons in Hd as [->|Hd].
      * exists (bytes_of cfg). simpl. rewrite sha256_content. by apply (put_blobs w); [|right].
      * simpl in Hd. rewrite <- !list_fmap_compose in Hd. apply list_elem_of_fmap in Hd as (c & -> & Hc).
        exists (bytes_of (content_bytes c)). simpl. rewrite sha256_content.
        apply (put_blobs w); [done|right]. by apply (proj1 (Forall_forall _ _) Hcs).
  - simpl. rewrite <- list_fmap_compose. apply list_fmap_ext. intros i c _. simpl.
    unfold client_descriptor. simpl. by rewrite sha256_content.
Qed.

(** *** Loading it *)

Lemma wasm_configs_of (cs : list ImageContent) types man :
  Client.manifest_layers man = (fun c => layer_config (engine_layer c)) <$> cs ->
  wasm_configs types man = (fun c => layer_config (engine_layer c)) <$> filter (fun c => content_text c ∈ types) cs.
Proof.
  unfold wasm_configs. intros ->. induction cs as [|c cs IH]; [done|]. rewrite fmap_cons, !filter_cons, IH.
  unfold is_wasm_layer at 1. change (Sandbox.media_type (layer_config (engine_layer c))) with (content_text c).
  by repeat case_decide; rewrite ?bool_decide_spec in *.
Qed.

Lemma read_originals cid img md man mb cb (cs : list ImageContent) w : pulled cid img md man mb cb (view w) ->
  (forall c, c ∈ cs -> content_digest (bytes_of (content_bytes c)) ∈ contents man) ->
  exists w', mapM_M (read_original_layer self) ((fun c => layer_config (engine_layer c)) <$> cs) w =
    (Ok (engine_layer <$> cs), w').
Proof.
  revert w. induction cs as [|c cs IH]; intros w Hp Hin; [by exists w|]. rewrite !fmap_cons.
  destruct (read_known self view lease_of_stream (content_digest (bytes_of (content_bytes c)))
    (bytes_of (content_bytes c)) w) as (w1 & Hr & Hq).
  { eapply blob_of_digest; [done|]. apply Hp. apply Hin. by left. }
  destruct (IH w1) as (w2 & Hm); [by eapply pulled_collected|intros x Hx; apply Hin; by right|].
  exists w2. cbn [mapM_M]. unfold read_original_layer at 1. unfold mbind at 1 2. simpl in *. rewrite Hr. simpl.
  unfold mbind. by rewrite Hm.
Qed.

Lemma image_loads cid name cs engine types w : image_of cid name cs (view w) ->
  exists w', load_modules self cid engine types None w =
    (Ok (engine_layer <$> filter (fun c => content_text c ∈ types) cs), w').
Proof.
  intros (man & mb & cb & Hp & Hman & Hplat & Hls).
  destruct (load_reaches_layers self view lease_of_stream cid name _ man mb cb Hman Hplat engine types None w Hp)
    as (w1 & -> & Hq).
  rewrite (wasm_configs_of cs types man Hls).
  destruct (read_originals cid name (content_digest mb) man mb cb (filter (fun c => content_text c ∈ types) cs) w1) as (w2 & Hr).
  - by eapply pulled_collected.
  - intros c [_ Hc]%list_elem_of_filter. right. rewrite Hls, <- list_fmap_compose.
    by apply (list_elem_of_fmap_2 (fun c => Sandbox.desc_digest (layer_config (engine_layer c)))).
  - exists w2. rewrite <- Hr. unfold load_layers. by destruct (filter _ cs).
Qed.

Lemma run_ctr_ok l failed w w' : run_ctr l failed w = (Ok tt, w') -> spawn_wait (ctr l) w = (Ok true, w').
Proof. unfold run_ctr. intros ([] & w1 & Hs & Hr)%mbind_ok; [|done]. by injection Hr as <-. Qed.

(** The container is created some time after the import. *)
Lemma test_image_stored cs name cid w w1 w2 w3 : NoDup (content_bytes <$> cs) ->
  import_image name cs w = (Ok tt, w1) -> rtc step (view w1) (view w2) ->
  create_container cid name w2 = (Ok tt, w3) -> image_of cid name cs (view w3).
Proof.
  intros Hnd (dir & wa & wb & wc & es & Hst & Him & Hs & ->)%import_image_ok Hst12 Hc%run_ctr_ok.
  apply create_done in Hc. apply (import_done _ es) in Hs; [|done].
  eapply stable_image_of; [apply step_gc, Hc|].
  eapply stable_rtc; [apply stable_image_of|apply steps_set_container|by eapply imported_image].
  eapply rtc_l; [apply step_gc, Hs|]. eapply rtc_l; [apply step_gc, tempdir_apart|exact Hst12].
Qed.
End archive.

(** ** Properties *)

