(* ===== verification/TestMachine.v ===== *)
(** * TestMachine: a machine for the tests that need containerd

    A containerd in memory, with its command [ctr], files, random numbers and
    shared counters: the store is the [Registry] of [ContentStore.v], an archive
    is imported as [Import.v] says, and what [ctr] is asked is read from the
    words of the command.  It has the laws of both files, and the tests of
    [ClientTests.v] run on it. *)

From S2P Require Import Prelude RustStr Errors Sandbox Store Client ContentStore OciTar OciTarBin OciHelpers Import.
From Stdlib Require Import Ascii.

(** ** Texts

    A manifest, an index and a configuration are written with separators of
    their own, and a text that is not read back as it was meant is an error. *)

Definition field_mark : ascii := ascii_of_nat 3.
Definition descriptor_mark : ascii := ascii_of_nat 4.
Definition name_mark : ascii := ascii_of_nat 1.
Definition image_mark : ascii := ascii_of_nat 2.
Definition platform_mark : ascii := ascii_of_nat 5.

Definition pair_text (c : ascii) (p : string * string) : string := p.1 +:+ String c p.2.
Definition read_pairs (sep c : ascii) (s : string) : list (string * string) := omap (split_once c) (split sep s).
Definition write_pairs (sep c : ascii) (l : list (string * string)) : string :=
  join (str_of_char sep) (pair_text c <$> l).

(** [f] as it is, when [g] reads it as [x] *)
Definition checked {A} `{EqDecision A} (g : string -> A) (x : A) (s : string) : outcome string string :=
  if decide (g s = x) then Ok s else Err "cannot be written"%string.

Lemma checked_ok {A} `{EqDecision A} (g : string -> A) x s s' : checked g x s = Ok s' -> g s' = x.
Proof. unfold checked. case_decide as Hd; [|done]. by intros [= <-]. Qed.

Definition descriptor_pair (d : Sandbox.Descriptor) : string * string := (Sandbox.media_type d, Sandbox.desc_digest d).
Definition pair_descriptor (p : string * string) : Sandbox.Descriptor := Sandbox.MkDescriptor p.1 p.2.

#[export] Instance descriptor_eq_dec : EqDecision Sandbox.Descriptor.
Proof. solve_decision. Defined.

#[export] Instance manifest_eq_dec : EqDecision Client.ImageManifest.
Proof. solve_decision. Defined.

(** The configuration comes first. *)
Definition read_manifest (s : string) : option Client.ImageManifest :=
  match pair_descriptor <$> read_pairs descriptor_mark field_mark s with
  | c :: ls => Some (Client.MkManifest c ls)
  | [] => None
  end.

Definition manifest_text (m : OciTar.ImageManifest) : outcome string string :=
  let m := client_manifest m in
  checked read_manifest (Some m)
    (write_pairs descriptor_mark field_mark (descriptor_pair <$> Client.manifest_config m :: Client.manifest_layers m)).

Definition read_index (s : string) : list (string * string) := read_pairs image_mark name_mark s.

Definition index_text (i : ImageIndex) : outcome string string :=
  checked read_index (named_manifests i) (write_pairs image_mark name_mark (named_manifests i)).

Definition read_platform (s : string) : bool :=
  match split_once platform_mark s with Some (_, a) => bool_decide (a = "wasm"%string) | None => false end.

Definition text_of (b : bytes) : string := String.string_of_list_byte b.

(** The digest of the machine is a parameter. *)
Class Checksum := { checksum : bytes -> string }.

Section machine.
Context `{!Checksum}.

#[export] Instance machine_format : ImageFormat | 0 := {
  sha256_digest := checksum;
  parse_digest := Ok;
  parse_manifest b := ok_or (read_manifest (text_of b)) "not a manifest"%string;
  parse_platform b := Ok (read_platform (text_of b));
}.

#[export] Instance machine_config : ConfigJson := {
  image_json c := checked read_platform (bool_decide (image_architecture c = "wasm"%string))
                    (pair_text platform_mark (image_os c, image_architecture c));
}.

(** ** The machine *)

Record Machine := MkMachine {
  containerd : Registry;
  machine_files : gmap string string;
  machine_tars : gmap string (list Entry);
  next_random : nat;
  cells : list Z;
}.

Definition with_containerd (r : Registry) (m : Machine) : Machine :=
  MkMachine r (machine_files m) (machine_tars m) (next_random m) (cells m).

Definition with_machine_files (f : gmap string string) (m : Machine) : Machine :=
  MkMachine (containerd m) f (machine_tars m) (next_random m) (cells m).

Definition machine_view (m : Machine) : View := reg_view (containerd m).

(** The store becomes [v], and is collected. *)
Definition set_view (v : View) (m : Machine) : Machine := with_containerd (with_raw v (containerd m)) m.

Definition on_containerd {E A} (c : M Registry E A) : M Machine E A := fun m =>
  let '(r, x) := c (containerd m) in (r, with_containerd x m).

#[export] Instance machine_containerd : Containerd Machine unit unit string := {
  grpc_connect a := on_containerd (grpc_connect a);
  content_read c ns d := on_containerd (content_read c ns d);
  content_delete c ns d := on_containerd (content_delete c ns d);
  content_info c ns d := on_containerd (content_info c ns d);
  content_update c ns i ps := on_containerd (content_update c ns i ps);
  content_write c ns l tx := on_containerd (content_write c ns l tx);
  images_get c ns n := on_containerd (images_get c ns n);
  containers_get c ns n := on_containerd (containers_get c ns n);
  leases_create c ns r ls := on_containerd (leases_create c ns r ls);
  leases_delete c ns id := on_containerd (leases_delete c ns id);
  mpsc_channel m := (tt, m);
  tx_send tx req := on_containerd (tx_send tx req);
  rx_message rx := on_containerd (rx_message rx);
  expiry_24h m := expiry_24h (containerd m);
}.

(** *** Files and archives *)

Definition read_machine (m : Machine) (p : string) : outcome string string :=
  ok_or (machine_files m !! p) "not found"%string.

Definition machine_lib (m : Machine) : OciLib := {|
  OciTar.digest s := checksum (bytes_of s);
  try_digest p := omap_ok (fun s => checksum (bytes_of s)) (read_machine m p);
  metadata_len p := omap_ok size_of (read_machine m p);
  file_open := read_machine m;
  digest_try_from := Ok;
  set_path _ := Ok tt;
  manifest_json := manifest_text;
  index_json := index_text;
  layout_json l := Ok (image_layout_version l);
  docker_json ds := Ok (join "," (docker_config <$> ds));
|}.

(** *** [ctr] *)

(** The words of a command after [p] *)
Definition asked (p c : list string) : option (list string) :=
  if decide (take (length p) c = p) then Some (drop (length p) c) else None.

(** The labels of a content in an image of the machine *)
Definition machine_child_key (_ : Client.ImageManifest) (i : nat) : string := "containerd.io/gc.ref.content.l." +:+ pretty i.

Definition machine_imported : list Entry -> View -> View := imported read_index machine_child_key.

#[export] Instance addressed_dec v : Decision (addressed v).
Proof.
  refine (cast_if (decide (map_Forall (fun d b => d = content_digest b) (ContentStore.blobs v))));
    [intros d b; apply m|intros Ha; apply n; intros d b; apply Ha].
Defined.

(** An archive whose blobs do not have their digests is refused. *)
Definition ctr_import (path : string) (m : Machine) : bool * Machine :=
  match machine_tars m !! path with
  | Some es =>
      let v := machine_imported es (machine_view m) in
      if decide (addressed v) then (true, set_view v m) else (false, m)
  | None => (false, m)
  end.

Definition ctr_create (img name : string) (m : Machine) : bool * Machine :=
  match images (machine_view m) !! img with
  | Some _ => (true, set_view (set_container name img (machine_view m)) m)
  | None => (false, m)
  end.

Definition ctr_rm (name : string) (m : Machine) : bool * Machine :=
  let v := machine_view m in
  match containers v !! name with
  | Some _ => (true, set_view (MkView (ContentStore.blobs v) (labelled v) (images v)
                                (base.delete name (containers v)) (leased v)) m)
  | None => (false, m)
  end.

Definition ctr_image_rm (name : string) (m : Machine) : bool * Machine :=
  let v := machine_view m in
  match images v !! name with
  | Some _ => (true, set_view (MkView (ContentStore.blobs v) (labelled v) (base.delete name (images v))
                                (containers v) (leased v)) m)
  | None => (false, m)
  end.

Definition machine_command (c : list string) (m : Machine) : bool * Machine :=
  match asked (ctr ["image"; "import"; "--all-platforms"]) c with
  | Some [path] => ctr_import path m
  | _ =>
      match asked (ctr ["c"; "create"]) c with
      | Some [img; name] => ctr_create img name m
      | _ =>
          match asked (ctr ["c"; "rm"]) c with
          | Some [name] => ctr_rm name m
          | _ => match asked (ctr ["i"; "rm"]) c with Some [name] => ctr_image_rm name m | _ => (false, m) end
          end
      end
  end.

Definition machine_output (c : list string) (m : Machine) : string :=
  match asked (ctr ["content"; "get"]) c with
  | Some [sha] => match ContentStore.blobs (machine_view m) !! sha with Some b => text_of b | None => EmptyString end
  | _ => join (str_of_char newline) (map_to_list (images (machine_view m))).*1
  end.

(** [ctr i ls] piped into [grep] of a name *)
Definition image_line (x : string * string) : string := x.1 +:+ " image " +:+ x.2 +:+ " 0B".

Definition machine_grep (g : list string) (m : Machine) : string :=
  let all := image_line <$> map_to_list (images (machine_view m)) in
  join (str_of_char newline) (filter (fun l => Is_true (contains (default EmptyString (last g)) l)) all).

#[export] Instance machine_ctr : CtrHost Machine (list Entry) := {
  tempdir := mret "/tmp/t"%string;
  drop_tempdir _ m := m;
  write p s m := (Ok tt, with_machine_files (<[p := s]> (machine_files m)) m);
  read p m := (read_machine m p, m);
  remove_file p m := (Ok tt, with_machine_files (base.delete p (machine_files m)) m);
  create_tar _ := mret [];
  close_tar p t m := MkMachine (containerd m) (machine_files m) (<[p := t]> (machine_tars m)) (next_random m) (cells m);
  oci_lib := machine_lib;
  spawn_wait c m := let '(b, m) := machine_command c m in (Ok b, m);
  output c m := (Ok (machine_output c m), m);
  piped _ g m := (Ok (machine_grep g m), m);
  from_utf8 := Ok;
  instant _ := 0%Z;
}.

(** ** Its laws *)

#[export] Instance machine_ctr_laws : CtrLaws Machine (list Entry).
Proof.
  refine {| file p m := machine_files m !! p; stored p m := machine_tars m !! p |}.
  - intros p s w w' [= <-]. simpl. split; [apply lookup_insert_eq|]. intros q Hq. by apply lookup_insert_ne.
  - by intros p w t w' [= <- <-].
  - intros p t w. apply lookup_insert_eq.
  - intros w p s. simpl. unfold read_machine. by destruct (machine_files w !! p); intros [= ->].
  - intros w. split; simpl; [..|by intros; simplify_eq]; intros p x s; destruct (read_machine w p); intros; by simplify_eq/=.
Defined.

(** A call of the registry, on the machine *)
Lemma on_containerd_ok {E A} (c : M Registry E A) m (r : outcome E A) m' :
  on_containerd c m = (r, m') -> exists x, c (containerd m) = (r, x) /\ m' = with_containerd x m.
Proof. unfold on_containerd. destruct (c (containerd m)) as [r1 x]. intros [= <- <-]. by exists x. Qed.

Lemma on_containerd_quiet {E A} (c : M Registry E A) m :
  ContentStore.collected (reg_view (containerd m)) (reg_view (c (containerd m)).2) ->
  ContentStore.collected (machine_view m) (machine_view (on_containerd c m).2).
Proof. unfold on_containerd. by destruct (c (containerd m)). Qed.

Lemma on_containerd_fst {E A} (c : M Registry E A) m : (on_containerd c m).1 = (c (containerd m)).1.
Proof. unfold on_containerd. by destruct (c (containerd m)). Qed.

(** A digest without collisions *)
Context `{!Inj (=) (=) checksum}.

#[export] Instance machine_exact : ExactDigests.
Proof. split; [by intros s d [= ->]|done|]. intros a b. apply (inj checksum). Qed.

#[export] Instance machine_laws : ContentLaws Machine unit unit string tt TEST_NAMESPACE machine_view id.
Proof.
  pose proof (registry_laws (H := machine_format)) as L. split.
  - by intros s d [= ->].
  - done.
  - exact (no_collision (ContentLaws := L)).
  - intros m. exact (content_addressed (ContentLaws := L) (containerd m)).
  - intros n i m Hi. etransitivity; [apply on_containerd_fst|exact (containers_get_known (ContentLaws := L) n i _ Hi)].
  - intros n m. apply on_containerd_quiet, (containers_get_quiet (ContentLaws := L)).
  - intros n d m Hi. etransitivity; [apply on_containerd_fst|exact (images_get_known (ContentLaws := L) n d _ Hi)].
  - intros n m. apply on_containerd_quiet, (images_get_quiet (ContentLaws := L)).
  - intros d b m Hb. destruct (content_read_known (ContentLaws := L) d b _ Hb) as (msgs & Hm & Hc).
    exists msgs. split; [|exact Hc]. etransitivity; [apply on_containerd_fst|exact Hm].
  - intros d m. apply on_containerd_quiet, (content_read_quiet (ContentLaws := L)).
  - intros d m Hd. etransitivity; [apply on_containerd_fst|exact (content_info_known (ContentLaws := L) d _ Hd)].
  - intros d m. apply on_containerd_quiet, (content_info_quiet (ContentLaws := L)).
  - intros i j m m' (x & Hx & ->)%on_containerd_ok. exact (content_update_labels (ContentLaws := L) i j _ _ Hx).
  - intros r ls m. apply on_containerd_quiet, (leases_create_quiet (ContentLaws := L) r ls).
  - intros id m. pose proof (leases_delete_closes (ContentLaws := L) id (containerd m)) as Hc.
    cbn [leases_delete machine_containerd]. unfold on_containerd.
    destruct (leases_delete tt "ns" id (containerd m)) as [r x] eqn:Hx. simpl in Hx.
    injection Hx as <- <-. exact Hc.
  - done.
  - intros tx req m. apply on_containerd_quiet, (tx_send_quiet (ContentLaws := L)).
  - intros l tx req m m1 m2 e (x1 & Hx1 & ->)%on_containerd_ok Ha (x2 & Hx2 & ->)%on_containerd_ok He.
    exact (content_write_exists (ContentLaws := L) l tx req _ _ _ e Hx1 Ha Hx2 He).
  - intros l tx rx m m1 (x & Hx & ->)%on_containerd_ok.
    destruct (content_write_opens (ContentLaws := L) l tx rx _ _ Hx) as (Hl & H1 & H2). split_and!; [done..|].
    by apply on_containerd_quiet.
  - intros tx req rx m m1 (x & Hx & ->)%on_containerd_ok Ha.
    apply on_containerd_quiet. exact (rx_message_quiet (ContentLaws := L) tx req rx _ _ Hx Ha).
  - intros tx req rx m m1 m2 r (x & Hx & ->)%on_containerd_ok Ha (x2 & Hx2 & ->)%on_containerd_ok Hd.
    exact (rx_message_commit (ContentLaws := L) tx req rx _ _ _ r Hx Ha Hx2 Hd).
Qed.

Lemma command_import path m :
  machine_command (ctr ["image"; "import"; "--all-platforms"; path]) m = ctr_import path m.
Proof. reflexivity. Qed.

Lemma command_create img name m : machine_command (ctr ["c"; "create"; img; name]) m = ctr_create img name m.
Proof. reflexivity. Qed.

Lemma spawned c m m' : spawn_wait c m = (Ok true, m') -> machine_command c m = (true, m').
Proof. simpl. destruct (machine_command c m) as [b x]. by intros [= -> ->]. Qed.

Lemma set_view_collected v m : addressed v -> ContentStore.collected v (machine_view (set_view v m)).
Proof. apply with_raw_collected. Qed.

Lemma text_of_bytes_of s : text_of (bytes_of s) = s.
Proof. apply String.string_of_list_byte_of_string. Qed.

#[export] Instance machine_import_laws : ImportLaws Machine (list Entry) machine_view.
Proof.
  refine {| parse_index := read_index; child_key := machine_child_key |}.
  - intros m i s. apply checked_ok.
  - intros m x s Hs%checked_ok. simpl. by rewrite text_of_bytes_of, Hs.
  - intros c s Hs%checked_ok. simpl. by rewrite text_of_bytes_of, Hs.
  - done.
  - intros m i j Hij%str_app_inj_r. by apply (inj pretty) in Hij.
  - intros m i. apply (starts_with_app GC_REF).
  - intros m i j. intros Hij%(f_equal (strip_prefix "containerd.io/gc.ref.content.l.")).
    unfold machine_child_key in Hij. by rewrite strip_prefix_app in Hij.
  - intros path es m m' Hes Hs%spawned. rewrite command_import in Hs. unfold ctr_import in Hs.
    simpl in Hes. rewrite Hes in Hs. case_decide as Ha; [|done]. injection Hs as <-. by apply set_view_collected.
  - intros name img m m' Hs%spawned. rewrite command_create in Hs. unfold ctr_create in Hs.
    destruct (images _ !! img); [|done]. injection Hs as <-. apply set_view_collected.
    exact (served_addressed (raw (containerd m))).
  - done.
Defined.

End machine.

Definition empty_machine : Machine :=
  MkMachine (MkRegistry (MkView ∅ ∅ ∅ ∅ ∅) EmptyString [] None) ∅ ∅ 0 [].

(** ** An image on its way to an engine

    With the content itself as its digest. *)
#[export] Instance exact_checksum : Checksum := { checksum := text_of }.

#[export] Instance text_of_inj : Inj (=) (=) checksum.
Proof. intros a b. apply string_of_bytes_inj. Qed.

Definition machine_contents : list ImageContent :=
  [MkContent "main" WASM_LAYER_MEDIA_TYPE; MkContent "notes" "textfile"; MkContent "lib" WASM_LAYER_MEDIA_TYPE].

Definition machine_client : Client unit := MkClient tt TEST_NAMESPACE.

Lemma run_ok {W E} (m : M W E unit) w : is_ok (m w).1 = true -> m w = (Ok tt, (m w).2).
Proof. by destruct (m w) as [[[]| |] w']. Qed.

