(* ===== verification/DemoApp.v ===== *)
(** * DemoApp: [crates/wasi-demo-app]

    The demo application, a program with a command as its first argument, and
    the build script that packs it into an image with the builder of
    [OciTar.v].  Files and archives are those of [CtrHost]; the terminal, the
    clock and the parsing of [f64] are the class [Guest]. *)

From S2P Require Import Prelude Async RustStr Store OciTar OciTarBin OciHelpers.
From Stdlib Require Import Ascii.

(** ** The application: [src/main.rs] *)

(** [print!], [eprint!], [sleep] (of the text of a number of seconds),
    [File::create] and [write_all] *)
Class Guest (G : Type) := {
  print : string -> G -> G;
  eprint : string -> G -> G;
  parse_secs : string -> option Z;
  sleep : Z -> G -> option G;
  create_write : string -> string -> M G string unit;
}.

(** [process::exit], or the return from [main] *)
Inductive guest_end := Exited (code : Z) | Ended.

(** [str::parse] at [i32] *)
Definition parse_i32 (s : string) : option Z :=
  match strip_prefix "-" s with
  | Some digits => if starts_with "+" digits then None
                   else (fun n => (- Z.of_N n)%Z) <$> parse_unsigned 2147483648 digits
  | None => Z.of_N <$> parse_unsigned 2147483647 s
  end.

Definition song : string :=
  "This is a song that never ends." +:+ str_of_char newline +:+ "Yes, it goes on and on my friends." +:+
  str_of_char newline +:+ "Some people started singing it not knowing what it was," +:+ str_of_char newline +:+
  "So they'll continue singing it forever just because..." +:+ str_of_char newline.

Lemma parse_i32_pretty z : (- 2 ^ 31 <= z < 2 ^ 31)%Z -> parse_i32 (pretty z) = Some z.
Proof.
  intros Hz. unfold parse_i32. destruct z as [|p|p]; [done|..].
  - change (pretty (Z.pos p)) with (pretty (N.pos p)).
    assert (strip_prefix "-" (pretty (N.pos p)) = None) as -> by exact (pretty_not_prefixed "-" (N.pos p) eq_refl).
    by rewrite parse_unsigned_pretty by lia.
  - change (pretty (Z.neg p)) with (String "-" (pretty (N.pos p))). simpl.
    unfold starts_with. rewrite (pretty_not_prefixed "+" (N.pos p) eq_refl : strip_prefix "+" _ = _). rewrite bool_decide_eq_false_2 by (by intros []).
    by rewrite parse_unsigned_pretty by lia.
Qed.

Section app.
Context {G : Type} `{!Guest G}.

Definition say_line (s : string) : async G string unit := atomic (fun g => (tt, print (s +:+ str_of_char newline) g)).
Definition say_error (s : string) : async G string unit := atomic (fun g => (tt, eprint (s +:+ str_of_char newline) g)).
Definition sleep_for (d : Z) : async G string unit := await (fun g => g' ← sleep d g; Some (tt, g')).

(** [args[i]] *)
Definition arg (args : list string) (i : nat) : async G string string :=
  Done (match args !! i with Some a => Ok a | None => Panic end).

(** [Result::unwrap] of a parse *)
Definition parsed {A} (o : option A) : async G string A := Done (match o with Some a => Ok a | None => Panic end).

(** [loop { .. }], for a number of verses; it is pending after them. *)
Fixpoint daemon (verses : nat) : async G string guest_end :=
  match verses with
  | O => await (fun _ => None)
  | S verses' =>
      let* _ := say_line song in
      let* _ := sleep_for 1000000000 in
      daemon verses'
  end.

(** [main], with the arguments of the process *)
Definition main (verses : nat) (args : list string) : async G string guest_end :=
  let cmd := default "daemon"%string (args !! 1) in
  if decide (cmd = "echo") then
    let* _ := say_line (join " " (drop 2 args)) in
    let* _ := say_error "exiting" in aret Ended
  else if decide (cmd = "sleep") then
    let* a := arg args 2 in
    let* d := parsed (parse_secs a) in
    let* _ := sleep_for d in
    let* _ := say_error "exiting" in aret Ended
  else if decide (cmd = "exit") then
    let* a := arg args 2 in
    let* code := parsed (parse_i32 a) in
    aret (Exited code)
  else if decide (cmd = "write") then
    let* a := arg args 2 in
    let* _ := alift (munwrap (create_write a (join " " (drop 3 args)))) in
    let* _ := say_error "exiting" in aret Ended
  else if decide (cmd = "daemon") then daemon verses
  else
    let* a := arg args 1 in
    let* _ := say_error ("unknown command: " +:+ a) in
    aret (Exited 1).
End app.

(** ** The image: [build.rs] *)

(** [env::var]; [tar::Builder::new(File::create(p))] with one
    [append_path_with_name], closed at its end; [std::fs::rename]. *)
Class BundleHost (W : Type) := {
  env_var : string -> W -> option string;
  tar_file : string -> string -> string -> M W string unit;
  rename : string -> string -> M W string unit;
}.

Section build.
Context {W T : Type} `{!TarWriter T} `{!CtrHost W T} `{!BundleHost W} `{!ConfigJson}.

Definition unwrap_opt {A} (o : option A) : M W string A := mlift (match o with Some a => Ok a | None => Panic end).

(** The directory of the binaries, three levels above [OUT_DIR] *)
Definition bin_output_dir (out_dir : string) : M W string string :=
  let! p := unwrap_opt (path_parent out_dir) in
  let! p := unwrap_opt (path_parent p) in
  unwrap_opt (path_parent p).

Definition app_image (layer_digest : string) : ImageConfiguration :=
  MkImageConfiguration ["/wasi-demo-app.wasm"%string] ∅ "wasip1" "wasm" ["sha256:" +:+ layer_digest].

Definition app_image_name : string := "ghcr.io/containerd/runwasi/wasi-demo-app:latest".

(** [main], with the feature [oci-v1-tar] *)
Definition build_main : M W string unit :=
  let! out_dir := (fun w => unwrap_opt (env_var "OUT_DIR" w) w) in
  let p := path_join out_dir "img.tar" in
  let! bin := bin_output_dir out_dir in
  let app_path := path_join bin "wasi-demo-app.wasm" in
  let layer_path := path_join out_dir "layer.tar" in
  let! _ := munwrap (tar_file layer_path app_path "wasi-demo-app.wasm") in
  let builder := add_layer layer_path empty_builder in
  let! layer_digest := munwrap (fun w => (@try_digest (oci_lib w) layer_path, w)) in
  let builder := add_config (app_image layer_digest) app_image_name ImageConfig builder in
  let! _ := munwrap (write_tar builder p) in
  munwrap (rename p (path_join bin "img.tar")).
End build.

(** [try_digest] is the SHA-256 of the file, and a file that was renamed is the
    same archive. *)
Class BundleFileLaws (W T : Type) `{!TarWriter T} `{!CtrHost W T} `{!CtrLaws W T} `{!BundleHost W} : Prop := {
  digest_reads w p d : @try_digest (oci_lib w) p = Ok d -> exists s, file p w = Some s /\ d = @digest (oci_lib w) s;
  digest_function w w' s : @digest (oci_lib w) s = @digest (oci_lib w') s;
  renamed p q w w' : rename p q w = (Ok tt, w') -> stored q w' = stored p w;
}.

(** ** Properties *)

(** The code of the command [exit] is the exit code of the application, for
    every [i32]; without a number the application panics. *)
Theorem app_exits_as_told {G : Type} `{!Guest G} (verses : nat) (name : string) (code : Z) (rest : list string) (g : G) :
  (- 2 ^ 31 <= code < 2 ^ 31)%Z ->
  exec (main verses (name :: "exit"%string :: pretty code :: rest)) g = (Some (Ok (Exited code)), g) /\
  exec (main verses [name; "exit"%string]) g = (Some Panic, g).
Proof.
  intros Hc. split; [|done]. unfold main. simpl. by rewrite parse_i32_pretty.
Qed.

(** A build that succeeds leaves the image of the application in the
    directory of the binaries: a complete archive with one layer, whose
    configuration names that very layer by the digest of its content. *)
Theorem demo_image_is_complete {W T : Type} `{!TarWriter T} `{!TarLaws T} `{!CtrHost W T} `{!CtrLaws W T} `{!BundleHost W}
    `{!ConfigJson} `{!BundleFileLaws W T} (w w' : W) :
  build_main w = (Ok tt, w') ->
  exists out_dir bin w1 es s, stored (path_join bin "img.tar") w' = Some es /\
    file (path_join out_dir "layer.tar") w1 = Some s /\
    let img := app_image (@digest (oci_lib w1) s) in
    @complete_archive _ _ (oci_lib w1) img app_image_name ImageConfig [(path_join out_dir "layer.tar", EmptyString)] [] es /\
    diff_ids img = [@sha256_of (oci_lib w1) s].
Proof.
  intros (out_dir & u1 & _ & Hrun)%mbind_ok. apply mbind_ok in Hrun as (bin & u2 & _ & Hrun).
  apply mbind_ok in Hrun as ([] & u3 & _ & Hrun). apply mbind_ok in Hrun as (d & u4 & Hd%munwrap_ok & Hrun).
  injection Hd as Hd <-. apply mbind_ok in Hrun as ([] & u5 & Hw%munwrap_ok & Hr%munwrap_ok).
  apply write_tar_ok in Hw as (w1 & es & Hk & Hst & Hc). apply digest_reads in Hd as (s & Hs & ->).
  exists out_dir, bin, w1, es, s. rewrite (digest_function w1 u3 s). cbv zeta. split_and!.
  - by rewrite (renamed _ _ _ _ Hr).
  - rewrite Hk; [done|]. intros Heq%path_join_inj; done.
  - exact Hc.
  - unfold app_image, sha256_of. simpl. by rewrite (digest_function w1 u3 s).
Qed.

(** ** The examples: the machine of [OciHelpers.v] *)

#[export] Instance demo_bundle_host : BundleHost DemoMachine := {
  env_var k _ := if decide (k = "OUT_DIR") then Some "/t/debug/build/app/out"%string else None;
  tar_file p q n m := (Ok tt, MkDemoMachine (<[p := n +:+ q]> (files m)) (tars m) (clock m) (commands m));
  rename p q m :=
    match tars m !! p with
    | Some t => (Ok tt, MkDemoMachine (files m) (<[q := t]> (base.delete p (tars m))) (clock m) (commands m))
    | None => (Err "not found"%string, m)
    end;
}.

#[export] Instance demo_bundle_file_laws : BundleFileLaws DemoMachine (list Entry).
Proof.
  split; simpl; [|done|].
  - intros w p d. unfold demo_read. destruct (files w !! p) as [s|]; simpl; [|done]. intros [= <-]. by exists s.
  - intros p q w w'. destruct (tars w !! p) as [t|] eqn:Ht; [|done]. intros [= <-]. simpl.
    apply lookup_insert_eq.
Qed.

Lemma demo_image_is_complete_witness :
  exists out bin w1 es s, tars (build_main demo_machine).2 !! path_join bin "img.tar" = Some es /\
    file (path_join out "layer.tar") w1 = Some s /\ diff_ids (app_image (pretty (String.length s))) = [@sha256_of (oci_lib w1) s].
Proof.
  destruct (demo_image_is_complete (W := DemoMachine) demo_machine (build_main demo_machine).2)
    as (out & bin & w1 & es & s & Hst & Hs & _ & Hd); [by vm_compute|].
  exists out, bin, w1, es, s. split_and!; [exact Hst|exact Hs|exact Hd].
Defined.

#[export] Instance demo_guest : Guest unit := {
  print _ g := g;
  eprint _ g := g;
  parse_secs _ := Some 1%Z;
  sleep _ g := Some g;
  create_write _ _ := mret tt;
}.

Lemma app_exits_as_told_witness : exec (main 0 ["app"; "exit"; "-7"]%string) tt = (Some (Ok (Exited (-7))), tt).
Proof. apply (app_exits_as_told 0 "app" (-7) [] tt). lia. Defined.
