(* ===== verification/StressClient.v ===== *)
(** * StressClient: [crates/stress-test/src/containerd/client.rs]

    The client of containerd of the stress test: all its requests carry the
    namespace and the lease of the client, which is given up when the last
    clone of the client is dropped.  The services of containerd are the class
    [Services], the JSON of images and specs and SHA-256 are [ImageJson]. *)

From S2P Require Import Prelude RustStr.

(** The metadata of a request *)
Record Metadata := MkMetadata { containerd_namespace : string; containerd_lease : option string }.

(** [containerd_client::types::Mount] *)
Record Mount := MkMount { mount_type : string; mount_source : string; mount_target : string; mount_options : list string }.

(** One message of the stream of a read *)
Record Content := MkContent { content_offset : Z; content_data : bytes }.

(** [oci_spec]'s [Arch], the values told apart; [ImageIndex], [ImageManifest]
    and [ImageConfiguration], the fields used *)
Inductive Arch := Amd64 | ARM64 | OtherArch.

Record IndexEntry := MkIndexEntry { entry_digest : string; entry_arch : option Arch }.

Record ImageConfiguration := MkImageConfiguration {
  diff_ids : list string;
  config_entrypoint : option (option (list string));
}.

Class ImageJson := {
  sha256 : string -> string;
  image_index : bytes -> outcome string (list IndexEntry);
  image_manifest : bytes -> outcome string string;
  image_configuration : bytes -> outcome string ImageConfiguration;
  (** [cfg!(target_arch = ..)] *)
  target_arch : Arch;
}.

(** [CreateContainerRequest], [CreateTaskRequest] and [KillRequest], the fields
    set; [Spec] is the text of the JSON of the spec. *)
Record CreateContainer := MkCreateContainer {
  cc_id : string; cc_image : string; cc_runtime : string; cc_type_url : string; cc_spec : string;
}.

Record CreateTask := MkCreateTask {
  ct_container_id : string; ct_rootfs : list Mount; ct_stdout : string; ct_stderr : string;
}.

Record KillTask := MkKillTask { kt_container_id : string; kt_signal : Z; kt_all : bool }.

Class Services (W Channel : Type) := {
  connect_channel : string -> M W string Channel;
  (** whether a text is a value of a header *)
  valid_metadata : string -> bool;
  expiry_24h : W -> string;
  leases_create : Channel -> Metadata -> gmap string string -> M W string (option string);
  leases_delete : Channel -> Metadata -> string -> M W string unit;
  content_read : Channel -> Metadata -> string -> M W string (list (outcome string Content));
  images_get : Channel -> Metadata -> string -> M W string (option (option string));
  snapshots_prepare : Channel -> Metadata -> string -> string -> string -> M W string (list Mount);
  containers_create : Channel -> Metadata -> CreateContainer -> M W string unit;
  tasks_create : Channel -> Metadata -> CreateTask -> M W string unit;
  tasks_start : Channel -> Metadata -> string -> M W string unit;
  tasks_wait : Channel -> Metadata -> string -> M W string Z;
  tasks_kill : Channel -> Metadata -> KillTask -> M W string unit;
  tasks_delete : Channel -> Metadata -> string -> M W string unit;
  containers_delete : Channel -> Metadata -> string -> M W string unit;
}.

(** [struct ClientInner] *)
Record ClientInner (Channel : Type) := MkInner { channel : Channel; namespace : string; lease : string }.
Arguments MkInner {Channel}.
Arguments channel {Channel}.
Arguments namespace {Channel}.
Arguments lease {Channel}.

(** [chain_id] *)
Section chain.
Context `{!ImageJson}.

Definition chain_step (chain_id digest : string) : string :=
  "sha256:" +:+ sha256 (chain_id +:+ " " +:+ digest).

Definition chain_id (digests : list string) : string :=
  foldl chain_step (default EmptyString (head digests)) (tail digests).
End chain.

Section client.
Context {W Channel : Type} `{!Services W Channel} `{!ImageJson}.
Implicit Types self : ClientInner Channel.

(** *** [ClientInner] *)

(** [with_metadata]; the two [unwrap]s panic on a text that is no header value. *)
Definition with_metadata self : outcome string Metadata :=
  if valid_metadata (namespace self) then
    if is_empty (lease self) then Ok (MkMetadata (namespace self) None)
    else if valid_metadata (lease self) then Ok (MkMetadata (namespace self) (Some (lease self)))
    else Panic
  else Panic.

(** A request of a service with the metadata of the client *)
Definition request {A} self (call : Channel -> Metadata -> M W string A) : M W string A :=
  let! meta := mlift (with_metadata self) in call (channel self) meta.

(** [ClientInner::connect] *)
Definition inner_connect (socket ns : string) : M W string (ClientInner Channel) :=
  let! channel := connect_channel socket in
  mret (MkInner channel ns EmptyString).

(** [with_lease] *)
Definition with_lease self : M W string (ClientInner Channel) :=
  let! expiry := mget expiry_24h in
  let! lease := request self (fun c meta =>
                  leases_create c meta {["containerd.io/gc.expire"%string := expiry]}) in
  let! id := mlift (ok_or lease "creating lease") in
  mret (MkInner (channel self) (namespace self) id).

(** [drop_lease]: the lease is taken out of the client before the request. *)
Definition drop_lease self : M W string (ClientInner Channel) :=
  if is_empty (lease self) then mret self
  else
    let taken := MkInner (channel self) (namespace self) EmptyString in
    let! _ := request taken (fun c meta => leases_delete c meta (lease self)) in
    mret taken.

(** [Drop for ClientInner] *)
Definition drop_inner self (w : W) : W := (drop_lease self w).2.

(** One message of [read_content]; [offset as usize]. *)
Definition read_message (data : bytes) (m : outcome string Content) : outcome string bytes :=
  let? content := m in
  if decide (content_offset content mod 2 ^ 64 = Z.of_nat (length data))%Z
  then Ok (data ++ content_data content)
  else Err "bad offset!".

Fixpoint read_messages (data : bytes) (ms : list (outcome string Content)) : outcome string bytes :=
  match ms with
  | [] => Ok data
  | m :: ms' => let? data := read_message data m in read_messages data ms'
  end.

(** [read_content] *)
Definition read_content self (digest : string) : M W string bytes :=
  let! response := request self (fun c meta => content_read c meta digest) in
  mlift (read_messages [] response).

(** The test on the platform of an entry of an index *)
Definition host_platform (m : IndexEntry) : bool :=
  match entry_arch m, target_arch with
  | Some Amd64, Amd64 | Some ARM64, ARM64 => true
  | _, _ => false
  end.

(** The manifest of a multiplatform image is that of the host. *)
Definition platform_manifest self (manifest : bytes) : M W string bytes :=
  match image_index manifest with
  | Ok index =>
      let! descriptor := mlift (ok_or (snd <$> list_find (fun m => host_platform m = true) index)
                                  "host platform not supported") in
      read_content self (entry_digest descriptor)
  | _ => mret manifest
  end.

(** [image_config] *)
Definition image_config self (image : string) : M W string ImageConfiguration :=
  let! response := request self (fun c meta => images_get c meta image) in
  let! image := mlift (ok_or response "Could not find image") in
  let! descriptor := mlift (ok_or image "Could not find image descriptor") in
  let! manifest := read_content self descriptor in
  let! manifest := platform_manifest self manifest in
  let! config_digest := mlift (image_manifest manifest) in
  let! config := read_content self config_digest in
  mlift (image_configuration config).

(** [snapshot] *)
Definition snapshot self (id parent : string) : M W string (list Mount) :=
  request self (fun c meta => snapshots_prepare c meta id parent "overlayfs").

(** [create_container], [create_task], [start_task], [wait_task], [kill_task],
    [delete_task] and [delete_container] *)
Definition create_container self (id image runtime spec : string) : M W string unit :=
  request self (fun c meta => containers_create c meta
    (MkCreateContainer id image runtime "types.containerd.io/opencontainers/runtime-spec/1/Spec" spec)).

Definition create_task self (id : string) (mounts : list Mount) (stdout stderr : string) : M W string unit :=
  request self (fun c meta => tasks_create c meta (MkCreateTask id mounts stdout stderr)).

Definition start_task self (id : string) : M W string unit :=
  request self (fun c meta => tasks_start c meta id).

Definition wait_task self (id : string) : M W string Z :=
  request self (fun c meta => tasks_wait c meta id).

Definition kill_task self (id : string) : M W string unit :=
  request self (fun c meta => tasks_kill c meta (MkKillTask id 9 true)).

Definition delete_task self (id : string) : M W string unit :=
  request self (fun c meta => tasks_delete c meta id).

Definition delete_container self (id : string) : M W string unit :=
  request self (fun c meta => containers_delete c meta id).

(** *** [Client] *)

(** [Client::connect]: the client without a lease is dropped, which sends
    nothing. *)
Definition connect (socket ns : string) : M W string (ClientInner Channel) :=
  let! inner := inner_connect socket ns in
  with_lease inner.

Definition default_client : M W string (ClientInner Channel) :=
  connect "/run/containerd/containerd.sock" "default".

(** [Client::get_mounts] *)
Definition get_mounts self (id image : string) : M W string (list Mount) :=
  let! config := image_config self image in
  snapshot self id (chain_id (diff_ids config)).

(** [Client::entrypoint] *)
Definition entrypoint self (image : string) : M W string (list string) :=
  let! config := image_config self image in
  mret match config_entrypoint config with
       | Some (Some entrypoint) => entrypoint
       | _ => []
       end.
End client.

(** ** Lemmas *)

Lemma chain_id_snoc `{!ImageJson} d ds e :
  chain_id ((d :: ds) ++ [e]) = chain_step (chain_id (d :: ds)) e.
Proof. unfold chain_id. simpl. by rewrite foldl_app. Qed.

(** The messages of a stream with the contents [cs], one after the other *)
Fixpoint in_order (offset : Z) (cs : list bytes) : list (outcome string Content) :=
  match cs with
  | [] => []
  | c :: cs' => Ok (MkContent offset c) :: in_order (offset + Z.of_nat (length c)) cs'
  end.

(** The offset of every message is that of a stream of at most 2^63 bytes. *)
Definition plain_offset (m : outcome string Content) : Prop :=
  match m with Ok c => (0 <= content_offset c < 2 ^ 63)%Z | _ => True end.

Definition message_length (m : outcome string Content) : nat :=
  match m with Ok c => length (content_data c) | _ => 0 end.

Lemma read_messages_in_order ms data0 data :
  Forall plain_offset ms ->
  (Z.of_nat (length data0) + Z.of_nat (sum_list (message_length <$> ms)) < 2 ^ 63)%Z ->
  read_messages data0 ms = Ok data <->
  exists cs, ms = in_order (Z.of_nat (length data0)) cs /\ data = data0 ++ concat cs.
Proof.
  intros Hms. revert data0. induction Hms as [|m ms Hm Hms IH]; intros data0 Hlen.
  - simpl. split; [intros [= <-]; exists []; by rewrite app_nil_r|].
    intros ([|c cs] & Hcs & ->); [by rewrite app_nil_r|done].
  - destruct m as [c|e|]; simpl; [|split; [done|by intros ([|??] & ? & _)]..].
    rewrite fmap_cons in Hlen. simpl in Hm, Hlen. unfold read_message. simpl.
    rewrite Z.mod_small by lia. destruct (decide _) as [Ho|Ho]; simpl.
    + rewrite IH by (rewrite length_app; lia). rewrite length_app, Nat2Z.inj_add. split.
      * intros (cs & -> & ->). exists (content_data c :: cs). simpl. rewrite <- Ho, <- app_assoc.
        split; [|done]. by destruct c.
      * intros ([|d cs] & Hcs & ->); [done|]. simpl in Hcs. injection Hcs as -> ->. exists cs. simpl.
        by rewrite <- app_assoc.
    + split; [done|]. intros ([|d cs] & Hcs & ->); [done|]. simpl in Hcs. by injection Hcs as -> _.
Qed.

(** The chain id of the OCI image specification, by recursion on the last
    layer: [ChainID(L0|...|Ln) = Digest(ChainID(L0|...|Ln-1) + " " + DiffID(Ln))]. *)
Fixpoint oci_chain_id `{!ImageJson} (last_first : list string) : string :=
  match last_first with
  | [] => EmptyString
  | [d] => d
  | d :: before => "sha256:" +:+ sha256 (oci_chain_id before +:+ " " +:+ d)
  end.

(** ** Images for the examples

    The hash of a text is the text in brackets. *)

#[export] Instance demo_image_json : ImageJson := {
  sha256 s := "[" +:+ s +:+ "]";
  image_index _ := Err "not an index"%string;
  image_manifest _ := Err "not a manifest"%string;
  image_configuration _ := Err "not a configuration"%string;
  target_arch := Amd64;
}.

Example demo_chain : chain_id ["a"; "b"; "c"]%string = "sha256:[sha256:[a b] c]"%string.
Proof. by vm_compute. Qed.

(** ** Properties *)

(** C33: [chain_id] is the chain id of the OCI image specification. *)
Theorem chain_id_is_oci `{!ImageJson} (ds : list string) : chain_id ds = oci_chain_id (rev ds).
Proof.
  induction ds as [|d ds IH] using rev_ind; [done|]. rewrite rev_app_distr. simpl.
  destruct ds as [|d0 ds]; [done|]. rewrite chain_id_snoc, IH.
  destruct (rev (d0 :: ds)) as [|e l] eqn:Hr; [|done].
  apply (f_equal length) in Hr. by rewrite length_rev in Hr.
Qed.

(** C34: reading gives back what was split: the messages of a content in order
    and without gaps give its bytes, and no other stream of messages is
    accepted. *)
Theorem read_messages_roundtrip (ms : list (outcome string Content)) (data : bytes) :
  Forall plain_offset ms -> (Z.of_nat (sum_list (message_length <$> ms)) < 2 ^ 63)%Z ->
  read_messages [] ms = Ok data <-> exists cs, ms = in_order 0 cs /\ data = concat cs.
Proof. intros Hms Hlen. by apply read_messages_in_order. Qed.

Lemma read_messages_roundtrip_witness :
  read_messages [] (in_order 0 ([Byte.x61; Byte.x62] :: [[Byte.x63]])) = Ok (Byte.x61 :: Byte.x62 :: [Byte.x63]) /\
  forall data, read_messages [] [Ok (MkContent 1 [Byte.x61])] ≠ Ok data.
Proof.
  split.
  - apply read_messages_roundtrip; [repeat constructor; simpl; lia|by vm_compute|by eexists].
  - intros data Hd. apply read_messages_roundtrip in Hd as ([|c cs] & Hcs & _);
      [done|done|repeat constructor; simpl; lia|by vm_compute].
Defined.
