(* ===== verification/StressTest.v ===== *)
(** * StressTest: [crates/stress-test/src/main.rs] and [traits.rs]

    The stress test sets up [count] tasks, lets them pass a barrier together,
    runs them with a bounded number of concurrent starts, and reports their
    throughput.  containerd, the shim and the tasks are the class [Stress]
    (the traits of [traits.rs]); the barrier and the semaphore of tokio are
    [Sync].

    Thread 0 is [run_stress_test]; thread [i + 1] is the future of task [i],
    which waits until it is in the tracker.  Its local variables are in the
    entry of the tracker.  The progress on the terminal is not modelled. *)

From S2P Require Import Prelude RustStr Async.
From Stdlib Require Import Ascii.

(** [tokio::sync::Semaphore] and [Barrier].  [acquire] is pending without a
    permit; [arrive] is the start of a wait and [passed] whether it is over. *)
Class Sync (Sem Bar Tok : Type) := {
  semaphore_new : nat -> Sem;
  acquire : Sem -> option Sem;
  release : Sem -> Sem;
  available : Sem -> nat;
  barrier_new : nat -> Bar;
  arrive : Bar -> Tok * Bar;
  passed : Bar -> Tok -> bool;
  barrier_size : Bar -> nat;
  arrivals : Bar -> nat;
}.

(** What their documentation states *)
Class SyncLaws (Sem Bar Tok : Type) `{!Sync Sem Bar Tok} : Prop := {
  available_new n : available (semaphore_new n) = n;
  available_acquire s s' : acquire s = Some s' -> available s = S (available s');
  available_release s : available (release s) = S (available s);
  size_new n : barrier_size (barrier_new n) = n;
  size_arrive b : barrier_size (arrive b).2 = barrier_size b;
  arrivals_new n : arrivals (barrier_new n) = 0;
  arrivals_arrive b : arrivals (arrive b).2 = S (arrivals b);
  passed_full b t : passed b t = true -> barrier_size b <= arrivals b;
}.

(** The traits, and [ctrl_c], [sleep], the clock, and the report *)
Class Stress (W Shim T Instant Duration F : Type) := {
  start_shim : string -> async W string Shim;
  shim_task : Shim -> string -> list string -> async W string T;
  create : T -> async W string unit;
  start : T -> async W string unit;
  wait : T -> async W string unit;
  delete : T -> async W string unit;
  (** [Drop] of a task and of a shim *)
  drop_task : T -> async W string unit;
  drop_shim : Shim -> async W string unit;
  ctrl_c : W -> option W;
  sleep : Duration -> W -> option W;
  is_zero : Duration -> bool;
  now : W -> Instant;
  elapsed : Instant -> W -> Duration;
  format_duration : Duration -> string;
  throughput : nat -> Duration -> F;
  write_json : string -> string -> string -> F -> string -> M W string unit;
}.

(** [struct Cli], the fields [run_stress_test] uses *)
Record Cli (Duration : Type) := MkCli {
  containerd : bool;
  parallel : nat;
  count : nat;
  timeout : Duration;
  image : string;
  json_output : option string;
  shim : string;
  cli_args : list string;
}.
Arguments MkCli {Duration}.
Arguments containerd {Duration}.
Arguments parallel {Duration}.
Arguments count {Duration}.
Arguments timeout {Duration}.
Arguments image {Duration}.
Arguments json_output {Duration}.
Arguments shim {Duration}.
Arguments cli_args {Duration}.

(** A future of the tracker: its locals [task], the wait on the barrier and the
    permit, its result, and whether [next] has yielded it. *)
Record Entry (T Tok : Type) := MkEntry {
  local_task : option T;
  ticket : option Tok;
  permit : bool;
  result : option (outcome string unit);
  yielded : bool;
}.
Arguments MkEntry {T Tok}.
Arguments local_task {T Tok}.
Arguments ticket {T Tok}.
Arguments permit {T Tok}.
Arguments result {T Tok}.
Arguments yielded {T Tok}.

(** The state the futures share: [shim], the semaphore, the barrier, the
    [start] cell, the tracker, and the wait [setup_done] of [run_stress_test]. *)
Record Bench (W Shim T Sem Bar Tok Instant : Type) := MkBench {
  os : W;
  the_shim : option Shim;
  semaphore : Sem;
  barrier : Bar;
  start_cell : option Instant;
  tracker : list (Entry T Tok);
  setup_done : option Tok;
}.
Arguments MkBench {W Shim T Sem Bar Tok Instant}.
Arguments os {W Shim T Sem Bar Tok Instant}.
Arguments the_shim {W Shim T Sem Bar Tok Instant}.
Arguments semaphore {W Shim T Sem Bar Tok Instant}.
Arguments barrier {W Shim T Sem Bar Tok Instant}.
Arguments start_cell {W Shim T Sem Bar Tok Instant}.
Arguments tracker {W Shim T Sem Bar Tok Instant}.
Arguments setup_done {W Shim T Sem Bar Tok Instant}.

(** The branches of the [select!] of the loop: [tracker.next()] with the future
    that it yields, and a poll of [setup_done] that finds it pending. *)
Inductive Branch := BPoll | BSetup | BWatchdog | BCtrlC | BNext (i : nat).

(** The locals of the loop; [terminated] is that of [setup_done]. *)
Record Counters := MkCounters { incomplete : nat; success : nat; failed : nat; terminated : bool }.

Definition dash : ascii := "-"%char.

(** [get_runtime] *)
Definition get_runtime (path : string) : option string :=
  name ← file_name path;
  rest ← strip_prefix "containerd-shim-" name;
  '(runtime, _) ← split_once dash rest;
  Some runtime.

Section stress.
Context {W Shim T Sem Bar Tok Instant Duration F : Type}.
Context `{!Sync Sem Bar Tok} `{!Stress W Shim T Instant Duration F}.
Abbreviation Bn := (Bench W Shim T Sem Bar Tok Instant).
Abbreviation Entry := (Entry T Tok).
Abbreviation Cli := (Cli Duration).

(** *** Access to the state *)

Definition with_os (w : W) (s : Bn) : Bn :=
  MkBench w (the_shim s) (semaphore s) (barrier s) (start_cell s) (tracker s) (setup_done s).
Definition with_tracker (t : list Entry) (s : Bn) : Bn :=
  MkBench (os s) (the_shim s) (semaphore s) (barrier s) (start_cell s) t (setup_done s).

Definition on_os {E A} (p : async W E A) : async Bn E A := zoom (fun s => Some (os s)) with_os p.

Definition set_entry (i : nat) (f : Entry -> Entry) (s : Bn) : Bn :=
  match tracker s !! i with Some e => with_tracker (<[i := f e]> (tracker s)) s | None => s end.

(** *** The future of task [i] *)

(** [let task = shim.task(image, args).await?] *)
Definition set_up (i : nat) (cli : Cli) : async Bn string T :=
  let* sh := await (fun s => sh ← the_shim s; Some (sh, s)) in
  let* task := on_os (shim_task sh (image cli) (cli_args cli)) in
  let* _ := atomic (fun s => (tt, set_entry i (fun e =>
    MkEntry (Some task) (ticket e) (permit e) (result e) (yielded e)) s)) in
  aret task.

(** [barrier.wait().await] *)
Definition arrive_entry (i : nat) (s : Bn) : Bn :=
  let '(k, b) := arrive (barrier s) in
  set_entry i (fun e => MkEntry (local_task e) (Some k) (permit e) (result e) (yielded e))
    (MkBench (os s) (the_shim s) (semaphore s) b (start_cell s) (tracker s) (setup_done s)).

Definition entry_passed (i : nat) (s : Bn) : option (unit * Bn) :=
  e ← tracker s !! i; k ← ticket e;
  if passed (barrier s) k then Some (tt, s) else None.

Definition wait_barrier (i : nat) : async Bn string unit :=
  let* _ := atomic (fun s => (tt, arrive_entry i s)) in
  await (entry_passed i).

(** [semaphore.acquire_owned()] and the drop of the permit *)
Definition with_permit (i : nat) (b : bool) (sem : Sem) (s : Bn) : Bn :=
  set_entry i (fun e => MkEntry (local_task e) (ticket e) b (result e) (yielded e))
    (MkBench (os s) (the_shim s) sem (barrier s) (start_cell s) (tracker s) (setup_done s)).

Definition acquire_permit (i : nat) : async Bn string unit :=
  await (fun s => sem ← acquire (semaphore s); Some (tt, with_permit i true sem s)).

Definition drop_permit (i : nat) (s : Bn) : Bn := with_permit i false (release (semaphore s)) s.

(** [let _ = start.set(Instant::now())] *)
Definition set_start (s : Bn) : Bn :=
  match start_cell s with
  | Some _ => s
  | None => MkBench (os s) (the_shim s) (semaphore s) (barrier s) (Some (now (os s))) (tracker s) (setup_done s)
  end.

(** From the barrier to the end; [drop_permit] also runs when the permit is
    dropped by an error, and the task is dropped at the end in any case. *)
Definition run_task (i : nat) (task : T) : async Bn string unit :=
  adefer (
    let* _ := wait_barrier i in
    let* _ := acquire_permit i in
    let* _ := afinally (
                let* _ := atomic (fun s => (tt, set_start s)) in
                let* _ := on_os (create task) in
                on_os (start task)) (drop_permit i) in
    let* _ := on_os (wait task) in
    on_os (delete task))
  (on_os (drop_task task)).

Definition task_future (i : nat) (cli : Cli) : async Bn string unit :=
  let* task := set_up i cli in run_task i task.

Definition record_result (i : nat) (r : outcome string unit) (s : Bn) : Bn :=
  set_entry i (fun e => MkEntry (local_task e) (ticket e) (permit e) (Some r) (yielded e)) s.

Definition task_thread (cli : Cli) (i : nat) : async Bn string unit :=
  let* _ := await (fun s => e ← tracker s !! i; Some (e, s)) in
  aend (task_future i cli) (record_result i).

(** *** [run_stress_test] *)

Definition pending {A} : async Bn string A := await (fun _ => None).

(** [tracker.push(..)] *)
Definition push (s : Bn) : Bn := with_tracker (tracker s ++ [MkEntry None None false None false]) s.

Fixpoint push_all (n : nat) : async Bn string unit :=
  match n with
  | 0 => aret tt
  | S n' => let* _ := atomic (fun s => (tt, push s)) in push_all n'
  end.

(** A poll of [setup_done]: the first one starts the wait on the barrier. *)
Definition poll_setup (s : Bn) : Bn :=
  match setup_done s with
  | Some _ => s
  | None =>
      let '(k, b) := arrive (barrier s) in
      MkBench (os s) (the_shim s) (semaphore s) b (start_cell s) (tracker s) (Some k)
  end.

Definition main_passed (s : Bn) : option (unit * Bn) :=
  k ← setup_done s; if passed (barrier s) k then Some (tt, s) else None.

(** [tracker.next()] *)
Definition next (i : nat) (s : Bn) : option (option (outcome string unit) * Bn) :=
  if forallb yielded (tracker s) then Some (None, s)
  else
    e ← tracker s !! i; r ← result e;
    if yielded e then None
    else Some (Some r, set_entry i (fun e =>
      MkEntry (local_task e) (ticket e) (permit e) (result e) true) s).

(** [watchdog] *)
Definition watchdog (d : Duration) : async Bn string unit :=
  if is_zero d then pending
  else on_os (let* _ := await (fun w => w' ← sleep d w; Some (tt, w')) in aret tt).

(** The loop; [branches] are the branches that [select!] takes, and the loop is
    pending for ever after the last one. *)
Fixpoint wait_loop (branches : list Branch) (cli : Cli) (c : Counters) : async Bn string Counters :=
  match branches with
  | [] => pending
  | BPoll :: bs =>
      if terminated c then pending
      else let* _ := atomic (fun s => (tt, poll_setup s)) in wait_loop bs cli c
  | BSetup :: bs =>
      if terminated c then pending
      else
        let* _ := atomic (fun s => (tt, poll_setup s)) in
        let* _ := await main_passed in
        wait_loop bs cli (MkCounters (incomplete c) (success c) (failed c) true)
  | BWatchdog :: _ =>
      if terminated c then let* _ := watchdog (timeout cli) in aret c else pending
  | BCtrlC :: _ =>
      let* _ := on_os (let* _ := await (fun w => w' ← ctrl_c w; Some (tt, w')) in aret tt) in aret c
  | BNext i :: bs =>
      let* res := await (next i) in
      match res with
      | None => aret c
      | Some (Ok _) =>
          wait_loop bs cli (MkCounters (incomplete c - 1) (S (success c)) (failed c) (terminated c))
      | Some (Err _) =>
          wait_loop bs cli (MkCounters (incomplete c - 1) (success c) (S (failed c)) (terminated c))
      | Some Panic => apanic
      end
  end.

(** The short name of the image in the report *)
Definition image_name (image : string) : string :=
  if decide (image = "ghcr.io/containerd/runwasi/wasi-demo-oci:latest"%string) then "oci"
  else if decide (image = "ghcr.io/containerd/runwasi/wasi-demo-app:latest"%string) then "app"
  else if decide (image = "ghcr.io/containerd/runwasi/wasi-demo-oci-artifact:latest"%string) then "oci-artifact"
  else image.

(** The end of [run_stress_test], after the loop *)
Definition report (cli : Cli) (c : Counters) : async Bn string unit :=
  if decide (success c ≠ count cli) then athrow "Some tasks did not succeed"%string
  else
    let* start := atomic (fun s => (start_cell s, s)) in
    match start with
    | None => apanic
    | Some start =>
        let* d := atomic (fun s => (elapsed start (os s), s)) in
        let shim := default "unknown"%string (get_runtime (shim cli)) in
        let containerd_shim := (if containerd cli then "containerd" else "mock")%string in
        let image := image_name (image cli) in
        match json_output cli with
        | Some path =>
            on_os (alift (write_json path
              ("Stress Test Throughput with " +:+ containerd_shim +:+ " service - " +:+ shim +:+
               " (" +:+ image +:+ ")") "tasks/s" (throughput (count cli) d)
              ("Image: " +:+ image +:+ str_of_char (ascii_of_nat 10) +:+ "Tasks: " +:+ pretty (count cli) +:+
               str_of_char (ascii_of_nat 10) +:+ "Parallel: " +:+ pretty (parallel cli) +:+
               str_of_char (ascii_of_nat 10) +:+ "Duration: " +:+ format_duration d)))
        | None => aret tt
        end
    end.

(** The permits of the semaphore *)
Definition permits (cli : Cli) : nat := if decide (parallel cli = 0) then count cli else parallel cli.

(** From the tracker on *)
Definition run_tasks (branches : list Branch) (cli : Cli) : async Bn string unit :=
  let* _ := push_all (count cli) in
  let* c := wait_loop branches cli (MkCounters (count cli) 0 0 false) in
  report cli c.

(** [run_stress_test]: the shim outlives its tasks; the "pause" container keeps
    it running. *)
Definition run_stress_test (branches : list Branch) (cli : Cli) : async Bn string unit :=
  let* sh := on_os (start_shim (shim cli)) in
  adefer (
    let* pause := on_os (shim_task sh (image cli) (cli_args cli)) in
    adefer (
      let* _ := on_os (create pause) in
      let* _ := atomic (fun s => (tt, MkBench (os s) (Some sh) (semaphore_new (permits cli))
                                     (barrier_new (count cli + 1)) None [] None)) in
      run_tasks branches cli)
    (on_os (drop_task pause)))
  (on_os (drop_shim sh)).
End stress.

(** ** A bench for the examples

    The world has the outcomes of the next set-ups; the rest succeeds. *)

#[export] Instance demo_sync : Sync nat (nat * nat) unit := {
  semaphore_new n := n;
  acquire n := match n with 0 => None | S n' => Some n' end;
  release := S;
  available n := n;
  barrier_new n := (n, 0);
  arrive b := (tt, (b.1, S b.2));
  passed b _ := Nat.leb b.1 b.2;
  barrier_size := fst;
  arrivals := snd;
}.

#[export] Instance demo_sync_laws : SyncLaws nat (nat * nat) unit.
Proof.
  split; try done.
  - by intros [|n] s' [= <-].
  - intros b [] Hb. by apply Nat.leb_le.
Qed.

Definition demo_shim_task (w : list bool) : outcome string unit * list bool :=
  match w with
  | [] => (Ok tt, [])
  | true :: w' => (Ok tt, w')
  | false :: w' => (Err "no image"%string, w')
  end.

#[export] Instance demo_stress : Stress (list bool) unit unit nat nat nat := {
  start_shim _ := aret tt;
  shim_task _ _ _ := alift demo_shim_task;
  create _ := aret tt;
  start _ := aret tt;
  wait _ := aret tt;
  delete _ := aret tt;
  drop_task _ := aret tt;
  drop_shim _ := aret tt;
  ctrl_c _ := None;
  sleep _ w := Some w;
  is_zero d := Nat.eqb d 0;
  now _ := 0;
  elapsed _ _ := 1;
  format_duration := pretty;
  throughput n d := n / d;
  write_json _ _ _ _ _ := mret tt;
}.

Definition demo_cli (count : nat) : Cli nat := MkCli false 1 count 2 "wasi" None "containerd-shim-wasmtime-v1" [].

Example demo_runtime : get_runtime "/usr/bin/containerd-shim-wasmtime-v1" = Some "wasmtime"%string.
Proof. by vm_compute. Qed.

Definition demo_fresh (set_ups : list bool) : Bench (list bool) unit unit nat (nat * nat) unit nat :=
  MkBench set_ups None (semaphore_new 0) (barrier_new 1) None [] None.

(** ** Properties *)

Section properties.
Context {W Shim T Sem Bar Tok Instant Duration F : Type}.
Context `{!Sync Sem Bar Tok} `{!Stress W Shim T Instant Duration F}.
Abbreviation Bn := (Bench W Shim T Sem Bar Tok Instant).

(** The loop without tasks *)
Lemma no_tasks_loop (cli : Cli Duration) branches c (s s' : Bn) r :
  tracker s = [] -> start_cell s = None -> exec (wait_loop branches cli c) s = (Some r, s') ->
  start_cell s' = None /\ exists c', r = Ok c' /\ success c' = success c.
Proof.
  revert c s. induction branches as [|b branches IH]; intros c s Ht Hst; [done|].
  assert (tracker (poll_setup s) = [] /\ start_cell (poll_setup s) = None) as [Htp Hstp].
  { unfold poll_setup. destruct (setup_done s); [done|]. by destruct (arrive (barrier s)). }
  destruct b as [| | | |k]; simpl.
  - destruct (terminated c); [done|]. simpl. by apply IH.
  - destruct (terminated c); [done|]. simpl. unfold main_passed.
    destruct (setup_done (poll_setup s)) as [tk|]; simpl; [|done].
    destruct (passed _ tk); simpl; [|done]. intros Hrun.
    by apply (IH (MkCounters (incomplete c) (success c) (failed c) true)) in Hrun.
  - destruct (terminated c); [|done]. unfold watchdog. destruct (is_zero _); [done|]. simpl.
    destruct (sleep _ _); simpl; [|done]. intros [= <- <-]. eauto.
  - destruct (ctrl_c _); simpl; [|done]. intros [= <- <-]. eauto.
  - unfold next. rewrite Ht. simpl. intros [= <- <-]. eauto.
Qed.

(** With [--count 0] the test cannot end well: however its loop ends, the
    report takes the time since the start of the first task, which does not
    exist, and panics. *)
Theorem no_tasks_panics (cli : Cli Duration) (branches : list Branch) (s s' : Bn) r :
  count cli = 0 -> tracker s = [] -> start_cell s = None ->
  exec (run_tasks branches cli) s = (Some r, s') -> r = Panic.
Proof.
  intros Hn Ht Hst. unfold run_tasks. rewrite Hn. cbn [push_all abind aret]. rewrite exec_abind.
  destruct (exec (wait_loop _ _ _) s) as [[r0|] s1] eqn:Hrun; [|done].
  destruct (no_tasks_loop _ _ _ _ _ _ Ht Hst Hrun) as [Hst' (c & -> & Hc)]. simpl in Hc.
  unfold report. rewrite decide_False by lia. simpl. rewrite Hst'. simpl. by intros [= <- _].
Qed.
End properties.

Lemma no_tasks_panics_witness :
  exists r, (exec (run_tasks [BNext 0] (demo_cli 0)) (demo_fresh [])).1 = Some r /\ r = Panic.
Proof.
  eexists. split; [by vm_compute|].
  by apply (no_tasks_panics (demo_cli 0) [BNext 0] (demo_fresh [])
    (exec (run_tasks [BNext 0] (demo_cli 0)) (demo_fresh [])).2).
Defined.
