(* ===== verification/StressRuns.v ===== *)
(** * StressRuns: every interleaving of the stress test

    The threads of [StressTest.v]: how many tasks hold a permit, when the test
    succeeds, and what a task whose set-up failed does to the others. *)

From S2P Require Import Prelude RustStr Async StressTest.

Section runs.
Context {W Shim T Sem Bar Tok Instant Duration F : Type}.
Context `{!Sync Sem Bar Tok} `{!SyncLaws Sem Bar Tok} `{!Stress W Shim T Instant Duration F}.
Abbreviation Bn := (Bench W Shim T Sem Bar Tok Instant).
Abbreviation Entry := (Entry T Tok).
Context (cli : Cli Duration).
Implicit Types (s : Bn) (e : Entry) (i j k me : nat).

Definition has_ticket e : bool := match ticket e with Some _ => true | None => false end.

Definition polled s : bool := match setup_done s with Some _ => true | None => false end.

Definition started s : Prop := is_Some (start_cell s).

(** Everybody has arrived at the barrier. *)
Definition full s : Prop := count cli + 1 <= arrivals (barrier s).

(** A future that arrived has its task, [next] yields ended futures, and a
    future that ended with its task had passed the barrier. *)
Record entry_ok s e : Prop := {
  ok_ticket : is_Some (ticket e) -> is_Some (local_task e);
  ok_yielded : yielded e = true -> is_Some (result e);
  ok_done : result e = Some (Ok tt) -> started s /\ is_Some (local_task e);
  ok_past : is_Some (result e) -> is_Some (local_task e) -> full s;
}.

Record inv s : Prop := {
  inv_len : length (tracker s) <= count cli;
  inv_size : barrier_size (barrier s) = count cli + 1;
  inv_arrivals : arrivals (barrier s) =
    tally has_ticket (tracker s) + one (polled s);
  inv_permits : available (semaphore s) + tally permit (tracker s) = permits cli;
  inv_entries : forall k e, tracker s !! k = Some e -> entry_ok s e;
}.

(** The locals of a future *)
Definition own_same e e' : Prop :=
  local_task e' = local_task e /\ ticket e' = ticket e /\ permit e' = permit e /\ result e' = result e.

(** How the others change the entry of thread [k + 1] as thread [i] sees it *)
Definition entry_keeps i k e (o : option Entry) : Prop :=
  exists e', o = Some e' /\ (i = k + 1 \/ is_Some (result e) -> own_same e e') /\
    (i = 0 -> yielded e' = yielded e).

Definition unused : Entry := MkEntry None None false None false.

Record rely i s s' : Prop := {
  rely_len : i = 0 -> length (tracker s') = length (tracker s);
  rely_setup : i = 0 -> setup_done s' = setup_done s;
  rely_arrivals : arrivals (barrier s) <= arrivals (barrier s');
  rely_start : tracker s ≠ [] -> started s -> started s';
  rely_entry : forall k e, tracker s !! k = Some e -> entry_keeps i k e (tracker s' !! k);
  rely_new : forall k e, tracker s !! k = None -> tracker s' !! k = Some e -> e = unused;
}.

(** A step that leaves the state as it is, but for the world and the shim *)
Lemma same_ok i s s' :
  semaphore s' = semaphore s -> barrier s' = barrier s -> tracker s' = tracker s ->
  setup_done s' = setup_done s -> (started s -> started s') -> inv s -> inv s' /\ rely i s s'.
Proof.
  intros Hsem Hb Ht Hsd Hst [Hl Hsz Ha Hp He]. split.
  - split; unfold polled; rewrite ?Hsem, ?Hb, ?Ht, ?Hsd; [done..|]. intros k e Hk. specialize (He k e Hk).
    destruct He as [H1 H2 H3 H4]. split; [done..| |].
    + intros Hr. destruct (H3 Hr). eauto.
    + unfold full. by rewrite Hb.
  - split; rewrite ?Hb, ?Ht, ?Hsd; [done..| |congruence]. intros k e Hk. by exists e.
Qed.

#[local] Instance rely_refl i : Reflexive (rely i).
Proof. intros s. split; [done..| |congruence]. intros k e Hk. by exists e. Qed.

(** *** The steps of the futures keep the invariant *)

(** A step of thread [me] on the entry [k] *)
Lemma entry_step me k e e' s s' :
  inv s -> tracker s !! k = Some e -> tracker s' = <[k := e']> (tracker s) ->
  setup_done s' = setup_done s -> barrier_size (barrier s') = barrier_size (barrier s) ->
  arrivals (barrier s') + one (has_ticket e) = arrivals (barrier s) + one (has_ticket e') ->
  one (has_ticket e) <= one (has_ticket e') ->
  available (semaphore s') + one (permit e') = available (semaphore s) + one (permit e) ->
  (started s -> started s') -> entry_ok s' e' ->
  (me = k + 1 /\ result e = None /\ yielded e' = yielded e \/ me = 0 /\ own_same e e') ->
  inv s' /\ forall j, j ≠ me -> rely j s s'.
Proof.
  intros [Hl Hsz Ha Hp He] Hk Ht Hsd Hsz' Har Hle Hav Hst Hok Hme.
  pose proof (tally_insert has_ticket _ k e e' Hk) as Htk.
  pose proof (tally_insert permit _ k e e' Hk) as Hpm. split.
  - split; unfold polled in *; rewrite ?Ht, ?Hsd, ?length_insert; [done|lia..|].
    intros k' x [(-> & <- & _)|[_ Hx]]%list_lookup_insert_Some; [done|].
    destruct (He k' x Hx) as [H1 H2 H3 H4]. split; [done..| |].
    + intros Hr. destruct (H3 Hr). eauto.
    + unfold full in *. intros Hr Hx'. specialize (H4 Hr Hx'). lia.
  - intros j Hj. split; rewrite ?Ht, ?Hsd, ?length_insert; [done|done|lia|eauto| |].
    + intros k' x Hx. unfold entry_keeps. destruct (decide (k = k')) as [<-|Hne].
      * rewrite list_lookup_insert_eq by (by eapply lookup_lt_Some). simplify_eq. eexists. split; [done|].
        destruct Hme as [(-> & Hr & Hy)|[-> Hs]]; [|by split].
        split; [|done]. rewrite Hr. intros [|[? ?]]; [lia|done].
      * rewrite list_lookup_insert_ne by done. by exists x.
    + intros k' x Hx [(<- & _ & _)|[_ Hx']]%list_lookup_insert_Some; congruence.
Qed.

(** *** Assertions of the threads *)

(** Future [k] is running, with these locals. *)
Definition running_at (k : nat) (l : option T) (tk : option Tok) (p : bool) s : Prop :=
  exists e, tracker s !! k = Some e /\ local_task e = l /\ ticket e = tk /\ permit e = p /\ result e = None.

(** Future [k] is about to end with [r]. *)
Definition ending (k : nat) (r : outcome string unit) s : Prop :=
  exists e, tracker s !! k = Some e /\ permit e = false /\ result e = None /\
    (is_Some (local_task e) -> full s) /\ (r = Ok tt -> started s /\ is_Some (local_task e)).

Lemma running_tracker k l tk p s : running_at k l tk p s -> tracker s ≠ [].
Proof. intros (e & Hk & _) Hn. by rewrite Hn in Hk. Qed.

Lemma running_stable k l tk p : stable inv rely (k + 1) (running_at k l tk p).
Proof.
  intros s s' _ _ (e & Hk & <- & <- & <- & Hr) HR.
  destruct (rely_entry _ _ _ HR k e Hk) as (e' & Hk' & Hs & _).
  destruct Hs as (? & ? & ? & ?); [by left|]. exists e'. split_and!; [done..|congruence].
Qed.

Lemma full_stable i : stable inv rely i full.
Proof. intros s s' _ _ Hf HR. pose proof (rely_arrivals _ _ _ HR). unfold full in *. lia. Qed.

Lemma running_full_stable k l tk p :
  stable inv rely (k + 1) (fun s => running_at k l tk p s /\ full s).
Proof. apply stable_and; [apply running_stable|apply full_stable]. Qed.

Lemma running_started_stable k l tk p :
  stable inv rely (k + 1) (fun s => (running_at k l tk p s /\ full s) /\ started s).
Proof.
  intros s s' HI HI' [Hr Hs] HR. split; [exact (running_full_stable _ _ _ _ s s' HI HI' Hr HR)|].
  apply (rely_start _ _ _ HR); [|done]. by eapply running_tracker, Hr.
Qed.

Lemma ending_stable k r : stable inv rely (k + 1) (ending k r).
Proof.
  intros s s' HI HI' (e & Hk & Hp & Hr & Hf & Ho) HR.
  destruct (rely_entry _ _ _ HR k e Hk) as (e' & Hk' & Hs & _).
  destruct Hs as (Hl & _ & Hp' & Hr'); [by left|]. exists e'. rewrite Hl. split_and!; [congruence..| |].
  - intros Hs. exact (full_stable _ s s' HI HI' (Hf Hs) HR).
  - intros Hok. destruct (Ho Hok) as [Hst Hloc]. split; [|done]. apply (rely_start _ _ _ HR); [|done].
    intros Hn. by rewrite Hn in Hk.
Qed.

Lemma ending_err k r r' s : r' ≠ Ok tt -> ending k r s -> ending k r' s.
Proof. intros Hne (e & Hk & Hp & Hr & Hf & _). exists e. by split_and!. Qed.

#[local] Hint Resolve running_stable full_stable running_full_stable running_started_stable ending_stable : core.

(** The postcondition of a future that only ends with [Ok] *)
Definition on_ok {E A} (P : Bn -> Prop) (r : outcome E A) : Bn -> Prop :=
  match r with Ok _ => P | _ => fun _ => False end.

Lemma safe_bind_ok {E A B} i (p : async Bn E A) (k : A -> async Bn E B) P P' (Q : outcome E B -> Bn -> Prop) :
  safe inv rely i p P (on_ok P') -> (forall a, safe inv rely i (k a) P' Q) -> safe inv rely i (abind p k) P Q.
Proof. intros Hp Hk. by eapply safe_bind; [exact Hp|exact Hk|..]. Qed.

(** *** Steps of the world *)

Definition os_step s s' : Prop := exists w, s' = with_os w s.

Lemma safe_bench_os {E A} i (p : async W E A) (P : Bn -> Prop) :
  stable inv rely i P -> safe inv rely i (on_os p) P (fun _ => P).
Proof.
  intros Hst. eapply (safe_steps _ _ _ _ os_step); [|done|].
  - eapply steps_in_mono; [|apply steps_in_zoom, (steps_in_any p)].
    intros s s' (w & w' & _ & _ & ->). by exists w'.
  - intros s s' HI HP [w ->].
    assert (forall j, inv (with_os w s) /\ rely j s (with_os w s)) as Hok by (intros; by apply same_ok).
    split_and!; [apply (Hok 0)|intros; apply Hok|]. apply (Hst s); [done|apply (Hok 0)|done|apply Hok].
Qed.

(** *** The future of task [k] *)

Lemma set_entry_eq k (f : Entry -> Entry) s e :
  tracker s !! k = Some e -> set_entry k f s = with_tracker (<[k := f e]> (tracker s)) s.
Proof. unfold set_entry. by intros ->. Qed.

Lemma set_entry_barrier k f s : barrier (set_entry k f s) = barrier s.
Proof. unfold set_entry. by case_match. Qed.

Lemma set_entry_start k f s : start_cell (set_entry k f s) = start_cell s.
Proof. unfold set_entry. by case_match. Qed.

Definition held (tk : option Tok) : nat := match tk with Some _ => 1 | None => 0 end.

Lemma held_ticket e : one (has_ticket e) = held (ticket e).
Proof. unfold has_ticket. by destruct (ticket e). Qed.

(** A step of a running future on its own entry, [s0] being the rest of it *)
Lemma own_step k (f : Entry -> Entry) l tk p l' tk' p' s s0 :
  inv s -> running_at k l tk p s ->
  (forall e, local_task e = l -> ticket e = tk -> permit e = p ->
     f e = MkEntry l' tk' p' (result e) (yielded e)) ->
  tracker s0 = tracker s -> setup_done s0 = setup_done s ->
  barrier_size (barrier s0) = barrier_size (barrier s) ->
  arrivals (barrier s0) + held tk = arrivals (barrier s) + held tk' -> held tk <= held tk' ->
  available (semaphore s0) + one p' = available (semaphore s) + one p ->
  (started s -> started s0) -> (is_Some tk' -> is_Some l') ->
  inv (set_entry k f s0) /\ (forall j, j ≠ k + 1 -> rely j s (set_entry k f s0)) /\
  running_at k l' tk' p' (set_entry k f s0).
Proof.
  intros HI (e & Hk & <- & <- & <- & Hr) Hf Ht Hsd Hsz Har Hle Hav Hst Htl.
  assert (f e = MkEntry l' tk' p' None (yielded e)) as Hfe by (rewrite <- Hr; by apply Hf).
  rewrite (set_entry_eq k f s0 e) by congruence. rewrite Hfe, Ht.
  apply and_assoc. split.
  - eapply (entry_step (k + 1) k e); [done|exact Hk|reflexivity|done|done|..]; simpl; rewrite ?held_ticket; try done.
    + destruct (inv_entries _ HI k e Hk) as [_ Hy _ _]. rewrite Hr in Hy. by split; simpl.
    + left. by rewrite Hr.
  - eexists. split; [apply list_lookup_insert_eq; by eapply lookup_lt_Some|]. done.
Qed.

Lemma safe_set_up k :
  safe inv rely (k + 1) (set_up k cli) (running_at k None None false)
    (fun r s => match r with Ok t => running_at k (Some t) None false s
                           | _ => running_at k None None false s end).
Proof.
  unfold set_up. eapply safe_bind; [apply (safe_await _ _ _ _ _ (fun _ => running_at k None None false))| |done..].
  { intros s sh s' HI HP. destruct (the_shim s); simpl; [|done]. intros [= <- <-]. by split_and!. }
  { auto. }
  intros sh. eapply safe_bind; [apply safe_bench_os; auto| |done..]. intros t.
  apply (safe_bind_ok _ _ _ _ (running_at k (Some t) None false)); [|by intros [] s HI HP].
  apply safe_await; [|cbn; auto]. intros s [] s' HI HP [= <-].
  eapply own_step; [done|exact HP|..]; try done. by intros; f_equal.
Qed.

Lemma safe_wait_barrier k t :
  safe inv rely (k + 1) (wait_barrier k) (running_at k (Some t) None false)
    (on_ok (fun s => exists tk, running_at k (Some t) (Some tk) false s /\ full s)).
Proof.
  unfold wait_barrier. apply (safe_bind_ok _ _ _ _ (fun s => exists tk, running_at k (Some t) (Some tk) false s)).
  - apply safe_await.
    + intros s [] s' HI HP [= <-]. unfold arrive_entry.
      destruct (arrive (barrier s)) as [tk b] eqn:Hb.
      edestruct (own_step k (fun e => MkEntry (local_task e) (Some tk) (permit e) (result e) (yielded e)))
        as (HI' & HR & HP'); [done|exact HP|by intros; f_equal|..|split_and!; [exact HI'|exact HR|exists tk; exact HP']]; try done; simpl.
      * change b with (tk, b).2. by rewrite <- Hb, size_arrive.
      * change b with (tk, b).2. rewrite <- Hb, arrivals_arrive. lia.
      * lia.
    + intros x. cbn. apply stable_exists. auto.
  - intros _. apply safe_await.
    + intros s [] s' HI [tk HP] Hs. unfold entry_passed in Hs. destruct HP as (e & Hk & Hl & Ht & Hp & Hr).
      rewrite Hk in Hs. simpl in Hs. rewrite Ht in Hs. simpl in Hs.
      destruct (passed (barrier s) tk) eqn:Hpass; [|done]. injection Hs as <-. split_and!; [done..|].
      exists tk. split; [by exists e|]. unfold full. apply passed_full in Hpass. by rewrite inv_size in Hpass.
    + intros x. cbn. apply stable_exists. auto.
Qed.

Lemma safe_acquire k t tk :
  safe inv rely (k + 1) (acquire_permit k) (fun s => running_at k (Some t) (Some tk) false s /\ full s)
    (on_ok (fun s => running_at k (Some t) (Some tk) true s /\ full s)).
Proof.
  apply safe_await; [|cbn; auto]. intros s [] s' HI [HP Hf] Hs.
  destruct (acquire (semaphore s)) as [sem|] eqn:Hsem; simpl in Hs; [|done]. injection Hs as <-.
  unfold with_permit. destruct (own_step k (fun e => MkEntry (local_task e) (ticket e) true (result e) (yielded e)) _ _ _
    (Some t) (Some tk) true s (MkBench (os s) (the_shim s) sem (barrier s) (start_cell s) (tracker s) (setup_done s)) HI HP)
    as (HI' & HR & HP'); try done; simpl.
  - by intros; f_equal.
  - rewrite (available_acquire _ _ Hsem). lia.
  - split_and!; [exact HI'|exact HR|exact HP'|]. unfold full. by rewrite set_entry_barrier.
Qed.

(** The drop of the permit *)
Lemma drop_permit_ok k t tk s :
  inv s -> (running_at k (Some t) (Some tk) true s /\ full s) /\ started s ->
  inv (drop_permit k s) /\ (forall j, j ≠ k + 1 -> rely j s (drop_permit k s)) /\
  (running_at k (Some t) (Some tk) false (drop_permit k s) /\ full (drop_permit k s)) /\
  started (drop_permit k s).
Proof.
  intros HI [[HP Hf] Hst]. unfold drop_permit, with_permit.
  destruct (own_step k (fun e => MkEntry (local_task e) (ticket e) false (result e) (yielded e)) _ _ _
    (Some t) (Some tk) false s (MkBench (os s) (the_shim s) (release (semaphore s)) (barrier s) (start_cell s) (tracker s) (setup_done s)) HI HP)
    as (HI' & HR & HP'); try done; simpl.
  - by intros; f_equal.
  - rewrite available_release. lia.
  - split_and!; [exact HI'|exact HR|exact HP'| |]; unfold full, started in *;
      by rewrite ?set_entry_barrier, ?set_entry_start.
Qed.

(** [start.set] *)
Lemma set_start_ok i s : inv s -> inv (set_start s) /\ rely i s (set_start s).
Proof.
  intros HI. unfold set_start. destruct (start_cell s) eqn:Hs; [by split|].
  apply same_ok; [done..| |done]. unfold started. by rewrite Hs.
Qed.

Lemma safe_set_start k t tk :
  safe inv rely (k + 1) (atomic (E := string) (fun s => (tt, set_start s)))
    (fun s => running_at k (Some t) (Some tk) true s /\ full s)
    (on_ok (fun s => (running_at k (Some t) (Some tk) true s /\ full s) /\ started s)).
Proof.
  apply safe_await; [|cbn; auto]. intros s [] s' HI HP [= <-]. split_and!.
  - apply (set_start_ok 0 _ HI).
  - intros j _. by apply set_start_ok.
  - cbn. split; [unfold set_start; destruct (start_cell s); apply HP|].
    unfold set_start, started. destruct (start_cell s) eqn:Hs; [by rewrite Hs|by eexists].
Qed.

Lemma safe_run_task k t :
  safe inv rely (k + 1) (run_task k t) (running_at k (Some t) None false) (ending k).
Proof.
  assert (forall tk s, (running_at k (Some t) (Some tk) false s /\ full s) /\ started s ->
    forall r, ending k r s) as Hend.
  { intros tk s [[(e & Hk & Hl & _ & Hp & Hr) Hf] Hs] r. exists e. rewrite Hl. by split_and!. }
  assert (forall tk s, running_at k (Some t) (Some tk) false s /\ full s ->
    forall r, r ≠ Ok tt -> ending k r s) as Hend'.
  { intros tk s [(e & Hk & Hl & _ & Hp & Hr) Hf] r Hne. exists e. rewrite Hl. by split_and!. }
  unfold run_task. eapply (safe_defer _ _ _ _ _ _ (ending k)).
  - eapply safe_bind_ok; [apply safe_wait_barrier|].
    intros []. apply safe_exists. intros tk. eapply safe_bind_ok; [apply safe_acquire|]. intros [].
    set (P := fun s => (running_at k (Some t) (Some tk) false s /\ full s) /\ started s).
    assert (stable inv rely (k + 1) P) as HP by apply running_started_stable.
    assert (forall r s, inv s -> P s -> ending k r s) as HPe by (intros; by apply (Hend tk)).
    eapply (safe_bind _ _ _ _ _ _ (fun _ => P)); [| |by auto..].
    + eapply (safe_finally _ _ _ _ _ _ (fun _ s => (running_at k (Some t) (Some tk) true s /\ full s) /\ started s)); [| |done].
      * eapply safe_bind_ok; [apply safe_set_start|]. intros [].
        eapply safe_bind; [apply safe_bench_os; auto| |by auto..]. intros []. apply safe_bench_os. auto.
      * intros r s HI Hs. by apply (drop_permit_ok k t tk).
    + intros []. eapply safe_bind; [by apply safe_bench_os| |by auto..]. intros [].
      eapply safe_weaken; [..|by apply (safe_bench_os _ _ P)]; auto.
  - intros r. apply safe_then_drop. eapply safe_weaken; [..|apply (safe_bench_os _ _ (ending k r)), ending_stable].
    + done.
    + intros [] s HI Hs; [exact Hs..|]. by apply (ending_err k r).
Qed.

Lemma safe_task_future k :
  safe inv rely (k + 1) (task_future k cli) (running_at k None None false) (ending k).
Proof.
  assert (forall r s, r ≠ Ok tt -> running_at k None None false s -> ending k r s) as Hend.
  { intros r s Hne (e & Hk & Hl & _ & Hp & Hr). exists e. rewrite Hl. split_and!; [done..| |done]. by intros []. }
  eapply safe_bind; [apply safe_set_up|intros t; apply safe_run_task|..]; auto.
Qed.

(** The end of a future is recorded in its entry. *)
Lemma record_ok k r s :
  inv s -> ending k r s -> inv (record_result k r s) /\ forall j, j ≠ k + 1 -> rely j s (record_result k r s).
Proof.
  intros HI (e & Hk & Hp & Hr & Hf & Ho). unfold record_result. rewrite (set_entry_eq _ _ _ _ Hk).
  destruct (inv_entries _ HI k e Hk) as [Ht Hy _ _].
  eapply (entry_step (k + 1) k e); [done|exact Hk|reflexivity|..]; try done.
  - split; simpl; try done. by intros [= ->]; apply Ho.
  - by left.
Qed.

(** Future [k] has not run yet. *)
Definition waiting (k : nat) s : Prop := forall e, tracker s !! k = Some e -> running_at k None None false s.

Lemma waiting_stable k : stable inv rely (k + 1) (waiting k).
Proof.
  intros s s' HI HI' HP HR e Hk. destruct (tracker s !! k) as [e0|] eqn:Hk0.
  - exact (running_stable _ _ _ _ s s' HI HI' (HP e0 Hk0) HR).
  - exists e. split; [done|]. by rewrite (rely_new _ _ _ HR k e Hk0 Hk).
Qed.

Lemma safe_future_thread k : safe inv rely (k + 1) (task_thread cli k) (waiting k) (fun _ _ => True).
Proof.
  eapply (safe_bind_ok _ _ _ _ (running_at k None None false)).
  - apply safe_await; [|cbn; auto]. intros s e s' HI HP Hs.
    destruct (tracker s !! k) as [e0|] eqn:Hk; simpl in Hs; [|done]. injection Hs as <- <-.
    split_and!; [done..|]. cbn. by apply (HP e0).
  - intros e. eapply safe_end; [apply safe_task_future| |done]. intros r s HI Hs.
    destruct (record_ok k r s HI Hs). by split_and!.
Qed.

(** *** [run_stress_test] *)

(** Before the tracker exists *)
Definition no_tracker s : Prop := tracker s = [] /\ setup_done s = None.

Lemma no_tracker_stable : stable inv rely 0 no_tracker.
Proof.
  intros s s' _ _ [Ht Hsd] HR. split.
  - apply length_zero_iff_nil. by rewrite (rely_len _ _ _ HR eq_refl), Ht.
  - by rewrite (rely_setup _ _ _ HR eq_refl).
Qed.

(** The tracker has [n] futures, [next] has not yielded any of them. *)
Definition pushed (n : nat) s : Prop :=
  length (tracker s) = n /\ (forall k e, tracker s !! k = Some e -> yielded e = false) /\ setup_done s = None.

(** The futures that [next] yielded with [Ok] *)
Definition succeeded e : bool :=
  yielded e && match result e with Some (Ok _) => true | _ => false end.

Definition counted (c : Counters) s : Prop :=
  length (tracker s) = count cli /\ success c = tally succeeded (tracker s).

(** Everybody passed the barrier, or everybody failed before it, or the user
    can press Ctrl-C. *)
Definition no_set_up s : Prop :=
  forall k e, tracker s !! k = Some e -> is_Some (result e) /\ local_task e = None.
Definition interrupted : Prop := exists w w', ctrl_c w = Some w'.
Definition over s : Prop := full s \/ no_set_up s \/ interrupted.

Lemma main_tracker s s' k e' :
  rely 0 s s' -> tracker s' !! k = Some e' -> exists e, tracker s !! k = Some e /\ entry_keeps 0 k e (Some e').
Proof.
  intros HR Hk. destruct (tracker s !! k) as [e|] eqn:Hk0.
  - exists e. split; [done|]. rewrite <- Hk. by apply (rely_entry _ _ _ HR).
  - apply lookup_lt_Some in Hk. apply lookup_ge_None in Hk0. rewrite (rely_len _ _ _ HR eq_refl) in Hk. lia.
Qed.

Lemma pushed_stable n : stable inv rely 0 (pushed n).
Proof.
  intros s s' _ _ (Hl & Hy & Hsd) HR. split_and!.
  - by rewrite (rely_len _ _ _ HR eq_refl).
  - intros k e' Hk. destruct (main_tracker _ _ _ _ HR Hk) as (e & Hk0 & e1 & [= <-] & _ & ->); eauto.
  - by rewrite (rely_setup _ _ _ HR eq_refl).
Qed.

Lemma no_set_up_stable : stable inv rely 0 no_set_up.
Proof.
  intros s s' _ _ Hn HR k e' Hk. destruct (main_tracker _ _ _ _ HR Hk) as (e & Hk0 & e1 & [= <-] & Hs & _).
  destruct (Hn k e Hk0) as [Hr Hl]. destruct Hs as (-> & _ & _ & ->); auto.
Qed.

Lemma over_stable : stable inv rely 0 over.
Proof.
  intros s s' HI HI' [H|[H|H]] HR; unfold over.
  - left. exact (full_stable _ s s' HI HI' H HR).
  - right. left. exact (no_set_up_stable s s' HI HI' H HR).
  - by do 2 right.
Qed.

Lemma counted_stable c : stable inv rely 0 (counted c).
Proof.
  intros s s' HI _ [Hl Hc] HR. pose proof (rely_len _ _ _ HR eq_refl) as Hlen.
  split; [by rewrite Hlen|]. rewrite Hc. symmetry. apply tally_pointwise; [done|].
  intros k e Hk. destruct (rely_entry _ _ _ HR k e Hk) as (e' & Hk' & Hs & Hy). exists e'. split; [done|].
  unfold succeeded. rewrite (Hy eq_refl). destruct (yielded e) eqn:Hye; [|done]. simpl.
  destruct Hs as (_ & _ & _ & ->); [|done]. right. by apply (ok_yielded _ _ (inv_entries _ HI k e Hk)).
Qed.

#[local] Hint Resolve no_tracker_stable pushed_stable over_stable counted_stable stable_and : core.

Lemma push_ok n s :
  inv s -> pushed n s -> n < count cli ->
  inv (push s) /\ (forall j, j ≠ 0 -> rely j s (push s)) /\ pushed (S n) (push s).
Proof.
  intros [Hl Hsz Ha Hp He] (Hn & Hy & Hsd) Hlt. unfold push. fold unused. split_and!.
  - split; simpl; unfold polled in *; simpl; rewrite ?length_app, ?tally_snoc; simpl; [lia|done|lia|lia|].
    intros k e [Hk|[_ Hk]]%lookup_app_Some.
    + destruct (He k e Hk) as [H1 H2 H3 H4]. by split.
    + apply list_lookup_singleton_Some in Hk as [_ <-]. split; simpl; try done; by intros [].
  - intros j Hj. split; simpl; [done|done|lia|done| |].
    + intros k e Hk. exists e. by rewrite (lookup_app_l_Some _ _ _ _ Hk).
    + intros k e Hk [Hk'|[_ Hk']]%lookup_app_Some; [congruence|].
      by apply list_lookup_singleton_Some in Hk' as [_ <-].
  - split_and!; simpl; [rewrite length_app; simpl; lia| |done].
    intros k e [Hk|[_ Hk]]%lookup_app_Some; [eauto|]. by apply list_lookup_singleton_Some in Hk as [_ <-].
Qed.

Lemma safe_push_all m n :
  n + m = count cli -> safe inv rely 0 (push_all m) (pushed n) (on_ok (pushed (count cli))).
Proof.
  revert n. induction m as [|m IH]; intros n Hn; simpl.
  - intros s HI HP. by replace (count cli) with n by lia.
  - intros s x s' HI HP [= <- <-]. destruct (push_ok n s HI HP) as (HI' & HR & HP'); [lia|].
    split_and!; [done..|]. exists (pushed (S n)). split_and!; [done|auto|]. apply IH. lia.
Qed.

(** The first poll of [setup_done] arrives at the barrier. *)
Lemma poll_setup_ok s :
  inv s -> inv (poll_setup s) /\ (forall j, j ≠ 0 -> rely j s (poll_setup s)) /\
  tracker (poll_setup s) = tracker s /\ (full s -> full (poll_setup s)).
Proof.
  intros HI. unfold poll_setup, full. destruct (setup_done s) as [k|] eqn:Hsd; [by split_and!|].
  destruct HI as [Hl Hsz Ha Hp He]. destruct (arrive (barrier s)) as [k b] eqn:Hb.
  assert (barrier_size b = barrier_size (barrier s)) as Hszb
    by (change b with (k, b).2; by rewrite <- Hb, size_arrive).
  assert (arrivals b = S (arrivals (barrier s))) as Hab
    by (change b with (k, b).2; by rewrite <- Hb, arrivals_arrive).
  unfold polled in Ha. rewrite Hsd in Ha. simpl in Ha. split_and!; [| |done|simpl; lia].
  - split; simpl; [lia..|]. intros k' e Hk. destruct (He k' e Hk) as [H1 H2 H3 H4]. split; [done..|].
    unfold full in *. simpl. intros Hr Hx. specialize (H4 Hr Hx). lia.
  - intros j Hj. split; simpl; [done|done|lia|done| |congruence]. intros k' e Hk. by exists e.
Qed.

(** [next] yields an ended future. *)
Lemma next_ok k e r s :
  inv s -> tracker s !! k = Some e -> result e = Some r ->
  let f := fun e => MkEntry (local_task e) (ticket e) (permit e) (result e) true in
  inv (set_entry k f s) /\ forall j, j ≠ 0 -> rely j s (set_entry k f s).
Proof.
  intros HI Hk Hr f. rewrite (set_entry_eq _ _ _ _ Hk). destruct (inv_entries _ HI k e Hk) as [H1 H2 H3 H4].
  eapply (entry_step 0 k e); [done|exact Hk|reflexivity|..]; try done.
  by right.
Qed.

(** A success counts, a failure does not. *)
Lemma next_tally k e r s :
  tracker s !! k = Some e -> result e = Some r -> yielded e = false ->
  let f := fun e => MkEntry (local_task e) (ticket e) (permit e) (result e) true in
  tally succeeded (tracker (set_entry k f s)) =
  tally succeeded (tracker s) + match r with Ok _ => 1 | _ => 0 end.
Proof.
  intros Hk Hr Hy f. rewrite (set_entry_eq _ _ _ _ Hk). simpl.
  pose proof (tally_insert succeeded _ k e (f e) Hk) as Ht.
  assert (succeeded e = false) as He by (unfold succeeded; by rewrite Hy).
  assert (succeeded (f e) = match r with Ok _ => true | _ => false end) as Hfe
    by (unfold succeeded; simpl; by rewrite Hr).
  rewrite He, Hfe in Ht. simpl in Ht. destruct r; simpl in Ht; lia.
Qed.

(** What the loop and the report promise *)
Definition loop_post (r : outcome string Counters) s : Prop :=
  match r with Ok c => counted c s /\ over s | Err _ => False | Panic => True end.

(** When [next] has yielded everybody, everybody passed the barrier or nobody
    has had a task. *)
Lemma all_yielded_over s :
  inv s -> length (tracker s) = count cli -> forallb yielded (tracker s) = true -> over s.
Proof.
  intros HI Hl Hall. rewrite forallb_forall in Hall.
  assert (forall k e, tracker s !! k = Some e -> is_Some (result e)) as Hres.
  { intros k e Hk. apply (ok_yielded _ _ (inv_entries _ HI k e Hk)), Hall.
    apply list_elem_of_In. by eapply list_elem_of_lookup_2. }
  destruct (decide (Exists (fun e => is_Some (local_task e)) (tracker s))) as [(e & Hin & Hloc)%Exists_exists|Hno].
  - apply list_elem_of_lookup_1 in Hin as [k Hk]. left. by apply (ok_past _ _ (inv_entries _ HI k e Hk)); eauto.
  - right. left. intros k e Hk. split; [by eapply Hres|]. destruct (local_task e) eqn:Hloc; [|done].
    destruct Hno. apply Exists_exists. exists e. rewrite Hloc. split; [by eapply list_elem_of_lookup_2|eauto].
Qed.

(** The state at the head of the loop *)
Definition looping (c : Counters) s : Prop := counted c s /\ (terminated c = true -> full s).

Lemma looping_stable c : stable inv rely 0 (looping c).
Proof.
  apply stable_and; [auto|]. intros s s' HI HI' Hf HR Ht. exact (full_stable 0 s s' HI HI' (Hf Ht) HR).
Qed.

Lemma safe_pending {E A} P (Q : outcome E A -> Bn -> Prop) : safe inv rely 0 (await (fun _ => None)) P Q.
Proof. by intros s x s'. Qed.

Lemma safe_poll c :
  safe inv rely 0 (atomic (E := string) (fun s => (tt, poll_setup s))) (looping c) (on_ok (looping c)).
Proof.
  apply safe_await; [|intros x; apply looping_stable]. intros s [] s' HI [[Hl Hc] Hf] [= <-].
  destruct (poll_setup_ok s HI) as (HI' & HR & Ht & Hf'). split_and!; [done..|].
  split; [split; by rewrite Ht|auto].
Qed.

Lemma safe_main_passed c :
  safe inv rely 0 (await (E := string) main_passed) (looping c) (on_ok (fun s => looping c s /\ full s)).
Proof.
  apply safe_await; [|intros x; apply stable_and; [apply looping_stable|apply full_stable]].
  intros s [] s' HI HP Hs. unfold main_passed in Hs. destruct (setup_done s) as [k|]; simpl in Hs; [|done].
  destruct (passed (barrier s) k) eqn:Hpass; [|done]. injection Hs as <-. split_and!; [done..|].
  split; [done|]. unfold full. apply passed_full in Hpass. by rewrite inv_size in Hpass.
Qed.

(** What the counters are after [next] *)
Definition after_next (c : Counters) (o : option (outcome string unit)) s : Prop :=
  match o with
  | None => counted c s /\ over s
  | Some r => length (tracker s) = count cli /\ (terminated c = true -> full s) /\
      tally succeeded (tracker s) = success c + match r with Ok _ => 1 | _ => 0 end
  end.

Lemma after_next_looping c r n f s :
  after_next c (Some r) s -> 
  looping (MkCounters n (success c + match r with Ok _ => 1 | _ => 0 end) f (terminated c)) s.
Proof. intros (Hl & Hf & Ht). split; [split; [done|]|done]. by rewrite Ht. Qed.

Lemma after_next_stable c o : stable inv rely 0 (after_next c o).
Proof.
  destruct o as [r|]; [|apply stable_and; auto]. intros s s' HI HI' Hs HR.
  destruct (looping_stable (MkCounters 0 (success c + match r with Ok _ => 1 | _ => 0 end) 0 (terminated c))
    s s' HI HI' (after_next_looping _ _ _ _ _ Hs) HR) as [[Hl Ht] Hf]. by split_and!.
Qed.

Lemma safe_next c k :
  safe inv rely 0 (await (E := string) (next k)) (looping c)
    (fun r => match r with Ok o => after_next c o | _ => fun _ => False end).
Proof.
  apply safe_await; [|intros x; apply after_next_stable]. intros s o s' HI [[Hl Hc] Hf] Hs. unfold next in Hs.
  destruct (forallb yielded (tracker s)) eqn:Hall.
  { injection Hs as <- <-. split_and!; [done..|]. split; [done|by apply all_yielded_over]. }
  destruct (tracker s !! k) as [e|] eqn:Hk; simpl in Hs; [|done].
  destruct (result e) as [r|] eqn:Hr; simpl in Hs; [|done].
  destruct (yielded e) eqn:Hy; [done|]. injection Hs as <- <-.
  destruct (next_ok k e r s HI Hk Hr) as [HI' HR]. split_and!; [exact HI'|exact HR|]. split_and!.
  - rewrite (set_entry_eq _ _ _ _ Hk). simpl. by rewrite length_insert.
  - unfold full. by rewrite set_entry_barrier.
  - rewrite Hc. by apply (next_tally k e r).
Qed.

(** A wait for the world that then leaves the loop *)
Lemma safe_leave c (f : W -> option W) (P : Bn -> Prop) :
  stable inv rely 0 P -> (forall s w, inv s -> P s -> f (os s) = Some w -> counted c s /\ over s) ->
  safe inv rely 0 (let* _ := on_os (let* _ := await (fun w => w' ← f w; Some (tt, w')) in aret tt) in aret c)
    P loop_post.
Proof.
  intros HP Hend s [] s' HI Hs Hf. simpl in Hf. destruct (f (os s)) as [w|] eqn:Hw; simpl in Hf; [|done].
  injection Hf as <-. assert (forall j, inv (with_os w s) /\ rely j s (with_os w s)) as Hok by (intros; by apply same_ok).
  split_and!; [apply (Hok 0)|intros; apply Hok|]. exists (fun s => counted c s /\ over s). split_and!.
  - by apply (Hend s w).
  - apply (Hend s w HI Hs Hw).
  - auto.
  - by intros s1 HI1.
Qed.

Lemma safe_bench_loop branches c :
  safe inv rely 0 (wait_loop branches cli c) (looping c) loop_post.
Proof.
  revert c. induction branches as [|b branches IH]; intros c; [apply safe_pending|].
  destruct b as [| | | |k]; cbn [wait_loop].
  - destruct (terminated c) eqn:Ht; [apply safe_pending|].
    eapply safe_bind_ok; [apply safe_poll|]. intros _. apply IH.
  - destruct (terminated c) eqn:Ht; [apply safe_pending|].
    eapply safe_bind_ok; [apply safe_poll|]. intros _. eapply safe_bind_ok; [apply safe_main_passed|]. intros _.
    eapply safe_weaken; [..|apply IH]; [|done]. by intros s _ [[Hc _] Hf].
  - destruct (terminated c) eqn:Ht; [|apply safe_pending]. unfold watchdog.
    destruct (is_zero (timeout cli)); [by intros s x s'|].
    apply (safe_leave c (sleep (timeout cli)) (looping c)); [apply looping_stable|].
    intros s w _ [Hc Hf] _. split; [done|]. left. auto.
  - apply (safe_leave c ctrl_c (looping c)); [apply looping_stable|].
    intros s w _ [Hc _] Hw. split; [done|]. do 2 right. by exists (os s), w.
  - eapply safe_bind; [apply safe_next| |done..]. intros [[[]|err|]|].
    + eapply safe_weaken; [..|apply IH]; [|done]. intros s _ Hs.
      apply (after_next_looping _ _ (incomplete c - 1) (failed c)) in Hs. by rewrite Nat.add_1_r in Hs.
    + eapply safe_weaken; [..|apply IH]; [|done]. intros s _ Hs.
      apply (after_next_looping _ _ (incomplete c - 1) (S (failed c))) in Hs. by rewrite Nat.add_0_r in Hs.
    + by intros s _ _.
    + by intros s _ [Hc Ho].
Qed.

(** Every task was yielded with [Ok]. *)
Definition all_ok s : Prop :=
  length (tracker s) = count cli /\
  forall k e, tracker s !! k = Some e -> yielded e = true /\ result e = Some (Ok tt).

Lemma counted_all_ok c s : counted c s -> success c = count cli -> all_ok s.
Proof.
  intros [Hl Hc] Hs. split; [done|]. intros k e Hk.
  assert (Forall (fun e => succeeded e = true) (tracker s)) as Hall by (apply tally_all; lia).
  rewrite Forall_lookup in Hall. specialize (Hall k e Hk). unfold succeeded in Hall.
  apply andb_true_iff in Hall as [Hy Hr]. by destruct (result e) as [[[]| |]|].
Qed.

Lemma all_ok_stable : stable inv rely 0 all_ok.
Proof.
  intros s s' _ _ [Hl Hok] HR. split; [by rewrite (rely_len _ _ _ HR eq_refl)|]. intros k e' Hk.
  destruct (main_tracker _ _ _ _ HR Hk) as (e & Hk0 & e1 & [= <-] & Hs & ->); [|done].
  destruct (Hok k e Hk0) as [Hy Hr]. destruct Hs as (_ & _ & _ & ->); [by right; rewrite Hr|done].
Qed.

#[local] Hint Resolve all_ok_stable : core.

Definition main_post (r : outcome string unit) s : Prop :=
  (r = Ok tt -> all_ok s) /\ (r ≠ Panic -> tracker s = [] \/ over s).

Lemma main_post_stable r : stable inv rely 0 (main_post r).
Proof.
  intros s s' HI HI' [Hok Ho] HR. split.
  - intros Hr. exact (all_ok_stable s s' HI HI' (Hok Hr) HR).
  - intros Hr. destruct (Ho Hr) as [Ht|Hv].
    + left. apply length_zero_iff_nil. by rewrite (rely_len _ _ _ HR eq_refl), Ht.
    + right. exact (over_stable s s' HI HI' Hv HR).
Qed.

Lemma main_post_err r r' s : r' ≠ Ok tt -> r ≠ Panic -> main_post r s -> main_post r' s.
Proof. intros Hne Hr [_ Ho]. split; [done|auto]. Qed.

Lemma panic_post s : main_post Panic s.
Proof. by split. Qed.

Lemma safe_report c : safe inv rely 0 (report cli c) (fun s => counted c s /\ over s) main_post.
Proof.
  unfold report. destruct (decide (success c ≠ count cli)) as [Hne|Heq].
  { intros s _ [_ Ho]. split; [done|]. by right. }
  assert (success c = count cli) as Hs by lia.
  set (P := fun s => all_ok s /\ over s). assert (stable inv rely 0 P) as HP by (apply stable_and; auto).
  assert (forall r s, inv s -> P s -> main_post r s) as HPm by (intros r s _ [? ?]; split; auto).
  eapply (safe_bind_ok _ _ _ _ P).
  { apply safe_await; [|done]. intros s o s' HI [Hc Ho] [= <- <-]. split_and!; [done..|].
    split; [by eapply counted_all_ok|done]. }
  intros [t|]; [|by intros s _ _; apply panic_post].
  eapply (safe_bind_ok _ _ _ _ P).
  { apply safe_await; [|done]. intros s o s' HI Hs' [= <- <-]. by split_and!. }
  intros d. destruct (json_output cli); [|by intros s; apply HPm].
  eapply safe_weaken; [..|by apply (safe_bench_os _ _ P)]; auto.
Qed.

Lemma safe_run_tasks branches : safe inv rely 0 (run_tasks branches cli) (pushed 0) main_post.
Proof.
  unfold run_tasks. eapply safe_bind_ok; [by apply (safe_push_all (count cli) 0)|]. intros _.
  apply (safe_bind _ _ _ _ _ _ loop_post); [|intros c; exact (safe_report c)|done|by intros; apply panic_post].
  eapply safe_weaken; [..|apply safe_bench_loop]; [|done]. intros s _ (Hl & Hy & Hsd). split; [|done].
  split; [done|]. symmetry. apply tally_none, Forall_lookup. intros k e Hk.
  unfold succeeded. by rewrite (Hy k e Hk).
Qed.

(** The semaphore, the barrier and the tracker are made. *)
Lemma make_ok sh s :
  inv s -> no_tracker s ->
  let s' := MkBench (os s) (Some sh) (semaphore_new (permits cli)) (barrier_new (count cli + 1)) None [] None in
  inv s' /\ (forall j, j ≠ 0 -> rely j s s') /\ pushed 0 s'.
Proof.
  intros [_ _ Ha _ _] [Ht Hsd] s'. unfold polled in Ha. rewrite Ht, Hsd in Ha. cbn in Ha.
  split_and!; [| |by split_and!].
  - split; cbn; [lia|apply size_new|apply arrivals_new|rewrite available_new; lia|done].
  - intros j Hj. split; cbn; rewrite ?Ht; try done. rewrite Ha. lia.
Qed.

Lemma safe_run_stress_test branches :
  safe inv rely 0 (run_stress_test branches cli) no_tracker main_post.
Proof.
  assert (forall (c : async W string unit) r, safe inv rely 0 (then_drop (on_os c) r) (main_post r) main_post) as Hdrop.
  { intros c r. apply safe_then_drop. eapply safe_weaken; [..|apply (safe_bench_os _ _ (main_post r)), main_post_stable]; [done|].
    intros [] s _ Hs; [exact Hs..|apply panic_post]. }
  assert (forall err s, inv s -> no_tracker s -> main_post (Err err) s) as Herr.
  { intros err s _ [Ht _]. split; [done|]. by left. }
  assert (forall s, inv s -> no_tracker s -> main_post Panic s) as Hpanic by (intros; apply panic_post).
  unfold run_stress_test. eapply safe_bind; [apply safe_bench_os; auto| |by auto..]. intros sh.
  eapply safe_defer; [|apply Hdrop]. eapply safe_bind; [apply safe_bench_os; auto| |by auto..]. intros pause.
  eapply safe_defer; [|apply Hdrop]. eapply safe_bind; [apply safe_bench_os; auto| |by auto..]. intros [].
  eapply safe_bind_ok; [|intros []; apply safe_run_tasks].
  apply safe_await; [|cbn; auto]. intros s [] s' HI HP [= <-]. by apply make_ok.
Qed.

(** *** The futures together *)

Definition fresh_bench (w : W) : Bn :=
  MkBench w None (semaphore_new (permits cli)) (barrier_new (count cli + 1)) None [] None.

Definition stress_pool (branches : list Branch) : list (async Bn string unit) :=
  run_stress_test branches cli :: map (task_thread cli) (seq 0 (count cli)).

Lemma stress_pool_safe branches w :
  safe_pool inv rely (fun i r => match i with 0 => main_post r | _ => fun _ => True end)
    (stress_pool branches, fresh_bench w).
Proof.
  split; simpl.
  { split; cbn; [lia|apply size_new|apply arrivals_new|rewrite available_new; lia|done]. }
  intros [|k] p Hp; simpl in Hp.
  - injection Hp as <-. exists no_tracker. split_and!; [done|auto|apply safe_run_stress_test].
  - apply list_lookup_fmap_Some in Hp as (k' & -> & Hk). apply lookup_seq in Hk as [-> Hk]. simpl.
    pose proof (safe_future_thread k) as Hs. pose proof (waiting_stable k) as Hw.
    rewrite Nat.add_1_r in Hs, Hw. exists (waiting k). by split_and!; [intros e He| |].
Qed.
End runs.

(** ** Examples *)

Definition demo_bench (count : nat) (set_ups : list bool) (branches : list Branch) (schedule : list nat) :=
  run_schedule schedule (stress_pool (demo_cli count) branches) (fresh_bench (demo_cli count) set_ups).

(** The set-up, both tasks up to the barrier, the barrier, the tasks, the end *)
Definition demo_branches : list Branch := [BSetup; BNext 0; BNext 1; BNext 0].
Definition demo_turns : list nat :=
  concat [replicate 8 0; replicate 9 1; replicate 9 2; replicate 5 0; replicate 9 1; replicate 9 2; replicate 9 0].

Example demo_all_ok :
  (demo_bench 2 [] demo_branches demo_turns).1 !! 0 = Some (Done (Ok tt)) /\
  (result <$> tracker (demo_bench 2 [] demo_branches demo_turns).2) = [Some (Ok tt); Some (Ok tt)].
Proof. by vm_compute. Qed.

(** The second task has no set-up: the first one waits for ever. *)
Definition demo_stuck := demo_bench 2 [true; true; false] [BPoll; BNext 1; BWatchdog] demo_turns.

Example demo_stuck_state :
  (local_task <$> tracker demo_stuck.2) = [Some tt; None] /\
  (result <$> tracker demo_stuck.2) = [None; Some (Err "no image"%string)].
Proof. by vm_compute. Qed.

(** ** Properties *)

Section properties.
Context {W Shim T Sem Bar Tok Instant Duration F : Type}.
Context `{!Sync Sem Bar Tok} `{!SyncLaws Sem Bar Tok} `{!Stress W Shim T Instant Duration F}.
Abbreviation Bn := (Bench W Shim T Sem Bar Tok Instant).

(** When everybody has arrived, everybody has a task. *)
Lemma full_set_up (cli : Cli Duration) (s : Bn) k e :
  inv cli s -> full cli s -> tracker s !! k = Some e -> is_Some (local_task e).
Proof.
  intros HI Hf Hk. apply (ok_ticket _ _ _ (inv_entries _ _ HI k e Hk)).
  assert (tally has_ticket (tracker s) = length (tracker s)) as Htally.
  { pose proof (tally_le has_ticket (tracker s)). pose proof (inv_len _ _ HI).
    pose proof (inv_arrivals _ _ HI) as Ha. unfold full in Hf. destruct (polled s); simpl in Ha; lia. }
  apply tally_all in Htally. rewrite Forall_lookup in Htally. specialize (Htally k e Hk).
  unfold has_ticket in Htally. by destruct (ticket e).
Qed.


(** C36: one task whose set-up failed blocks the others.  The task never
    arrives at the barrier, so no task that was set up ever ends, and since the
    time-out only runs after the barrier the test does not end either: unless
    a task panics, or the user presses Ctrl-C. *)
Theorem failed_set_up_blocks (cli : Cli Duration) (branches : list Branch) (w : W)
    (ts : list (async Bn string unit)) (s : Bn) i e :
  rtc pool_step (stress_pool cli branches, fresh_bench cli w) (ts, s) ->
  tracker s !! i = Some e -> is_Some (result e) -> local_task e = None ->
  forall k e', tracker s !! k = Some e' -> is_Some (local_task e') ->
    result e' = None /\
    ((forall w, ctrl_c w = None) -> forall r, ts !! 0 = Some (Done r) -> r = Panic).
Proof.
  intros Hrun Hi Hr Hl k e' Hk Hl'. pose proof (stress_pool_safe cli branches w) as Hs.
  pose proof (safe_pool_inv _ _ _ _ _ Hs Hrun) as HI. simpl in HI.
  assert (~ full cli s) as Hno.
  { intros Hf. destruct (full_set_up _ _ _ _ HI Hf Hi) as [t Ht]. congruence. }
  split.
  - destruct (result e') eqn:Hr'; [|done]. destruct Hno.
    apply (ok_past _ _ _ (inv_entries _ _ HI k e' Hk)); [by rewrite Hr'|done].
  - intros Hc r H0. destruct (safe_pool_done _ _ _ _ _ 0 _ Hs Hrun H0) as [_ Hover]. simpl in Hover.
    destruct r as [[]|err|]; [exfalso..|done]; destruct Hover as [Ht|[Hf|[Hn|(w0 & w1 & Hw)]]]; try done.
    1,4: by rewrite Ht in Hk.
    1,3: destruct (Hn k e' Hk) as [_ Hz]; rewrite Hz in Hl'; by destruct Hl'.
    1,2: by rewrite Hc in Hw.
Qed.

End properties.


Lemma failed_set_up_blocks_witness :
  result (MkEntry (Some tt) (Some tt) false None false) = None /\
  ((forall w, ctrl_c w = None) -> forall r, demo_stuck.1 !! 0 = Some (Done r) -> r = Panic).
Proof.
  apply (fun H => failed_set_up_blocks (demo_cli 2) [BPoll; BNext 1; BWatchdog] [true; true; false]
           demo_stuck.1 demo_stuck.2 1 (MkEntry None None false (Some (Err "no image"%string)) true)
           H (ltac:(by vm_compute)) (ltac:(by vm_compute; eexists)) (ltac:(by vm_compute))
           0 (MkEntry (Some tt) (Some tt) false None false) (ltac:(by vm_compute)) (ltac:(by eexists))).
  rewrite <- surjective_pairing. apply run_schedule_steps.
Defined.
