(* ===== verification/StressTasks.v ===== *)
(** * StressTasks: the two backends of the stress test

    [crates/stress-test/src/containerd] (tasks of containerd, over the client of
    [StressClient.v]), [crates/stress-test/src/mocks] (tasks of a shim, over its
    ttrpc services, the class [Trapeze]) and [utils.rs].  Both are instances of
    the class [Stress] that the test of [StressTest.v] runs over.

    The state is the world, the counter of the task ids, the cells of the
    [RunOnce]s and the unmounts that were given to the blocking pool.  The count
    of the clones of the client is not modelled, so neither is the lease that
    the last one drops. *)

From stdpp Require Import sorting.
From S2P Require Import Prelude RustStr Async StressClient StressTest.
From Stdlib Require Import Ascii.

(** [RunOnce]: a mutex and the flag in it *)
Record Once := MkOnce { locked : bool; done_once : bool }.

Record Lab (W : Type) := MkLab {
  world : W;
  counter : Z;
  cells : list Once;
  unmounts : list string;
}.
Arguments MkLab {W}.
Arguments world {W}.
Arguments counter {W}.
Arguments cells {W}.
Arguments unmounts {W}.

(** The fields that the builders of [oci_spec] are given *)
Record Spec := MkSpec {
  spec_version : option string;
  spec_process : option (list string * string);
  spec_annotations : list (string * string);
  spec_root : option (string * option bool);
}.

Definition default_spec : Spec := MkSpec None None [] None.

(** [tokio::process::Command], the fields set, and [Output] *)
Record Command := MkCommand {
  program : string; command_args : list string; command_env : list (string * string); current_dir : string;
}.

Record Output := MkOutput { status_success : bool; stdout_utf8 : outcome string string }.

(** The host: the process, its files and mounts, children, and texts *)
Class Host (W Child : Type) := {
  process_id : Z;
  tempdir : M W string string;
  tempdir_in : string -> M W string string;
  remove_dir : string -> W -> W;
  create_dir_all : string -> M W string unit;
  write : string -> string -> M W string unit;
  read_to_string : string -> M W string string;
  canonicalize : string -> M W string string;
  symlink : string -> string -> M W string unit;
  remove_file : string -> M W string unit;
  umount : string -> M W string unit;
  spawn_command : Command -> M W string Child;
  command_output : Child -> W -> option (outcome string Output * W);
  kill_pid : Z -> M W string unit;
  waitpid_nohang : Z -> M W string unit;
  set_child_subreaper : M W string unit;
  spec_json : Spec -> string;
  output_debug : Output -> string;
  (** [serde_json::from_str] of the address and the protocol *)
  parse_address : string -> outcome string (string * string);
}.

(** The requests of the ttrpc task services, the fields set *)
Inductive Version := V2 | V3.

Record MockMount := MkMockMount {
  mock_type : string; mock_source : string; mock_target : string; mock_options : list string;
}.

Record CreateTaskRequest := MkCreateTaskRequest {
  req_id : string; req_bundle : string; req_stdout : string; req_stderr : string; req_rootfs : list MockMount;
}.

Class Trapeze (W Conn Status : Type) := {
  trapeze_connect : string -> M W string Conn;
  (** a server whose [Events] only log *)
  serve_events : string -> M W string unit;
  ttrpc_shutdown : Conn -> Version -> bool -> M W Status unit;
  ttrpc_create : Conn -> Version -> CreateTaskRequest -> M W Status unit;
  ttrpc_start : Conn -> Version -> string -> M W Status unit;
  ttrpc_wait : Conn -> Version -> string -> M W Status Z;
  ttrpc_delete : Conn -> Version -> string -> M W Status unit;
  is_unimplemented : Status -> bool;
  status_display : Status -> string;
}.

(** *** Texts *)

(** [str::split_whitespace] *)
Fixpoint words_from (word : string) (s : string) : list string :=
  match s with
  | EmptyString => if is_empty word then [] else [word]
  | String c s' =>
      if is_whitespace c
      then (if is_empty word then words_from EmptyString s' else word :: words_from EmptyString s')
      else words_from (snoc word c) s'
  end.

Definition split_whitespace (s : string) : list string := words_from EmptyString s.

(** [Path::starts_with] *)
Fixpoint is_prefix (p l : list component) : bool :=
  match p, l with
  | [], _ => true
  | RootDir :: p', RootDir :: l' | CurDir :: p', CurDir :: l' | ParentDir :: p', ParentDir :: l' => is_prefix p' l'
  | Normal a :: p', Normal b :: l' => bool_decide (a = b) && is_prefix p' l'
  | _, _ => false
  end.

Definition path_starts_with (p root : string) : bool := is_prefix (components root) (components p).

(** [Vec::sort_by_key] with the length: a stable sort *)
Fixpoint insert_by_len (p : string) (l : list string) : list string :=
  match l with
  | [] => [p]
  | q :: l' => if decide (String.length p <= String.length q) then p :: l else q :: insert_by_len p l'
  end.

Fixpoint sort_by_len (l : list string) : list string :=
  match l with [] => [] | p :: l' => insert_by_len p (sort_by_len l') end.

(** The mounts at or below [root] that [/proc/mounts] lists *)
Definition mounts_below (root text : string) : list string :=
  filter (fun m => path_starts_with m root = true) (omap (fun line => split_whitespace line !! 1) (lines text)).

Definition unmount_order (root text : string) : list string := rev (sort_by_len (mounts_below root text)).

(** [map_mount], [map_mounts] *)
Definition map_mount (m : Mount) : MockMount :=
  MkMockMount (mount_type m) (mount_source m) (mount_target m) (mount_options m).

Definition map_mounts (ms : list Mount) : list MockMount := map map_mount ms.

(** [Result::and] *)
Definition res_and {E A B} (r1 : outcome E A) (r2 : outcome E B) : outcome E B :=
  match r1 with Ok _ => r2 | Err e => Err e | Panic => Panic end.

Section lab.
Context {W Child : Type} `{!Host W Child}.
Abbreviation Lab := (Lab W).

(** *** Access to the state *)

Definition with_world (w : W) (s : Lab) : Lab := MkLab w (counter s) (cells s) (unmounts s).
Definition with_cell (k : nat) (o : Once) (s : Lab) : Lab :=
  MkLab (world s) (counter s) (<[k := o]> (cells s)) (unmounts s).

Definition host {E A} (m : M W E A) : async Lab E A :=
  zoom (fun s => Some (world s)) with_world (alift m).

(** *** utils.rs *)

(** [make_task_id]; the counter is a [usize]. *)
Definition make_task_id {E} : async Lab E string :=
  atomic (fun s =>
    ("shim-stress-test-" +:+ pretty process_id +:+ "-task-" +:+ pretty (counter s),
     MkLab (world s) ((counter s + 1) mod 2 ^ 64)%Z (cells s) (unmounts s))).

(** [RunOnce::new] *)
Definition new_once {E} : async Lab E nat :=
  atomic (fun s => (length (cells s), MkLab (world s) (counter s) (cells s ++ [MkOnce false false]) (unmounts s))).

(** [RunOnce::try_run]; the guard of the mutex is dropped on every outcome. *)
Definition lock_once {E} (k : nat) : async Lab E bool :=
  await (fun s => o ← cells s !! k;
    if locked o then None else Some (done_once o, with_cell k (MkOnce true (done_once o)) s)).

Definition unlock_once (k : nat) (s : Lab) : Lab :=
  match cells s !! k with Some o => with_cell k (MkOnce false (done_once o)) s | None => s end.

Definition try_run {E} (k : nat) (fut : async Lab E unit) : async Lab E unit :=
  let* d := lock_once k in
  afinally (
    if d : bool then aret tt
    else
      let* _ := fut in
      atomic (fun s => (tt, with_cell k (MkOnce true true) s)))
  (unlock_once k).

(** [reap_children]; [rounds] bounds the number of times that the children are
    read, and the loop is pending for ever after the last one. *)
Definition parse_pid (s : string) : option Z := Z.of_N <$> parse_unsigned 4294967295 s.

Definition reap_child (pid : Z) : M W string unit :=
  let! _ := mtry (E' := string) (kill_pid (wrap_i32 pid)) in
  let! _ := mtry (E' := string) (waitpid_nohang (wrap_i32 pid)) in
  mret tt.

Fixpoint reap_children (rounds : nat) : async Lab string unit :=
  match rounds with
  | 0 => await (fun _ => None)
  | S n =>
      let* children := host (read_to_string
        ("/proc/" +:+ pretty process_id +:+ "/task/" +:+ pretty process_id +:+ "/children")) in
      let list := omap parse_pid (split_whitespace children) in
      if decide (list = []) then aret tt
      else
        let* _ := host (mapM_M reap_child list) in reap_children n
  end.

(** [read_to_string(..).unwrap_or_default()] *)
Definition read_or_empty (path : string) : M W string string :=
  let! r := mtry (read_to_string path) in
  mret (default EmptyString (ok_opt r)).

(** The end of [wait] of both kinds of tasks *)
Definition check_status (dir : string) (status : Z) : async Lab string unit :=
  let* stdout := host (read_or_empty (path_join dir "stdout")) in
  let* stderr := host (read_or_empty (path_join dir "stderr")) in
  if decide (status = 0)%Z then aret tt
  else athrow ("Exit status " +:+ pretty status +:+ ", stdout: " +:+ debug_str stdout +:+
               ", stderr: " +:+ debug_str stderr).

(** The annotations of the spec of both kinds of tasks *)
Definition sandbox_annotations : list (string * string) :=
  [("io.kubernetes.cri.sandbox-id", "sandbox-" +:+ pretty process_id)]%string.

(** The files of the streams, whose errors are ignored *)
Definition touch (path : string) : async Lab string unit :=
  let* _ := host (mtry (E' := string) (write path EmptyString)) in aret tt.

(** *** containerd/task.rs and containerd/shim.rs *)

Section containerd.
Context {Channel : Type} `{!Services W Channel} `{!ImageJson}.
Abbreviation Client := (ClientInner Channel).

Record C8dTask := MkC8dTask {
  c8d_client : Client;
  c8d_runtime : string;
  c8d_id : string;
  c8d_image : string;
  c8d_mounts : list Mount;
  c8d_spec : Spec;
  task_deleted : nat;
  container_deleted : nat;
  c8d_dir : string;
}.

Record C8dShim := MkC8dShim { shim_client : Client; shim_link : string; shim_runtime : string }.

(** [Task::new] *)
Definition c8d_task_new (client : Client) (runtime image : string) (args : list string)
    : async Lab string C8dTask :=
  let* id := make_task_id in
  let* mounts := host (get_mounts client id image) in
  let spec := MkSpec (Some "1.1.0"%string) (Some (args, "/"%string)) sandbox_annotations (Some ("rootfs"%string, None)) in
  let* task_deleted := new_once in
  let* container_deleted := new_once in
  let* dir := host tempdir in
  aret (MkC8dTask client runtime id image mounts spec task_deleted container_deleted dir).

(** [create], [start], [wait] and [delete] *)
Definition c8d_create (t : C8dTask) : async Lab string unit :=
  let stdout := path_join (c8d_dir t) "stdout" in
  let stderr := path_join (c8d_dir t) "stderr" in
  let* _ := touch stdout in
  let* _ := touch stderr in
  let* _ := host (create_container (c8d_client t) (c8d_id t) (c8d_image t) (c8d_runtime t) (spec_json (c8d_spec t))) in
  host (create_task (c8d_client t) (c8d_id t) (c8d_mounts t) stdout stderr).

Definition c8d_start (t : C8dTask) : async Lab string unit :=
  host (start_task (c8d_client t) (c8d_id t)).

Definition c8d_wait (t : C8dTask) : async Lab string unit :=
  let* status := host (wait_task (c8d_client t) (c8d_id t)) in
  check_status (c8d_dir t) status.

Definition c8d_delete (t : C8dTask) : async Lab string unit :=
  let* res1 := atry (try_run (task_deleted t) (
                 let* _ := host (mtry (E' := string) (kill_task (c8d_client t) (c8d_id t))) in
                 host (delete_task (c8d_client t) (c8d_id t)))) in
  let* res2 := atry (try_run (container_deleted t) (
                 host (delete_container (c8d_client t) (c8d_id t)))) in
  Done (res_and res1 res2).

(** [Drop for Task], and then the drop of its directory *)
Definition c8d_drop (t : C8dTask) : async Lab string unit :=
  let* _ := atry (E' := string) (c8d_delete t) in
  host (mput (remove_dir (c8d_dir t))).

(** [Shim::new], [Drop for Shim] and [Shim::task] *)
Definition c8d_shim_new (client : Client) (binary : string) : async Lab string C8dShim :=
  let runtime := "io.containerd.runwasi" +:+ pretty process_id +:+ ".v1" in
  let link := "/usr/local/bin/containerd-shim-runwasi" +:+ pretty process_id +:+ "-v1" in
  let* target := host (canonicalize binary) in
  let* _ := host (symlink target link) in
  aret (MkC8dShim client link runtime).

Definition c8d_shim_drop (s : C8dShim) : async Lab string unit :=
  let* _ := host (mtry (E' := string) (remove_file (shim_link s))) in aret tt.

Definition c8d_task (s : C8dShim) (image : string) (args : list string) : async Lab string C8dTask :=
  c8d_task_new (shim_client s) (shim_runtime s) image args.
End containerd.

(** *** mocks/task_client.rs *)

Section mocks.
Context {Conn Status Channel : Type} `{!Trapeze W Conn Status} `{!Services W Channel} `{!ImageJson}.
Abbreviation Client := (ClientInner Channel).

Record TaskClient := MkTaskClient { tc_client : Conn; tc_version : Version }.

(** The probe of one version: a delete of no task, which has to be refused;
    [None] when the service is not implemented. *)
Definition probe (client : Conn) (v : Version) : M W string bool :=
  let! r := mtry (ttrpc_delete client v EmptyString) in
  match r with
  | Ok _ => mthrow "unexpected shim response"%string
  | Err status => mret (negb (is_unimplemented status))
  | Panic => mpanic
  end.

(** [TaskClient::connect] *)
Definition task_client_connect (address : string) : M W string TaskClient :=
  let! client := trapeze_connect address in
  let! v2 := probe client V2 in
  if v2 : bool then mret (MkTaskClient client V2)
  else
    let! v3 := probe client V3 in
    if v3 : bool then mret (MkTaskClient client V3)
    else mthrow "unknown task service version"%string.

(** [multiplex!], and the [?] that makes a status an error *)
Definition multiplex {A} (self : TaskClient) (call : Conn -> Version -> M W Status A) : async Lab string A :=
  host (mmap_err status_display (call (tc_client self) (tc_version self))).

(** *** mocks/task.rs *)

Record MockTask := MkMockTask {
  mock_id : string;
  mock_dir : string;
  mock_client : TaskClient;
  mock_mounts : list MockMount;
  mock_deleted : nat;
  mock_unmounted : nat;
}.

(** [Task::new]; the directory is removed when a later step fails. *)
Definition mock_task_new (containerd : Client) (scratch image : string) (args : list string) (client : TaskClient)
    : async Lab string MockTask :=
  let* id := make_task_id in
  let* mounts := host (get_mounts containerd id image) in
  let mounts := map_mounts mounts in
  let spec := MkSpec (Some "1.1.0"%string) (Some (args, "/"%string)) sandbox_annotations (Some ("rootfs"%string, Some false)) in
  let* dir := host (tempdir_in scratch) in
  on_failure (
    let* _ := host (create_dir_all (path_join dir "rootfs")) in
    let* _ := host (write (path_join dir "options.json")
      ("{" +:+ debug_str "root" +:+ ":" +:+ debug_str "rootfs" +:+ "}")) in
    let* _ := host (write (path_join dir "config.json") (spec_json spec)) in
    let* deleted := new_once in
    let* unmounted := new_once in
    aret (MkMockTask id dir client mounts deleted unmounted))
  (host (mput (remove_dir dir))).

(** [unmount_recursive]: the job is given to the blocking pool, and the handle
    of its result is dropped. *)
Definition unmount_job (root : string) : M W string unit :=
  let! text := read_to_string "/proc/mounts" in
  let! _ := mapM_M umount (unmount_order root text) in
  mret tt.

Definition unmount_recursive (root : string) : async Lab string unit :=
  atomic (fun s => (tt, MkLab (world s) (counter s) (cells s) (unmounts s ++ [root]))).

(** The thread of the job number [k] *)
Definition unmount_thread (k : nat) : async Lab string unit :=
  let* root := await (fun s => root ← unmounts s !! k; Some (root, s)) in
  let* _ := atry (E' := string) (host (unmount_job root)) in
  aret tt.

(** [create], [start], [wait] and [delete] *)
Definition mock_create (t : MockTask) : async Lab string unit :=
  let stdout := path_join (mock_dir t) "stdout" in
  let stderr := path_join (mock_dir t) "stderr" in
  let* _ := touch stdout in
  let* _ := touch stderr in
  multiplex (mock_client t) (fun c v => ttrpc_create c v
    (MkCreateTaskRequest (mock_id t) (mock_dir t) stdout stderr (mock_mounts t))).

Definition mock_start (t : MockTask) : async Lab string unit :=
  multiplex (mock_client t) (fun c v => ttrpc_start c v (mock_id t)).

Definition mock_wait (t : MockTask) : async Lab string unit :=
  let* status := multiplex (mock_client t) (fun c v => ttrpc_wait c v (mock_id t)) in
  check_status (mock_dir t) status.

Definition mock_delete (t : MockTask) : async Lab string unit :=
  let* res1 := atry (try_run (mock_deleted t)
                 (multiplex (mock_client t) (fun c v => ttrpc_delete c v (mock_id t)))) in
  let* res2 := atry (try_run (mock_unmounted t)
                 (unmount_recursive (path_join (mock_dir t) "rootfs"))) in
  Done (res_and res1 res2).

(** [Drop for Task], and then the drop of its directory *)
Definition mock_drop (t : MockTask) : async Lab string unit :=
  let* _ := atry (E' := string) (mock_delete t) in
  host (mput (remove_dir (mock_dir t))).

(** *** mocks/shim.rs *)

Record MockShim := MkMockShim { mshim_dir : string; mshim_client : TaskClient; mshim_containerd : Client }.

Definition start_command (binary socket dir : string) : Command :=
  let name := "shim-benchmark-" +:+ pretty process_id in
  MkCommand binary
    ["-namespace"; name; "-id"; name; "-address"; "/run/containerd/containerd.sock"; "start"]%string
    [("TTRPC_ADDRESS"%string, socket)] dir.

(** [Command::output] *)
Definition run_output (c : Command) : async Lab string Output :=
  let* child := host (spawn_command c) in
  zoom (fun s => Some (world s)) with_world (
    let* r := await (command_output child) in Done r).

(** The address that a shim prints: plain, or as JSON with the protocol *)
Definition shim_address (stdout : string) : outcome string string :=
  let address := trim stdout in
  if starts_with "{" address then
    let? (addr, protocol) := parse_address address in
    if decide (protocol = "ttrpc"%string) then Ok addr
    else Err ("Condition failed: `parsed.protocol == " +:+ debug_str "ttrpc" +:+ "` (" +:+
              debug_str protocol +:+ " vs " +:+ debug_str "ttrpc" +:+ ")")
  else Ok address.

(** [Shim::new]; [order] is the order in which [select!] polls the two runs. *)
Definition mock_shim_new (order : list bool) (verbose : bool) (containerd : Client) (scratch binary : string)
    : async Lab string MockShim :=
  let socket := path_join scratch "containerd.sock.ttrpc" in
  let* dir := host (tempdir_in scratch) in
  on_failure (
    let* _ := host (write (path_join dir "config.json") (spec_json default_spec)) in
    let* _ := (if verbose then
                 let* stderr := host (canonicalize "/proc/self/fd/2") in
                 host (symlink stderr (path_join dir "log"))
               else host (symlink "/dev/null" (path_join dir "log"))) in
    let start_shim := run_output (start_command binary socket dir) in
    let* _ := select order start_shim start_shim in
    let* output := start_shim in
    if status_success output then
      let* stdout := Done (stdout_utf8 output) in
      let* address := Done (shim_address stdout) in
      let* client := host (task_client_connect address) in
      aret (MkMockShim dir client containerd)
    else athrow ("failed to start shim: " +:+ output_debug output))
  (host (mput (remove_dir dir))).

(** [Drop for Shim], and [Shim::task] *)
Definition mock_shim_drop (s : MockShim) : async Lab string unit :=
  let* _ := host (mtry (E' := string)
              (ttrpc_shutdown (tc_client (mshim_client s)) (tc_version (mshim_client s)) true)) in
  host (mput (remove_dir (mshim_dir s))).

Definition mock_task (s : MockShim) (image : string) (args : list string) : async Lab string MockTask :=
  mock_task_new (mshim_containerd s) (mshim_dir s) image args (mshim_client s).
(** *** mocks/containerd.rs *)

Record MockContainerd := MkMockContainerd {
  mc_dir : string; mc_verbose : bool; mc_containerd : Client;
}.

(** [Containerd::new]: a server of events on a socket in a directory of its own,
    which is removed when the server cannot be bound *)
Definition mock_containerd_new (client : Client) (verbose : bool) : async Lab string MockContainerd :=
  let* dir := host tempdir in
  on_failure (
    let* _ := host (serve_events ("unix://" +:+ path_join dir "containerd.sock.ttrpc")) in
    aret (MkMockContainerd dir verbose client))
  (host (mput (remove_dir dir))).

(** [Containerd::start_shim] *)
Definition mock_start_shim (order : list bool) (c : MockContainerd) (shim : string) : async Lab string MockShim :=
  mock_shim_new order (mc_verbose c) (mc_containerd c) (mc_dir c) shim.
End mocks.

(** *** The host of the test *)

Class Clock (Instant Duration F : Type) := {
  clock_ctrl_c : W -> option W;
  clock_sleep : Duration -> W -> option W;
  clock_is_zero : Duration -> bool;
  clock_now : W -> Instant;
  clock_elapsed : Instant -> W -> Duration;
  clock_format : Duration -> string;
  clock_throughput : nat -> Duration -> F;
  clock_write_json : string -> string -> string -> F -> string -> M W string unit;
}.

(** A step of the world as a step of the state *)
Definition lift_world (f : W -> option W) (s : Lab) : option Lab := w ← f (world s); Some (with_world w s).

Definition lift_M {E A} (m : M W E A) : M Lab E A :=
  fun s => let '(r, w) := m (world s) in (r, with_world w s).
(** *** main.rs *)

(** [default_entrypoint] *)
Definition default_entrypoint {Channel} `{!Services W Channel} `{!ImageJson}
    (client : ClientInner Channel) (image : string) : M W string (list string) :=
  let name := match split_once ":"%char image with Some (name, _) => name | None => image end in
  if decide (name = "ghcr.io/containerd/runwasi/wasi-demo-app"%string)
  then mret ["/wasi-demo-app.wasm"; "echo"; "hello"]%string
  else if decide (name = "ghcr.io/containerd/runwasi/wasi-demo-oci"%string)
  then mret ["/wasi-demo-oci.wasm"; "echo"; "hello"]%string
  else StressClient.entrypoint client image.

(** *** The traits *)

Section traits.
Context {Conn Status Channel Instant Duration F : Type} `{!Trapeze W Conn Status} `{!Services W Channel}.
Context `{!ImageJson} `{!Clock Instant Duration F}.

Definition containerd_backend (client : ClientInner Channel) : Stress Lab C8dShim C8dTask Instant Duration F := {|
  StressTest.start_shim := c8d_shim_new client;
  StressTest.shim_task := c8d_task;
  StressTest.create := c8d_create;
  StressTest.start := c8d_start;
  StressTest.wait := c8d_wait;
  StressTest.delete := c8d_delete;
  StressTest.drop_task := c8d_drop;
  StressTest.drop_shim := c8d_shim_drop;
  StressTest.ctrl_c := lift_world clock_ctrl_c;
  StressTest.sleep d := lift_world (clock_sleep d);
  StressTest.is_zero := clock_is_zero;
  StressTest.now s := clock_now (world s);
  StressTest.elapsed i s := clock_elapsed i (world s);
  StressTest.format_duration := clock_format;
  StressTest.throughput := clock_throughput;
  StressTest.write_json path name unit value extra := lift_M (clock_write_json path name unit value extra);
|}.

Definition mock_backend (order : list bool) (c : MockContainerd (Channel := Channel))
    : Stress Lab MockShim MockTask Instant Duration F := {|
  StressTest.start_shim := mock_start_shim order c;
  StressTest.shim_task := mock_task;
  StressTest.create := mock_create;
  StressTest.start := mock_start;
  StressTest.wait := mock_wait;
  StressTest.delete := mock_delete;
  StressTest.drop_task := mock_drop;
  StressTest.drop_shim := mock_shim_drop;
  StressTest.ctrl_c := lift_world clock_ctrl_c;
  StressTest.sleep d := lift_world (clock_sleep d);
  StressTest.is_zero := clock_is_zero;
  StressTest.now s := clock_now (world s);
  StressTest.elapsed i s := clock_elapsed i (world s);
  StressTest.format_duration := clock_format;
  StressTest.throughput := clock_throughput;
  StressTest.write_json path name unit value extra := lift_M (clock_write_json path name unit value extra);
|}.

(** *** The program

    Only one of the two tests runs.  Each has a bench of its own; the world is
    in the first. *)

Context {Sem Bar Tok : Type} `{!Sync Sem Bar Tok}.

Record Program := MkProgram {
  c8d_bench : Bench Lab (C8dShim (Channel := Channel)) (C8dTask (Channel := Channel)) Sem Bar Tok Instant;
  mock_bench : Bench Lab (MockShim (Conn := Conn) (Channel := Channel)) (MockTask (Conn := Conn)) Sem Bar Tok Instant;
}.

Definition program_lab (p : Program) : Lab := os (c8d_bench p).
Definition with_program_lab (l : Lab) (p : Program) : Program :=
  MkProgram (StressTest.with_os l (c8d_bench p)) (mock_bench p).

Definition on_lab {E A} (p : async Lab E A) : async Program E A := zoom (fun s => Some (program_lab s)) with_program_lab p.

Definition on_c8d {E A} p : async Program E A :=
  zoom (fun s => Some (c8d_bench s)) (fun b s => MkProgram b (mock_bench s)) p.

Definition on_mock {E A} p : async Program E A :=
  zoom (fun s => Some (StressTest.with_os (program_lab s) (mock_bench s)))
    (fun b s => MkProgram (StressTest.with_os (os b) (c8d_bench s)) b) p.

Definition with_args (args : list string) (cli : Cli Duration) : Cli Duration :=
  MkCli (StressTest.containerd cli) (parallel cli) (count cli) (timeout cli) (image cli) (json_output cli) (shim cli) args.

(** [main_impl]; [try_init] is that of [env_logger], [cli] and [verbose] what
    [clap] parses, [branches] the order of the loop of the test and [order] that
    of the start of a shim. *)
Definition main_impl (try_init : M W string unit) (branches : list Branch) (order : list bool) (verbose : bool)
    (cli : Cli Duration) : async Program string unit :=
  let* _ := on_lab (host try_init) in
  let* client := on_lab (host default_client) in
  let* args := (if cli_args cli is [] then on_lab (host (default_entrypoint client (image cli)))
                else aret (cli_args cli)) in
  let cli := with_args args cli in
  if StressTest.containerd cli
  then on_c8d (run_stress_test (Stress0 := containerd_backend client) branches cli)
  else
    let* containerd := on_lab (mock_containerd_new client verbose) in
    adefer (on_mock (run_stress_test (Stress0 := mock_backend order containerd) branches cli))
      (on_lab (host (mput (remove_dir (mc_dir containerd))))).

(** [main] around [main_impl]: the children are reaped whatever it returned. *)
Definition stress_main (rounds : nat) (main_impl : async Program string unit) : async Program string unit :=
  let* _ := on_lab (host set_child_subreaper) in
  let* res1 := atry main_impl in
  let* res2 := atry (on_lab (reap_children rounds)) in
  Done (res_and res1 res2).
End traits.
End lab.

(** ** Lemmas *)

Section lemmas.
Context {W Child : Type} `{!Host W Child}.
Abbreviation Lab := (Lab W).
Implicit Types (s : Lab) (k : nat).

Lemma exec_host {E A} (m : M W E A) s :
  exec (host m) s = (Some (m (world s)).1, with_world (m (world s)).2 s).
Proof. unfold host, alift. simpl. by destruct (m (world s)). Qed.

(** The cell [k] is free and its run is over. *)
Definition once_done (k : nat) (s : Lab) : Prop := cells s !! k = Some (MkOnce false true).

(** Programs that leave the cells alone *)
Definition keeps_cells {E} (fut : async Lab E unit) : Prop :=
  forall s r s', exec fut s = (r, s') -> cells s' = cells s.

Lemma try_run_done {E} k (fut : async Lab E unit) s :
  once_done k s -> exec (try_run k fut) s = (Some (Ok tt), s).
Proof.
  unfold once_done. intros Hk. pose proof (lookup_lt_Some _ _ _ Hk). unfold try_run, lock_once. simpl. rewrite Hk. simpl.
  unfold unlock_once, with_cell. simpl. rewrite list_lookup_insert_eq by done. simpl.
  rewrite list_insert_insert_eq, list_insert_id by done. by destruct s.
Qed.

Lemma try_run_ok {E} k (fut : async Lab E unit) s s' :
  keeps_cells fut -> exec (try_run k fut) s = (Some (Ok tt), s') ->
  once_done k s' /\ forall k', k' ≠ k -> cells s' !! k' = cells s !! k'.
Proof.
  intros Hfut. unfold try_run, lock_once. simpl. destruct (cells s !! k) as [o|] eqn:Hk; simpl; [|done].
  destruct o as [[|] d] eqn:Ho; simpl; [done|]. pose proof (lookup_lt_Some _ _ _ Hk) as Hlt.
  destruct d.
  - simpl. unfold unlock_once, with_cell, once_done. simpl. rewrite list_lookup_insert_eq by done.
    intros [= <-]. simpl. rewrite list_insert_insert_eq. split; [by apply list_lookup_insert_eq|].
    intros k' Hne. by rewrite list_lookup_insert_ne.
  - rewrite exec_afinally, exec_abind.
    destruct (exec fut _) as [[[[]|e|]|] s1] eqn:Hrun; [|done..]. apply Hfut in Hrun. simpl in Hrun.
    unfold unlock_once, with_cell, once_done. simpl. rewrite Hrun, list_insert_insert_eq, list_lookup_insert_eq by done.
    intros [= <-]. simpl. rewrite list_insert_insert_eq.
    split; [by apply list_lookup_insert_eq|]. intros k' Hne. by rewrite list_lookup_insert_ne.
Qed.

(** Two tries whose results are combined with [Result::and] *)
Definition both {E} (p q : async Lab E unit) : async Lab E unit :=
  let* res1 := atry p in
  let* res2 := atry q in
  Done (res_and (E := E) res1 res2).

Lemma both_ok {E} (p q : async Lab E unit) s s' :
  exec (both p q) s = (Some (Ok tt), s') ->
  exists s1, exec p s = (Some (Ok tt), s1) /\ exec q s1 = (Some (Ok tt), s').
Proof.
  unfold both. rewrite exec_abind, exec_atry. destruct (exec p s) as [[[[]|e|]|] s1] eqn:Hp; [| |done|done].
  all: rewrite ?exec_abind, ?exec_atry.
  all: destruct (exec q s1) as [[[[]|e'|]|] s2] eqn:Hq; simpl; try done.
  intros [= <-]. eauto.
Qed.

Lemma both_idempotent {E} k1 k2 (f g : async Lab E unit) s s' :
  keeps_cells f -> keeps_cells g ->
  exec (both (try_run k1 f) (try_run k2 g)) s = (Some (Ok tt), s') ->
  exec (both (try_run k1 f) (try_run k2 g)) s' = (Some (Ok tt), s').
Proof.
  intros Hf Hg (s1 & Hp & Hq)%both_ok.
  destruct (try_run_ok _ _ _ _ Hf Hp) as [H1 _], (try_run_ok _ _ _ _ Hg Hq) as [H2 Hk].
  assert (once_done k1 s') as H1'.
  { destruct (decide (k1 = k2)) as [->|Hne]; [done|]. unfold once_done. by rewrite Hk. }
  unfold both. rewrite exec_abind, exec_atry, (try_run_done _ _ _ H1').
  by rewrite exec_abind, exec_atry, (try_run_done _ _ _ H2).
Qed.

Lemma keeps_host {E} (m : M W E unit) : keeps_cells (host m).
Proof. intros s r s'. rewrite exec_host. by intros [= _ <-]. Qed.

Lemma keeps_host_bind {E A} (m : M W E A) (k : A -> async Lab E unit) :
  (forall a, keeps_cells (k a)) -> keeps_cells (abind (host m) k).
Proof.
  intros Hk s r s'. rewrite exec_abind, exec_host.
  destruct (m (world s)) as [[a|e|] w]; simpl; [|by intros [= _ <-]..]. apply (Hk a (with_world w s)).
Qed.
End lemmas.

(** *** Sorting *)

Lemma insert_by_len_perm p l : insert_by_len p l ≡ₚ p :: l.
Proof.
  induction l as [|q l IH]; simpl; [done|]. destruct (decide _); [done|]. rewrite IH. constructor.
Qed.

Lemma sort_by_len_perm l : sort_by_len l ≡ₚ l.
Proof. induction l as [|p l IH]; simpl; [done|]. by rewrite insert_by_len_perm, IH. Qed.

Definition shorter (p q : string) : Prop := String.length p <= String.length q.

Lemma insert_by_len_sorted p l : StronglySorted shorter l -> StronglySorted shorter (insert_by_len p l).
Proof.
  induction 1 as [|q l Hl IH Hq]; simpl; [by repeat constructor|]. unfold shorter in *.
  destruct (decide _) as [Hle|Hgt]; constructor; [by constructor| |done|].
  - constructor; [done|]. eapply Forall_impl; [done|]. simpl. lia.
  - rewrite insert_by_len_perm. constructor; [lia|done].
Qed.

Lemma sort_by_len_sorted l : StronglySorted shorter (sort_by_len l).
Proof. induction l as [|p l IH]; simpl; [constructor|]. by apply insert_by_len_sorted. Qed.

Lemma sorted_lookup {A} (R : A -> A -> Prop) l i j x y :
  StronglySorted R l -> l !! i = Some x -> l !! j = Some y -> i < j -> R x y.
Proof.
  intros Hl. revert i j. induction Hl as [|z l _ IH Hz]; intros [|i] [|j] Hi Hj Hij; simpl in *; try done; try lia.
  - simplify_eq. rewrite Forall_lookup in Hz. eauto.
  - apply (IH i j); [done..|lia].
Qed.

(** In the order of the unmounts a longer path comes first. *)
Lemma unmount_order_lengths root text i j p q :
  unmount_order root text !! i = Some q -> unmount_order root text !! j = Some p ->
  String.length p < String.length q -> i < j.
Proof.
  unfold unmount_order. set (l := sort_by_len _). assert (rev l = reverse l) as -> by (by rewrite rev_alt).
  intros Hi Hj Hlen. pose proof (lookup_lt_Some _ _ _ Hi) as Hli. pose proof (lookup_lt_Some _ _ _ Hj) as Hlj.
  rewrite length_reverse in Hli, Hlj. rewrite reverse_lookup in Hi, Hj by done.
  destruct (Nat.lt_ge_cases i j) as [|Hge]; [done|].
  assert (i = j \/ length l - S i < length l - S j) as [->|Hlt] by lia; [simplify_eq; lia|].
  pose proof (sorted_lookup _ _ _ _ _ _ (sort_by_len_sorted (mounts_below root text)) Hi Hj Hlt) as Hs.
  unfold shorter in Hs. lia.
Qed.

(** ** A host for the examples: a log of what is done to it *)

Definition note {A} (l : string) (a : A) : M (list string) string A := fun w => (Ok a, w ++ [l]).

#[export] Instance demo_host : Host (list string) unit := {
  process_id := 7;
  tempdir := note "tempdir" "/tmp/x"%string;
  tempdir_in d := note "tempdir" (path_join d "x");
  remove_dir d w := w ++ ["rm " +:+ d];
  create_dir_all _ := mret tt;
  write _ _ := mret tt;
  read_to_string p := mret (if decide (p = "/proc/mounts"%string) then
    "o /tmp/x/rootfs overlay" +:+ str_of_char newline +:+ "p /tmp/x/rootfs/proc proc"
    else EmptyString);
  canonicalize p := mret p;
  symlink _ _ := mret tt;
  remove_file _ := mret tt;
  umount p := note ("umount " +:+ p) tt;
  spawn_command _ := mret tt;
  command_output _ w := Some (Ok (MkOutput true (Ok "unix:///s"%string)), w);
  kill_pid _ := mret tt;
  waitpid_nohang _ := mret tt;
  set_child_subreaper := mret tt;
  spec_json _ := "{}"%string;
  output_debug _ := "output"%string;
  parse_address _ := Err "json"%string;
}.

#[export] Instance demo_services : Services (list string) unit := {
  connect_channel _ := mret tt;
  valid_metadata _ := true;
  expiry_24h _ := "2024-01-01T00:00:00Z"%string;
  leases_create _ _ _ := mret (Some "lease"%string);
  leases_delete _ _ _ := mret tt;
  content_read _ _ _ := mret [];
  images_get _ _ _ := mret None;
  snapshots_prepare _ _ _ _ _ := mret [];
  containers_create _ _ c := note ("create " +:+ cc_id c) tt;
  tasks_create _ _ c := note ("task " +:+ ct_container_id c) tt;
  tasks_start _ _ id := note ("start " +:+ id) tt;
  tasks_wait _ _ id := note ("wait " +:+ id) 0%Z;
  tasks_kill _ _ k := note ("kill " +:+ kt_container_id k) tt;
  tasks_delete _ _ id := note ("delete " +:+ id) tt;
  containers_delete _ _ id := note ("delete container " +:+ id) tt;
}.

(** A shim whose services are those of version 3 *)
#[export] Instance demo_trapeze : Trapeze (list string) unit bool := {
  trapeze_connect _ := mret tt;
  serve_events _ := mret tt;
  ttrpc_shutdown _ _ _ := fun w => (Ok tt, w ++ ["shutdown"%string]);
  ttrpc_create _ _ _ := fun w => (Ok tt, w ++ ["create"%string]);
  ttrpc_start _ _ _ := fun w => (Ok tt, w ++ ["start"%string]);
  ttrpc_wait _ _ _ := fun w => (Ok 0%Z, w ++ ["wait"%string]);
  ttrpc_delete _ v id := fun w =>
    match v with V2 => (Err true, w) | V3 => if is_empty id then (Err false, w) else (Ok tt, w ++ ["delete"%string]) end;
  is_unimplemented b := b;
  status_display _ := "status"%string;
}.

Definition demo_lab : Lab (list string) := MkLab [] 0 [MkOnce false false; MkOnce false false] [].

Definition demo_client : ClientInner unit := MkInner tt "default" "lease".

Definition demo_c8d_task : C8dTask (Channel := unit) :=
  MkC8dTask demo_client "rt" "t0" "image" [] default_spec 0 1 "/tmp/x".

Definition demo_mock_task : MockTask (Conn := unit) := MkMockTask "t0" "/tmp/x" (MkTaskClient tt V3) [] 0 1.

Example demo_version : (task_client_connect (Conn := unit) "s" []).1 = Ok (MkTaskClient tt V3).
Proof. by vm_compute. Qed.

Example demo_c8d_delete :
  (world (exec (c8d_drop demo_c8d_task) (exec (c8d_delete demo_c8d_task) demo_lab).2).2)
  = ["kill t0"; "delete t0"; "delete container t0"; "rm /tmp/x"]%string.
Proof. by vm_compute. Qed.

(** The directory of a deleted task can be removed before its mounts are. *)
Example demo_unmount_late :
  (exec (unmount_thread 0) (exec (mock_drop demo_mock_task) demo_lab).2).2
  = MkLab ["delete"; "rm /tmp/x"; "umount /tmp/x/rootfs/proc"; "umount /tmp/x/rootfs"]%string 0
      [MkOnce false true; MkOnce false true] ["/tmp/x/rootfs"%string].
Proof. by vm_compute. Qed.

(** ** Properties *)

(** C37: a task is deleted once.  After a [delete] that returned [Ok], the
    [delete] of the drop of the task asks nothing of containerd or of the shim,
    and the drop only removes the directory of the task. *)
Theorem tasks_are_deleted_once {W Child Conn Status Channel : Type} `{!Host W Child}
    `{!Services W Channel} `{!Trapeze W Conn Status} (s s' : Lab W) :
  (forall t : C8dTask (Channel := Channel),
     exec (c8d_delete t) s = (Some (Ok tt), s') ->
     exec (c8d_drop t) s' = (Some (Ok tt), with_world (remove_dir (c8d_dir t) (world s')) s')) /\
  (forall t : MockTask (Conn := Conn),
     exec (mock_delete t) s = (Some (Ok tt), s') ->
     exec (mock_drop t) s' = (Some (Ok tt), with_world (remove_dir (mock_dir t) (world s')) s')).
Proof.
  split; intros t Hrun.
  - unfold c8d_drop. rewrite exec_abind, exec_atry.
    apply both_idempotent in Hrun; [|by apply keeps_host_bind; intros; apply keeps_host|apply keeps_host].
    change (c8d_delete t) with (both (try_run (task_deleted t) (
      let* _ := host (mtry (E' := string) (kill_task (c8d_client t) (c8d_id t))) in
      host (delete_task (c8d_client t) (c8d_id t))))
      (try_run (container_deleted t) (host (delete_container (c8d_client t) (c8d_id t))))).
    by rewrite Hrun, exec_host.
  - unfold mock_drop. rewrite exec_abind, exec_atry.
    apply both_idempotent in Hrun; [|apply keeps_host|by intros ? ? ? [= _ <-]].
    change (mock_delete t) with (both (try_run (mock_deleted t)
      (multiplex (mock_client t) (fun c v => ttrpc_delete c v (mock_id t))))
      (try_run (mock_unmounted t) (unmount_recursive (path_join (mock_dir t) "rootfs")))).
    by rewrite Hrun, exec_host.
Qed.

(** The order of the unmounts.  Every mount at or below the root is
    unmounted once, and a mount under another one before it. *)
Theorem inner_mounts_first (root text : string) :
  unmount_order root text ≡ₚ mounts_below root text /\
  forall i j p q rest, unmount_order root text !! i = Some q -> unmount_order root text !! j = Some p ->
    q = p +:+ String slash rest -> i < j.
Proof.
  split.
  - unfold unmount_order. rewrite <- (sort_by_len_perm (mounts_below root text)) at 2.
    symmetry. apply Permutation_rev.
  - intros i j p q rest Hi Hj ->. eapply unmount_order_lengths; [exact Hi|exact Hj|].
    rewrite str_length_app. simpl. lia.
Qed.

Lemma tasks_are_deleted_once_witness :
  exec (c8d_drop demo_c8d_task) (exec (c8d_delete demo_c8d_task) demo_lab).2
  = (Some (Ok tt), with_world (remove_dir (c8d_dir demo_c8d_task) (world (exec (c8d_delete demo_c8d_task) demo_lab).2))
       (exec (c8d_delete demo_c8d_task) demo_lab).2).
Proof.
  apply (proj1 (tasks_are_deleted_once (Conn := unit) (Status := bool) demo_lab
    (exec (c8d_delete demo_c8d_task) demo_lab).2)).
  by vm_compute.
Defined.

Lemma inner_mounts_first_witness : 0 < 1.
Proof.
  apply (proj2 (inner_mounts_first "/r" ("o /r/a x" +:+ str_of_char newline +:+ "o /r/a/b x")) 0 1 "/r/a"%string "/r/a/b"%string "b"%string);
    by vm_compute.
Defined.
