(* ===== verification/Stack.v ===== *)
(** * Stack: the task service over the Wasm instance

    The handlers of [Local.v], the futures they spawn and the reapers of
    [WasmInstance.v] together.  [EngineGrows] is what the service needs of an
    engine so that its instances stay usable, and their exits are told as they
    were recorded, whatever else runs; the Wasm instance promises it, and the
    theorems on the service apply to the whole shim. *)

From S2P Require Import Prelude RustStr Errors Sandbox Executor PidFd Store Client InstanceUtils WasmInstance Async TaskState Waitable InstanceData Events Hooks Local Service ServiceRuns.

Create HintDb calm.

(** The world only grows, an instance that is ready stays ready, and an exit
    that was recorded stays recorded.  [new], interleaved with other steps,
    gives a ready instance of the id, and [wait] answers what was recorded. *)
Class EngineGrows (W T : Type) `{!Instance W T} (grows : W -> W -> Prop) (ready : W -> T -> Prop)
    (ident : T -> string) (recorded : W -> T -> Z * DateTime -> Prop) : Prop := {
  grows_pre :: PreOrder grows;
  ready_grows t w w' : grows w w' -> ready w t -> ready w' t;
  recorded_grows t v w w' : grows w w' -> recorded w t v -> recorded w' t v;
  new_ready i id c : safe (fun _ : W => True) (fun _ => grows) i (inst_new id c) (fun _ => True)
    (fun r w => forall t, r = Ok t -> ready w t /\ ident t = id);
  wait_recorded i t : safe (fun _ : W => True) (fun _ => grows) i (inst_wait t) (fun w => ready w t)
    (fun r w => forall v, r = Ok v -> recorded w t v);
  start_grows t : steps_in grows (inst_start t);
  kill_grows t sig : steps_in grows (inst_kill t sig);
  delete_grows t : steps_in grows (inst_delete t);
  wait_grows t : steps_in grows (inst_wait t);
}.

(** The host leaves a part of the world alone. *)
Class HostKeeps (W Spec Child Status : Type) {X : Type} `{!Host W Spec Child Status} (part : W -> X) : Prop := {
  spec_load_keeps p : keeps part (spec_load p);
  canonicalize_keeps b sp : keeps part (canonicalize_rootfs b sp);
  create_dir_all_keeps p : keeps part (create_dir_all p);
  mount_keeps ty src opts p : keeps part (mount_rootfs ty src opts p);
  spawn_keeps c : keeps part (hook_spawn c);
  write_keeps c text : keeps part (hook_write_all c text);
  kill_keeps c : keeps part (hook_kill c);
  wait_keeps c : keeps part (hook_wait c);
  metrics_keeps pid : keeps part (collect_metrics pid);
}.

Section service.
Context {W T N K Spec Child HookStatus : Type}.
Context `{!Instance W T} `{!Notify N K} `{!Host W Spec Child HookStatus}.
Context (grows : W -> W -> Prop) (engine_ready : W -> T -> Prop).
Context (ident : T -> string) (recorded : W -> T -> Z * DateTime -> Prop).
Context `{!EngineGrows W T grows engine_ready ident recorded}.
Context {X : Type} (part : W -> X) `{!HostKeeps W Spec Child HookStatus part}.
Context (part_grows : forall w w', part w' = part w -> grows w w').
Context (self : Local unit).
#[local] Existing Instance log_sender.
Abbreviation Sh := (Shared W (list Event) T N).
Implicit Types s : Sh.

(** *** The steps of [InstanceData] *)

Definition data_grows (dw dw' : InstanceData T * W) : Prop :=
  instance dw'.1 = instance dw.1 /\ grows dw.2 dw'.2.

#[local] Instance data_grows_refl : Reflexive data_grows.
Proof. by intros [d w]. Qed.

Lemma steps_on_world {E A} (p : async W E A) : steps_in grows p -> steps_in data_grows (on_world (T := T) p).
Proof.
  intros Hp. eapply steps_in_mono; [|by apply steps_in_zoom].
  intros [d w] dw' (w1 & w' & [= <-] & Hg & ->). done.
Qed.

Lemma steps_on_state (m : M TaskState Error unit) : steps_in data_grows (alift (on_state (T := T) (W := W) m)).
Proof. apply steps_in_alift. intros [d w]. unfold on_state. by destruct (m _) as [r c]. Qed.

Lemma steps_with_write {A} me (p : async (InstanceData T * W) Error A) :
  steps_in data_grows p -> steps_in data_grows (with_write me p).
Proof.
  intros Hp. apply steps_in_bind.
  - intros [d w] x dw' Hs. destruct (writer _); simplify_eq. by split.
  - intros _. apply steps_in_finally; [done|]. by intros [d w].
Qed.

Lemma steps_this : steps_in data_grows (this (W := W) (T := T)).
Proof. by apply steps_in_atomic. Qed.

#[local] Hint Resolve steps_in_bind steps_in_try steps_in_map_err steps_on_world steps_on_state
  steps_with_write steps_this start_grows kill_grows delete_grows wait_grows : grows.

Lemma steps_data_pid : steps_in data_grows (InstanceData.pid (W := W) (T := T)).
Proof. by apply steps_in_atomic. Qed.

Lemma steps_set_pid p : steps_in data_grows (alift (set_pid (W := W) (T := T) p)).
Proof. apply steps_in_alift. intros [d w]. unfold set_pid. simpl. by destruct (pid_cell d). Qed.

Lemma steps_data_start me : steps_in data_grows (InstanceData.start (W := W) (T := T) me).
Proof.
  apply steps_with_write, steps_in_bind; [apply steps_on_state|intros _].
  apply steps_in_bind; [apply steps_this|intros d].
  apply steps_in_bind; [apply steps_in_try, steps_on_world, start_grows|intros res].
  apply steps_in_bind; [|done]. unfold record_start. destruct res as [p|e|].
  - apply steps_in_bind; [apply steps_set_pid|intros _]. eauto with grows.
  - eauto with grows.
  - eauto with grows.
Qed.

Lemma steps_data_kill me sig : steps_in data_grows (InstanceData.kill (W := W) (T := T) me sig).
Proof. unfold InstanceData.kill. eauto 10 with grows. Qed.

Lemma steps_data_delete me : steps_in data_grows (InstanceData.delete (W := W) (T := T) me).
Proof.
  apply steps_with_write, steps_in_bind; [apply steps_on_state|intros _].
  apply steps_in_bind; [apply steps_this|intros d].
  apply steps_in_bind; [apply steps_in_try, steps_on_world, delete_grows|intros res].
  apply steps_in_bind; [|done]. destruct (is_err res); [eauto with grows|done].
Qed.

Lemma steps_set_exited me : steps_in data_grows (with_write me (set_exited (W := W) (T := T))).
Proof. apply steps_with_write, steps_in_atomic. by intros [d' w]. Qed.

Lemma steps_data_wait me : steps_in data_grows (InstanceData.wait (W := W) (T := T) me).
Proof.
  apply steps_in_bind; [apply steps_this|intros d].
  apply steps_in_bind; [apply steps_in_map_err, steps_on_world, wait_grows|intros res].
  apply steps_in_bind; [apply steps_set_exited|done].
Qed.

(** What [wait] answers to [InstanceData::wait] *)
Abbreviation dsafe := (safe (fun _ : InstanceData T * W => True) (fun _ => data_grows)).

Lemma safe_on_world {E A} i (p : async W E A) P (Q : outcome E A -> W -> Prop) t :
  steps_in grows p -> safe (fun _ : W => True) (fun _ => grows) i p P Q ->
  dsafe i (on_world p) (fun dw => P dw.2 /\ instance dw.1 = t) (fun r dw => Q r dw.2 /\ instance dw.1 = t).
Proof.
  intros Hst Hp. eapply safe_frame; [by apply steps_on_world| | |].
  - by intros dw dw' _ _ Hi [-> _].
  - by intros dw dw' Hi [-> _].
  - eapply safe_weaken; [| |eapply safe_zoom; [| | |exact Hp]].
    + intros dw _ HP. by exists dw.2.
    + by intros r dw _ (w' & [= <-] & HQ).
    + done.
    + intros dw dw' w' _ _ [_ Hg] [= <-]. by exists dw'.2.
    + intros dw w1 w2 _ [= <-] _ Hg. split_and!; [done| |done]. intros j Hj. split; [done|by apply (Hg j)].
Qed.

Lemma safe_data_wait i me t :
  dsafe i (InstanceData.wait me) (fun dw => engine_ready dw.2 t /\ instance dw.1 = t)
    (fun r dw => forall v, r = Ok v -> recorded dw.2 t v).
Proof.
  assert (forall v, stable (fun _ : InstanceData T * W => True) (fun _ => data_grows) i
                      (fun dw => recorded dw.2 t v)) as Hst.
  { intros v dw dw' _ _ Hv [Hi Hg]. by eapply recorded_grows. }
  intros dw d' s' _ [Hr Hi] [= <- <-]. split_and!; [done|done|].
  exists (fun dw => engine_ready dw.2 t /\ instance dw.1 = t). split_and!; [done|done| |].
  { intros dw1 dw2 _ _ [H1 H2] [H3 Hg]. split; [by eapply ready_grows|by etrans]. }
  change (dsafe i (let* res := amap_err no_error (on_world (inst_wait (instance dw.1))) in
                   let* _ := with_write me set_exited in aret res)
            (fun dw => engine_ready dw.2 t /\ instance dw.1 = t) (fun r dw => forall v, r = Ok v -> recorded dw.2 t v)).
  rewrite Hi.
  eapply (safe_bind _ _ _ _ _ _ (fun r dw => forall v, r = Ok v -> recorded dw.2 t v)); [|intros v|done..].
  - apply safe_map_err. eapply safe_weaken; [| |exact (safe_on_world i _ _ _ t (wait_grows t) (wait_recorded i t))].
    + done.
    + intros [v|[]|] dw1 _ [Hv _]; [|done]. intros v' [= <-]. by apply Hv.
  - eapply (safe_bind _ _ _ _ _ _ (fun _ dw => recorded dw.2 t v)); [| |done..].
    + eapply safe_weaken; [| |eapply safe_steps; [apply (steps_set_exited me)|apply (Hst v)|]].
      * intros dw1 _ Hv. by apply Hv.
      * done.
      * intros dw1 dw2 _ Hv Hg. split_and!; [done|by intros j _|]. by apply (Hst v dw1 dw2).
    + by intros [] dw1 _ Hv v' [= <-].
Qed.

(** *** The steps of the handlers *)

(** The instances made so far *)
Definition made s : list T := instance <$> heap s.

(** The place [l] holds an instance of the task [id]. *)
Definition owns s (id : string) (l : nat) : Prop := exists t, made s !! l = Some t /\ ident t = id.

(** An instance of the task [id] has ended as [v] says. *)
Definition ended s (id : string) (v : Z * DateTime) : Prop :=
  exists l t, made s !! l = Some t /\ ident t = id /\ recorded (world s) t v.

Definition true_exit s (id : string) (code : Z) (at_ : Timestamp) : Prop :=
  exists v, ended s id v /\ code = v.1 /\ at_ = to_timestamp v.2.

(** What a poll tells: nothing, with status [0], or a recorded exit *)
Definition true_poll s (id : string) (code : Z) (at_ : option Timestamp) : Prop :=
  match at_ with
  | None => code = 0%Z
  | Some at_ => true_exit s id code at_
  end.

Definition true_event s (e : Event) : Prop :=
  match e with
  | TaskExit id code at_ _ _ => true_exit s id code at_
  | TaskDelete id _ code at_ => true_poll s id code at_
  | _ => True
  end.

Definition true_reply s (rq : request) (rp : reply) : Prop :=
  match rq, rp with
  | RqWait q, RpWait x => true_exit s (rq_id q) (wt_exit_status x) (wt_exited_at x)
  | RqDelete q, RpDelete x => true_poll s (rq_id q) (del_exit_status x) (del_exited_at x)
  | RqState q, RpState x => true_poll s (rq_id q) (st_exit_status x) (st_exited_at x)
  | _, _ => True
  end.

Record stack_inv s : Prop := {
  inv_ready l t : made s !! l = Some t -> engine_ready (world s) t;
  inv_table id l : instances s !! id = Some l -> owns s id l;
  inv_spawned t : t ∈ spawned s -> owns s (ew_id t) (ew_loc t);
  inv_outbox e : e ∈ outbox s -> true_event s e;
}.

(** Every thread lets the world grow and keeps the instances where they are. *)
Definition onward s s' : Prop := grows (world s) (world s') /\ made s `prefix_of` made s'.

Definition stack_rely (_ : nat) s s' : Prop := onward s s'.

(** Assertions that the other threads keep *)
Definition up (P : Sh -> Prop) : Prop := forall s s', onward s s' -> P s -> P s'.

Lemma onward_made s s' l t : onward s s' -> made s !! l = Some t -> made s' !! l = Some t.
Proof. intros [_ Hp] Hl. by eapply prefix_lookup_Some. Qed.

Lemma up_owns id l : up (fun s => owns s id l).
Proof. intros s s' Ho (t & Ht & Hid). exists t. split; [by eapply onward_made|done]. Qed.

Lemma up_true_exit id code at_ : up (fun s => true_exit s id code at_).
Proof.
  intros s s' Ho (v & (l & t & Ht & Hid & Hv) & Heq). exists v. split; [|done]. exists l, t.
  split_and!; [by eapply onward_made|done|]. destruct Ho as [Hg _]. by eapply recorded_grows.
Qed.

Lemma up_true_poll id code at_ : up (fun s => true_poll s id code at_).
Proof. destruct at_ as [at_|]; [apply up_true_exit|by intros ???]. Qed.

Lemma up_true_event e : up (fun s => true_event s e).
Proof. destruct e; simpl; [by intros ???|by intros ???|apply up_true_exit|apply up_true_poll]. Qed.

#[local] Hint Resolve up_owns up_true_exit up_true_poll up_true_event : calm.

(** A step that adds no instance, no watch and no event *)
Record calm s s' : Prop := {
  calm_grows : grows (world s) (world s');
  calm_made : made s' = made s;
  calm_table : instances s' ⊆ instances s;
  calm_spawned t : t ∈ spawned s' -> t ∈ spawned s;
  calm_outbox : outbox s' = outbox s;
}.

Lemma calm_onward s s' : calm s s' -> onward s s'.
Proof. intros []. split; [done|]. by rewrite calm_made0. Qed.

Lemma calm_world s s' :
  heap s' = heap s -> instances s' = instances s -> spawned s' = spawned s -> outbox s' = outbox s ->
  grows (world s) (world s') -> calm s s'.
Proof. intros Hh Hi Hs Ho Hg. split; unfold made; rewrite ?Hh, ?Hi, ?Hs, ?Ho; done. Qed.

(** An event that is true may be added. *)
Lemma inv_onward s s' :
  stack_inv s -> onward s s' ->
  (forall l t, made s' !! l = Some t -> made s !! l = Some t \/ engine_ready (world s') t) ->
  (forall id l, instances s' !! id = Some l -> instances s !! id = Some l \/ owns s' id l) ->
  (forall t, t ∈ spawned s' -> t ∈ spawned s \/ owns s' (ew_id t) (ew_loc t)) ->
  (forall e, e ∈ outbox s' -> e ∈ outbox s \/ true_event s' e) -> stack_inv s'.
Proof.
  intros HI Ho Hm Hi Hs He. split.
  - intros l t [Hl|Hl]%Hm; [|done]. eapply ready_grows; [apply Ho|by eapply inv_ready].
  - intros id l [Hl|Hl]%Hi; [|done]. eapply up_owns; [exact Ho|by apply inv_table].
  - intros t [Ht|Ht]%Hs; [|done]. eapply up_owns; [exact Ho|by apply inv_spawned].
  - intros e [Hl|Hl]%He; [|done]. eapply up_true_event; [exact Ho|by apply inv_outbox].
Qed.

Lemma calm_ok s s' : stack_inv s -> calm s s' -> stack_inv s' /\ onward s s'.
Proof.
  intros HI Hc. pose proof (calm_onward s s' Hc) as Ho. split; [|done]. destruct Hc as [_ Hm Hi Hs He].
  eapply inv_onward; [done|done|..].
  - intros l t Hl. left. by rewrite <- Hm.
  - intros id l Hl. left. by eapply lookup_weaken.
  - auto.
  - intros e. rewrite He. auto.
Qed.

Lemma made_with_data l d' w s d :
  heap s !! l = Some d -> instance d' = instance d -> made (with_data l (d', w) s) = made s.
Proof.
  intros Hl Hi. unfold made. simpl. rewrite list_fmap_insert, Hi, list_insert_id; [done|].
  by rewrite list_lookup_fmap, Hl.
Qed.

Lemma calm_with_data l d w d' w' s :
  heap s !! l = Some d -> world s = w -> data_grows (d, w) (d', w') -> calm s (with_data l (d', w') s).
Proof. intros Hl <- [Hi Hg]. split; [done| |done|done|done]. by eapply made_with_data. Qed.

Lemma calm_data {A} l (p : async (InstanceData T * W) Error A) :
  steps_in data_grows p -> steps_in calm (on_data (X := list Event) (N := N) l p).
Proof.
  intros Hp. eapply steps_in_mono; [|by apply steps_in_zoom].
  intros s s' ([d w] & [d' w'] & Hd & Hg & ->).
  destruct (heap s !! l) as [d0|] eqn:Hl; simpl in Hd; [|done]. injection Hd as -> <-.
  by eapply calm_with_data.
Qed.

Lemma calm_host {A} (m : M W Error A) : keeps part m -> steps_in calm (on_host (T := T) (X := list Event) (N := N) m).
Proof.
  intros Hm. apply steps_in_alift. intros s. specialize (Hm (world s)).
  destruct (m (world s)) as [r w]. apply calm_world; [done..|]. by apply part_grows.
Qed.

Lemma calm_read {E A} (f : Sh -> A) : steps_in calm (atomic (E := E) (fun s => (f s, s))).
Proof. apply steps_in_atomic. intros s. by apply calm_world. Qed.

Lemma calm_get id : steps_in calm (get_instance (W := W) (X := list Event) (T := T) (N := N) id).
Proof. apply steps_in_alift. intros s. by apply calm_world. Qed.

Lemma calm_exit {E A} (p : async (cell unit N) E A) :
  steps_in calm (zoom (fun s : Sh => Some (exit s)) with_exit p).
Proof.
  eapply steps_in_mono; [|apply steps_in_zoom, steps_in_any].
  intros s s' (w & w' & _ & _ & ->). by apply calm_world.
Qed.

#[local] Hint Resolve spec_load_keeps canonicalize_keeps create_dir_all_keeps mount_keeps spawn_keeps
  write_keeps kill_keeps wait_keeps metrics_keeps : runwasi.

Lemma prepare_keeps r : steps_in calm (prepare_rootfs (T := T) (X := list Event) (N := N) r).
Proof.
  apply calm_host. apply keeps_bind; [auto with runwasi|intros sp]. apply keeps_bind; [auto with runwasi|intros sp'].
  apply keeps_bind; [auto with runwasi|intros rootfs]. apply keeps_bind; [auto with runwasi|intros _].
  apply keeps_bind; [|done]. unfold mount_all. auto with runwasi.
Qed.

Lemma hooks_keep (hooks : option HooksSpec) :
  keeps part (setup_prestart_hooks hook_spawn hook_write_all hook_kill hook_wait process_id hooks).
Proof.
  destruct hooks as [h|]; [|done]. simpl. destruct (prestart h); [|done]. apply keeps_foldM. intros _ hook.
  apply keeps_bind; [auto with runwasi|intros c]. apply keeps_bind; [auto with runwasi|intros r].
  apply keeps_bind; [|intros _; apply keeps_bind; [auto with runwasi|done]].
  destruct r as [| |]; [done| |done]. case_decide; [|done]. apply keeps_bind; [auto with runwasi|done].
Qed.

Lemma calm_done {E A} (r : outcome E A) : steps_in calm (Done r).
Proof. done. Qed.

Lemma calm_guard b e : steps_in calm (guard (W := W) (X := list Event) (T := T) (N := N) b e).
Proof. by destruct b. Qed.

Lemma calm_remove id : steps_in calm (remove_instance (W := W) (X := list Event) (T := T) (N := N) id).
Proof. apply steps_in_atomic. intros s. split; [done|done|apply delete_subseteq|done|done]. Qed.

#[local] Hint Resolve calm_data calm_get calm_done calm_guard calm_remove calm_read calm_host prepare_keeps hooks_keep
  steps_data_start steps_data_kill steps_data_delete steps_data_wait steps_data_pid : calm.

(** *** The handlers, with what they tell *)

Abbreviation ssafe := (safe stack_inv stack_rely).

(** [Q] holds of the value of a future that succeeds. *)
Definition gives {A} (Q : A -> Sh -> Prop) (r : outcome Error A) s : Prop := forall x, r = Ok x -> Q x s.

Lemma gives_weaken {A} i (p : async Sh Error A) P P' (Q Q' : A -> Sh -> Prop) :
  (forall s, stack_inv s -> P s -> P' s) -> (forall x s, Q' x s -> Q x s) ->
  ssafe i p P' (gives Q') -> ssafe i p P (gives Q).
Proof.
  intros HP HQ. apply safe_weaken; [done|]. intros r s _ Hr x Hx. by apply HQ, Hr.
Qed.

Lemma gives_bind {A B} i (p : async Sh Error A) (k : A -> async Sh Error B) P Q Q' :
  ssafe i p P (gives Q) -> (forall a, ssafe i (k a) (Q a) (gives Q')) -> ssafe i (abind p k) P (gives Q').
Proof.
  intros Hp Hk. eapply safe_bind; [exact Hp|intros a|done|done].
  eapply safe_weaken; [| |apply Hk]; [|done]. intros s _ Hs. by apply Hs.
Qed.

Lemma up_stable i P : up P -> stable stack_inv stack_rely i P.
Proof. intros HP s s' _ _ Hs Ho. by apply (HP s s'). Qed.

Lemma gives_calm {A} i (p : async Sh Error A) P :
  steps_in calm p -> up P -> ssafe i p P (gives (fun _ => P)).
Proof.
  intros Hp HP. eapply safe_weaken; [done| |eapply safe_steps; [exact Hp|by apply up_stable|]].
  - by intros r s _ Hs x _.
  - intros s s' HI Hs Hc. destruct (calm_ok s s' HI Hc) as [HI' Ho]. split_and!; [done|by intros j _|by apply (HP s s')].
Qed.

Lemma gives_calm_bind {A B} i (p : async Sh Error A) (k : A -> async Sh Error B) P Q :
  steps_in calm p -> up P -> (forall a, ssafe i (k a) P (gives Q)) -> ssafe i (abind p k) P (gives Q).
Proof. intros Hp HP Hk. eapply gives_bind; [by apply gives_calm|exact Hk]. Qed.

Lemma gives_ret {A} i (a : A) (P : Sh -> Prop) (Q : A -> Sh -> Prop) :
  (forall s, P s -> Q a s) -> ssafe i (aret a) P (gives Q).
Proof. intros HQ s _ HP x [= <-]. by apply HQ. Qed.

(** A step of the service that is never pending *)
Lemma gives_atomic {A} i (f : Sh -> A * Sh) (P : Sh -> Prop) (Q : A -> Sh -> Prop) :
  (forall s, stack_inv s -> P s -> stack_inv (f s).2 /\ onward s (f s).2 /\ Q (f s).1 (f s).2) ->
  (forall a, up (Q a)) -> ssafe i (atomic f) P (gives Q).
Proof.
  intros Hf HQ. apply safe_await.
  - intros s x s' HI HP [= Hs]. specialize (Hf s HI HP). rewrite Hs in Hf. destruct Hf as (HI' & Ho & Hx).
    split_and!; [done|by intros j _|]. by intros y [= <-].
  - intros x s s' _ _ Hx Ho y [= <-]. apply (HQ x s s' Ho). by apply Hx.
Qed.

Lemma gives_get i id :
  ssafe i (get_instance id) (fun _ => True) (gives (fun l s => owns s id l)).
Proof.
  apply safe_lift.
  - intros s HI _. split_and!; [done|by intros j _; split|]. intros l. simpl.
    destruct (instances s !! id) as [l'|] eqn:Hl; [|done]. intros [= <-]. by apply inv_table.
  - intros r s s' _ _ Hr Ho l Hl. eapply up_owns; [exact Ho|by apply Hr].
Qed.

Lemma gives_send i e P :
  up P -> (forall s, P s -> true_event s e) -> ssafe i (send_event self e) P (gives (fun _ => P)).
Proof.
  intros HP He. apply gives_atomic; [|done]. intros s HI Hs.
  assert (onward s (with_outbox (outbox s ++ [e]) s)) as Ho by done.
  split_and!; [|done|by apply (HP s)]. eapply inv_onward; [done|exact Ho|auto..].
  intros e' [He'|He']%elem_of_app; [by left|].
  apply list_elem_of_singleton in He' as ->. right. eapply up_true_event; [exact Ho|by apply He].
Qed.

(** What the engine does in its own world, next to the other threads *)
Lemma gives_engine {A} i (p : async W Error A) (Q : A -> W -> Prop) :
  safe (fun _ => True) (fun _ => grows) i p (fun _ => True) (fun r w => forall x, r = Ok x -> Q x w) ->
  ssafe i (on_engine p) (fun _ => True) (gives (fun x s => Q x (world s))).
Proof.
  intros Hp. eapply safe_weaken; [| |eapply safe_zoom; [| | |exact Hp]].
  - intros s _ _. by exists (world s).
  - by intros r s _ (w & [= <-] & HQ).
  - done.
  - intros s s' w _ _ [Hg _] [= <-]. by exists (world s').
  - intros s w w' HI [= <-] _ Hg. destruct (other_thread i) as [j Hj].
    destruct (calm_ok s (with_world w' s) HI) as [HI' Ho]; [by apply calm_world; [..|apply (Hg j)]|].
    split_and!; [done|by intros k _|done].
Qed.

(** An operation on the data of the instance at [l] *)
Lemma gives_data {A} i l t (p : async (InstanceData T * W) Error A) (Q : A -> W -> Prop) :
  dsafe i p (fun dw => engine_ready dw.2 t /\ instance dw.1 = t) (fun r dw => forall x, r = Ok x -> Q x dw.2) ->
  ssafe i (on_data l p) (fun s => made s !! l = Some t) (gives (fun x s => Q x (world s))).
Proof.
  intros Hp. eapply safe_weaken; [| |eapply safe_zoom; [| | |exact Hp]].
  - intros s HI Ht. pose proof (inv_ready s HI l t Ht) as Hr. unfold made in Ht.
    apply list_lookup_fmap_Some in Ht as (d & -> & Hd). exists (d, world s). by rewrite Hd.
  - intros r s _ ([d w] & Hd & HQ). destruct (heap s !! l); simpl in Hd; [|done]. by injection Hd as -> <-.
  - done.
  - intros s s' [d w] _ _ Ho Hd. destruct (heap s !! l) as [d0|] eqn:Hl; simpl in Hd; [|done]. injection Hd as -> <-.
    assert (made s' !! l = Some (instance d)) as Hl'
      by (eapply onward_made; [exact Ho|]; unfold made; by rewrite list_lookup_fmap, Hl).
    unfold made in Hl'. apply list_lookup_fmap_Some in Hl' as (d' & Hi & Hd').
    exists (d', world s'). rewrite Hd'. split; [done|]. destruct Ho as [Hg _]. by split.
  - intros s [d w] [d' w'] HI Hd _ Hg. destruct (heap s !! l) as [d0|] eqn:Hl; simpl in Hd; [|done].
    injection Hd as -> <-. destruct (other_thread i) as [j Hj].
    destruct (calm_ok s (with_data l (d', w') s) HI) as [HI' Ho]; [by eapply calm_with_data; [..|exact (Hg j Hj)]|].
    split_and!; [done|by intros k _|]. simpl. by rewrite list_lookup_insert_eq by (by eapply lookup_lt_Some).
Qed.

(** The same, for an instance of the task [id]: what is told of its end *)
Lemma gives_exit {A} i l id (p : async (InstanceData T * W) Error A) (Q : A -> (Z * DateTime -> Prop) -> Prop) :
  (forall x (F G : Z * DateTime -> Prop), (forall v, F v -> G v) -> Q x F -> Q x G) -> steps_in data_grows p ->
  (forall t, dsafe i p (fun dw => engine_ready dw.2 t /\ instance dw.1 = t)
    (fun r dw => forall x, r = Ok x -> Q x (recorded dw.2 t))) ->
  ssafe i (on_data l p) (fun s => owns s id l) (gives (fun x s => Q x (ended s id))).
Proof.
  intros Hmono Hst Hp. apply safe_exists. intros t.
  eapply safe_weaken; [| |eapply (safe_frame _ _ i (on_data l p) calm _ (fun s => made s !! l = Some t /\ ident t = id));
    [by apply calm_data| | |exact (gives_data i l t p (fun x w => Q x (recorded w t)) (Hp t))]].
  - intros s _ Ht. split; [apply Ht|exact Ht].
  - intros r s _ [HQ [Ht Hid]] x Hx. eapply Hmono; [|by apply HQ]. intros v Hv. by exists l, t.
  - intros s s' _ _ [Ht Hid] Ho. split; [by eapply onward_made|done].
  - intros s s' [Ht Hid] Hc. split; [by rewrite (calm_made s s' Hc)|done].
Qed.

Lemma gives_wait i me l id :
  ssafe i (on_data l (InstanceData.wait me)) (fun s => owns s id l) (gives (fun v s => ended s id v)).
Proof.
  apply (gives_exit i l id _ (fun v F => F v)); [by intros x F G HFG; apply HFG|apply steps_data_wait|].
  intros t. apply safe_data_wait.
Qed.

Lemma gives_poll i me l id :
  ssafe i (poll_exit me l) (fun s => owns s id l) (gives (fun x s => true_poll s id (default 0%Z x.1) x.2)).
Proof.
  eapply gives_bind.
  - apply (gives_exit i l id _ (fun o F => match o with Some v => F v | None => True end)).
    + intros [v|] F G HFG; [apply HFG|done].
    + apply steps_in_now_or_never; [apply _|apply steps_data_wait].
    + intros t. apply safe_now_or_never; [done| |by intros s o [= <-]].
      eapply safe_weaken; [| |apply (safe_data_wait i me t)]; [done|].
      intros [v|e|] dw _ Hv o Ho; simpl in Ho; simplify_eq. by apply Hv.
  - intros [v|]; apply gives_ret; intros s Hs; simpl; [by exists v|done].
Qed.

(** *** The requests *)

Definition tells {A} (f : A -> reply) (rq : request) (x : A) s : Prop := true_reply s rq (f x).

Lemma safe_reply {A} i (p : async Sh Error A) (f : A -> reply) rq :
  ssafe i p (fun _ => True) (gives (tells f rq)) ->
  ssafe i (let* x := p in aret (f x)) (fun _ => True) (gives (fun rp s => true_reply s rq rp)).
Proof. intros Hp. eapply gives_bind; [exact Hp|intros x; by apply gives_ret]. Qed.

Lemma tells_calm {A} i (p : async Sh Error A) (f : A -> reply) rq :
  steps_in calm p -> (forall x s, true_reply s rq (f x)) -> ssafe i p (fun _ => True) (gives (tells f rq)).
Proof.
  intros Hp Hf. eapply gives_weaken; [| |apply (gives_calm i p (fun _ => True)); [done|by intros ???]]; [done|].
  intros x s _. apply Hf.
Qed.

Ltac calm :=
  repeat first
    [ apply steps_in_bind; [solve [auto with calm]|intros ?]
    | solve [auto with calm]
    | exact I
    | case_match ].

Lemma up_true : up (fun _ => True).
Proof. by intros ???. Qed.

#[local] Hint Resolve up_true : calm.

Lemma made_insert s s' d : heap s' = heap s ++ [d] -> made s' = made s ++ [instance d].
Proof. intros Hh. unfold made. by rewrite Hh, fmap_app. Qed.

Lemma gives_insert i id d :
  ssafe i (insert_instance id d) (fun s => engine_ready (world s) (instance d) /\ ident (instance d) = id)
    (gives (fun _ _ => True)).
Proof.
  apply gives_atomic; [|auto with calm]. intros s HI [Hr Hid]. simpl.
  set (s' := MkShared _ _ _ _ _ _). pose proof (made_insert s s' d eq_refl) as Hm.
  assert (onward s s') as Ho by (split; [done|rewrite Hm; by apply prefix_app_r]).
  split_and!; [|done|done]. eapply inv_onward; [done|exact Ho| | |by auto|by auto].
  - intros l t. rewrite Hm. intros [Hl|[_ Hl]]%lookup_app_Some; [by left|right].
    by apply list_lookup_singleton_Some in Hl as [_ <-].
  - intros id' l Hl. simpl in Hl. apply lookup_insert_Some in Hl as [[<- <-]|[_ Hl]]; [right|by left].
    exists (instance d). split; [|done]. rewrite Hm, lookup_app_r; unfold made; rewrite length_fmap; [|lia].
    by rewrite Nat.sub_diag.
Qed.

Lemma gives_spawn i t :
  ssafe i (spawn t) (fun s => owns s (ew_id t) (ew_loc t)) (gives (fun _ _ => True)).
Proof.
  apply gives_atomic; [|auto with calm]. intros s HI Ht.
  assert (onward s (with_spawned (spawned s ++ [t]) s)) as Ho by done.
  split_and!; [|done|done]. eapply inv_onward; [done|exact Ho|by auto|by auto| |by auto].
  intros t' [Ht'|Ht']%elem_of_app; [by left|right]. by apply list_elem_of_singleton in Ht' as ->.
Qed.

(** The handlers, each with what its answer tells *)
Lemma told_by_create i r : ssafe i (task_create (N := N) self r) (fun _ => True) (gives (fun _ _ => True)).
Proof.
  do 3 (apply gives_calm_bind; [auto with calm|auto with calm|intros ?]).
  apply gives_calm_bind; [apply calm_read|auto with calm|intros ex].
  do 2 (apply gives_calm_bind; [auto with calm|auto with calm|intros ?]).
  eapply gives_bind.
  - apply (gives_engine i _ (fun d w => engine_ready w (instance d) /\ ident (instance d) = cr_id r)).
    eapply safe_bind; [apply new_ready| |done|done]. intros t w _ Ht d [= <-]. by apply Ht.
  - intros d. eapply gives_bind; [apply gives_insert|intros []].
    eapply gives_bind; [by apply (gives_send i _ (fun _ => True))|intros []].
    apply gives_calm_bind; [auto with calm|auto with calm|intros ?]. by apply gives_ret.
Qed.

Lemma told_by_start i me q : ssafe i (task_start (N := N) self me q) (fun _ => True) (gives (fun _ _ => True)).
Proof.
  apply gives_calm_bind; [auto with calm|auto with calm|intros _].
  eapply gives_bind; [apply gives_get|intros l].
  apply gives_calm_bind; [auto with calm|auto with calm|intros p].
  eapply gives_bind; [by apply (gives_send i _ (fun s => owns s (rq_id q) l)); [auto with calm|]|intros []].
  eapply gives_bind; [apply (gives_spawn i (MkExitWatch l (rq_id q) p))|intros []]. by apply gives_ret.
Qed.

Lemma told_by_delete i me q :
  ssafe i (task_delete (N := N) self me q) (fun _ => True) (gives (tells RpDelete (RqDelete q))).
Proof.
  apply gives_calm_bind; [unfold no_exec; auto with calm|auto with calm|intros _].
  eapply gives_bind; [apply gives_get|intros l].
  do 2 (apply gives_calm_bind; [auto with calm|auto with calm|intros ?]).
  eapply gives_bind; [apply gives_poll|intros [code at_]]. cbn beta iota.
  apply gives_calm_bind; [auto with calm|auto with calm|intros _].
  eapply gives_bind; [by apply gives_send; [auto with calm|]|intros []]. by apply gives_ret.
Qed.

Lemma told_by_wait i me q :
  ssafe i (task_wait (N := N) me q) (fun _ => True) (gives (tells RpWait (RqWait q))).
Proof.
  apply gives_calm_bind; [unfold no_exec; auto with calm|auto with calm|intros _].
  eapply gives_bind; [apply gives_get|intros l].
  eapply gives_bind; [apply gives_wait|intros v]. apply gives_ret. intros s Hv. by exists v.
Qed.

Lemma told_by_state i me q :
  ssafe i (task_state (N := N) me q) (fun _ => True) (gives (tells RpState (RqState q))).
Proof.
  apply gives_calm_bind; [unfold no_exec; auto with calm|auto with calm|intros _].
  eapply gives_bind; [apply gives_get|intros l].
  apply gives_calm_bind; [auto with calm|auto with calm|intros pid].
  eapply gives_bind; [apply gives_poll|intros [code at_]]. cbn beta iota.
  apply gives_calm_bind; [|auto with calm|intros c; by apply gives_ret].
  unfold config_of. apply calm_data, steps_in_atomic. by intros [d w].
Qed.

Lemma told_by_worker i me : ssafe i (worker (N := N) self me) (fun _ => True) (gives (fun _ _ => True)).
Proof.
  eapply gives_bind.
  - apply (safe_await _ _ _ _ (fun _ => True) (gives (fun t s => owns s (ew_id t) (ew_loc t)))).
    + intros s t s' HI _ Hs. destruct (spawned s) as [|t0 rest] eqn:Hsp; [done|]. injection Hs as <- <-.
      assert (onward s (with_spawned rest s)) as Ho by done.
      split_and!; [|by intros j _|].
      * eapply inv_onward; [done|exact Ho|by auto|by auto| |by auto]. intros t Ht. left. rewrite Hsp. by right.
      * intros t [= <-]. apply (up_owns _ _ s _ Ho), (inv_spawned s HI). rewrite Hsp. by left.
    + intros t s s' _ _ Hs Ho t' [= <-]. eapply up_owns; [exact Ho|by apply Hs].
  - intros t. eapply gives_bind; [apply gives_wait|intros v].
    eapply gives_weaken; [| |apply (gives_send i _ (fun s => true_exit s (ew_id t) v.1 (to_timestamp v.2)))];
      [intros s _ Hv; by exists v|done|auto with calm|done].
Qed.

Lemma calm_kill me q : steps_in calm (task_kill (N := N) me q).
Proof. unfold task_kill, no_exec. calm. Qed.

Lemma calm_stats id : steps_in calm (task_stats (N := N) id).
Proof. unfold task_stats. calm. apply calm_host. unfold get_metrics. auto with runwasi. Qed.

Lemma calm_connect id : steps_in calm (task_connect (N := N) id).
Proof. unfold task_connect. calm. Qed.

Lemma calm_shutdown : steps_in calm (task_shutdown (T := T) (N := N)).
Proof.
  unfold task_shutdown. apply steps_in_bind; [apply calm_read|intros []; [|done]].
  apply steps_in_bind; [apply steps_in_try, calm_exit|done].
Qed.

Lemma safe_stack_handle i me rq :
  ssafe i (handle (N := N) self me rq) (fun _ => True) (gives (fun rp s => true_reply s rq rp)).
Proof.
  destruct rq as [r|r|r|r|r|r|id|id| |]; apply safe_reply;
    [apply told_by_create|apply told_by_start|apply tells_calm; [apply calm_kill|done]
    |apply told_by_delete|apply told_by_wait|apply told_by_state
    |apply tells_calm; [apply calm_stats|done]|apply tells_calm; [apply calm_connect|done]
    |apply tells_calm; [apply calm_shutdown|done]|apply told_by_worker].
Qed.

(** The requests, with the threads of the engine next to them *)
Definition stack_pool (rqs : list request) (bgs : list (async W Error unit)) : list (async Sh Error reply) :=
  requests_pool self rqs ++ map (fun p => let* _ := on_engine p in aret RpUnit) bgs.

Definition answered (rqs : list request) (i : nat) (r : outcome Error reply) s : Prop :=
  forall rq rp, rqs !! i = Some rq -> r = Ok rp -> true_reply s rq rp.

(** A thread of the engine whose steps the others rely on *)
Definition harmless_thread (p : async W Error unit) : Prop :=
  forall i, safe (fun _ => True) (fun _ => grows) i p (fun _ => True) (fun _ _ => True).

Lemma steps_harmless (p : async W Error unit) : steps_in grows p -> harmless_thread p.
Proof. intros Hp i. eapply safe_steps; [exact Hp|done|by intros w w' _ _ Hg; split_and!; [|intros j _|]]. Qed.

Lemma stack_pool_safe rqs bgs s :
  stack_inv s -> Forall harmless_thread bgs ->
  safe_pool stack_inv stack_rely (answered rqs) (stack_pool rqs bgs, s).
Proof.
  intros Hs Hbgs. split; [done|]. intros i p. cbn [fst snd]. intros [Hp|[Hi Hp]]%lookup_app_Some.
  - unfold requests_pool in Hp. rewrite list_lookup_imap in Hp. apply fmap_Some in Hp as (rq & Hrq & ->).
    exists (fun _ => True). split_and!; [done|done|]. eapply safe_weaken; [| |apply safe_stack_handle]; [done|].
    intros r s' _ Hr rq' rp Hrq'. rewrite Hrq in Hrq'. injection Hrq' as <-. apply Hr.
  - apply list_lookup_fmap_Some in Hp as (p0 & -> & Hp). rewrite Forall_lookup in Hbgs.
    exists (fun _ => True). split_and!; [done|done|].
    eapply (safe_weaken _ _ i _ _ (fun _ => True) _ (gives (fun _ _ => True))); [done| |eapply gives_bind].
    + intros r s' _ _ rq rp Hrq. apply lookup_lt_Some in Hrq. unfold requests_pool in Hi.
      rewrite length_imap in Hi. lia.
    + apply (gives_engine i _ (fun _ _ => True)). eapply safe_weaken; [| |exact (Hbgs _ _ Hp i)]; done.
    + intros a. by apply gives_ret.
Qed.

Lemma stack_inv_initial (c : cell unit N) w : stack_inv (initial c w []).
Proof. split; [done|done|intros t Ht; inversion Ht|intros e He; inversion He]. Qed.

Lemma stack_all_ready s : stack_inv s -> all_ready engine_ready s.
Proof. intros HI i d Hd. eapply inv_ready; [done|]. unfold made. by rewrite list_lookup_fmap, Hd. Qed.
End service.

(** ** The Wasm instance *)

Section answers.
Context {S E : Type}.

Lemma answers_alift {A} (m : M S E A) s : answers (alift m) s.
Proof. unfold answers. by rewrite exec_alift. Qed.

Lemma answers_try {E' A} (p : async S E A) s : answers p s -> answers (atry (E' := E') p) s.
Proof. unfold answers. rewrite exec_atry. by destruct (exec p s) as [[[]|]]. Qed.

Lemma answers_on_failure {A} (p : async S E A) c s :
  answers p s -> (forall r s', exec p s = (Some r, s') -> answers (then_drop c r) s') ->
  answers (on_failure p c) s.
Proof.
  unfold answers. rewrite exec_on_failure. intros Hp Hc.
  destruct (exec p s) as [[[a|e|]|] s'] eqn:Hrun; simpl; eauto.
Qed.
End answers.

Section wasm.
Context {W Y N K Fd Sub Channel Tx Rx File T Spec Child HookStatus : Type}.
Context `{!Youki W Y} `{!Notify N K} `{!Processes W Fd Sub} `{!Containerd W Channel Tx Rx}.
Context `{!ImageFormat} `{!ShimHost W} `{!Files W File} `{!YoukiBuild W Y File T}.
Context `{!Host W Spec Child HookStatus}.
Context (S : ShimType W).
Abbreviation St := (World W Y N Fd Sub Channel).
#[local] Existing Instance wasm_instance.
#[local] Existing Instance grows_preorder.

#[local] Instance wasm_engine : Instance St WasmInst := wasm_instance S.

(** The exit code of an instance, once its cell holds one *)
Definition wasm_recorded (s : St) (t : WasmInst) (v : Z * DateTime) : Prop := exit_of s (exit_cell t) = Some v.

#[local] Instance wasm_grows : EngineGrows St WasmInst grows ready inst_id wasm_recorded.
Proof.
  split.
  - apply grows_preorder.
  - intros t w w' Hg. by apply (upward_ready t w w').
  - intros t v w w' Hg. apply Hg.
  - intros i id c. apply safe_new.
  - intros i t. eapply gsafe_pre; [apply safe_wasm_wait|]. by intros s [Hc _].
  - apply steps_wasm_start.
  - apply steps_wasm_kill.
  - apply steps_wasm_delete.
  - apply steps_wasm_wait.
Qed.

#[local] Instance wasm_answers : EngineAnswers St WasmInst ready.
Proof.
  split.
  - intros id c w. apply answers_bind; [apply answers_alift|intros _ s1 _].
    apply answers_bind; [apply answers_try, answers_alift|intros loaded s2 _].
    apply answers_bind; [apply answers_alift|intros z s3 _]. by apply answers_bind.
  - intros t w [Hc _]. apply answers_on_failure.
    + apply answers_bind; [apply answers_alift|intros p s1 _].
      apply answers_bind; [apply answers_alift|intros f s2 _].
      apply answers_bind; [apply answers_alift|intros _ s3 _]. by apply answers_bind.
    + intros r s' Hrun.
      pose proof (exec_steps_in grows _ w (steps_start_body t)) as Hg. rewrite Hrun in Hg.
      destruct (lookup_lt_is_Some_2 (cells s') (exit_cell t)) as [c0 Hc0]; [pose proof (grows_cells _ _ Hg); simpl in *; lia|].
      destruct (exec_then_drop_guard (exit_cell t) r s' c0 Hc0) as (s2 & Hs2 & _).
      unfold answers. by rewrite Hs2.
  - intros t sig w _. apply answers_alift.
  - intros t w _. apply answers_alift.
Qed.

(** The host of the service works on the operating system of the engine. *)
Definition on_host_os {E A} (m : M W E A) : M St E A := WasmInstance.on_os m.

#[local] Instance stack_host : Host St Spec Child HookStatus := {
  decode_options := Local.decode_options (W := W);
  toml_from_str := Local.toml_from_str (W := W);
  spec_load p := on_host_os (Local.spec_load p);
  canonicalize_rootfs b sp := on_host_os (canonicalize_rootfs b sp);
  spec_root := spec_root (W := W);
  spec_hooks := spec_hooks (W := W);
  create_dir_all p := on_host_os (Local.create_dir_all p);
  mount_rootfs ty src opts p := on_host_os (mount_rootfs ty src opts p);
  hook_spawn c := on_host_os (hook_spawn c);
  hook_write_all c text := on_host_os (hook_write_all c text);
  hook_kill c := on_host_os (hook_kill c);
  hook_wait c := on_host_os (hook_wait c);
  process_id := process_id (W := W);
  collect_metrics pid := on_host_os (collect_metrics pid);
}.

Definition engine_part (s : St) := (zygotes s, cells s, oci_client s, reapers s).

Lemma engine_part_grows s s' : engine_part s' = engine_part s -> grows s s'.
Proof.
  intros [= Hz Hc _ Hr]. split; [unfold exit_of; by rewrite Hc|by rewrite Hc|by rewrite Hz|by rewrite Hr].
Qed.

Lemma on_os_keeps {E A} (m : M W E A) : keeps engine_part (on_host_os m).
Proof. intros s. unfold on_host_os, WasmInstance.on_os. by destruct (m _). Qed.

#[local] Instance stack_host_keeps : HostKeeps St Spec Child HookStatus engine_part.
Proof. split; intros; apply on_os_keeps. Qed.

(** The thread of the reaper number [k] *)
Definition reaper_thread (k : nat) : async St Error unit :=
  let* r := await (fun s => r ← reapers s !! k; Some (r, s)) in reap r.

Lemma steps_reaper_thread k : steps_in grows (reaper_thread k).
Proof.
  apply steps_in_bind; [|intros r; apply steps_reap]. intros s r s' Hs.
  destruct (reapers s !! k); simplify_eq/=. by split.
Qed.

(** [Instance::wait] once the exit code is there *)
Lemma wasm_wait_set (t : WasmInst) (s : St) v :
  exit_of s (exit_cell t) = Some v -> exists s', exec (wasm_wait t) s = (Some (Ok v), s').
Proof.
  unfold exit_of. intros Hv. destruct (cells s !! exit_cell t) as [c|] eqn:Hc; simpl in Hv; [|done].
  unfold wasm_wait. rewrite exec_abind, exec_atry, (exec_on_cell _ _ _ _ Hc).
  unfold Waitable.wait. simpl. destruct (notified (notify c)) as [k n]. simpl. rewrite Hv. simpl. by eexists.
Qed.

(** A wait for a task whose end was recorded *)
Lemma exec_task_wait (self : Local unit) me id i d v (s : Shared St (list Event) WasmInst N) :
  wf s -> instances s !! id = Some i -> heap s !! i = Some d ->
  exit_of (world s) (exit_cell (instance d)) = Some v ->
  exists s', exec (handle self me (RqWait (MkTask id EmptyString))) s =
    (Some (Ok (RpWait (MkWaitResponse v.1 (to_timestamp v.2)))), s').
Proof.
  intros Hwf Hi Hd Hv. destruct (wasm_wait_set (instance d) (world s) v Hv) as [w Hw].
  destruct (wf_data s Hwf i d Hd) as [Hu _ _ _]. pose proof (exec_wait me d (world s) _ _ Hu Hw) as Hwait.
  unfold handle, task_wait, no_exec. rewrite !exec_abind. cbn [guard RustStr.is_empty negb rq_exec_id exec aret].
  rewrite exec_abind. unfold get_instance. rewrite exec_alift. cbn [fst snd rq_id]. rewrite Hi. cbn [ok_or].
  rewrite exec_abind, (exec_on_data _ _ _ _ Hd), Hwait. cbn. by eexists.
Qed.

Lemma shim_run_safe (self : Local unit) (rqs : list request) (n : nat) (c : cell unit N) (w : St)
    (ts : list (async (Shared St (list Event) WasmInst N) Error reply)) (s : Shared St (list Event) WasmInst N) :
  rtc pool_step (stack_pool self rqs (map reaper_thread (seq 0 n)), initial c w []) (ts, s) ->
  stack_inv ready inst_id wasm_recorded s /\
  forall i r, ts !! i = Some (Done r) -> answered inst_id wasm_recorded rqs i r s.
Proof.
  intros Hrun.
  assert (safe_pool (stack_inv ready inst_id wasm_recorded) (stack_rely grows) (answered inst_id wasm_recorded rqs)
            (stack_pool self rqs (map reaper_thread (seq 0 n)), initial c w [])) as Hsafe.
  { apply (stack_pool_safe grows ready inst_id wasm_recorded engine_part engine_part_grows); [apply stack_inv_initial|].
    apply Forall_fmap, Forall_true. intros k. apply steps_harmless, steps_reaper_thread. }
  split; [exact (safe_pool_inv _ _ _ _ _ Hsafe Hrun)|].
  intros i r Hi. exact (safe_pool_done _ _ _ _ _ _ _ Hsafe Hrun Hi).
Qed.


End wasm.

(** ** The whole shim on the store of the examples

    A task is created and started, its process exits with 3, the reaper records
    it, and the spawned future tells containerd. *)

#[export] Instance demo_stack_os : Host DemoStore unit unit unit := {
  decode_options _ := Ok EmptyString;
  toml_from_str _ := Ok (MkConfig false);
  Local.spec_load _ := mret tt;
  canonicalize_rootfs _ _ := mret tt;
  spec_root _ := Some "/rootfs";
  spec_hooks _ := None;
  Local.create_dir_all _ := mret tt;
  mount_rootfs _ _ _ _ := mret tt;
  hook_spawn _ := mret tt;
  hook_write_all _ _ := mret tt;
  hook_kill _ := mret tt;
  hook_wait _ := mret tt;
  process_id := 99%Z;
  collect_metrics _ := mret (MkAny "metrics" []);
}.

#[local] Existing Instance wasm_engine.
#[local] Existing Instance stack_host.
#[local] Existing Instance log_sender.

Definition demo_stack_requests : list request :=
  [RqCreate demo_create; RqStart (MkTask "c1" EmptyString); RqWorker].

Definition demo_stack_start : Shared DemoShim (list Event) WasmInst nat :=
  initial Waitable.new (MkWorld Client.demo_world [] [] (Some demo_oci) []) [].

Definition demo_stack_run :=
  run_schedule (concat [replicate 12 0; replicate 20 1; replicate 30 3; replicate 20 2])
    (stack_pool (Instance0 := wasm_engine demo_shim) demo_local demo_stack_requests (map reaper_thread (seq 0 1)))
    demo_stack_start.

Example demo_stack_events :
  outbox demo_stack_run.2 =
  [created_event demo_create; TaskStart "c1" 7; TaskExit "c1" 3 (MkTimestamp 100 0) 7 "c1"]%string.
Proof. by vm_compute. Qed.

Lemma demo_stack_wf : wf demo_stack_run.2.
Proof.
  assert (instances demo_stack_run.2 = {["c1"%string := 0]}) as Hi by (by vm_compute).
  split; rewrite ?Hi.
  - intros [|l] d Hd; [|by vm_compute in Hd]. vm_compute in Hd. injection Hd as <-.
    split; by vm_compute; intros; eauto.
  - intros id l [_ <-]%lookup_singleton_Some. vm_compute. lia.
  - intros id id' l [<- _]%lookup_singleton_Some [<- _]%lookup_singleton_Some. done.
  - assert (spawned demo_stack_run.2 = []) as -> by (by vm_compute). intros t Ht. inversion Ht.
Qed.


