(* ===== verification/ExitCodes.v ===== *)
(** * ExitCodes: where the exit codes come from

    [Stack.v] shows that the exits told to containerd are those in the cells of
    the instances.  Here an invariant follows the codes from the kernel to the
    cells: a code is the status with which a process of the container ended,
    or 137, through the reapers of [WasmInstance.v] and the wait of
    [PidFd.v]. *)

From S2P Require Import Prelude RustStr Errors Sandbox Executor PidFd Store Client InstanceUtils WasmInstance Async TaskState Waitable InstanceData Events Hooks Local Service ServiceRuns Stack.

(** What waitid(2), pidfd_open(2) and the reaper of [containerd_shim] document:
    [fate p c] is that the process with the pid [p] ends with the status [c],
    128 plus its number for a signal; [opened f p] that [f] is a descriptor of
    the process [p].  No pid is used twice while it is waited for. *)
Class ExitLaws (W Fd Sub : Type) `{!Processes W Fd Sub} (fate : Z -> Z -> Prop) (opened : Fd -> Z -> Prop) : Prop := {
  open_names p w f w' : pidfd_open p w = (Ok f, w') -> opened f p;
  async_names f p w g w' : async_fd f w = (Ok g, w') -> opened f p -> opened g p;
  waitid_exited f p w q c w' : opened f p -> waitid f w = (Ok (WExited q c), w') -> fate p c;
  waitid_signaled f p w q sig core w' : opened f p -> waitid f w = (Ok (WSignaled q sig core), w') -> fate p (128 + sig)%Z;
  received_exits sub w e p : e ∈ received sub w -> subject e = SPid p -> fate p (exit_code e);
}.

(** ** The wait for a process *)

Section process.
Context {W Fd Sub : Type} `{!Processes W Fd Sub} (fate : Z -> Z -> Prop) (opened : Fd -> Z -> Prop).
Context `{!ExitLaws W Fd Sub fate opened} (errno_text : Errno -> string).
Abbreviation osafe := (safe (fun _ : W => True) (fun _ _ _ => True)).

(** The status is the fate of the process [p], when [f] is a descriptor of it. *)
Definition told (p : Z) (st : WaitStatus) : Prop :=
  match st with
  | WExited _ c => fate p c
  | WSignaled _ sig _ => fate p (128 + sig)
  | _ => True
  end.

Definition tells_fate (f : Fd) (p : Z) (r : outcome string WaitStatus) : Prop :=
  opened f p -> forall st, r = Ok st -> told p st.

Lemma try_wait_pid_fate sub (w : W) p c evs :
  (forall e, e ∈ evs -> e ∈ received sub w) -> try_wait_pid p evs = Ok c -> fate p c.
Proof.
  induction evs as [|e evs IH]; simpl; intros Hin Hc; [done|].
  assert (try_wait_pid p evs = Ok c -> fate p c) as Hrest by (apply IH; intros e' He'; apply Hin; by right).
  destruct (subject e) as [q|] eqn:Hs; [|by apply Hrest].
  destruct (decide (p = q)) as [<-|]; [|by apply Hrest].
  injection Hc as <-. eapply received_exits; [apply Hin; by left|exact Hs].
Qed.

Lemma osafe_step {E A X} i (f : W -> option (X * W)) (k : X -> async W E A) Q :
  (forall w x w', f w = Some (x, w') -> osafe i (k x) (fun _ => True) Q) -> osafe i (Step f k) (fun _ => True) Q.
Proof. intros Hf w x w' _ _ Hs. split_and!; [done|done|]. exists (fun _ => True). split_and!; [done|by intros ?????|eauto]. Qed.

Lemma osafe_from_reaper i f (self : PidFd Fd Sub) :
  osafe i (from_reaper errno_text self) (fun _ => True) (fun r _ => tells_fate f (PidFd.pid self) r).
Proof.
  unfold from_reaper. apply osafe_step. intros w evs w' [= <- <-]. simpl.
  destruct (try_wait_pid _ _) as [c|e|] eqn:Hc; simpl; intros w1 _ _ _ st Hst; simplify_eq. simpl.
  by eapply try_wait_pid_fate.
Qed.

Lemma osafe_wait_loop i fuel (self : PidFd Fd Sub) f g :
  (opened f (PidFd.pid self) -> opened g (PidFd.pid self)) ->
  osafe i (wait_loop errno_text fuel self g) (fun _ => True) (fun r _ => tells_fate f (PidFd.pid self) r).
Proof.
  intros Hf. induction fuel as [|fuel IH]; simpl; [by intros w _ _ _ st|].
  apply osafe_step. intros w r w' [= Hw].
  destruct r as [[q c|q sig core| |]|[]|]; simpl; try (by intros w1 _ _ _ st [= <-]); try (by intros w1 _ _ _ st).
  - intros w1 _ _ Ho st [= <-]. simpl. eapply waitid_exited; [by apply Hf|exact Hw].
  - intros w1 _ _ Ho st [= <-]. simpl. eapply waitid_signaled; [by apply Hf|exact Hw].
  - apply osafe_step. intros w1 [u|e|] w2 _; simpl; [exact IH|by intros w3 _ _ _ st..].
  - apply osafe_from_reaper.
Qed.

Lemma osafe_wait i (self : PidFd Fd Sub) :
  osafe i (PidFd.wait errno_text self) (fun _ => True) (fun r _ => tells_fate (PidFd.fd self) (PidFd.pid self) r).
Proof.
  unfold PidFd.wait. apply osafe_step. intros w r w' [= Hw].
  destruct r as [g|e|]; [|by intros w1 _ _ _ st..].
  apply (osafe_wait_loop i 2 self (PidFd.fd self) g). by eapply async_names.
Qed.

Lemma new_opens p w f w' : PidFd.new p w = (Ok f, w') -> opened (PidFd.fd f) (PidFd.pid f).
Proof.
  unfold PidFd.new. intros (sub & w1 & _ & (g & w2 & Hg & [= <- <-])%mbind_ok)%mbind_ok. simpl.
  by eapply open_names.
Qed.
End process.

(** ** The invariant of the engine *)

Section engine.
Context {W Y N K Fd Sub Channel Tx Rx File T : Type}.
Context `{!Youki W Y} `{!Notify N K} `{!Processes W Fd Sub} `{!Containerd W Channel Tx Rx}.
Context `{!ImageFormat} `{!ShimHost W} `{!Files W File} `{!YoukiBuild W Y File T}.
Context (S : ShimType W) (fate : Z -> Z -> Prop) (opened : Fd -> Z -> Prop) `{!ExitLaws W Fd Sub fate opened}.
Abbreviation St := (World W Y N Fd Sub Channel).
Implicit Types s : St.

(** A code for the cell [c]: 137, or the status of a process that was started
    for it. *)
Definition real s (c : nat) (code : Z) : Prop :=
  code = 137%Z \/
  exists r st, r ∈ reapers s /\ reaper_cell r = c /\ fate (PidFd.pid (reaper_fd r)) st /\ code = wrap_u32 st.

Definition watches_process (r : Reaper Fd Sub) : Prop := opened (PidFd.fd (reaper_fd r)) (PidFd.pid (reaper_fd r)).

Record codes_real s : Prop := {
  reapers_watch r : r ∈ reapers s -> watches_process r;
  codes_come_from c v : exit_of s c = Some v -> real s c v.1;
}.

(** A step of the engine: the state grows, and the codes stay real. *)
Definition keeps_real s s' : Prop := grows s s' -> codes_real s -> codes_real s'.
Definition lawful s s' : Prop := grows s s' /\ (codes_real s -> codes_real s').

#[local] Existing Instance grows_preorder.

#[export] Instance lawful_preorder : PreOrder lawful.
Proof.
  split; [by split|]. intros s1 s2 s3 [Hg1 Hr1] [Hg2 Hr2]. split; [by etrans|auto].
Qed.

Lemma steps_lawful {E A} (p : async St E A) : steps_in grows p -> steps_in keeps_real p -> steps_in lawful p.
Proof.
  intros Hg Hr. eapply steps_in_mono; [|exact (steps_in_and _ _ p Hg Hr)].
  intros s s' [H1 H2]. split; [done|by apply H2].
Qed.

Lemma real_grows s s' c code : grows s s' -> real s c code -> real s' c code.
Proof.
  intros Hg [->|(r & st & Hr & Hc & Hf & ->)]; [by left|right].
  exists r, st. split_and!; [by apply Hg|done..].
Qed.

(** A step that starts no task but those of [r] and gives the cells no code
    that is not real *)
Lemma codes_real_step s s' r :
  grows s s' -> codes_real s -> Forall watches_process r -> reapers s' = reapers s ++ r ->
  (forall c w, exit_of s' c = Some w -> exit_of s c = Some w \/ real s' c w.1) ->
  codes_real s'.
Proof.
  intros Hg [Hw Hc] Hr He Hv. split.
  - intros r'. rewrite He. intros [Hr'|Hr']%elem_of_app; [by apply Hw|]. by eapply Forall_forall in Hr.
  - intros c w [Hw'|Hw']%Hv; [|done]. eapply real_grows; [exact Hg|by apply Hc].
Qed.

Definition records s := (cells s, reapers s).

Lemma records_real s s' : records s' = records s -> keeps_real s s'.
Proof.
  intros [= Hc Hr] Hg HJ. eapply (codes_real_step s s' []); [done|done|done|by rewrite app_nil_r|].
  intros c w. unfold exit_of. rewrite Hc. by left.
Qed.

Lemma real_lift {E A} (m : M St E A) : keeps records m -> steps_in keeps_real (alift m).
Proof. intros Hm. apply steps_in_alift. intros s. apply records_real, Hm. Qed.

Lemma os_records {E A} (m : M W E A) : keeps records (on_os (N := N) (Y := Y) (Fd := Fd) (Sub := Sub) (Channel := Channel) m).
Proof. intros s. unfold on_os. by destruct (m _). Qed.

Lemma run_records {A} z (f : M (Y * W) string A) :
  keeps records (run (N := N) (Fd := Fd) (Sub := Sub) (Channel := Channel) z f).
Proof.
  intros s. unfold run, run_impl. destruct (zygotes s !! z); [|done]. by destruct (on_container _ _) as [r [c w]].
Qed.

Lemma build_records f : keeps records (build (N := N) (Fd := Fd) (Sub := Sub) (Channel := Channel) f).
Proof. intros s. rewrite build_result. by destruct (f (os s)) as [[]]. Qed.

Lemma init_records cfg : keeps records (init_oci_client (Y := Y) (N := N) (Fd := Fd) (Sub := Sub) S cfg).
Proof.
  intros s. unfold init_oci_client. destruct (oci_client s); [done|].
  pose proof (os_records (connect_oci S cfg) s) as Hk. by destruct (on_os _ s) as [[]].
Qed.

Lemma load_records id : keeps records (load_with_client (Y := Y) (N := N) (Fd := Fd) (Sub := Sub) id).
Proof. intros s. unfold load_with_client. destruct (oci_client s); [apply os_records|done]. Qed.

(** *** Writes to the cells *)

(** A future on a cell that gives it no code but [v] *)
Definition cell_gets (v : option (Z * DateTime)) (c c' : cell (Z * DateTime) N) : Prop :=
  value c' = value c \/ value c' = v.

Lemma gets_set v : steps_in (cell_gets (Some v)) (Waitable.set v).
Proof.
  intros c x c' [= Hc]. unfold oncecell_set in Hc. destruct (value c) eqn:Hv; simplify_eq; simpl.
  - split; [by left|done].
  - split; [by right|]. intros c' y c'' [= <- <-]. by split; [left|].
Qed.

Lemma gets_wait : steps_in (cell_gets None) Waitable.wait.
Proof.
  intros c k c' [= <- <-]. split; [by left|]. intros c1 o c1' [= <- <-].
  split; [by left|]. destruct (value c1); simpl; [done|]. intros c2 x c2' Hw.
  destruct (notified_ready _ _); [|done]. injection Hw as <- <-. split; [by left|].
  intros c3 o3 c3' [= <- <-]. split; [by left|]. by destruct (value c3).
Qed.

Lemma real_cell {E A} l v (p : async (cell (Z * DateTime) N) E A) :
  steps_in (cell_gets v) p ->
  steps_in (fun s s' => (forall w, v = Some w -> real s l w.1) -> keeps_real s s')
    (on_cell (Y := Y) (Fd := Fd) (Sub := Sub) (Channel := Channel) l p).
Proof.
  intros Hp. eapply steps_in_mono; [|by apply steps_in_zoom].
  intros s s' (c & c' & Hl & Hc & ->) Hv Hg HJ.
  eapply (codes_real_step s _ []); [exact Hg|done|done|by rewrite app_nil_r|].
  intros k w Hw. unfold exit_of in *. simpl in Hw. destruct (decide (l = k)) as [<-|Hne].
  - rewrite list_lookup_insert_eq in Hw by (by eapply lookup_lt_Some). simpl in Hw. rewrite Hl. simpl.
    destruct Hc as [Hc|Hc]; rewrite Hc in Hw; [by left|right].
    eapply real_grows; [exact Hg|by apply Hv].
  - rewrite list_lookup_insert_ne in Hw by done. by left.
Qed.

Lemma real_wait_cell {E} l (k : outcome (Z * DateTime) (Z * DateTime) -> async St E (Z * DateTime)) :
  (forall r, steps_in keeps_real (k r)) ->
  steps_in keeps_real (let* r := atry (on_cell (Y := Y) (Fd := Fd) (Sub := Sub) (Channel := Channel) l Waitable.wait) in k r).
Proof.
  intros Hk. apply steps_in_bind; [|done]. apply steps_in_try.
  eapply steps_in_mono; [|apply (real_cell l None), gets_wait]. intros s s' Hs. by apply Hs.
Qed.

Lemma real_atomic {E A} (f : St -> A * St) :
  (forall s, keeps_real s (f s).2) -> steps_in keeps_real (atomic (E := E) f).
Proof. apply steps_in_atomic. Qed.

Lemma gets_drop_guard v : steps_in (cell_gets (Some v)) (drop_guard (N := N) (set_guard_with (fun _ => v))).
Proof. apply steps_in_bind; [apply steps_in_try, gets_set|done]. Qed.

(** The guard records 137. *)
Lemma real_guard c : steps_in keeps_real (drop_exit_guard (W := W) (Y := Y) (N := N) (Fd := Fd) (Sub := Sub) (Channel := Channel) c).
Proof.
  apply steps_in_bind; [by apply real_atomic; intros s Hg|intros t].
  apply steps_in_bind; [|done]. apply steps_in_try.
  eapply steps_in_mono; [|apply (real_cell c (Some (137%Z, t))), gets_drop_guard].
  intros s s' Hs. apply Hs. intros w [= <-]. by left.
Qed.

(** *** The operations of the instance *)

Abbreviation engine_instance := (wasm_instance S).

Lemma real_any {A} (m : M St string A) : keeps records m -> steps_in keeps_real (any m).
Proof. intros Hm. by apply real_lift, keeps_map_err. Qed.

Lemma real_new id cfg : steps_in keeps_real (wasm_new S id cfg).
Proof.
  apply steps_in_bind; [apply real_lift, init_records|intros _].
  apply steps_in_bind; [apply steps_in_try, real_lift, load_records|intros loaded].
  apply steps_in_bind; [apply real_any, build_records|intros z].
  apply steps_in_bind; [|done]. apply real_atomic. intros s Hg HJ.
  eapply (codes_real_step s _ []); [exact Hg|done|done|by rewrite app_nil_r|].
  intros c w. unfold exit_of. simpl. destruct (cells s !! c) as [c0|] eqn:Hc.
  - rewrite (lookup_app_l_Some _ _ _ _ Hc). by left.
  - rewrite lookup_app_r by (by apply lookup_ge_None). intros Hw.
    destruct (c - length (cells s)) as [|[|]]; simpl in Hw; done.
Qed.

Lemma real_bind_any {A B} (m : M St string A) (k : A -> async St Error B) :
  keeps records m -> (forall s a s', m s = (Ok a, s') -> steps_in keeps_real (k a)) ->
  steps_in keeps_real (let* a := any m in k a).
Proof.
  intros Hm Hk s r s' [= Hs]. unfold mmap_err in Hs. destruct (m s) as [r0 s0] eqn:Hms. injection Hs as <- <-.
  split; [apply records_real; by rewrite <- (Hm s), Hms|]. destruct r0 as [a|e|]; simpl; [by eapply Hk|done..].
Qed.

Lemma real_start self : steps_in keeps_real (wasm_start (N := N) self).
Proof.
  apply steps_in_on_failure; [|apply real_guard].
  apply steps_in_bind; [apply real_any, keeps_bind; [apply run_records|intros o; apply keeps_ret]|intros p].
  apply real_bind_any; [apply os_records|intros s f s' Hf].
  apply steps_in_bind; [apply real_any, run_records|intros _].
  apply steps_in_bind; [|done]. apply real_atomic. intros s1 Hg HJ.
  eapply (codes_real_step s1 _ [MkReaper (exit_cell self) f]); [exact Hg|done| |done|by left].
  apply Forall_singleton. unfold on_os in Hf. destruct (PidFd.new p (os s)) as [r w] eqn:Hn.
  injection Hf as -> _. exact (new_opens fate opened _ _ _ _ Hn).
Qed.

Lemma real_kill self sig : steps_in keeps_real (wasm_kill (N := N) (Fd := Fd) (Sub := Sub) (Channel := Channel) self sig).
Proof. apply real_any, run_records. Qed.

Lemma real_delete self : steps_in keeps_real (wasm_delete (N := N) (Fd := Fd) (Sub := Sub) (Channel := Channel) self).
Proof. apply real_any, run_records. Qed.

Lemma real_wait self : steps_in keeps_real (wasm_wait (Y := Y) (N := N) (Fd := Fd) (Sub := Sub) (Channel := Channel) self).
Proof. apply real_wait_cell. by intros []. Qed.

(** *** The task that waits for the process *)

Abbreviation lsafe := (safe (fun _ : St => True) (fun _ => lawful)).

Lemma lawful_stable i r : stable (fun _ : St => True) (fun _ => lawful) i (fun s => r ∈ reapers s).
Proof. intros s s' _ _ Hr [Hg _]. by apply Hg. Qed.

(** A step that needs the task to be one of those that were spawned *)
Lemma lsafe_steps {E A} i (p : async St E A) r :
  steps_in grows p -> steps_in (fun s s' => r ∈ reapers s -> keeps_real s s') p ->
  lsafe i p (fun s => r ∈ reapers s) (fun _ s => r ∈ reapers s).
Proof.
  intros Hg Hp. eapply safe_steps; [exact (steps_in_and _ _ p Hg Hp)|apply lawful_stable|].
  intros s s' _ Hr [Hgs Hs]. split_and!; [done| |by apply Hgs]. intros j _. split; [done|]. by apply Hs.
Qed.

(** What [reap] records *)
Lemma told_code r res s :
  codes_real s -> r ∈ reapers s -> tells_fate fate opened (PidFd.fd (reaper_fd r)) (PidFd.pid (reaper_fd r)) res ->
  real s (reaper_cell r) (wrap_u32 (status_code res)).
Proof.
  intros HJ Hr Ht. pose proof (reapers_watch s HJ r Hr) as Hw.
  assert (137%Z = wrap_u32 137) as H137 by done.
  destruct res as [st|e|]; [|by left..]. specialize (Ht Hw st eq_refl).
  destruct st as [q c|q sig core| |]; simpl in *; [right|right|by left..]; eexists r, _; done.
Qed.

Lemma lsafe_process_wait i r :
  lsafe i (on_os_async (Y := Y) (N := N) (Channel := Channel) (PidFd.wait errno_text (reaper_fd r))) (fun s => r ∈ reapers s)
    (fun res s => r ∈ reapers s /\ tells_fate fate opened (PidFd.fd (reaper_fd r)) (PidFd.pid (reaper_fd r)) res).
Proof.
  eapply safe_weaken; [| |eapply (safe_frame _ _ _ _ lawful _ (fun s => r ∈ reapers s));
    [|apply lawful_stable| |eapply safe_zoom with (4 := osafe_wait fate opened errno_text i (reaper_fd r))]].
  - intros s _ Hr. split; [by exists (os s)|exact Hr].
  - by intros res s _ [(w & _ & Ht) Hr].
  - apply steps_lawful; [apply steps_on_os_async|].
    eapply steps_in_mono; [|apply steps_in_zoom, steps_in_any]. intros s s' (w & w' & _ & _ & ->). by apply records_real.
  - intros s s' Hr [Hg _]. by apply Hg.
  - done.
  - intros s s' w _ _ _ [= <-]. by exists (os s').
  - intros s w w' _ [= <-] _ _. split_and!; [done| |done]. intros j _.
    split; [apply grows_os|]. by apply records_real; [|apply grows_os].
Qed.

Lemma lsafe_guard {A} i r (res : outcome Error A) :
  lsafe i (then_drop (drop_exit_guard (reaper_cell r)) res) (fun s => r ∈ reapers s) (fun _ _ => True).
Proof.
  apply safe_then_drop. eapply safe_weaken; [| |apply (lsafe_steps i _ r); [apply steps_drop_exit_guard|]].
  - done.
  - by intros [] s _ _.
  - eapply steps_in_mono; [|apply real_guard]. by intros s s' Hs _.
Qed.

Lemma lsafe_reap i r : lsafe i (reap r) (fun s => r ∈ reapers s) (fun _ _ => True).
Proof.
  eapply (safe_defer _ _ _ _ _ _ (fun _ s => r ∈ reapers s)); [|intros x; apply lsafe_guard].
  eapply (safe_bind _ _ _ _ _ _ (fun o s => r ∈ reapers s /\
    forall res, o = Ok res -> tells_fate fate opened (PidFd.fd (reaper_fd r)) (PidFd.pid (reaper_fd r)) res)).
  - apply safe_try. eapply safe_weaken; [| |apply lsafe_process_wait]; [done|].
    intros [st|e|] s _ [Hr Ht]; (split; [done|]); [by intros res [= <-]..|done].
  - intros res. apply safe_pure. intros Ht. apply lsafe_steps.
    + do 2 (apply steps_in_bind; [eauto using steps_read_now, steps_in_try, steps_on_cell, steps_set|intros ?]). done.
    + apply steps_in_bind; [by apply steps_in_atomic; intros s _ _|intros t].
      apply steps_in_bind; [|done]. apply steps_in_try.
      eapply steps_in_mono; [|apply (real_cell (reaper_cell r) (Some (wrap_u32 (status_code res), t))), gets_set].
      intros s s' Hs Hr Hg HJ. apply Hs; [|done|done]. intros w [= <-]. by apply (told_code r res s); [| |apply Ht].
  - by intros e s _ [Hr _].
  - by intros s _ [Hr _].
Qed.

Lemma lsafe_reaper_thread i k : lsafe i (reaper_thread k) (fun _ => True) (fun _ _ => True).
Proof.
  eapply (safe_bind _ _ _ _ _ _ (fun o s => forall r, o = Ok r -> r ∈ reapers s)); [|intros r|done..].
  - apply safe_await.
    + intros s x s' _ _ Hs. destruct (reapers s !! k) as [r|] eqn:Hr; simpl in Hs; [|done]. injection Hs as <- <-.
      split_and!; [done|by intros j _|]. intros r' [= <-]. by eapply list_elem_of_lookup_2.
    + intros x s s' _ _ Hx Hg r Hr. apply Hg. by apply Hx.
  - eapply safe_weaken; [| |apply lsafe_reap]; [|done]. intros s _ Hr. by apply Hr.
Qed.
End engine.

(** ** The whole shim *)

Section shim.
Context {W Y N K Fd Sub Channel Tx Rx File T Spec Child HookStatus : Type}.
Context `{!Youki W Y} `{!Notify N K} `{!Processes W Fd Sub} `{!Containerd W Channel Tx Rx}.
Context `{!ImageFormat} `{!ShimHost W} `{!Files W File} `{!YoukiBuild W Y File T}.
Context `{!Host W Spec Child HookStatus}.
Context (S : ShimType W) (fate : Z -> Z -> Prop) (opened : Fd -> Z -> Prop) `{!ExitLaws W Fd Sub fate opened}.
Abbreviation St := (World W Y N Fd Sub Channel).
Abbreviation Sh := (Shared St (list Event) WasmInst N).
#[local] Existing Instance grows_preorder.
#[local] Instance real_engine : Instance St WasmInst := wasm_engine S.
#[local] Existing Instance stack_host.
#[local] Existing Instance stack_host_keeps.
Abbreviation lawful := (@ExitCodes.lawful W Y N Fd Sub Channel fate opened).

Lemma steps_keep_codes {E A} (p : async St E A) :
  steps_in lawful p -> steps_in (fun s s' => codes_real fate opened s -> codes_real fate opened s') p.
Proof. apply steps_in_mono. by intros s s' [_ Hr]. Qed.

(** What [Stack.v] asks of the engine, with the codes kept besides *)
#[local] Instance wasm_lawful : EngineGrows St WasmInst lawful ready inst_id wasm_recorded.
Proof.
  split.
  - apply _.
  - intros t w w' [Hg _]. by apply (upward_ready t w w').
  - intros t v w w' [Hg _]. apply Hg.
  - intros i id c. apply safe_also; [|apply safe_new].
    apply steps_keep_codes, steps_lawful; [apply steps_wasm_new|by apply real_new].
  - intros i t. apply safe_also; [|eapply gsafe_pre; [apply safe_wasm_wait|by intros s [Hc _]]].
    apply steps_keep_codes, steps_lawful; [apply steps_wasm_wait|by apply real_wait].
  - intros t. apply steps_lawful; [apply steps_wasm_start|by apply real_start].
  - intros t sig. apply steps_lawful; [apply steps_wasm_kill|by apply real_kill].
  - intros t. apply steps_lawful; [apply steps_wasm_delete|by apply real_delete].
  - intros t. apply steps_lawful; [apply steps_wasm_wait|by apply real_wait].
Qed.

Lemma part_lawful (s s' : St) : engine_part s' = engine_part s -> lawful s s'.
Proof.
  intros Hp. pose proof (engine_part_grows s s' Hp) as Hg. split; [done|]. apply records_real; [|done].
  injection Hp as _ Hc _ Hr. unfold records. by rewrite Hc, Hr.
Qed.

(** An instance of the task [id] ended with [code], which is real. *)
Definition real_exit (s : Sh) (id : string) (code : Z) : Prop :=
  exists l t, made s !! l = Some t /\ inst_id t = id /\ real fate (world s) (exit_cell t) code.

(** Without a time no end is known yet. *)
Definition real_poll (s : Sh) (id : string) (code : Z) (at_ : option Timestamp) : Prop :=
  if at_ is Some _ then real_exit s id code else code = 0%Z.

Definition real_event (s : Sh) (e : Event) : Prop :=
  match e with
  | TaskExit id code _ _ _ => real_exit s id code
  | TaskDelete id _ code at_ => real_poll s id code at_
  | _ => True
  end.

Definition real_reply (s : Sh) (rq : request) (rp : reply) : Prop :=
  match rq, rp with
  | RqWait q, RpWait x => real_exit s (rq_id q) (wt_exit_status x)
  | RqDelete q, RpDelete x => real_poll s (rq_id q) (del_exit_status x) (del_exited_at x)
  | RqState q, RpState x => real_poll s (rq_id q) (st_exit_status x) (st_exited_at x)
  | _, _ => True
  end.

Lemma recorded_real s id v :
  codes_real fate opened (world s) -> ended inst_id wasm_recorded s id v -> real_exit s id v.1.
Proof. intros HJ (l & t & Ht & Hid & Hv). exists l, t. split_and!; [done..|]. by apply HJ. Qed.

Lemma true_exit_real s id code at_ :
  codes_real fate opened (world s) -> true_exit inst_id wasm_recorded s id code at_ -> real_exit s id code.
Proof. intros HJ (v & Hv & -> & _). by apply recorded_real. Qed.

Lemma true_poll_real s id code at_ :
  codes_real fate opened (world s) -> true_poll inst_id wasm_recorded s id code at_ -> real_poll s id code at_.
Proof. intros HJ. destruct at_; [by apply true_exit_real|done]. Qed.

Lemma shim_run_real (self : Local unit) rqs n (c : cell unit N) (w : St) ts s :
  codes_real fate opened w ->
  rtc pool_step (stack_pool self rqs (map reaper_thread (seq 0 n)), initial c w []) (ts, s) ->
  codes_real fate opened (world s).
Proof.
  intros Hw Hrun.
  assert (safe_pool (stack_inv ready inst_id wasm_recorded) (stack_rely lawful) (answered inst_id wasm_recorded rqs)
            (stack_pool self rqs (map reaper_thread (seq 0 n)), initial c w [])) as Hsafe.
  { apply (stack_pool_safe lawful ready inst_id wasm_recorded engine_part part_lawful); [apply stack_inv_initial|].
    apply Forall_fmap, Forall_true. intros k i. by apply lsafe_reaper_thread. }
  assert (PreOrder (fun s s' : Sh => lawful (world s) (world s'))) as Hpre.
  { split; [by intros s1|]. intros s1 s2 s3 H1 H2. by etrans. }
  pose proof (safe_pool_moves _ _ (fun s s' : Sh => lawful (world s) (world s')) _ _ _
                (fun j s1 s2 Ho => proj1 Ho) Hsafe Hrun) as [_ HJ].
  by apply HJ.
Qed.

(** What the run tells: every exit of it is real. *)
Lemma shim_tells_real (self : Local unit) rqs n (c : cell unit N) (w : St) ts s :
  reapers w = [] -> (forall k, exit_of w k = None) ->
  rtc pool_step (stack_pool self rqs (map reaper_thread (seq 0 n)), initial c w []) (ts, s) ->
  (forall e, e ∈ outbox s -> real_event s e) /\
  (forall i rq rp, rqs !! i = Some rq -> ts !! i = Some (Done (Ok rp)) -> real_reply s rq rp).
Proof.
  intros Hr He Hrun.
  assert (codes_real fate opened (world s)) as HJ.
  { eapply shim_run_real; [|exact Hrun]. split; [intros r; rewrite Hr; by intros ?%elem_of_nil|].
    intros k v. by rewrite He. }
  apply shim_run_safe in Hrun as [HI Ha]. split.
  - intros e Hin. apply (inv_outbox _ _ _ _ HI) in Hin. destruct e; simpl in *; [done|done|..].
    + by eapply true_exit_real.
    + by apply true_poll_real.
  - intros i rq rp Hrq Hi. pose proof (Ha i _ Hi rq rp Hrq eq_refl) as Ht.
    destruct rq, rp; simpl in *; try done; by (eapply true_exit_real || apply true_poll_real).
Qed.

End shim.

(** ** The width of the statuses *)

(** The kernel may say anything of a process. *)
Lemma any_fate {W Fd Sub : Type} `{!Processes W Fd Sub} : ExitLaws W Fd Sub (fun _ _ => True) (fun _ _ => True).
Proof. by split. Qed.

Definition is_u32 (z : Z) : Prop := (0 <= z <= u32_max)%Z.

(** The statuses of an event, and of an answer *)
Definition event_status (e : Event) : Prop :=
  match e with TaskExit _ code _ _ _ | TaskDelete _ _ code _ => is_u32 code | _ => True end.

Definition reply_status (rq : request) (rp : reply) : Prop :=
  match rq, rp with
  | RqWait _, RpWait x => is_u32 (wt_exit_status x)
  | RqDelete _, RpDelete x => is_u32 (del_exit_status x)
  | RqState _, RpState x => is_u32 (st_exit_status x)
  | _, _ => True
  end.

Lemma real_is_u32 {W Y N Fd Sub Channel : Type} fate (s : World W Y N Fd Sub Channel) c code :
  real fate s c code -> is_u32 code.
Proof. intros [->|(r & st & _ & _ & _ & ->)]; [done|]. apply wrap_u32_range. Qed.

Section width.
Context {W Y N K Fd Sub Channel Tx Rx File T Spec Child HookStatus : Type}.
Context `{!Youki W Y} `{!Notify N K} `{!Processes W Fd Sub} `{!Containerd W Channel Tx Rx}.
Context `{!ImageFormat} `{!ShimHost W} `{!Files W File} `{!YoukiBuild W Y File T}.
Context `{!Host W Spec Child HookStatus}.
Context (S : ShimType W).
Abbreviation St := (World W Y N Fd Sub Channel).
#[local] Instance width_engine : Instance St WasmInst := wasm_engine S.
#[local] Existing Instance stack_host.
#[local] Existing Instance any_fate.

Lemma exit_is_u32 fate (s : Shared St (list Event) WasmInst N) id code : real_exit fate s id code -> is_u32 code.
Proof. intros (l & t & _ & _ & Hc). by eapply real_is_u32. Qed.

Lemma poll_is_u32 fate (s : Shared St (list Event) WasmInst N) id code at_ : real_poll fate s id code at_ -> is_u32 code.
Proof. destruct at_; simpl; [apply exit_is_u32|by intros ->]. Qed.

End width.

(** ** The processes of the examples end with the status 3. *)

#[export] Instance demo_exit_laws : ExitLaws DemoStore unit unit (fun _ st => st = 3%Z) (fun _ _ => True).
Proof.
  split; try done.
  - intros f p w q c w' _ Hw. unfold waitid in Hw. simpl in Hw. by inversion Hw.
  - intros sub w e p He. inversion He.
Qed.


