(* ===== verification/Harness.v ===== *)
(** * Harness: [crates/containerd-shim-wasm/src/testing.rs]

    The support for the tests of the engines: a builder that lays out a bundle
    for a Wasm container in a temporary directory, and a running container over
    the [Instance] of the engine.  The module [oci_helpers] is [OciHelpers.v].
    Files and the clock are the classes [CtrHost] and [TestHost] over a part
    [O] of the world of the instance, given by [get] and [put]. *)

From S2P Require Import Prelude Async Ambient RustStr Errors Waitable InstanceData InstanceUtils Sandbox Executor PidFd Store Client WasmInstance Stack OciTar OciTarBin OciHelpers.

(** ** Data *)

(** [oci_spec]'s [LinuxNamespace] *)
Inductive LinuxNamespaceType := NsMount | NsCgroup | NsUts | NsIpc | NsUser | NsPid | NsNetwork | NsTime.

#[export] Instance LinuxNamespaceType_eq_dec : EqDecision LinuxNamespaceType.
Proof. solve_decision. Defined.

Record LinuxNamespace := MkNamespace { typ : LinuxNamespaceType; ns_path : option string }.

(** The specification of the container, the fields that are set *)
Record TestSpec := MkTestSpec {
  root_path : string;
  spec_namespaces : list LinuxNamespace;
  spec_cwd : string;
  spec_args : list string;
}.

(** [struct WasiTestBuilder] and [struct WasiTest]; the directories by their path *)
Record WasiTestBuilder := MkTestBuilder {
  builder_name : string;
  start_fn : string;
  namespaces : list LinuxNamespace;
  builder_dir : string;
}.

Record WasiTest (T : Type) := MkTest { test_instance : T; test_dir : string }.
Arguments MkTest {T}.
Arguments test_instance {T}.
Arguments test_dir {T}.

(** [Zygote::init], the rest of [std::fs] (with [serde_json::to_writer] on a new
    file and [Spec::save]), what [oci_spec] has by default, the clock and the
    text of an error. *)
Class TestHost (O : Type) := {
  zygote_init : O -> O;
  create_dir : string -> M O string unit;
  write_json : string -> list (string * string) -> M O string unit;
  real_path : string -> M O string string;
  symlink : string -> string -> M O string unit;
  is_symlink : string -> O -> bool;
  read_to_string : string -> M O string string;
  save_spec : TestSpec -> string -> M O string unit;
  default_namespaces : list LinuxNamespace;
  default_env : option (list string);
  timer : Z -> O -> option O;
  display : Error -> string;
}.

(** ** The builder *)

Definition SIGKILL : Z := 9.
Definition SIGINT : Z := 2.
Definition SIGTERM : Z := 15.

(** The bytes of an empty Wasm module *)
Definition empty_module : string :=
  String.string_of_list_ascii (Ascii.ascii_of_nat <$> [0; 97; 115; 109; 1; 0; 0; 0]).

Section builder.
Context {O Tar : Type} `{!TarWriter Tar} `{!CtrHost O Tar} `{!TestHost O} `{!ConfigJson}.
Implicit Types self : WasiTestBuilder.

(** A method that takes the builder: on its failure the temporary directory is
    removed. *)
Definition owned {A} (dir : string) (m : M O string A) : M O string A := scoped m (drop_tempdir dir).

Definition wasm_path (dir : string) : string := path_join (path_join dir "rootfs") "hello.wasm".

Definition with_wasm (wasmbytes : string) self : M O string WasiTestBuilder :=
  owned (builder_dir self) (let! _ := write (wasm_path (builder_dir self)) wasmbytes in mret self).

Definition with_stdin (stdin : string) self : M O string WasiTestBuilder :=
  owned (builder_dir self) (let! _ := write (path_join (builder_dir self) "stdin") stdin in mret self).

(** [with_stdout] and [with_stderr] *)
Definition with_output (name target : string) self : M O string WasiTestBuilder :=
  owned (builder_dir self)
    (let! target := real_path target in
     let! _ := remove_file (path_join (builder_dir self) name) in
     let! _ := symlink target (path_join (builder_dir self) name) in
     mret self).

Definition with_stdout (target : string) self := with_output "stdout" target self.
Definition with_stderr (target : string) self := with_output "stderr" target self.

Definition with_name (name : string) self : WasiTestBuilder :=
  MkTestBuilder name (start_fn self) (namespaces self) (builder_dir self).

Definition with_start_fn (f : string) self : WasiTestBuilder :=
  MkTestBuilder (builder_name self) f (namespaces self) (builder_dir self).

Definition with_host_network self : WasiTestBuilder :=
  MkTestBuilder (builder_name self) (start_fn self)
    (filter (fun ns => typ ns ≠ NsNetwork) (namespaces self)) (builder_dir self).

(** [WasiTestBuilder::new], up to the two methods it ends with *)
Definition lay_out (dir : string) : M O string WasiTestBuilder :=
  let! _ := create_dir (path_join dir "rootfs") in
  let rootdir := path_join dir "runwasi" in
  let! _ := create_dir rootdir in
  let! _ := write_json (path_join dir "options.json") [("root"%string, rootdir)] in
  let! _ := write (path_join dir "stdout") EmptyString in
  let! _ := write (path_join dir "stderr") EmptyString in
  mret (MkTestBuilder "test" EmptyString default_namespaces dir).

Definition new_builder : M O string WasiTestBuilder :=
  let! _ := mput zygote_init in
  let! dir := tempdir in
  let! b := owned dir (lay_out dir) in
  let! b := with_wasm empty_module b in
  with_stdin EmptyString b.

(** [as_oci_image] *)
Definition as_oci_image (image : option string) (container : option string) self
    : M O string (WasiTestBuilder * OCICleanup) :=
  owned (builder_dir self)
    (let image := default "localhost/hello:latest"%string image in
     let! found := image_exists image in
     let! _ := (if found : bool then mret tt
                else
                  let! bytes := read (wasm_path (builder_dir self)) in
                  let! _ := import_image image [MkContent bytes WASM_LAYER_MEDIA_TYPE] in
                  remove_file (wasm_path (builder_dir self))) in
     let container := default "test"%string container in
     let! _ := create_container container image in
     mret (with_name container self, MkCleanup image container)).

(** The specification [build] saves *)
Definition entrypoint_arg self : string :=
  if is_empty (start_fn self) then "/hello.wasm" else "/hello.wasm#" +:+ start_fn self.

Definition test_spec self : TestSpec :=
  MkTestSpec "rootfs" (namespaces self) "/" [entrypoint_arg self].

Definition test_config self : InstanceConfig :=
  let dir := builder_dir self in
  MkInstanceConfig (path_join dir "stdin") (path_join dir "stdout") (path_join dir "stderr") dir
    TEST_NAMESPACE "/run/containerd/containerd.sock" (MkConfig false).

(** What the engine reads of the specification: see [Sandbox.v]. *)
Definition seen_spec (s : TestSpec) : Spec := MkSpec (Some (MkProcess (Some (spec_args s)) default_env)) None.

(** ** The test *)

(** [read_stdout] and [read_stderr] *)
Definition read_output (name dir : string) : M O string (option string) :=
  let path := path_join dir name in
  let! link := mget (is_symlink path) in
  if link : bool then mret None else let! s := read_to_string path in mret (Some s).

Context {W T : Type} `{!Instance W T} (get : W -> O) (put : O -> W -> W).

Definition on_host {A} (m : M O string A) : async W string A :=
  alift (fun w => let '(r, o) := m (get w) in (r, put o w)).

(** [WasiTestBuilder::build] *)
Definition build self : async W string (WasiTest T) :=
  on_failure (
    let* _ := on_host (save_spec (test_spec self) (path_join (builder_dir self) "config.json")) in
    let* instance := amap_err display (inst_new (builder_name self) (test_config self)) in
    aret (MkTest instance (builder_dir self)))
  (atomic (fun w => (tt, put (drop_tempdir (builder_dir self) (get w)) w))).

Implicit Types test : WasiTest T.

Definition start test : async W string unit :=
  let* _ := amap_err display (inst_start (test_instance test)) in aret tt.

Definition delete test : async W string unit := amap_err display (inst_delete (test_instance test)).

Definition send_signal (signal : Z) test : async W string unit :=
  amap_err display (inst_kill (test_instance test) signal).

Definition ctrl_c test := send_signal SIGINT test.
Definition terminate test := send_signal SIGTERM test.
Definition kill test := send_signal SIGKILL test.

Definition read_stdout test : M O string (option string) := read_output "stdout" (test_dir test).
Definition read_stderr test : M O string (option string) := read_output "stderr" (test_dir test).

Definition host_timer (t : Z) (w : W) : option W := (fun o => put o w) <$> timer t (get w).

(** [WasiTest::wait]; [order] is the order in which the instance and the timer
    are polled. *)
Definition wait (order : list bool) (t : Z) test : async W string (Z * string * string) :=
  let* res := with_timeout order (host_timer t) (amap_err (fun e : Empty_set => match e with end)
                (inst_wait (test_instance test))) in
  match res with
  | None =>
      let* _ := kill test in
      athrow "timeout while waiting for module to finish"%string
  | Some (status, _) =>
      let* out := on_host (read_stdout test) in
      let* err := on_host (read_stderr test) in
      let* _ := delete test in
      aret (status, default EmptyString out, default EmptyString err)
  end.

(** The test of an engine: [builder.build()?.start()?.wait(t)] *)
Definition run_test (order : list bool) (t : Z) self : async W string (Z * string * string) :=
  let* test := build self in
  let* _ := start test in
  wait order t test.
End builder.

(** ** What a test reports *)

Section report.
Context {O Tar W T : Type} `{!TarWriter Tar} `{!CtrHost O Tar} `{!TestHost O} `{!Instance W T}.
Context (grows : W -> W -> Prop) (engine_ready : W -> T -> Prop).
Context (ident : T -> string) (recorded : W -> T -> Z * DateTime -> Prop).
Context `{!EngineGrows W T grows engine_ready ident recorded}.
Context (get : W -> O) (put : O -> W -> W) (put_grows : forall o w, grows w (put o w)).
Abbreviation gsafe := (safe (fun _ : W => True) (fun _ => grows)).

Lemma steps_on_host {A} (m : M O string A) : steps_in grows (on_host get put m).
Proof. apply steps_in_alift. intros w. destruct (m (get w)) as [r o]. apply put_grows. Qed.

Lemma steps_signal signal (test : WasiTest T) : steps_in grows (send_signal signal test).
Proof. apply steps_in_map_err, kill_grows. Qed.

(** The rules for what a future that succeeds gives *)
Definition yields {A} (Q : A -> W -> Prop) (r : outcome string A) (w : W) : Prop := forall a, r = Ok a -> Q a w.

Lemma yields_bind {A B} i (p : async W string A) (k : A -> async W string B) P Q Q' :
  gsafe i p P (yields Q) -> (forall a, gsafe i (k a) (Q a) (yields Q')) -> gsafe i (abind p k) P (yields Q').
Proof.
  intros Hp Hk. eapply safe_bind; [exact Hp|intros a|done|done].
  eapply safe_weaken; [| |apply Hk]; [|done]. intros w _ Hw. by apply Hw.
Qed.

Definition kept (P : W -> Prop) : Prop := forall w w', grows w w' -> P w -> P w'.

Lemma yields_steps {A} i (p : async W string A) P :
  steps_in grows p -> kept P -> gsafe i p P (yields (fun _ => P)).
Proof.
  intros Hp HP. eapply safe_weaken; [| |eapply (safe_steps _ _ i p grows P Hp)].
  - done.
  - by intros r w _ Hw a _.
  - intros w w' _ _ Hw Hg. by apply (HP w w').
  - intros w w' _ Hw Hg. split_and!; [done|done|by apply (HP w w')].
Qed.

Definition runs (self : WasiTestBuilder) (test : WasiTest T) (w : W) : Prop :=
  engine_ready w (test_instance test) /\ ident (test_instance test) = builder_name self.

Lemma kept_runs self test : kept (runs self test).
Proof. intros w w' Hg [Hr Hi]. split; [by eapply ready_grows|done]. Qed.

Lemma yields_build i self : gsafe i (build get put self) (fun _ => True) (yields (runs self)).
Proof.
  unfold build. eapply (safe_on_failure _ _ _ _ _ _ (yields (runs self))); [|done|].
  - eapply (yields_bind _ _ _ _ (fun _ _ => True)); [by apply yields_steps; [apply steps_on_host|]|intros _].
    eapply (yields_bind _ _ _ _ (fun t w => engine_ready w t /\ ident t = builder_name self)).
    + apply safe_map_err. eapply safe_weaken; [| |apply new_ready]; [done|].
      intros [t|e|] w _ Ht; [|done..]. intros t' [= <-]. by apply Ht.
    + intros t w _ Ht test [= <-]. exact Ht.
  - intros r Hr. apply safe_then_drop.
    eapply safe_weaken; [| |eapply (yields_steps i _ (fun _ => True)); [|done]]; [done| |].
    + intros [u|e|] w _ _ test Heq; [by destruct (Hr test)|by destruct (Hr test)|done].
    + apply steps_in_atomic. intros w. apply put_grows.
Qed.

(** The status is that of an exit recorded for an instance of the container. *)
Definition reported (self : WasiTestBuilder) (x : Z * string * string) (w : W) : Prop :=
  exists t v, ident t = builder_name self /\ recorded w t v /\ x.1.1 = v.1.

Lemma steps_host_timer t w w' : host_timer get put t w = Some w' -> grows w w'.
Proof. unfold host_timer. destruct (timer t (get w)); simpl; [|done]. intros [= <-]. apply put_grows. Qed.

Lemma steps_timed order t (test : WasiTest T) :
  steps_in grows (with_timeout order (host_timer get put t)
    (amap_err (E' := string) (fun e : Empty_set => match e with end) (inst_wait (test_instance test)))).
Proof.
  apply steps_in_select; [apply _| |].
  - apply steps_in_bind; [apply steps_in_map_err, wait_grows|done].
  - intros w x w' Hs. destruct (host_timer _ _ _ _) as [w1|] eqn:Ht; [|done]. injection Hs as <- <-.
    split; [by eapply steps_host_timer|done].
Qed.

(** Polled next to the timer, the wait still gives only what was recorded. *)
Lemma yields_timed i order t (test : WasiTest T) :
  gsafe i (with_timeout order (host_timer get put t)
             (amap_err (fun e : Empty_set => match e with end) (inst_wait (test_instance test))))
    (fun w => engine_ready w (test_instance test))
    (yields (fun o w => forall v, o = Some v -> recorded w (test_instance test) v)).
Proof.
  eapply safe_weaken; [| |eapply (safe_with_timeout (fun _ => True) (fun _ => grows) grows ltac:(done) ltac:(done) ltac:(done)
    i order (host_timer get put t) _ _ (yields (fun v w => recorded w (test_instance test) v)))].
  - intros w _ Hw. exact Hw.
  - intros [[v|]|e|] w _ Hv o Ho; simplify_eq; [|done]. intros v' [= <-]. by apply Hv.
  - apply steps_in_map_err, wait_grows.
  - intros w w'. apply steps_host_timer.
  - intros w w' _ _ Hw Hg. by eapply ready_grows.
  - apply safe_map_err. eapply safe_weaken; [| |apply wait_recorded]; [done|].
    intros [v|[]|] w _ Hv v' Heq; simpl in Heq; simplify_eq. by apply Hv.
Qed.

Lemma yields_wait i order t self (test : WasiTest T) :
  gsafe i (wait get put order t test) (runs self test) (yields (reported self)).
Proof.
  unfold wait. eapply (yields_bind _ _ _ _ (fun o w => ident (test_instance test) = builder_name self /\
    forall v, o = Some v -> recorded w (test_instance test) v)).
  - epose proof (safe_frame (fun _ => True) (fun _ => grows) i _ grows _ (fun _ => ident (test_instance test) = builder_name self)
      _ (steps_timed order t test) _ _ (yields_timed i order t test)) as Hw. Unshelve.
    2: by intros w w' _ _ Hi _. 2: by intros w w' Hi _.
    eapply safe_weaken; [| |exact Hw].
    + intros w _ [Hr Hi]. split; [exact Hr|exact Hi].
    + intros r w _ [Hv Hi] o Ho. split; [exact Hi|by apply Hv].
  - intros [[status at_]|].
    + set (P w := ident (test_instance test) = builder_name self /\ recorded w (test_instance test) (status, at_)).
      assert (kept P) as HP by (intros w w' Hg [Hi Hv]; split; [done|by eapply recorded_grows]).
      eapply safe_weaken; [| |eapply (yields_bind _ _ _ P (fun _ => P));
        [apply yields_steps; [apply steps_on_host|exact HP]|intros out]].
      * intros w _ [Hi Hv]. split; [exact Hi|by apply Hv].
      * done.
      * eapply (yields_bind _ _ _ P (fun _ => P)); [apply yields_steps; [apply steps_on_host|exact HP]|intros err].
        eapply (yields_bind _ _ _ P (fun _ => P));
          [apply yields_steps; [apply steps_in_map_err, delete_grows|exact HP]|intros []].
        intros w _ [Hi Hv] x [= <-]. by exists (test_instance test), (status, at_).
    + eapply (yields_bind _ _ _ _ (fun _ _ => True)).
      * eapply safe_weaken; [| |apply (yields_steps i _ (fun _ => True)); [apply steps_signal|done]]; done.
      * by intros u w _ _ x.
Qed.

Lemma yields_run_test i order t self :
  gsafe i (run_test get put order t self) (fun _ => True) (yields (reported self)).
Proof.
  eapply yields_bind; [apply yields_build|intros test].
  eapply (yields_bind _ _ _ _ (fun _ => runs self test)).
  - apply yields_steps; [|apply kept_runs]. apply steps_in_bind; [apply steps_in_map_err, start_grows|done].
  - intros []. apply yields_wait.
Qed.
End report.

(** ** Tests of the Wasm instance *)

Section wasm.
Context {W Y N K Fd Sub Channel Tx Rx File T Tar : Type}.
Context `{!Youki W Y} `{!Notify N K} `{!Processes W Fd Sub} `{!Containerd W Channel Tx Rx}.
Context `{!ImageFormat} `{!ShimHost W} `{!Files W File} `{!YoukiBuild W Y File T}.
Context `{!TarWriter Tar} `{!CtrHost W Tar} `{!TestHost W}.
Context (S : ShimType W).
Abbreviation St := (World W Y N Fd Sub Channel).
#[local] Existing Instance wasm_engine.
#[local] Existing Instance wasm_grows.

(** A test as a thread of its own: its builder, its time-out and the order of
    polls of its wait. *)
Record TestRun := MkRun { run_builder : WasiTestBuilder; run_timeout : Z; run_order : list bool }.

Definition test_thread (r : TestRun) : async St string (option (Z * string * string)) :=
  let* x := run_test (Instance0 := wasm_engine S) WasmInstance.os with_os (run_order r) (run_timeout r) (run_builder r) in
  aret (Some x).

(** The tests, with the reapers of the engine next to them *)
Definition tests_pool (tests : list TestRun) (n : nat) : list (async St string (option (Z * string * string))) :=
  map test_thread tests ++
  map (fun k => let* _ := amap_err error_text (reaper_thread k) in aret None) (seq 0 n).

Lemma tests_pool_safe tests n (s : St) :
  safe_pool (fun _ => True) (fun _ => grows)
    (fun i r s => forall t x, tests !! i = Some t -> r = Ok (Some x) ->
       reported inst_id wasm_recorded (run_builder t) x s)
    (tests_pool tests n, s).
Proof.
  split; [done|]. intros i p. cbn [fst snd]. intros [Hp|[Hi Hp]]%lookup_app_Some.
  - apply list_lookup_fmap_Some in Hp as (t & -> & Ht). exists (fun _ => True). split_and!; [done|done|].
    eapply safe_weaken; [| |eapply (yields_bind grows i _ _ (fun _ => True) (reported inst_id wasm_recorded (run_builder t))
      (fun o s => forall x, o = Some x -> reported inst_id wasm_recorded (run_builder t) x s))].
    + done.
    + intros r s' _ Hr t' x Ht' ->. rewrite Ht in Ht'. injection Ht' as <-. by apply (Hr _ eq_refl).
    + apply (yields_run_test grows ready inst_id wasm_recorded). intros o w. apply grows_os.
    + intros x s' _ Hx o [= <-] x' [= <-]. exact Hx.
  - apply list_lookup_fmap_Some in Hp as (k & -> & Hk). exists (fun _ => True). split_and!; [done|done|].
    eapply safe_weaken; [| |eapply (yields_steps grows i _ (fun _ => True)); [|done]].
    + done.
    + intros r s' _ _ t x Ht. apply lookup_lt_Some in Ht. rewrite length_map in Hi. lia.
    + apply steps_in_bind; [apply steps_in_map_err, steps_reaper_thread|done].
Qed.

End wasm.

(** ** The image of a test *)

Section image.
Context {O Tar : Type} `{!TarWriter Tar} `{!TarLaws Tar} `{!CtrHost O Tar} `{!CtrLaws O Tar} `{!BundleLaws O Tar}.
Context `{!ConfigJson}.

Lemma command_keeps l failed q (w : O) : file q (run_ctr l failed w).2 = file q w.
Proof.
  unfold run_ctr, mbind. pose proof (spawn_keeps (ctr l) q w) as Hk.
  destruct (spawn_wait (ctr l) w) as [[[]|e|] w1]; simpl in *; done.
Qed.

Lemma image_exists_keeps img q (w : O) : file q (image_exists img w).2 = file q w.
Proof.
  unfold image_exists, munwrap, mbind. pose proof (output_keeps (ctr ["i"; "ls"; "--quiet"]) q w) as Hk.
  destruct (output _ w) as [[o|e|] w1]; simpl in *; [|done..].
  unfold mlift. by destruct (from_utf8 o).
Qed.

(** The archive that was imported for a test, from the module. *)
Definition module_imported (img bytes : string) : Prop :=
  exists dir (w1 w2 w3 : O) es, stored (path_join dir "img.tar") w2 = Some es /\
    imports img [MkContent bytes WASM_LAYER_MEDIA_TYPE] w1 es /\
    spawn_wait (ctr ["image"; "import"; "--all-platforms"; path_join dir "img.tar"]) w2 = (Ok true, w3).

Lemma owned_ok {A} dir (m : M O string A) w a w' : owned dir m w = (Ok a, w') -> m w = (Ok a, w').
Proof. unfold owned, scoped. destruct (m w) as [[x|e|] w1]; by intros. Qed.

Lemma as_oci_image_ok img c self w self' cl w' :
  as_oci_image (Some img) c self w = (Ok (self', cl), w') ->
  exists found w1, image_exists img w = (Ok found, w1) /\
    if found then file (wasm_path (builder_dir self)) w' = file (wasm_path (builder_dir self)) w
    else file (wasm_path (builder_dir self)) w' = None /\
      exists bytes, file (wasm_path (builder_dir self)) w = Some bytes /\ module_imported img bytes.
Proof.
  intros Hrun%owned_ok. apply mbind_ok in Hrun as (found & w1 & Hf & Hrun). simpl in Hf.
  pose proof (image_exists_keeps img (wasm_path (builder_dir self)) w) as Hk. rewrite Hf in Hk.
  exists found, w1. split; [done|]. apply mbind_ok in Hrun as ([] & w2 & Him & Hrun).
  apply mbind_ok in Hrun as ([] & w3 & Hc & [= _ _ <-]).
  pose proof (command_keeps ["c"; "create"; img; default "test"%string c]
    " failed to create container for image" (wasm_path (builder_dir self)) w2) as Hk2.
  unfold create_container in Hc. simpl in Hc. rewrite Hc in Hk2. simpl in Hk, Hk2. rewrite Hk2. destruct found.
  - injection Him as <-. exact Hk.
  - apply mbind_ok in Him as (bytes & u1 & Hr & Him). apply mbind_ok in Him as ([] & u2 & Himp & Hrm).
    apply removed_file in Hrm. split; [exact Hrm|]. exists bytes. rewrite <- Hk.
    split; [by eapply read_file|].
    apply import_image_ok in Himp as (dir & v1 & v2 & v3 & es & Hst & Him & Hsp & _). by exists dir, v1, v2, v3, es.
Qed.
End image.

(** ** Properties *)

(** The engine sees the container of a test as its builder means it: the
    function to call is the one of [with_start_fn], [_start] by default, and
    the module is the file [with_wasm] writes into the root file system,
    unless the image has layers. *)
Theorem test_entrypoint {O : Type} `{!TestHost O} (self : WasiTestBuilder) (layers : list WasmLayer) :
  wasi_entrypoint (MkWasiContext (seen_spec (test_spec self)) layers) =
    MkEntrypoint (if is_empty (start_fn self) then "_start"%string else start_fn self) (Some "hello"%string)
      (Some (entrypoint_arg self))
      (match layers with [] => Sandbox.File "/hello.wasm" | _ => Sandbox.Oci layers end) /\
  wasm_path (builder_dir self) = path_join (path_join (builder_dir self) (root_path (test_spec self))) "hello.wasm".
Proof.
  split; [|done]. unfold wasi_entrypoint, wasi_args, seen_spec, test_spec, entrypoint_arg. simpl.
  destruct (start_fn self) as [|a f]; by destruct layers.
Qed.

(** When [as_oci_image] has to make the image, the archive it imports is
    complete and has the module of the test as a layer, and the module
    is removed from the root file system; when an image of the name is listed
    already, the module stays there. *)
Theorem image_of_the_test {O Tar : Type} `{!TarWriter Tar} `{!TarLaws Tar} `{!CtrHost O Tar} `{!CtrLaws O Tar}
    `{!BundleLaws O Tar} `{!ConfigJson} (img : string) (c : option string) (self self' : WasiTestBuilder)
    (cl : OCICleanup) (w w' : O) :
  as_oci_image (Some img) c self w = (Ok (self', cl), w') ->
  exists found w1, image_exists img w = (Ok found, w1) /\
    if found then file (wasm_path (builder_dir self)) w' = file (wasm_path (builder_dir self)) w
    else file (wasm_path (builder_dir self)) w' = None /\
      exists bytes, file (wasm_path (builder_dir self)) w = Some bytes /\ module_imported img bytes.
Proof. apply as_oci_image_ok. Qed.

Section property.
Context {W Y N K Fd Sub Channel Tx Rx File T Tar : Type}.
Context `{!Youki W Y} `{!Notify N K} `{!Processes W Fd Sub} `{!Containerd W Channel Tx Rx}.
Context `{!ImageFormat} `{!ShimHost W} `{!Files W File} `{!YoukiBuild W Y File T}.
Context `{!TarWriter Tar} `{!CtrHost W Tar} `{!TestHost W}.
Context (S : ShimType W).
Abbreviation St := (World W Y N Fd Sub Channel).

(** C30: a test of an engine that ends well reports the exit status that was
    recorded for the container of the test, however the tests, their
    time-outs and the reapers interleave. *)
Theorem tests_report_recorded_exits (tests : list TestRun) (n : nat) (w s : St)
    (ts : list (async St string (option (Z * string * string)))) (i : nat) (t : TestRun)
    (status : Z) (out err : string) :
  rtc pool_step (tests_pool S tests n, w) (ts, s) ->
  tests !! i = Some t -> ts !! i = Some (Done (Ok (Some (status, out, err)))) ->
  exists inst v, inst_id inst = builder_name (run_builder t) /\
    exit_of s (exit_cell inst) = Some v /\ status = v.1.
Proof.
  intros Hrun Ht Hi. exact (safe_pool_done _ _ _ _ _ i _ (tests_pool_safe S tests n w) Hrun Hi t _ Ht eq_refl).
Qed.
End property.

(** ** Examples: a test over the store of [Client.v], and an image made on the
    machine of [OciHelpers.v] *)

#[export] Instance demo_store_ctr : CtrHost DemoStore (list Entry) := {
  tempdir := mret "/tmp/t"%string;
  drop_tempdir _ w := w;
  write _ _ := mret tt;
  read _ := mret "module"%string;
  remove_file _ := mret tt;
  create_tar _ := mret [];
  close_tar _ _ w := w;
  oci_lib _ := demo_lib;
  spawn_wait _ := mret true;
  output _ := mret EmptyString;
  piped _ _ := mret EmptyString;
  from_utf8 := Ok;
  instant _ := 0%Z;
}.

#[export] Instance demo_test_host {O} : TestHost O := {
  zygote_init w := w;
  create_dir _ := mret tt;
  write_json _ _ := mret tt;
  real_path := mret;
  symlink _ _ := mret tt;
  is_symlink p _ := bool_decide (p = "/tmp/t/stderr"%string);
  read_to_string _ := mret "hello"%string;
  save_spec _ _ := mret tt;
  default_namespaces := [MkNamespace NsPid None; MkNamespace NsNetwork None];
  default_env := None;
  timer _ _ := None;
  display _ := "error"%string;
}.

Definition demo_tests : list TestRun :=
  [MkRun (with_start_fn "main" (MkTestBuilder "c1" EmptyString [] "/tmp/t")) 10 (replicate 20 true)].

Definition demo_test_world : DemoShim := MkWorld Client.demo_world [] [] (Some demo_oci) [].

Definition demo_test_end :=
  run_schedule (concat [replicate 20 0; replicate 20 1; replicate 20 0])
    (tests_pool demo_shim demo_tests 1) demo_test_world.

Example demo_test_result : demo_test_end.1 !! 0 = Some (Done (Ok (Some (3%Z, "hello"%string, EmptyString)))).
Proof. by vm_compute. Qed.

Lemma tests_report_recorded_exits_witness :
  exists inst v, inst_id inst = "c1"%string /\ exit_of demo_test_end.2 (exit_cell inst) = Some v /\ 3%Z = v.1.
Proof.
  apply (tests_report_recorded_exits demo_shim demo_tests 1 demo_test_world demo_test_end.2 demo_test_end.1 0
    (MkRun (with_start_fn "main" (MkTestBuilder "c1" EmptyString [] "/tmp/t")) 10 (replicate 20 true)) 3 "hello" EmptyString).
  - rewrite <- surjective_pairing. apply run_schedule_steps.
  - reflexivity.
  - vm_compute. reflexivity.
Defined.

Definition demo_image_builder : WasiTestBuilder := MkTestBuilder "test" EmptyString [] "/tmp/t".

Definition demo_image_machine : DemoMachine := MkDemoMachine {["/tmp/t/rootfs/hello.wasm" := "module"%string]} ∅ 0 [].

Definition demo_image_end := as_oci_image (Some "app"%string) None demo_image_builder demo_image_machine.

Lemma image_of_the_test_witness : file "/tmp/t/rootfs/hello.wasm" demo_image_end.2 = None.
Proof.
  destruct (image_of_the_test "app" None demo_image_builder (with_name "test" demo_image_builder)
    (MkCleanup "app" "test") demo_image_machine demo_image_end.2) as (found & w1 & Hf & Hres).
  - vm_compute. reflexivity.
  - vm_compute in Hf. injection Hf as <- _. exact (proj1 Hres).
Defined.
