(* ===== verification/Wasmtime.v ===== *)
(** * Wasmtime: [crates/containerd-shim-wasmtime/src/instance.rs]

    The Wasmtime engine: how it precompiles layers, finds out what a binary is
    and which interface a component targets, runs it with the arguments and
    variables of the container, and turns the end of the guest and the signals
    into an exit code.  The [wasmtime] crates are the class [WasmtimeLib]; the
    HTTP server that runs the components of [wasi:http] is the class
    [HttpServer], which [HttpProxy.v] implements. *)

From S2P Require Import Prelude RustStr Errors Sandbox Store Client Async.
From Stdlib Require Import Ascii.

(** An [anyhow::Error]: [downcast_ref::<I32Exit>] or a text. *)
Inductive WtError := I32Exit (code : Z) | WtText (text : string).

Definition wt_display (e : WtError) : string :=
  match e with I32Exit c => "Exited with i32 exit status " +:+ pretty c | WtText t => t end.

(** [wasmtime::Precompiled] *)
Inductive Precompiled := PModule | PComponent.

(** The signals the engine waits for. *)
Inductive Signal := SIGQUIT | SIGTERM | SIGINT.

Definition signal_number (s : Signal) : Z :=
  match s with SIGQUIT => 3 | SIGTERM => 15 | SIGINT => 2 end.

(** [enum ComponentTarget] *)
Inductive ComponentTarget := Command | HttpProxy | Core (func : string).

Definition target_of (name : string) : option ComponentTarget :=
  if starts_with "wasi:http/incoming-handler" name then Some HttpProxy
  else if starts_with "wasi:cli/run" name then Some Command else None.

(** [ComponentTarget::new]: [find_map] on the exports *)
Definition component_target (exports : list string) (func : string) : ComponentTarget :=
  default (Core func) (head (omap target_of exports)).

(** What is set on [WasiCtxBuilder]. *)
Record WasiBuilder := MkWasiBuilder {
  wasi_args_ : list string;
  wasi_envs_ : list (string * string);
  inherit_stdio : bool;
  inherit_network : bool;
  allow_tcp : bool;
  allow_udp : bool;
  allow_ip_name_lookup : bool;
  preopened : list (string * string);
}.

Definition eq_sign : ascii := "="%char.

(** [envs_from_ctx] *)
Definition envs_from_ctx {C} `{!RuntimeContext C} (ctx : C) : list (string * string) :=
  (fun v => default (v, EmptyString) (split_once eq_sign v)) <$> envs ctx.

(** [IntoErrorCode for Result<i32>] and [for Result<()>] *)
Definition into_error_code (r : outcome WtError Z) : outcome WtError Z :=
  match r with Err (I32Exit c) => Ok c | _ => r end.

Definition unit_into_error_code (r : outcome WtError unit) : outcome WtError Z :=
  into_error_code (omap_ok (fun _ => 0%Z) r).

(** The configuration of an engine, [wasmtime::Config] *)
Record WtConfig := MkWtConfig {
  parallel_compilation : bool;
  wasm_component_model : bool;
  async_support : bool;
  pooling : bool;
}.

(** The crates: the parser; the compilation, loading and instantiation of
    modules and components; the calls of exported functions, which run the
    guest; the signals of tokio. *)
Class WasmtimeLib (W Mod Comp Inst CInst : Type) := {
  is_component : bytes -> bool;
  is_core_wasm : bytes -> bool;
  detect_precompiled : bytes -> option Precompiled;
  precompile_module : bytes -> outcome WtError bytes;
  precompile_component : bytes -> outcome WtError bytes;
  compatibility_hash : Z;
  module_from_binary : bytes -> outcome WtError Mod;
  module_deserialize : bytes -> outcome WtError Mod;
  component_from_binary : bytes -> outcome WtError Comp;
  component_deserialize : bytes -> outcome WtError Comp;
  component_exports : Comp -> list string;
  preopened_dir : string -> string -> M W WtError unit;
  linker_p1 : M W WtError unit;
  linker_p2 : M W WtError unit;
  linker_http : M W WtError unit;
  instantiate_p1 : WasiBuilder -> Mod -> async W WtError Inst;
  module_func : Inst -> string -> option (async W WtError unit);
  instantiate_pre : Comp -> M W WtError unit;
  proxy_pre : Comp -> M W WtError unit;
  instantiate_p2 : WasiBuilder -> Comp -> async W WtError CInst;
  command_instantiate : WasiBuilder -> Comp -> async W WtError CInst;
  wasi_cli_run : CInst -> async W WtError (outcome unit unit);
  component_func : CInst -> string -> option (async W WtError unit);
  recv_signal : W -> option (outcome WtError Signal * W);
  (** whether [Engine::new] succeeds with [wasm_memory64] and this
      [memory_reservation], and [Memory::new] with these limits of pages *)
  engine_reserves : bool -> Z -> bool;
  memory_new64 : Z -> Z -> bool;
}.

(** What the sandbox uses of [http_proxy.rs]: [serve_conn], and the
    [CancellationToken] that the sandbox keeps and gives to it. *)
Class HttpServer (W Comp : Type) := {
  serve_conn : forall {C : Type} `{!RuntimeContext C}, C -> Comp -> async W WtError unit;
  cancel : W -> W;
}.

Section wasmtime.
Context {W Mod Comp Inst CInst : Type} `{!WasmtimeLib W Mod Comp Inst CInst} `{!FileSystem W}.
Context `{!HttpServer W Comp}.

Definition BITS_TO_TEST : Z := 42.

(** [use_pooling_allocator_by_default], whose answer is computed once *)
Definition use_pooling_allocator_by_default : bool :=
  if engine_reserves true (Z.shiftl 1 BITS_TO_TEST)
  then memory_new64 0 (Z.shiftl 1 (BITS_TO_TEST - 16)) else false.

(** [WasmtimeSandbox::default] and [WasmtimeShim::compiler]: the engines they
    configure; [test] is [cfg!(test)]. *)
Definition sandbox_config (test : bool) : WtConfig := MkWtConfig (negb test) true true use_pooling_allocator_by_default.
Definition compiler_config (test : bool) : WtConfig := MkWtConfig (negb test) true true false.

(** *** [Compiler] *)

(** [WasmtimeCompiler::compile] *)
Fixpoint compile_layers (ls : list WasmLayer) : outcome WtError (list (option bytes)) :=
  match ls with
  | [] => Ok []
  | l :: ls' =>
      match detect_precompiled (layer l) with
      | Some _ => let? rest := compile_layers ls' in Ok (None :: rest)
      | None =>
          match binary_type is_component is_core_wasm (layer l) with
          | Some Module_ =>
              let? c := precompile_module (layer l) in
              let? rest := compile_layers ls' in Ok (Some c :: rest)
          | Some Component =>
              let? c := precompile_component (layer l) in
              let? rest := compile_layers ls' in Ok (Some c :: rest)
          | None => compile_layers ls'
          end
      end
  end.

(** [impl Compiler for WasmtimeCompiler] *)
Definition wasmtime_compiler : Compiler W :=
  MkCompiler compatibility_hash (fun ls => mlift (map_err wt_display (compile_layers ls))).

(** *** [Sandbox] *)

(** [wasi_builder] *)
Definition wasi_builder {C} `{!RuntimeContext C} (ctx : C) : async W WtError WasiBuilder :=
  let b := MkWasiBuilder (args ctx) (envs_from_ctx ctx) true true true true true [] in
  let* _ := alift (preopened_dir "/" "/") in
  aret (MkWasiBuilder (wasi_args_ b) (wasi_envs_ b) (inherit_stdio b) (inherit_network b)
          (allow_tcp b) (allow_udp b) (allow_ip_name_lookup b) [("/"%string, "/"%string)]).

(** [execute_module] *)
Definition execute_module {C} `{!RuntimeContext C} (ctx : C) (module : Mod) (func : string)
    : async W WtError Z :=
  let* ctx_p1 := wasi_builder ctx in
  let* _ := alift linker_p1 in
  let* instance := instantiate_p1 ctx_p1 module in
  let* start_func := Done (ok_or (module_func instance func)
                             (WtText "module does not have a WASI start function")) in
  let* status := atry start_func in
  Done (unit_into_error_code status).

(** [store_for_context] with a [WasiPreview2Ctx] *)
Definition store_for_context {C} `{!RuntimeContext C} (ctx : C) : async W WtError WasiBuilder :=
  let* b := wasi_builder ctx in
  let* _ := alift linker_p2 in
  aret b.

(** *** The targets of a component *)

(** The match of [execute_component_async] on the target: its value is a
    [Result], and [?] leaves the function. *)
Definition run_target {C} `{!RuntimeContext C} (ctx : C) (component : Comp) (target : ComponentTarget)
    : async W WtError (outcome WtError unit) :=
  match target with
  | HttpProxy =>
      let* _ := alift linker_p2 in
      let* _ := alift linker_http in
      let* _ := alift (instantiate_pre component) in
      let* _ := alift (proxy_pre component) in
      atry (serve_conn ctx component)
  | Command =>
      let* store := store_for_context ctx in
      let* command := command_instantiate store component in
      let* r := wasi_cli_run command in
      aret (map_err (fun _ => WtText "failed to run component targeting `wasi:cli/command` world") r)
  | Core func =>
      let* store := store_for_context ctx in
      let* _ := alift (instantiate_pre component) in
      let* instance := instantiate_p2 store component in
      let* start_func := Done (ok_or (component_func instance func)
                                 (WtText ("component does not have exported function " +:+ debug_str func))) in
      atry start_func
  end.

(** [execute_component_async] *)
Definition execute_component_async {C} `{!RuntimeContext C} (ctx : C) (component : Comp) (func : string)
    : async W WtError Z :=
  let* status := run_target ctx component (component_target (component_exports component) func) in
  Done (unit_into_error_code status).

(** [wait_for_signal], on Unix *)
Definition wait_for_signal : async W WtError Z :=
  let* r := await recv_signal in
  Done (omap_ok signal_number r).

(** [handle_signals] *)
Definition handle_signals : async W WtError Z :=
  let* sig := wait_for_signal in
  if decide (sig = signal_number SIGINT) then
    let* _ := atomic (fun w => (tt, cancel w)) in
    wait_for_signal
  else aret (128 + sig)%Z.

(** [execute_component]; [order] is the order of the polls of [select!]. *)
Definition execute_component {C} `{!RuntimeContext C} (order : list bool) (ctx : C) (component : Comp)
    (func : string) : async W WtError Z :=
  select order (execute_component_async ctx component func) handle_signals.

(** [execute] *)
Definition execute {C} `{!RuntimeContext C} (order : list bool) (ctx : C) (wasm_binary : bytes)
    (func : string) : async W WtError Z :=
  match binary_type is_component is_core_wasm wasm_binary with
  | Some Module_ =>
      let* module := Done (module_from_binary wasm_binary) in execute_module ctx module func
  | Some Component =>
      let* component := Done (component_from_binary wasm_binary) in
      execute_component order ctx component func
  | None =>
      match detect_precompiled wasm_binary with
      | Some PModule =>
          let* module := Done (module_deserialize wasm_binary) in execute_module ctx module func
      | Some PComponent =>
          let* component := Done (component_deserialize wasm_binary) in
          execute_component order ctx component func
      | None => athrow (WtText "invalid precompiled module")
      end
  end.

(** [WasmtimeSandbox::run_wasi] *)
Definition run_wasi {C} `{!RuntimeContext C} (order : list bool) (ctx : C) : async W WtError Z :=
  let entry := entrypoint ctx in
  let* wasm_bytes := alift (fun w => (map_err WtText (as_bytes (source entry) w), w)) in
  let* r := atry (execute order ctx wasm_bytes (func entry)) in
  Done (into_error_code r).
End wasmtime.

(** What the documentation of [precompile_module] and [precompile_component]
    states: the result is detected as precompiled, is not itself a Wasm binary,
    and deserialises to the module that the binary would give. *)
Class PrecompileLaws (W Mod Comp Inst CInst : Type) `{!WasmtimeLib W Mod Comp Inst CInst} : Prop := {
  precompiled_is_not_wasm b c :
    precompile_module b = Ok c \/ precompile_component b = Ok c ->
    binary_type is_component is_core_wasm c = None;
  precompiled_module b c :
    precompile_module b = Ok c ->
    detect_precompiled c = Some PModule /\ module_deserialize c = module_from_binary b;
  precompiled_component b c :
    precompile_component b = Ok c ->
    detect_precompiled c = Some PComponent /\ component_deserialize c = component_from_binary b;
}.

(** ** Lemmas *)

Section lemmas.
Context {W Mod Comp Inst CInst : Type} `{!WasmtimeLib W Mod Comp Inst CInst}.
Implicit Types (l : WasmLayer) (ls : list WasmLayer).

(** The layers the compiler knows what to do with. *)
Definition recognised l : bool :=
  bool_decide (is_Some (detect_precompiled (layer l))) ||
  bool_decide (is_Some (binary_type is_component is_core_wasm (layer l))).

(** What the compiler gives for a layer. *)
Definition compiled_as l (c : option bytes) : Prop :=
  match c with
  | None => is_Some (detect_precompiled (layer l))
  | Some b => detect_precompiled (layer l) = None /\
      match binary_type is_component is_core_wasm (layer l) with
      | Some Module_ => precompile_module (layer l) = Ok b
      | Some Component => precompile_component (layer l) = Ok b
      | None => False
      end
  end.

Lemma obind_ok {E A B} (r : outcome E A) (k : A -> outcome E B) b :
  obind r k = Ok b -> exists a, r = Ok a /\ k a = Ok b.
Proof. destruct r; simpl; naive_solver. Qed.

Lemma compile_layers_cons l ls cs :
  compile_layers (l :: ls) = Ok cs ->
  if recognised l then exists c rest, cs = c :: rest /\ compiled_as l c /\ compile_layers ls = Ok rest
  else compile_layers ls = Ok cs.
Proof.
  cbn [compile_layers]. unfold recognised, compiled_as.
  destruct (detect_precompiled (layer l)) as [p|] eqn:Hd.
  - intros (rest & Hr & [= <-])%obind_ok. rewrite bool_decide_true by eauto. cbn [orb].
    exists None, rest. eauto.
  - rewrite (bool_decide_false (is_Some None)) by (by intros []). cbn [orb].
    destruct (binary_type _ _ (layer l)) as [[|]|] eqn:Hb.
    1,2: intros (c & Hc & (rest & Hr & [= <-])%obind_ok)%obind_ok;
      rewrite bool_decide_true by eauto; cbn [orb]; by exists (Some c), rest.
    by rewrite bool_decide_false by (by intros []).
Qed.

Lemma compile_layers_filter ls cs :
  compile_layers ls = Ok cs -> Forall2 compiled_as (filter (fun l => recognised l = true) ls) cs.
Proof.
  revert cs. induction ls as [|l ls IH]; intros cs Hcs; [injection Hcs as <-; constructor|].
  apply compile_layers_cons in Hcs. rewrite filter_cons.
  destruct (recognised l); simpl.
  - destruct Hcs as (c & rest & -> & Hc & Hr). constructor; eauto.
  - by apply IH.
Qed.
End lemmas.

(** ** A Wasmtime for the examples

    Modules start with [m], components with [c] and precompiled ones with [p]
    or [q] in front of them; the guest exits with the number of its bytes. *)

Definition demo_guest (m : bytes) : async unit WtError unit := athrow (I32Exit (Z.of_nat (length m))).

#[export] Instance demo_wasmtime : WasmtimeLib unit bytes bytes bytes bytes := {
  is_component b := bool_decide (head b = Some Byte.x63);
  is_core_wasm b := bool_decide (head b = Some Byte.x6d);
  detect_precompiled b :=
    match b with Byte.x70 :: _ => Some PModule | Byte.x71 :: _ => Some PComponent | _ => None end;
  precompile_module b := Ok (Byte.x70 :: b);
  precompile_component b := Ok (Byte.x71 :: b);
  compatibility_hash := 7;
  module_from_binary := Ok;
  module_deserialize b := Ok (tail b);
  component_from_binary := Ok;
  component_deserialize b := Ok (tail b);
  component_exports _ := ["memory"; "wasi:cli/run@0.2.0"]%string;
  preopened_dir _ _ := mret tt;
  linker_p1 := mret tt;
  linker_p2 := mret tt;
  linker_http := mret tt;
  instantiate_p1 _ m := aret m;
  module_func m f := if decide (f = "_start"%string) then Some (demo_guest m) else None;
  instantiate_pre _ := mret tt;
  proxy_pre _ := mret tt;
  instantiate_p2 _ c := aret c;
  command_instantiate _ c := aret c;
  wasi_cli_run _ := aret (Ok tt);
  component_func c _ := Some (demo_guest c);
  recv_signal _ := None;
  engine_reserves _ _ := true;
  memory_new64 _ _ := false;
}.

#[export] Instance demo_server : HttpServer unit bytes := { serve_conn _ _ _ _ := aret tt; cancel w := w }.

#[export] Instance demo_precompile_laws : PrecompileLaws unit bytes bytes bytes bytes.
Proof.
  split; simpl.
  - by intros b c [[= <-]|[= <-]].
  - by intros b c [= <-].
  - by intros b c [= <-].
Qed.

Definition demo_module : bytes := Byte.x6d :: [Byte.x01; Byte.x02].

Definition demo_wt_ctx : WasiContext := demo_ctx "/app.wasm".

Example demo_module_exit :
  exec (execute [] demo_wt_ctx demo_module "_start") tt = (Some (Ok 3%Z), tt).
Proof. by vm_compute. Qed.

Example demo_command :
  exec (execute [true; true; true; true; true; true; true] demo_wt_ctx [Byte.x63] "_start") tt = (Some (Ok 0%Z), tt).
Proof. by vm_compute. Qed.

(** ** Properties *)

(** C39: running the bytes that the compiler produced for a layer is running the
    layer: the same module or component is loaded, and executed with the same
    context and function. *)
Theorem precompiled_runs_the_same {W Mod Comp Inst CInst C : Type} `{!WasmtimeLib W Mod Comp Inst CInst}
    `{!PrecompileLaws W Mod Comp Inst CInst} `{!HttpServer W Comp} `{!RuntimeContext C} (order : list bool) (ctx : C)
    (l : WasmLayer) (b : bytes) (func : string) :
  compile_layers [l] = Ok [Some b] ->
  execute order ctx b func = execute order ctx (layer l) func.
Proof.
  intros Hc%compile_layers_cons. destruct (recognised l); [|done].
  destruct Hc as (c & rest & [= <- <-] & [Hd Hb] & _). unfold execute.
  destruct (binary_type is_component is_core_wasm (layer l)) as [[|]|]; [| |done].
  - rewrite (precompiled_is_not_wasm (layer l) b) by auto.
    by destruct (precompiled_module _ _ Hb) as [-> ->].
  - rewrite (precompiled_is_not_wasm (layer l) b) by auto.
    by destruct (precompiled_component _ _ Hb) as [-> ->].
Qed.

Lemma precompiled_runs_the_same_witness :
  execute [] demo_wt_ctx (Byte.x70 :: demo_module) "_start" = execute [] demo_wt_ctx demo_module "_start".
Proof.
  apply (precompiled_runs_the_same [] demo_wt_ctx (MkLayer (MkDescriptor "application/wasm" "d") demo_module)).
  vm_compute. reflexivity.
Defined.

(** The compiler gives one result for each layer that is a Wasm binary or
    is precompiled already, in order, and none for any other layer.  So when
    the compilation succeeds and one layer is neither, loading the image fails:
    the client refuses the number of layers. *)
Theorem unrecognised_layer_fails_the_load {W Mod Comp Inst CInst Channel Tx Rx : Type}
    `{!WasmtimeLib W Mod Comp Inst CInst} `{!Containerd W Channel Tx Rx} `{!ImageFormat}
    (client : Client Channel) (precompile_id digest : string) (ls : list WasmLayer)
    (cs : list (option bytes)) (w : W) :
  compile_layers ls = Ok cs ->
  Forall2 compiled_as (filter (fun l => recognised l = true) ls) cs /\
  (Exists (fun l => recognised l = false) ls ->
   precompile_layers client wasmtime_compiler precompile_id digest ls w =
   (Err (E_FailedPrecondition "precompile returned wrong number of layers"), w)).
Proof.
  intros Hc. pose proof (compile_layers_filter ls cs Hc) as Hf. split; [done|]. intros Hex.
  assert (length cs ≠ length ls) as Hlen.
  { rewrite <- (Forall2_length _ _ _ Hf). apply Exists_exists in Hex as (l & Hl & Hr).
    apply list_elem_of_split in Hl as (l1 & l2 & ->).
    rewrite filter_app, filter_cons_False by congruence. rewrite !length_app. simpl.
    pose proof (length_filter (fun l => recognised l = true) l1).
    pose proof (length_filter (fun l => recognised l = true) l2). lia. }
  unfold precompile_layers, mbind, mtry. cbn [compile wasmtime_compiler].
  unfold mlift. rewrite Hc. simpl. by rewrite decide_True.
Qed.

(** A module and a text module, which the compiler does not recognise. *)
Definition demo_layers : list WasmLayer :=
  MkLayer (MkDescriptor "application/wasm" "d1") demo_module ::
  [MkLayer (MkDescriptor "application/wasm" "d2") [Byte.x28]].

Lemma unrecognised_layer_fails_the_load_witness :
  precompile_layers (Containerd0 := labelled_store) (H := demo_format) demo_client
    wasmtime_compiler "label" "digest" demo_layers tt =
  (Err (E_FailedPrecondition "precompile returned wrong number of layers"), tt).
Proof.
  apply (unrecognised_layer_fails_the_load (Containerd0 := labelled_store) demo_client "label" "digest"
           demo_layers [Some (Byte.x70 :: demo_module)] tt).
  - vm_compute. reflexivity.
  - apply Exists_cons_tl, Exists_cons_hd. reflexivity.
Defined.

(** A first [SIGINT] cancels the token, and the second signal ends the
    container with its bare number; any other first signal ends it at once with
    128 plus the signal, and without a cancellation. *)
Theorem signals_end_the_container {W Mod Comp Inst CInst : Type} `{!WasmtimeLib W Mod Comp Inst CInst}
    `{!HttpServer W Comp} (w : W) :
  exec handle_signals w =
  match recv_signal w with
  | Some (Ok SIGINT, w1) =>
      match recv_signal (cancel w1) with
      | Some (r, w2) => (Some (omap_ok signal_number r), w2)
      | None => (None, cancel w1)
      end
  | Some (Ok sig, w1) => (Some (Ok (128 + signal_number sig)%Z), w1)
  | Some (Err e, w1) => (Some (Err e), w1)
  | Some (Panic, w1) => (Some Panic, w1)
  | None => (None, w)
  end.
Proof.
  unfold handle_signals, wait_for_signal. rewrite exec_abind. cbn.
  by destruct (recv_signal w) as [[[[]| |] w1]|].
Qed.
