(* ===== verification/HttpProxy.v ===== *)
(** * HttpProxy: [crates/containerd-shim-wasmtime/src/http_proxy.rs]

    The HTTP server in front of a component of [wasi:http]: its settings, the
    accept loop, the connections, and the handler that runs each request in an
    instance of its own.  Connections and guests are tasks that a [TaskTracker]
    counts.  hyper, [tokio] and [wasmtime] are the classes [ProxyLib], [Tokio]
    and [Hyper].

    Task [i] of the server is thread [i + 2] of the pool: it waits until the
    server has spawned it.  Thread 0 is [serve_conn], thread 1 handles the
    signals, as [execute_component] does in the same task as [serve_conn]. *)

From S2P Require Import Prelude RustStr Errors Sandbox Store Client Async Wasmtime.

(** The kinds of the errors of [accept] *)
Inductive AcceptError := ConnectionRefused | ConnectionAborted | ConnectionReset | OtherAccept (text : string).

(** [is_connection_error] *)
Definition is_connection_error (e : AcceptError) : bool :=
  match e with ConnectionRefused | ConnectionAborted | ConnectionReset => true | OtherAccept _ => false end.

Definition DEFAULT_ADDR : string := "0.0.0.0:8080".
Definition DEFAULT_BACKLOG : N := 100.

(** [struct ProxyHandler]; the [AtomicU64] and the [TaskTracker], which its
    clones share, are in the state of the server. *)
Record ProxyHandler (Comp : Type) := MkHandler {
  instance_pre : Comp;
  handler_env : list (string * string);
}.
Arguments MkHandler {Comp}.
Arguments instance_pre {Comp}.
Arguments handler_env {Comp}.

(** A [Store<WasiPreview2Ctx>]: the task that made it and its variables *)
Record GuestStore := MkGuestStore { store_task : nat; store_env : list (string * string) }.

(** The futures given to [tracker.spawn]: one per accepted connection, with
    its [ProxyHandler]; one per request, with the instance, the number of the
    store, the request and the number of its channel. *)
Inductive Job (Comp Proxy Stream InReq : Type) :=
  | JConn (stream : Stream) (handler : ProxyHandler Comp)
  | JGuest (proxy : Proxy) (store : nat) (req : InReq) (sender : nat).
Arguments JConn {Comp Proxy Stream InReq}.
Arguments JGuest {Comp Proxy Stream InReq}.

(** A spawned task: its result is what the [JoinHandle] gives, [Panic] when
    the task panicked. *)
Record Task (Comp Proxy Stream InReq : Type) := MkTask {
  job : Job Comp Proxy Stream InReq;
  result : option (outcome WtError unit);
}.
Arguments MkTask {Comp Proxy Stream InReq}.
Arguments job {Comp Proxy Stream InReq}.
Arguments result {Comp Proxy Stream InReq}.

(** The operating system and the engine; the [CancellationToken]; the
    [TaskTracker]; the counter of the requests; the stores, the oneshot
    channels and the tasks made so far. *)
Record Server (W Comp Proxy Stream InReq Ch Trk Tok : Type) := MkServer {
  os : W;
  token : Tok;
  tracker : Trk;
  next_id : Z;
  stores : list GuestStore;
  channels : list Ch;
  tasks : list (Task Comp Proxy Stream InReq);
}.
Arguments MkServer {W Comp Proxy Stream InReq Ch Trk Tok}.
Arguments os {W Comp Proxy Stream InReq Ch Trk Tok}.
Arguments token {W Comp Proxy Stream InReq Ch Trk Tok}.
Arguments tracker {W Comp Proxy Stream InReq Ch Trk Tok}.
Arguments next_id {W Comp Proxy Stream InReq Ch Trk Tok}.
Arguments stores {W Comp Proxy Stream InReq Ch Trk Tok}.
Arguments channels {W Comp Proxy Stream InReq Ch Trk Tok}.
Arguments tasks {W Comp Proxy Stream InReq Ch Trk Tok}.

(** [tokio_util]'s [TaskTracker] and [CancellationToken] and the oneshot
    channel of tokio.  A poll of the receiver gives [None] while it is pending
    and [Some None] for a [RecvError]. *)
Class Tokio (Trk Tok Ch Msg : Type) := {
  tracker_new : Trk;
  track : Trk -> Trk;
  untrack : Trk -> Trk;
  tracker_close : Trk -> Trk;
  tracker_len : Trk -> nat;
  tracker_is_closed : Trk -> bool;
  tracker_wait : Trk -> bool;
  is_cancelled : Tok -> bool;
  token_cancel : Tok -> Tok;
  channel : Ch;
  drop_sender : Ch -> Ch;
  recv : Ch -> option (option Msg);
}.

(** What their documentation states: a tracker counts the futures it tracks and
    its [wait] completes once it is closed and empty; a token stays cancelled;
    a receiver completes when the sender has been dropped. *)
Class TokioLaws (Trk Tok Ch Msg : Type) `{!Tokio Trk Tok Ch Msg} : Prop := {
  tracker_len_new : tracker_len tracker_new = 0;
  tracker_len_track t : tracker_len (track t) = S (tracker_len t);
  tracker_len_untrack t : tracker_len (untrack t) = pred (tracker_len t);
  tracker_len_close t : tracker_len (tracker_close t) = tracker_len t;
  tracker_closed_track t : tracker_is_closed (track t) = tracker_is_closed t;
  tracker_closed_untrack t : tracker_is_closed (untrack t) = tracker_is_closed t;
  tracker_closed_close t : tracker_is_closed (tracker_close t) = true;
  tracker_wait_iff t :
    tracker_wait t = true <-> tracker_is_closed t = true /\ tracker_len t = 0;
  token_cancelled t : is_cancelled (token_cancel t) = true;
  sender_dropped c : is_Some (recv (drop_sender c));
}.

(** [SocketAddr], sockets and timers; the resources of a request in a store, the
    instantiation of the component and the call of its handler, which may send
    on the channel of the request; the texts of the errors. *)
Class ProxyLib (W Comp Proxy Stream Sock Listener Req InReq Resp HErr Ch : Type) := {
  parse_addr : string -> option string;
  is_ipv4 : string -> bool;
  tcp_socket : bool -> M W WtError Sock;
  set_reuseaddr : Sock -> bool -> M W WtError unit;
  bind : Sock -> string -> M W WtError unit;
  listen : Sock -> N -> M W WtError Listener;
  local_addr : Listener -> M W WtError string;
  accept : Listener -> W -> option (outcome AcceptError Stream * W);
  sleep_1s : W -> option (unit * W);
  new_incoming_request : Req -> M W WtError InReq;
  new_response_outparam : M W WtError unit;
  instantiate_async : Comp -> async W WtError Proxy;
  call_handle : Proxy -> list (string * string) -> InReq -> async (Ch * W) WtError unit;
  http_error : HErr -> WtError;
  join_error : string;
  wt_debug : WtError -> string;
}.

Section proxy.
Context {W Comp Proxy Stream Sock Listener Req InReq Resp HErr Ch Trk Tok : Type}.
Context `{!Tokio Trk Tok Ch (outcome HErr Resp)}.
Context `{!ProxyLib W Comp Proxy Stream Sock Listener Req InReq Resp HErr Ch}.
Abbreviation Srv := (Server W Comp Proxy Stream InReq Ch Trk Tok).
Abbreviation Job := (Job Comp Proxy Stream InReq).
Abbreviation Handler := (ProxyHandler Comp).

(** hyper's [http1::Builder::serve_connection] with a [service_fn] *)
Class Hyper := { serve_connection : Stream -> (Req -> async Srv WtError Resp) -> async Srv string unit }.
Context `{!Hyper}.

(** *** Access to the state *)

Definition with_os (w : W) (s : Srv) : Srv :=
  MkServer w (token s) (tracker s) (next_id s) (stores s) (channels s) (tasks s).
Definition with_token (t : Tok) (s : Srv) : Srv :=
  MkServer (os s) t (tracker s) (next_id s) (stores s) (channels s) (tasks s).
Definition with_tracker (t : Trk) (s : Srv) : Srv :=
  MkServer (os s) (token s) t (next_id s) (stores s) (channels s) (tasks s).
Definition with_next_id (n : Z) (s : Srv) : Srv :=
  MkServer (os s) (token s) (tracker s) n (stores s) (channels s) (tasks s).
Definition with_channel (c : nat) (ch : Ch) (s : Srv) : Srv :=
  MkServer (os s) (token s) (tracker s) (next_id s) (stores s) (<[c := ch]> (channels s)) (tasks s).

Definition on_os {E A} (p : async W E A) : async Srv E A := zoom (fun s => Some (os s)) with_os p.

(** A guest works on the channel of its request and on the world. *)
Definition on_channel {E A} (c : nat) (p : async (Ch * W) E A) : async Srv E A :=
  zoom (fun s => ch ← channels s !! c; Some (ch, os s))
    (fun cw s => with_channel c cw.1 (with_os cw.2 s)) p.

(** [tracker.spawn]: the number of the task *)
Definition spawn {E} (j : Job) : async Srv E nat :=
  atomic (fun s => (length (tasks s),
    MkServer (os s) (token s) (track (tracker s)) (next_id s) (stores s) (channels s)
      (tasks s ++ [MkTask j None]))).

(** The end of task [i]: its result is for its [JoinHandle], and it is not
    tracked any more. *)
Definition finish (i : nat) (r : outcome WtError unit) (s : Srv) : Srv :=
  match tasks s !! i with
  | Some t =>
      MkServer (os s) (token s) (untrack (tracker s)) (next_id s) (stores s) (channels s)
        (<[i := MkTask (job t) (Some r)]> (tasks s))
  | None => s
  end.

(** *** [ProxyHandler] *)

(** [next_req_id]: [fetch_add] on an [AtomicU64] wraps around. *)
Definition next_req_id (s : Srv) : Z * Srv :=
  (next_id s, with_next_id ((next_id s + 1) mod 2 ^ 64)%Z s).

(** [wasi_store_for_request], by task [me] *)
Definition wasi_store_for_request (me : nat) (self : Handler) (req_id : Z) (s : Srv) : nat * Srv :=
  (length (stores s),
   MkServer (os s) (token s) (tracker s) (next_id s)
     (stores s ++ [MkGuestStore me (handler_env self ++ [("REQUEST_ID"%string, pretty req_id)])])
     (channels s) (tasks s)).

Definition oneshot {E} : async Srv E nat :=
  atomic (fun s => (length (channels s),
    MkServer (os s) (token s) (tracker s) (next_id s) (stores s) (channels s ++ [channel]) (tasks s))).

(** [receiver.await] and [task.await] *)
Definition await_receiver {E} (c : nat) : async Srv E (option (outcome HErr Resp)) :=
  await (fun s => ch ← channels s !! c; m ← recv ch; Some (m, s)).

Definition await_task {E} (t : nat) : async Srv E (outcome WtError unit) :=
  await (fun s => tk ← tasks s !! t; r ← result tk; Some (r, s)).

Definition never_set (e : string) : WtError :=
  WtText ("guest never invoked `response-outparam::set` method: " +:+ e).

(** The end of [handle_request]: what the guest sent, or, if it dropped its
    sender, the error of its task; [expect_err] panics if there is none. *)
Definition await_response (c t : nat) : async Srv WtError Resp :=
  let* r := await_receiver c in
  match r with
  | Some (Ok resp) => aret resp
  | Some (Err e) => athrow (http_error e)
  | Some Panic => apanic
  | None =>
      let* j := await_task t in
      match j with
      | Ok _ => apanic
      | Err e => athrow (never_set (wt_debug e))
      | Panic => athrow (never_set join_error)
      end
  end.

(** [handle_request], in task [me].  Nothing of another task can be seen between
    the counter and the making of the store: one step. *)
Definition handle_request (me : nat) (self : Handler) (req : Req) : async Srv WtError Resp :=
  let* ch := oneshot in
  let* store := atomic (fun s => let '(req_id, s) := next_req_id s in
                                 wasi_store_for_request me self req_id s) in
  let* rq := on_os (alift (new_incoming_request req)) in
  let* _ := on_os (alift new_response_outparam) in
  let* proxy := on_os (instantiate_async (instance_pre self)) in
  let* task := spawn (JGuest proxy store rq ch) in
  await_response ch task.

(** The future of a guest: the store and the sender in it are dropped at the
    end of the call. *)
Definition run_guest (proxy : Proxy) (store : nat) (req : InReq) (c : nat) : async Srv WtError unit :=
  let* env := await (fun s => x ← stores s !! store; Some (store_env x, s)) in
  afinally (on_channel c (call_handle proxy env req))
    (fun s => match channels s !! c with Some ch => with_channel c (drop_sender ch) s | None => s end).

(** The future of a connection: an error is logged. *)
Definition run_conn (me : nat) (stream : Stream) (h : Handler) : async Srv WtError unit :=
  let* _ := atry (serve_connection stream (handle_request me h)) in
  aret tt.

Definition run_job (i : nat) (j : Job) : async Srv WtError unit :=
  match j with
  | JConn stream h => run_conn i stream h
  | JGuest proxy store req c => run_guest proxy store req c
  end.

(** The thread of task [i] *)
Definition task_thread (i : nat) : async Srv WtError unit :=
  let* j := await (fun s => t ← tasks s !! i; Some (job t, s)) in
  aend (run_job i j) (finish i).

(** *** [serve_conn] *)

(** [HashMap::remove] *)
Definition take_env (k : string) (env : gmap string string) : option string * gmap string string :=
  (env !! k, base.delete k env).

(** The settings of [serve_conn]: the address, the backlog and the variables
    that are left for the guests. *)
Definition proxy_settings (vars : list (string * string)) : string * N * gmap string string :=
  let env := foldl (fun m kv => <[kv.1 := kv.2]> m) ∅ vars in
  let '(a, env) := take_env "WASMTIME_HTTP_PROXY_SOCKET_ADDR" env in
  let addr := default DEFAULT_ADDR (a ≫= parse_addr) in
  let '(b, env) := take_env "WASMTIME_HTTP_BACKLOG" env in
  let backlog := default DEFAULT_BACKLOG (b ≫= parse_unsigned (Z.to_N u32_max)) in
  (addr, backlog, env).

(** [tcp_accept] *)
Definition tcp_accept {E} (l : Listener) : async W E (option Stream) :=
  let* r := await (accept l) in
  match r with
  | Ok stream => aret (Some stream)
  | Err e =>
      if is_connection_error e then aret None
      else let* _ := await sleep_1s in aret None
  | Panic => apanic
  end.

(** The branches of [select!]: a stream or none, or the end of the loop *)
Definition accepted {E} (l : Listener) : async Srv E (option (option Stream)) :=
  let* conn := on_os (tcp_accept l) in aret (Some conn).

Definition cancelled {E A} : async Srv E (option A) :=
  let* _ := await (fun s => if is_cancelled (token s) then Some (tt, s) else None) in aret None.

Definition pending {E A} : async Srv E A := await (fun _ => None).

(** The accept loop; [orders] has the order of the polls of each iteration,
    and the loop is pending for ever after the last one. *)
Fixpoint accept_loop {E} (orders : list (list bool)) (l : Listener) (h : Handler) : async Srv E unit :=
  match orders with
  | [] => pending
  | order :: orders' =>
      let* conn := select order (accepted l) cancelled in
      match conn with
      | None => aret tt
      | Some None => accept_loop orders' l h
      | Some (Some stream) =>
          let* _ := spawn (JConn stream h) in
          accept_loop orders' l h
      end
  end.

Definition open_listener (addr : string) (backlog : N) : M W WtError Listener :=
  let! socket := tcp_socket (is_ipv4 addr) in
  let! _ := set_reuseaddr socket true in
  let! _ := bind socket addr in
  listen socket backlog.

(** From [TaskTracker::new] to the end of [serve_conn] *)
Definition serve (orders : list (list bool)) (listener : Listener) (env : list (string * string))
    (component : Comp) : async Srv WtError unit :=
  let* _ := atomic (fun s => (tt, with_tracker tracker_new s)) in
  let* _ := on_os (alift (local_addr listener)) in
  let* _ := atomic (fun s => (tt, with_next_id 0 s)) in
  let* _ := accept_loop orders listener (MkHandler component env) in
  let* _ := atomic (fun s => (tt, with_tracker (tracker_close (tracker s)) s)) in
  await (fun s => if tracker_wait (tracker s) then Some (tt, s) else None).

(** [serve_conn] *)
Definition http_serve_conn (orders : list (list bool)) {C} `{!RuntimeContext C} (ctx : C)
    (component : Comp) : async Srv WtError unit :=
  let '(addr, backlog, env) := proxy_settings (envs_from_ctx ctx) in
  let* listener := on_os (alift (open_listener addr backlog)) in
  serve orders listener (map_to_list env) component.

(** The server that the sandbox of [Wasmtime.v] uses *)
Definition proxy_server (orders : list (list bool)) : HttpServer Srv Comp := {|
  serve_conn C _ ctx component := http_serve_conn orders ctx component;
  cancel s := with_token (token_cancel (token s)) s;
|}.
End proxy.

(** ** What is relied on of hyper and of a guest *)

Section laws.
Context {W Comp Proxy Stream Sock Listener Req InReq Resp HErr Ch Trk Tok : Type}.
Context `{!Tokio Trk Tok Ch (outcome HErr Resp)}.
Context `{!ProxyLib W Comp Proxy Stream Sock Listener Req InReq Resp HErr Ch}.
Abbreviation Srv := (Server W Comp Proxy Stream InReq Ch Trk Tok).

(** A step that only changes the world *)
Definition os_step (s s' : Srv) : Prop := exists w, s' = with_os w s.

(** A future that does nothing but steps of its own and calls of [svc], one
    after the other. *)
Inductive drives (svc : Req -> async Srv WtError Resp) : async Srv string unit -> Prop :=
  | drives_done r : drives svc (Done r)
  | drives_step X (f : Srv -> option (X * Srv)) k :
      (forall s x s', f s = Some (x, s') -> os_step s s') -> (forall x, drives svc (k x)) ->
      drives svc (Step f k)
  | drives_call req k : (forall r, drives svc (k r)) -> drives svc (abind (atry (svc req)) k).

(** hyper calls the service for one request of a connection after the other,
    and a guest cannot take back what it sent. *)
Class ProxyLaws `{!Hyper (W := W) (Comp := Comp) (Proxy := Proxy) (Stream := Stream) (Req := Req)
                     (InReq := InReq) (Resp := Resp) (Ch := Ch) (Trk := Trk) (Tok := Tok)} : Prop := {
  serve_drives stream svc : drives svc (serve_connection stream svc);
  guest_sends proxy env req :
    steps_in (fun a b : Ch * W => is_Some (recv a.1) -> is_Some (recv b.1)) (call_handle proxy env req);
}.
End laws.
