(* ===== verification/HttpRuns.v ===== *)
(** * HttpRuns: every interleaving of the HTTP server

    The threads of [HttpProxy.v] next to the handler of the signals: when
    [serve_conn] returns, every task has ended; requests have guests, stores and
    numbers of their own; and the end of a guest is noticed. *)

From S2P Require Import Prelude RustStr Errors Sandbox Store Client Async Wasmtime HttpProxy.

Lemma handler_eta {Comp} (h : ProxyHandler Comp) : MkHandler (instance_pre h) (handler_env h) = h.
Proof. by destruct h. Qed.

Section runs.
Context {W Comp Proxy Stream Sock Listener Req InReq Resp HErr Ch Trk Tok : Type}.
Context `{!Tokio Trk Tok Ch (outcome HErr Resp)} `{!TokioLaws Trk Tok Ch (outcome HErr Resp)}.
Context `{!ProxyLib W Comp Proxy Stream Sock Listener Req InReq Resp HErr Ch}.
Context `{!Hyper (W := W) (Comp := Comp) (Proxy := Proxy) (Stream := Stream) (Req := Req)
            (InReq := InReq) (Resp := Resp) (Ch := Ch) (Trk := Trk) (Tok := Tok)} `{!ProxyLaws}.
Abbreviation Srv := (Server W Comp Proxy Stream InReq Ch Trk Tok).
Abbreviation Task := (Task Comp Proxy Stream InReq).
Abbreviation Job := (Job Comp Proxy Stream InReq).
Context (h0 : ProxyHandler Comp).
Implicit Types (s : Srv) (t : Task) (j : Job) (i k : nat).

Definition running t : bool := match result t with None => true | Some _ => false end.

Definition live_tasks (ts : list Task) : nat := length (filter (fun t => running t = true) ts).

(** The store and the channel of a guest *)
Definition guest_of t : option (nat * nat) :=
  match job t with JGuest _ st _ c => Some (st, c) | JConn _ _ => None end.

(** What holds of a task: a connection has the handler of the server, a guest
    has a store and a channel, and one that ended dropped its sender. *)
Definition task_ok s t : Prop :=
  match job t with
  | JConn _ h => h = h0
  | JGuest _ st _ c => is_Some (stores s !! st) /\
      exists ch, channels s !! c = Some ch /\ (running t = false -> is_Some (recv ch))
  end.

(** The variables of the store with number [k] *)
Definition store_vars (k : nat) : list (string * string) :=
  handler_env h0 ++ [("REQUEST_ID"%string, pretty (Z.of_nat k mod 2 ^ 64)%Z)].

Record inv s : Prop := {
  inv_len : tracker_len (tracker s) = live_tasks (tasks s);
  inv_tasks : forall k t, tasks s !! k = Some t -> task_ok s t;
  inv_stores : forall k x, stores s !! k = Some x -> store_env x = store_vars k;
  inv_next : next_id s = (Z.of_nat (length (stores s)) mod 2 ^ 64)%Z;
  inv_guests : forall k k' t t' st c c', tasks s !! k = Some t -> tasks s !! k' = Some t' ->
    guest_of t = Some (st, c) -> guest_of t' = Some (st, c') -> k = k';
}.

Definition all_finished s : Prop := forall k t, tasks s !! k = Some t -> running t = false.

(** How the other threads change a task as thread [i] sees it: nobody else ends
    the task of a thread. *)
Definition task_keeps (i k : nat) t (o : option Task) : Prop :=
  exists t', o = Some t' /\ job t' = job t /\
    (running t = false -> t' = t) /\ (i = k + 2 -> t' = t).

Record rely i s s' : Prop := {
  rely_tasks : forall k t, tasks s !! k = Some t -> task_keeps i k t (tasks s' !! k);
  rely_new : forall k t, tasks s !! k = None -> tasks s' !! k = Some t -> running t = true;
  rely_quiet : i = 0 -> all_finished s -> tasks s' = tasks s /\ stores s' = stores s;
  rely_closed : i = 0 -> tracker_is_closed (tracker s) = true -> tracker_is_closed (tracker s') = true;
  rely_token : is_cancelled (token s) = true -> is_cancelled (token s') = true;
  rely_stores : forall k x, stores s !! k = Some x -> stores s' !! k = Some x;
  rely_channels : forall c ch, channels s !! c = Some ch ->
    exists ch', channels s' !! c = Some ch' /\ (is_Some (recv ch) -> is_Some (recv ch'));
  rely_own : forall k t st c x, tasks s !! k = None -> tasks s' !! k = Some t ->
    guest_of t = Some (st, c) -> stores s' !! st = Some x -> i ≠ store_task x + 2;
}.

(** A step that leaves everything shared as it is *)
Lemma rely_same i s s' :
  tasks s' = tasks s -> stores s' = stores s -> channels s' = channels s ->
  (is_cancelled (token s) = true -> is_cancelled (token s') = true) ->
  (i = 0 -> tracker_is_closed (tracker s) = true -> tracker_is_closed (tracker s') = true) ->
  rely i s s'.
Proof.
  intros Ht Hs Hc Hk Hcl. split; rewrite ?Ht, ?Hs, ?Hc; [|congruence|done..| |congruence].
  - intros k t Hk'. by exists t.
  - intros c ch Hch. by exists ch.
Qed.

#[local] Instance rely_refl i : Reflexive (rely i).
Proof. intros s. by apply rely_same. Qed.

(** *** The steps of the server keep the invariant *)

Lemma os_step_ok i s s' : inv s -> os_step s s' -> inv s' /\ rely i s s'.
Proof. intros Hs [w ->]. split; [by destruct Hs|by apply rely_same]. Qed.

Lemma live_tasks_snoc ts j : live_tasks (ts ++ [MkTask j None]) = S (live_tasks ts).
Proof. unfold live_tasks. rewrite filter_app, length_app. simpl. lia. Qed.

Lemma live_tasks_zero s : live_tasks (tasks s) = 0 <-> all_finished s.
Proof.
  unfold live_tasks, all_finished. rewrite length_zero_iff_nil. split.
  - intros Hn k t Hk. destruct (running t) eqn:Hr; [|done].
    assert (t ∈ filter (fun t => running t = true) (tasks s)) as Hin
      by (apply list_elem_of_filter; split; [done|by eapply list_elem_of_lookup_2]).
    rewrite Hn in Hin. by apply not_elem_of_nil in Hin.
  - intros Hf. apply (Forall_lookup_2 (fun t => running t = false)) in Hf.
    induction Hf as [|t ts Ht _ IH]; [done|]. by rewrite filter_cons_False by congruence.
Qed.

Lemma live_tasks_insert ts k t r :
  ts !! k = Some t -> result t = None ->
  live_tasks (<[k := MkTask (job t) (Some r)]> ts) = pred (live_tasks ts).
Proof.
  unfold live_tasks. intros Hk Hr. pose proof (lookup_lt_Some _ _ _ Hk).
  rewrite insert_take_drop by done. rewrite <- (take_drop_middle ts k t Hk) at 3.
  rewrite !filter_app, !length_app. rewrite (filter_cons_True _ t) by (unfold running; by rewrite Hr).
  rewrite filter_cons_False by done. simpl. lia.
Qed.

(** A new task: nobody else's guest has its store, which thread [me] made, and
    a thread other than the accept loop is itself a task that is running. *)
Lemma spawn_ok me j s :
  inv s -> task_ok s (MkTask j None) ->
  (forall st c, guest_of (MkTask j None) = Some (st, c) ->
     (forall k t c', tasks s !! k = Some t -> guest_of t = Some (st, c') -> False) /\
     exists x, stores s !! st = Some x /\ me = store_task x + 2) ->
  (me = 0 \/ ~ all_finished s) ->
  let s' := MkServer (os s) (token s) (track (tracker s)) (next_id s) (stores s) (channels s)
              (tasks s ++ [MkTask j None]) in
  inv s' /\ forall i, i ≠ me -> rely i s s'.
Proof.
  intros [Hl Ht Hst Hn Hg] Hj Hmine Hme s'. split.
  - split; simpl; [|intros k t [Hk|[_ Hk]]%lookup_app_Some|done|done|].
    + by rewrite tracker_len_track, live_tasks_snoc, Hl.
    + by apply (Ht k).
    + apply list_lookup_singleton_Some in Hk as [_ <-]. exact Hj.
    + intros k k' t t' st c c' [Hk|[Hk1 Hk]]%lookup_app_Some [Hk'|[Hk1' Hk']]%lookup_app_Some Hgt Hgt';
        rewrite ?list_lookup_singleton_Some in *; [by eapply Hg|..].
      * destruct Hk' as [_ <-]. destruct (Hmine _ _ Hgt') as [Hno _]. by destruct (Hno k t c).
      * destruct Hk as [_ <-]. destruct (Hmine _ _ Hgt) as [Hno _]. by destruct (Hno k' t' c').
      * destruct Hk as [Hk _], Hk' as [Hk' _]. lia.
  - intros i Hi. split; simpl; [| | | |done|done| |].
    + intros k t Hk. exists t. by rewrite (lookup_app_l_Some _ _ _ _ Hk).
    + intros k t Hk [Hk'|[_ Hk']]%lookup_app_Some; [congruence|].
      by apply list_lookup_singleton_Some in Hk' as [_ <-].
    + intros -> Hf. by destruct Hme.
    + by rewrite tracker_closed_track.
    + intros c ch Hc. by exists ch.
    + intros k t st c x Hk [Hk'|[_ Hk']]%lookup_app_Some Hgt Hx; [congruence|].
      apply list_lookup_singleton_Some in Hk' as [_ <-].
      destruct (Hmine _ _ Hgt) as [_ (x' & Hx' & ->)]. simplify_eq. done.
Qed.

(** The end of a task *)
Lemma finish_ok k t r s :
  inv s -> tasks s !! k = Some t -> running t = true ->
  (forall st c, guest_of t = Some (st, c) -> exists ch, channels s !! c = Some ch /\ is_Some (recv ch)) ->
  inv (finish k r s) /\ forall i, i ≠ k + 2 -> rely i s (finish k r s).
Proof.
  intros [Hl Ht Hst Hn Hg] Hk Hr Hch. unfold finish. rewrite Hk.
  assert (result t = None) as Hres by (unfold running in Hr; by destruct (result t)).
  assert (forall k' t', <[k := MkTask (job t) (Some r)]> (tasks s) !! k' = Some t' ->
            exists t0, tasks s !! k' = Some t0 /\ job t' = job t0) as Hjob.
  { intros k' t' Hk'. apply list_lookup_insert_Some in Hk' as [(-> & <- & _)|[_ Hk']]; eauto. }
  split.
  - split; simpl; [| |done|done|].
    + by rewrite tracker_len_untrack, live_tasks_insert, Hl.
    + intros k' t' Hk'. apply list_lookup_insert_Some in Hk' as [(-> & <- & _)|[_ Hk']]; [|by apply (Ht k')].
      specialize (Ht _ _ Hk). unfold task_ok, guest_of in *. simpl.
      destruct (job t) as [|p st rq c]; [done|]. destruct Ht as [Hs _]. split; [done|].
      destruct (Hch st c eq_refl) as (ch & Hc & Hrec). eauto.
    + intros k1 k2 t1 t2 st c c' Hk1 Hk2 Hg1 Hg2.
      apply Hjob in Hk1 as (u1 & Hk1 & Hj1), Hk2 as (u2 & Hk2 & Hj2).
      eapply (Hg k1 k2 u1 u2); [done|done|..]; unfold guest_of in *; [by rewrite <- Hj1|by rewrite <- Hj2].
  - intros i Hi. split; simpl; [| | | |done|done| |].
    + intros k' t' Hk'. unfold task_keeps. destruct (decide (k = k')) as [<-|Hne].
      * rewrite list_lookup_insert_eq by (by eapply lookup_lt_Some). simplify_eq. eexists.
        split_and!; [done|done|congruence|done].
      * rewrite list_lookup_insert_ne by done. eauto.
    + intros k' t' Hk' Hk''. apply Hjob in Hk'' as (t0 & Ht0 & _). congruence.
    + intros -> Hf. specialize (Hf _ _ Hk). congruence.
    + by rewrite tracker_closed_untrack.
    + intros c ch Hc. by exists ch.
    + intros k' t' st c x Hk' Hk''. apply Hjob in Hk'' as (t0 & Ht0 & _). congruence.
Qed.

(** A new channel *)
Lemma channel_ok i s ch :
  inv s ->
  let s' := MkServer (os s) (token s) (tracker s) (next_id s) (stores s) (channels s ++ [ch]) (tasks s) in
  inv s' /\ rely i s s'.
Proof.
  intros [Hl Ht Hst Hn Hg] s'. split.
  - split; simpl; try done. intros k t Hk. specialize (Ht k t Hk). unfold task_ok in *. simpl.
    destruct (job t); [done|]. destruct Ht as [Hs (ch' & Hc & Hr)]. split; [done|].
    exists ch'. by rewrite (lookup_app_l_Some _ _ _ _ Hc).
  - split; simpl; try done; [|congruence| |congruence].
    + intros k t Hk. by exists t.
    + intros c ch' Hc. exists ch'. by rewrite (lookup_app_l_Some _ _ _ _ Hc).
Qed.

(** A guest that sends, or drops its sender *)
Lemma with_channel_ok i s c ch ch' :
  inv s -> channels s !! c = Some ch -> (is_Some (recv ch) -> is_Some (recv ch')) ->
  inv (with_channel c ch' s) /\ rely i s (with_channel c ch' s).
Proof.
  intros [Hl Ht Hst Hn Hg] Hc Hr.
  assert (forall c0 ch0, channels s !! c0 = Some ch0 ->
    exists ch1, <[c := ch']> (channels s) !! c0 = Some ch1 /\ (is_Some (recv ch0) -> is_Some (recv ch1))) as Hk.
  { intros c0 ch0 Hc0. destruct (decide (c = c0)) as [<-|Hne].
    - rewrite list_lookup_insert_eq by (by eapply lookup_lt_Some). simplify_eq. eauto.
    - rewrite list_lookup_insert_ne by done. eauto. }
  split.
  - split; simpl; try done. intros k t Hk'. specialize (Ht k t Hk'). unfold task_ok in *. simpl.
    destruct (job t); [done|]. destruct Ht as [Hs (ch0 & Hc0 & Hr0)]. split; [done|].
    destruct (Hk _ _ Hc0) as (ch1 & -> & H1). eauto.
  - split; simpl; try done; [|congruence|congruence]. intros k t Hk'. by exists t.
Qed.

(** A new store, and the number of the request *)
Lemma store_ok i me s :
  inv s ->
  (i = 0 -> ~ all_finished s) ->
  let '(n, s') := (let '(req_id, s) := next_req_id s in wasi_store_for_request me h0 req_id s) in
  inv s' /\ rely i s s' /\
  stores s' !! n = Some (MkGuestStore me (store_vars n)) /\
  forall k t c, tasks s' !! k = Some t -> guest_of t = Some (n, c) -> False.
Proof.
  intros [Hl Ht Hst Hn Hg] Hi. simpl. rewrite Hn. fold (store_vars (length (stores s))).
  assert (forall k x, stores s !! k = Some x ->
    (stores s ++ [MkGuestStore me (store_vars (length (stores s)))]) !! k = Some x) as Hk
    by (intros; by apply lookup_app_l_Some).
  split_and!.
  - split; simpl; [done| | |..|done].
    + intros k t Hk'. specialize (Ht k t Hk'). unfold task_ok in *. simpl.
      destruct (job t); [done|]. destruct Ht as [[x Hs] Hc]. eauto.
    + intros k x [Hx|[Hlen Hx]]%lookup_app_Some; [by apply Hst|].
      apply list_lookup_singleton_Some in Hx as [Hz <-]. simpl. f_equal. lia.
    + rewrite length_app. simpl. rewrite Zplus_mod_idemp_l. f_equal. lia.
  - split; simpl; try done; [|congruence| | |congruence].
    + intros k t Hk'. by exists t.
    + intros -> Hf. by destruct Hi.
    + intros c ch Hc. by exists ch.
  - simpl. by rewrite list_lookup_middle.
  - simpl. intros k t c Hk' Hgt. specialize (Ht k t Hk'). unfold task_ok, guest_of in *.
    destruct (job t); [done|]. simplify_eq. destruct Ht as [[x Hx] _].
    apply lookup_lt_Some in Hx. lia.
Qed.

(** *** Assertions of the threads *)

Definition live (k : nat) j s : Prop :=
  exists t, tasks s !! k = Some t /\ job t = j /\ running t = true.

(** Thread [k + 2] made the store with number [n], and it is still its own. *)
Definition own_store (k n : nat) s : Prop :=
  stores s !! n = Some (MkGuestStore k (store_vars n)) /\
  forall k' t c, tasks s !! k' = Some t -> guest_of t = Some (n, c) -> False.

Definition has_channel (c : nat) s : Prop := is_Some (channels s !! c).

Definition ready (c : nat) s : Prop := exists ch, channels s !! c = Some ch /\ is_Some (recv ch).

Lemma live_stable k j : stable inv rely (k + 2) (live k j).
Proof.
  intros s s' _ _ (t & Hk & Hj & Hr) HR.
  destruct (rely_tasks _ _ _ HR k t Hk) as (t' & Hk' & _ & _ & He). rewrite (He eq_refl) in Hk'. by exists t.
Qed.

Lemma own_store_stable k n : stable inv rely (k + 2) (own_store k n).
Proof.
  intros s s' HI _ [Hn Hno] HR. split; [by apply (rely_stores _ _ _ HR)|]. intros k' t c Hk Hg.
  destruct (tasks s !! k') as [t0|] eqn:Hk0.
  - destruct (rely_tasks _ _ _ HR k' t0 Hk0) as (t' & Hk' & Hj & _). simplify_eq.
    unfold guest_of in Hg. rewrite Hj in Hg. by apply (Hno k' t0 c).
  - eapply (rely_own _ _ _ HR); [done..|by apply (rely_stores _ _ _ HR)|done].
Qed.

Lemma has_channel_stable i c : stable inv rely i (has_channel c).
Proof.
  intros s s' _ _ [ch Hc] HR. destruct (rely_channels _ _ _ HR c ch Hc) as (ch' & Hc' & _). by exists ch'.
Qed.

Lemma ready_stable i c : stable inv rely i (ready c).
Proof.
  intros s s' _ _ (ch & Hc & Hr) HR. destruct (rely_channels _ _ _ HR c ch Hc) as (ch' & Hc' & H').
  exists ch'. auto.
Qed.

Lemma true_stable i : stable inv rely i (fun _ => True).
Proof. done. Qed.

Lemma token_stable i : stable inv rely i (fun s => is_cancelled (token s) = true).
Proof. intros s s' _ _ Ht HR. by apply (rely_token _ _ _ HR). Qed.

#[local] Hint Resolve live_stable own_store_stable has_channel_stable ready_stable stable_and
  true_stable token_stable : core.

(** Stability of a conjunction of the assertions above *)
Ltac solve_stable := first [solve [auto] | apply stable_and; solve_stable].

(** *** The steps that only change the world, or nothing *)

Lemma steps_on_os {E A} (p : async W E A) : steps_in os_step (on_os (Comp := Comp) (Proxy := Proxy)
  (Stream := Stream) (InReq := InReq) (Ch := Ch) (Trk := Trk) (Tok := Tok) p).
Proof.
  eapply steps_in_mono; [|apply steps_in_zoom, (steps_in_any p)].
  intros s s' (w & w' & _ & _ & ->). by exists w'.
Qed.

Lemma os_step_eq s : os_step s s.
Proof. exists (os s). by destruct s. Qed.

Lemma safe_os_steps {E A} i (p : async Srv E A) P :
  steps_in os_step p -> stable inv rely i P -> safe inv rely i p P (fun _ => P).
Proof.
  intros Hp Hst. eapply safe_steps; [done..|]. intros s s' HI HP Ho.
  destruct (os_step_ok i s s' HI Ho) as [HI' HR]. split_and!; [done| |by apply (Hst s)].
  intros j _. by apply os_step_ok.
Qed.

Lemma safe_os {E A} i (p : async W E A) P :
  stable inv rely i P -> safe inv rely i (on_os p) P (fun _ => P).
Proof. apply safe_os_steps, steps_on_os. Qed.

Lemma steps_await_response (c n : nat) : steps_in os_step (await_response (Comp := Comp) (Proxy := Proxy)
  (Stream := Stream) (InReq := InReq) (Ch := Ch) (Trk := Trk) (Tok := Tok) c n).
Proof.
  unfold await_response, await_receiver, await_task. apply steps_in_bind.
  - intros s x s' Hs. destruct (channels s !! c) as [ch|]; [|done]. simpl in Hs.
    destruct (recv ch); simplify_eq/=. split; [apply os_step_eq|done].
  - intros [[| |]|]; try done. apply steps_in_bind; [|by intros []].
    intros s x s' Hs. destruct (tasks s !! n) as [tk|]; [|done]. simpl in Hs.
    destruct (result tk); simplify_eq/=. split; [apply os_step_eq|done].
Qed.

(** *** The tasks *)

Lemma safe_handle_request k j req :
  safe inv rely (k + 2) (handle_request k h0 req) (live k j) (fun _ => live k j).
Proof.
  unfold handle_request.
  eapply safe_bind with (Qp := fun r s => live k j s /\ match r with Ok c => has_channel c s | _ => True end);
    [|intros c|tauto..].
  { intros s x s' HI HL [= <- <-]. destruct (channel_ok (k + 2) s channel HI) as [HI' HR].
    split_and!; [done|intros i _; by apply (channel_ok i s channel)|].
    exists (fun s' => live k j s' /\ has_channel (length (channels s)) s').
    split; [|split; [by solve_stable|by intros s2]].
    split; [by eapply (live_stable k j s _ HI HI')|]. exists channel. by apply list_lookup_middle. }
  eapply safe_bind with (Qp := fun r s => (live k j s /\ has_channel c s) /\
      match r with Ok n => own_store k n s | _ => True end); [|intros n|tauto..].
  { intros s0 x s' HI HL [= <- <-].
    destruct (store_ok (k + 2) k s0 HI ltac:(lia)) as (HI' & HR & Hn & Hno). split_and!; [done| |].
    - intros i _. refine (proj1 (proj2 (store_ok i k s0 HI _))).
      intros _ Hf. destruct HL as [(t & Hk & _ & Hr) _]. specialize (Hf _ _ Hk). congruence.
    - exists (fun s => (live k j s /\ has_channel c s) /\ own_store k (length (stores s0)) s).
      split; [|split; [by solve_stable|by intros s2]]. split; [|by split].
      split; [eapply live_stable; [exact HI| |apply HL|]; done|].
      eapply has_channel_stable; [exact HI| |apply HL|]; done. }
  do 3 (eapply safe_bind; [by apply safe_os; solve_stable|intros ?|by intros e s _ [[? _] _]|by intros s _ [[? _] _]]).
  eapply safe_bind with (Qp := fun _ => live k j); [|intros t; apply safe_os_steps|tauto..].
  - intros s x s' HI [[HL [ch Hc]] [Hn Hno]] [= <- <-].
    destruct (spawn_ok (k + 2) (JGuest a1 n a c) s HI) as [HI' HR].
    + split; [by eexists|]. exists ch. by split.
    + intros st c' [= <- <-]. split; [exact Hno|]. by eexists.
    + right. intros Hf. destruct HL as (t & Hk & _ & Hr). specialize (Hf _ _ Hk). congruence.
    + split_and!; [done..|]. exists (live k j). split; [|split; [by solve_stable|by intros s2]].
      destruct HL as (t & Hk & Hj). exists t. split; [by apply lookup_app_l_Some|done].
  - apply steps_await_response.
  - auto.
Qed.

(** A future that does nothing but steps of its own and calls of a service *)
Lemma safe_drives i (svc : Req -> async Srv WtError Resp) p (P : Srv -> Prop) :
  drives svc p -> stable inv rely i P -> (forall req, safe inv rely i (svc req) P (fun _ => P)) ->
  safe inv rely i p P (fun _ => P).
Proof.
  intros Hd HP Hsvc. induction Hd as [r|X f k Hf _ IH|req k _ IH].
  - by intros s.
  - intros s x s' HI HPs Hs. destruct (os_step_ok i s s' HI (Hf _ _ _ Hs)) as [HI' HR].
    split_and!; [done| |].
    + intros j _. apply os_step_ok; [done|by eapply Hf].
    + exists P. split_and!; [by apply (HP s)|done|apply IH].
  - eapply safe_bind with (Qp := fun _ => P); [|exact IH|done..].
    apply safe_try. eapply safe_weaken; [| |apply Hsvc]; [done|by intros []].
Qed.

Lemma safe_conn k stream :
  safe inv rely (k + 2) (run_conn k stream h0) (live k (JConn stream h0))
    (fun _ => live k (JConn stream h0)).
Proof.
  unfold run_conn. eapply safe_bind with (Qp := fun _ => live k (JConn stream h0)); [|by intros o s|done..].
  apply safe_try. eapply safe_weaken with (Q' := fun _ => live k (JConn stream h0));
    [done|by intros []|].
  eapply safe_drives; [apply serve_drives|auto|intros req; apply safe_handle_request].
Qed.

Lemma safe_guest k proxy st req c :
  safe inv rely (k + 2) (run_guest proxy st req c) (live k (JGuest proxy st req c))
    (fun _ s => live k (JGuest proxy st req c) s /\ ready c s).
Proof.
  unfold run_guest. set (j := JGuest proxy st req c).
  eapply safe_bind with (Qp := fun r s => live k j s /\ forall e, r ≠ Err e /\ r ≠ Panic);
    [|intros env|by intros e s _ [_ Hr]; destruct (Hr e) as [[] _]|by intros s _ [_ Hr]; destruct (Hr (I32Exit 0)) as [_ []]].
  { intros s x s' HI HL Hs. destruct (stores s !! st); simplify_eq/=. split_and!; [done|done|].
    exists (live k j). split; [done|split; [auto|by intros s2]]. }
  assert (forall s, inv s -> live k j s -> exists ch, channels s !! c = Some ch) as Hch.
  { intros s HI (t & Hk & Hj & _). pose proof (inv_tasks _ HI k t Hk) as Ht. unfold task_ok in Ht.
    rewrite Hj in Ht. destruct Ht as (_ & ch & Hc & _). eauto. }
  eapply safe_finally with (Qp := fun _ => live k j).
  - eapply safe_weaken with (P' := live k j) (Q' := fun _ => live k j); [by intros s _ [? _]|done|].
    eapply safe_steps; [apply steps_in_zoom, guest_sends|auto|].
    intros s s' HI HL ([ch w] & [ch' w'] & Hg & Hr & ->). simpl in *.
    destruct (channels s !! c) as [ch0|] eqn:Hc; simplify_eq/=.
    assert (forall i, inv (with_channel c ch' (with_os w' s)) /\ rely i s (with_channel c ch' (with_os w' s)))
      as Hok.
    { intros i. destruct (with_channel_ok i s c ch ch' HI Hc Hr) as [HI' HR].
      split; [|by destruct HR]. exact (proj1 (os_step_ok i _ (with_os w' (with_channel c ch' s)) HI'
        (ex_intro _ w' eq_refl))). }
    split; [apply (Hok 0)|]. split; [intros i _; apply Hok|].
    eapply (live_stable k j s _ HI); [apply (Hok 0)|done|apply Hok].
  - intros r s HI HL. destruct (Hch s HI HL) as [ch Hc]. rewrite Hc.
    assert (forall i, inv (with_channel c (drop_sender ch) s) /\ rely i s (with_channel c (drop_sender ch) s))
      as Hok by (intros i; apply (with_channel_ok i s c ch); [done..|intros _; apply sender_dropped]).
    split; [apply (Hok 0)|]. split; [intros i _; apply Hok|].
    split; [eapply (live_stable k j s _ HI); [apply (Hok 0)|done|apply Hok]|].
    exists (drop_sender ch). split; [|apply sender_dropped]. simpl.
    apply list_lookup_insert_eq. by eapply lookup_lt_Some.
  - intros _. solve_stable.
Qed.

Lemma safe_task_thread k :
  safe inv rely (k + 2) (task_thread k) (fun s => forall t, tasks s !! k = Some t -> running t = true)
    (fun _ _ => True).
Proof.
  intros s j s' HI Hrun Hs. destruct (tasks s !! k) as [t|] eqn:Hk; simplify_eq/=.
  split_and!; [done|done|]. exists (live k (job t)). split; [by exists t; auto|]. split; [auto|].
  assert (forall j : Job, match j with JConn _ h => h = h0 | JGuest _ _ _ _ => True end ->
    safe inv rely (k + 2) (run_job k j) (live k j)
    (fun _ s => live k j s /\ match j with JGuest _ _ _ c => ready c s | _ => True end)) as Hjob.
  { intros [stream h|p st rq c] Hh; [subst h|apply safe_guest].
    eapply safe_weaken; [| |apply safe_conn]; [done|by intros r s2]. }
  eapply safe_end; [apply Hjob| |done].
  - pose proof (inv_tasks _ HI k t Hk) as Ht. unfold task_ok in Ht. by destruct (job t).
  - intros r s HI' [(t' & Hk' & Hj & Hr') Hready].
    destruct (finish_ok k t' r s HI' Hk' Hr') as [HI2 HR].
    + intros st c Hg. unfold guest_of in Hg. rewrite Hj in Hg.
      by destruct (job t); simplify_eq/=.
    + by split_and!.
Qed.

(** *** The server *)

Lemma steps_accepted l : steps_in os_step (accepted (E := WtError) (Comp := Comp) (Proxy := Proxy)
  (Stream := Stream) (InReq := InReq) (Ch := Ch) (Trk := Trk) (Tok := Tok) l).
Proof. apply steps_in_bind; [apply steps_on_os|done]. Qed.

Lemma steps_cancelled : steps_in os_step (cancelled (E := WtError) (A := option Stream) (W := W)
  (Comp := Comp) (Proxy := Proxy) (Stream := Stream) (InReq := InReq) (Ch := Ch) (Trk := Trk) (Tok := Tok)).
Proof. intros s x s' Hs. destruct (is_cancelled _); simplify_eq/=. split; [apply os_step_eq|done]. Qed.

(** The loop ends only because the token was cancelled. *)
Definition loop_ended {A} (r : outcome WtError A) s : Prop :=
  match r with Ok _ => is_cancelled (token s) = true | _ => True end.

Lemma safe_accept_loop orders l :
  safe inv rely 0 (accept_loop orders l h0) (fun _ => True) loop_ended.
Proof.
  induction orders as [|order orders IH]; [by intros ???|].
  cbn [accept_loop].
  set (Qs := fun (r : outcome WtError (option (option Stream))) s =>
               match r with Ok None => is_cancelled (token s) = true | _ => True end).
  eapply safe_bind with (Qp := Qs).
  - eapply safe_weaken with (P' := fun _ => True /\ True) (Q' := Qs); [done|done|].
    eapply safe_select with (T := os_step); [intros; reflexivity| |apply steps_accepted|apply steps_cancelled
      |done|done| |].
    + intros s s' HI _ Ho. by apply os_step_ok.
    + eapply safe_bind with (Qp := fun _ _ => True); [by apply safe_os|by intros conn s|done..].
    + intros s x s' HI _ Hs. destruct (is_cancelled (token s)) eqn:Hc; simplify_eq/=.
      split_and!; [done|done|]. exists (fun s => is_cancelled (token s) = true).
      split; [done|]. split; [auto|by intros s2].
  - intros [[stream|]|].
    + eapply safe_bind with (Qp := fun _ _ => True); [|intros _|done..].
      * intros s x s' HI _ [= <- <-].
        destruct (spawn_ok 0 (JConn stream h0) s HI eq_refl) as [HI' HR]; [done|by left|].
        split_and!; [done|done|]. by exists (fun _ => True).
      * eapply safe_weaken; [| |exact IH]; done.
    + eapply safe_weaken; [| |exact IH]; done.
    + by intros s.
  - done.
  - done.
Qed.

(** What holds when [serve_conn] has returned *)
Definition stopped s : Prop :=
  (is_cancelled (token s) = true /\ tracker_is_closed (tracker s) = true) /\ all_finished s.

Lemma closed_stable : stable inv rely 0 (fun s => tracker_is_closed (tracker s) = true).
Proof. intros s s' _ _ Ht HR. by apply (rely_closed _ _ _ HR). Qed.

Lemma finished_stable T : stable inv rely 0 (fun s => all_finished s /\ tasks s = T).
Proof.
  intros s s' _ _ [Hf HT] HR. destruct (rely_quiet _ _ _ HR eq_refl Hf) as [He _].
  unfold all_finished. by rewrite He.
Qed.

Lemma stopped_stable : stable inv rely 0 stopped.
Proof.
  intros s s' HI HI' [Hct Hf] HR. split.
  - eapply (stable_and inv rely 0 _ _ (token_stable 0) closed_stable s); done.
  - by destruct (finished_stable (tasks s) s s' HI HI' (conj Hf eq_refl) HR).
Qed.

(** Nothing has been served yet. *)
Definition idle s : Prop := tasks s = [] /\ stores s = [].

Lemma idle_stable : stable inv rely 0 idle.
Proof.
  intros s s' _ _ [Ht Hs] HR. destruct (rely_quiet _ _ _ HR eq_refl) as [Ht' Hs'].
  - unfold all_finished. by rewrite Ht.
  - split; congruence.
Qed.

Definition served (r : outcome WtError unit) s : Prop :=
  match r with Ok _ => stopped s | _ => True end.

Lemma safe_serve orders l :
  safe inv rely 0 (serve orders l (handler_env h0) (instance_pre h0)) idle served.
Proof.
  pose proof idle_stable. unfold serve.
  eapply safe_bind with (Qp := fun _ => idle); [|intros ?|done..].
  { intros s x s' [Hl Ht Hst Hn Hg] [HT HS] [= <- <-]. split; [|split].
    - split; try done. simpl. by rewrite tracker_len_new, HT.
    - intros i Hi. by apply rely_same.
    - exists idle. split; [done|]. split; [done|by intros s2]. }
  eapply safe_bind with (Qp := fun _ => idle); [by apply safe_os|intros ?|done..].
  eapply safe_bind with (Qp := fun _ _ => True); [|intros ?|done..].
  { intros s x s' [Hl Ht Hst Hn Hg] [HT HS] [= <- <-]. split; [|split].
    - split; try done. simpl. by rewrite HS.
    - intros i Hi. by apply rely_same.
    - by exists (fun _ => True). }
  eapply safe_bind with (Qp := loop_ended); [|intros ?|done..].
  { rewrite handler_eta. apply safe_accept_loop. }
  eapply safe_bind with (Qp := fun r s => match r with
      Ok _ => is_cancelled (token s) = true /\ tracker_is_closed (tracker s) = true | _ => True end);
    [|intros ?|done..].
  { intros s x s' [Hl Ht Hst Hn Hg] Hc [= <- <-]. split; [|split].
    - split; try done. simpl. by rewrite tracker_len_close.
    - intros i Hi. by apply rely_same.
    - exists (fun s => is_cancelled (token s) = true /\ tracker_is_closed (tracker s) = true).
      split; [split; [exact Hc|apply tracker_closed_close]|].
      split; [apply (stable_and inv rely 0 _ _ (token_stable 0) closed_stable)|by intros s2]. }
  intros s x s' HI [Hc Hcl] Hw. destruct (tracker_wait (tracker s)) eqn:Hwt; simplify_eq/=.
  apply tracker_wait_iff in Hwt as [_ Hlen]. rewrite (inv_len _ HI) in Hlen.
  split_and!; [done|done|]. exists stopped. split; [|split; [apply stopped_stable|by intros s2]].
  split; [done|by apply live_tasks_zero].
Qed.

(** *** The pool *)

(** A step of the handler of the signals *)
Definition sig_step s s' : Prop := os_step s s' \/ s' = with_token (token_cancel (token s)) s.

Lemma safe_signals {E A} i (p : async Srv E A) :
  steps_in sig_step p -> safe inv rely i p (fun _ => True) (fun _ _ => True).
Proof.
  intros Hp. eapply safe_steps; [exact Hp|done|]. intros s s' HI _ [Ho| ->].
  - destruct (os_step_ok i s s' HI Ho) as [HI' _]. split_and!; [done| |done].
    intros j _. by apply os_step_ok.
  - split_and!; [by destruct HI| |done]. intros j _. apply rely_same; try done.
    intros _. apply token_cancelled.
Qed.
End runs.

(** The engine of [Wasmtime.v] next to a server *)
Section wasmtime.
Context {W Mod Comp Inst CInst : Type} `{!WasmtimeLib W Mod Comp Inst CInst}.
Context {Proxy Stream InReq Ch Trk Tok : Type}.
Abbreviation Srv := (Server W Comp Proxy Stream InReq Ch Trk Tok).

Definition world_m {E A} (m : M W E A) : M Srv E A := fun s =>
  let '(r, w) := m (os s) in (r, with_os w s).

Definition server_lib : WasmtimeLib Srv Mod Comp Inst CInst := {|
  is_component := is_component;
  is_core_wasm := is_core_wasm;
  detect_precompiled := detect_precompiled;
  precompile_module := precompile_module;
  precompile_component := precompile_component;
  compatibility_hash := compatibility_hash;
  module_from_binary := module_from_binary;
  module_deserialize := module_deserialize;
  component_from_binary := component_from_binary;
  component_deserialize := component_deserialize;
  component_exports := component_exports;
  preopened_dir a b := world_m (preopened_dir a b);
  linker_p1 := world_m linker_p1;
  linker_p2 := world_m linker_p2;
  linker_http := world_m linker_http;
  instantiate_p1 b m := on_os (instantiate_p1 b m);
  module_func i f := (fun p => on_os p) <$> module_func i f;
  instantiate_pre c := world_m (instantiate_pre c);
  proxy_pre c := world_m (proxy_pre c);
  instantiate_p2 b c := on_os (instantiate_p2 b c);
  command_instantiate b c := on_os (command_instantiate b c);
  wasi_cli_run i := on_os (wasi_cli_run i);
  component_func i f := (fun p => on_os p) <$> component_func i f;
  recv_signal s := '(r, w) ← recv_signal (os s); Some (r, with_os w s);
  engine_reserves := engine_reserves;
  memory_new64 := memory_new64;
|}.
End wasmtime.

Section server.
Context {W Mod Comp Inst CInst : Type} `{!WasmtimeLib W Mod Comp Inst CInst}.
Context {Proxy Stream Sock Listener Req InReq Resp HErr Ch Trk Tok : Type}.
Context `{!Tokio Trk Tok Ch (outcome HErr Resp)}.
Context `{!ProxyLib W Comp Proxy Stream Sock Listener Req InReq Resp HErr Ch}.
Context `{!Hyper (W := W) (Comp := Comp) (Proxy := Proxy) (Stream := Stream) (Req := Req)
            (InReq := InReq) (Resp := Resp) (Ch := Ch) (Trk := Trk) (Tok := Tok)}.
Abbreviation Srv := (Server W Comp Proxy Stream InReq Ch Trk Tok).

(** The handler of the signals of the sandbox, whose token is the server's *)
Definition signal_thread (orders : list (list bool)) : async Srv WtError unit :=
  let* _ := handle_signals (WasmtimeLib0 := server_lib) (HttpServer0 := proxy_server orders) in
  aret tt.

(** The server, the handler of the signals and the threads of [n] tasks *)
Definition server_pool (orders : list (list bool)) {C} `{!RuntimeContext C} (ctx : C) (component : Comp)
    (n : nat) : list (async Srv WtError unit) :=
  http_serve_conn orders ctx component :: signal_thread orders :: (task_thread <$> seq 0 n).

(** The state of a sandbox before it serves *)
Definition fresh (w : W) (tok : Tok) : Srv := MkServer w tok tracker_new 0 [] [] [].

(** The handler of [serve_conn] *)
Definition handler_of {C} `{!RuntimeContext C} (ctx : C) (component : Comp) : ProxyHandler Comp :=
  MkHandler component (map_to_list (proxy_settings (envs_from_ctx ctx)).2).

Context `{!TokioLaws Trk Tok Ch (outcome HErr Resp)} `{!ProxyLaws}.

Lemma steps_signals orders : steps_in sig_step (signal_thread orders).
Proof.
  unfold signal_thread, handle_signals, wait_for_signal.
  assert (steps_in sig_step (let* r := await (recv_signal (WasmtimeLib := server_lib)) in
      Done (omap_ok signal_number r) : async Srv WtError Z)) as Hsig.
  { apply steps_in_bind; [|by intros []]. intros s x s' Hs. simpl in Hs.
    destruct (recv_signal (os s)) as [[r w]|]; simplify_eq/=. split; [|done]. left. by exists w. }
  apply steps_in_bind; [|done]. apply steps_in_bind; [exact Hsig|]. intros sig.
  case_decide; [|done]. apply steps_in_bind; [|intros _; exact Hsig].
  apply steps_in_atomic. intros s. by right.
Qed.

Lemma server_pool_safe orders {C} `{!RuntimeContext C} (ctx : C) component n w tok :
  safe_pool (inv (handler_of ctx component)) rely (fun i r => match i with 0 => served r | _ => fun _ => True end)
    (server_pool orders ctx component n, fresh w tok).
Proof.
  split; simpl.
  { split; simpl; try done. by rewrite tracker_len_new. }
  intros [|[|k]] p Hp; simpl in Hp.
  - simplify_eq. exists idle. split; [done|]. split; [apply idle_stable|].
    unfold http_serve_conn, handler_of.
    destruct (proxy_settings (envs_from_ctx ctx)) as [[addr backlog] env].
    eapply safe_bind with (Qp := fun _ => idle);
      [apply safe_os, idle_stable|intros l|by intros e s _ _|by intros s _ _].
    exact (safe_serve (MkHandler component (map_to_list env)) orders l).
  - simplify_eq. exists (fun _ => True). split; [done|]. split; [done|].
    apply safe_signals, steps_signals.
  - apply list_lookup_fmap_Some in Hp as (k' & -> & Hk). apply lookup_seq in Hk as [-> Hk]. simpl.
    replace (S (S k)) with (k + 2) by lia.
    eexists. split; [|split; [|apply safe_task_thread]]; simpl.
    + intros t Ht. by rewrite lookup_nil in Ht.
    + intros s s' _ _ Hr HR t Ht. destruct (tasks s !! k) as [t0|] eqn:Hk0.
      * destruct (rely_tasks _ _ _ HR k t0 Hk0) as (t' & Hk' & _ & _ & He).
        rewrite He in Hk' by lia. simplify_eq. by apply Hr.
      * by eapply (rely_new _ _ _ HR).
Qed.
End server.

(** ** A server for the examples

    The world has the connections that arrive, each with a number of requests,
    and the signals.  A guest that is given an even request answers it, one
    that is given an odd request ends without an answer. *)

Record DemoNet := MkDemoNet { arrivals : list nat; signals : list Signal }.

#[export] Instance demo_tokio : Tokio (nat * bool) bool (option (outcome unit nat) * bool) (outcome unit nat) := {
  tracker_new := (0, false);
  track t := (S t.1, t.2);
  untrack t := (pred t.1, t.2);
  tracker_close t := (t.1, true);
  tracker_len := fst;
  tracker_is_closed := snd;
  tracker_wait t := t.2 && Nat.eqb t.1 0;
  is_cancelled t := t;
  token_cancel _ := true;
  channel := (None, false);
  drop_sender c := (c.1, true);
  recv c := match c with (Some m, _) => Some (Some m) | (None, true) => Some None | _ => None end;
}.

#[export] Instance demo_tokio_laws : TokioLaws (nat * bool) bool (option (outcome unit nat) * bool) (outcome unit nat).
Proof.
  split; try done; simpl.
  - intros [k b]. simpl. rewrite andb_true_iff, Nat.eqb_eq. done.
  - intros [[m|] b]; simpl; eauto.
Qed.

#[export] Instance demo_proxy : ProxyLib DemoNet bytes unit nat unit unit nat nat nat unit
    (option (outcome unit nat) * bool) := {
  parse_addr a := if decide (a = "127.0.0.1:80"%string) then Some a else None;
  is_ipv4 _ := true;
  tcp_socket _ := mret tt;
  set_reuseaddr _ _ := mret tt;
  bind _ _ := mret tt;
  listen _ _ := mret tt;
  local_addr _ := mret DEFAULT_ADDR;
  accept _ w :=
    match arrivals w with
    | c :: cs => Some (Ok c, MkDemoNet cs (signals w))
    | [] => None
    end;
  sleep_1s w := Some (tt, w);
  new_incoming_request r := mret r;
  new_response_outparam := mret tt;
  instantiate_async _ := aret tt;
  call_handle _ _ r :=
    if Nat.even r then atomic (fun cw => (tt, ((Some (Ok r), cw.1.2), cw.2))) else aret tt;
  http_error _ := WtText "http";
  join_error := "panicked";
  wt_debug := wt_display;
}.

Abbreviation DemoServer :=
  (Server DemoNet bytes unit nat nat (option (outcome unit nat) * bool) (nat * bool) bool).

Fixpoint demo_serve (n : nat) (svc : nat -> async DemoServer WtError nat) : async DemoServer string unit :=
  match n with
  | 0 => aret tt
  | S n' => abind (atry (svc n')) (fun _ => demo_serve n' svc)
  end.

#[export] Instance demo_hyper : Hyper (W := DemoNet) (Comp := bytes) (Proxy := unit) (Stream := nat)
    (Req := nat) (InReq := nat) (Resp := nat) (Ch := option (outcome unit nat) * bool)
    (Trk := nat * bool) (Tok := bool) := { serve_connection := demo_serve }.

#[export] Instance demo_proxy_laws : ProxyLaws (Sock := unit) (Listener := unit) (HErr := unit)
  (Hyper0 := demo_hyper).
Proof.
  split.
  - intros stream svc. induction stream as [|n IH]; [constructor|]. simpl. by apply drives_call.
  - intros [] env r. simpl. destruct (Nat.even r); [|done].
    intros [c w] x [c' w'] [= <- <- <-]. split; [|done]. simpl. eauto.
Qed.

#[export] Instance demo_net_wasmtime : WasmtimeLib DemoNet bytes bytes bytes bytes := {
  is_component b := bool_decide (head b = Some Byte.x63);
  is_core_wasm b := bool_decide (head b = Some Byte.x6d);
  detect_precompiled _ := None;
  precompile_module := Ok;
  precompile_component := Ok;
  compatibility_hash := 7;
  module_from_binary := Ok;
  module_deserialize := Ok;
  component_from_binary := Ok;
  component_deserialize := Ok;
  component_exports _ := ["wasi:http/incoming-handler@0.2.0"]%string;
  preopened_dir _ _ := mret tt;
  linker_p1 := mret tt;
  linker_p2 := mret tt;
  linker_http := mret tt;
  instantiate_p1 _ m := aret m;
  module_func _ _ := None;
  instantiate_pre _ := mret tt;
  proxy_pre _ := mret tt;
  instantiate_p2 _ c := aret c;
  command_instantiate _ c := aret c;
  wasi_cli_run _ := aret (Ok tt);
  component_func _ _ := None;
  recv_signal w :=
    match signals w with
    | sig :: sigs => Some (Ok sig, MkDemoNet (arrivals w) sigs)
    | [] => None
    end;
  engine_reserves _ _ := true;
  memory_new64 _ _ := false;
}.

Definition demo_http_ctx : WasiContext :=
  MkWasiContext (MkSpec (Some (MkProcess None (Some ["WASMTIME_HTTP_BACKLOG=7"; "A=b=c"; "X"]%string))) None) [].

Example demo_settings :
  proxy_settings (Stream := nat) (envs_from_ctx demo_http_ctx)
  = (DEFAULT_ADDR, 7%N, <["A"%string := "b=c"%string]> {["X"%string := EmptyString]}).
Proof. by vm_compute. Qed.

(** One connection with one request (number 0), and then [SIGINT]. *)
Definition demo_start (requests : nat) : DemoServer := fresh (MkDemoNet [requests] [SIGINT]) false.

Definition demo_run (requests : nat) (schedule : list nat) :=
  run_schedule schedule (server_pool [[true; true; true]; [false; true]] demo_http_ctx [Byte.x63] 2)
    (demo_start requests).

(** The server, the connection, the guest, the connection again, the signal and
    the rest of the server. *)
Definition demo_schedule : list nat :=
  concat [replicate 6 0; replicate 12 2; replicate 6 3; replicate 6 2; replicate 3 1; replicate 6 0].

Example demo_graceful :
  (demo_run 1 demo_schedule).1 !! 0 = Some (Done (Ok tt)) /\
  (result <$> tasks (demo_run 1 demo_schedule).2) = [Some (Ok tt); Some (Ok tt)].
Proof. by vm_compute. Qed.

(** The guest of request 1 does not answer: its connection panics. *)
Example demo_no_answer :
  (result <$> tasks (demo_run 2 demo_schedule).2) = [Some Panic; Some (Ok tt)].
Proof. by vm_compute. Qed.

(** The sandbox of [Wasmtime.v] over this server: the component ends with 0
    after [SIGINT], and with 143 at once after [SIGTERM]. *)
Definition demo_execute (sig : Signal) : option (outcome WtError Z) * DemoServer :=
  exec (execute_component (WasmtimeLib0 := server_lib) (HttpServer0 := proxy_server [[true; false]])
          (replicate 8 true ++ replicate 3 false ++ replicate 9 true) demo_http_ctx [Byte.x63] "_start")
    (fresh (MkDemoNet [] [sig]) false).

Example demo_signals : (demo_execute SIGINT).1 = Some (Ok 0%Z) /\ (demo_execute SIGTERM).1 = Some (Ok 143%Z).
Proof. by vm_compute. Qed.

(** ** Properties *)

Section properties.
Context {W Mod Comp Inst CInst : Type} `{!WasmtimeLib W Mod Comp Inst CInst}.
Context {Proxy Stream Sock Listener Req InReq Resp HErr Ch Trk Tok : Type}.
Context `{!Tokio Trk Tok Ch (outcome HErr Resp)}.
Context `{!ProxyLib W Comp Proxy Stream Sock Listener Req InReq Resp HErr Ch}.
Context `{!Hyper (W := W) (Comp := Comp) (Proxy := Proxy) (Stream := Stream) (Req := Req)
            (InReq := InReq) (Resp := Resp) (Ch := Ch) (Trk := Trk) (Tok := Tok)}.
Context `{!TokioLaws Trk Tok Ch (outcome HErr Resp)} `{!ProxyLaws}.
Abbreviation Srv := (Server W Comp Proxy Stream InReq Ch Trk Tok).

(** C10: the HTTP server stops gracefully.  In every interleaving of the accept
    loop, the signals, the connections and the guests, [serve_conn] returns
    only after it was cancelled and when every connection and every guest has
    ended, and no task is added or changed afterwards. *)
Theorem server_stops_gracefully (orders : list (list bool)) {C} `{!RuntimeContext C} (ctx : C)
    (component : Comp) (n : nat) (w : W) (tok : Tok) (ts : list (async Srv WtError unit)) (s : Srv) :
  rtc pool_step (server_pool orders ctx component n, fresh w tok) (ts, s) ->
  ts !! 0 = Some (Done (Ok tt)) ->
  is_cancelled (token s) = true /\
  (forall k t, tasks s !! k = Some t -> is_Some (result t)) /\
  forall ts' s', rtc pool_step (ts, s) (ts', s') -> tasks s' = tasks s.
Proof.
  intros Hrun H0. pose proof (safe_pool_steps _ _ _ _ _
    (server_pool_safe orders ctx component n w tok) Hrun) as Hs.
  destruct (safe_pool_done _ _ _ _ _ 0 _ Hs (rtc_refl _ _) H0) as [[Hc _] Hf].
  split; [done|]. split.
  { intros k t Hk. specialize (Hf k t Hk). unfold running in Hf. destruct (result t); [by eexists|done]. }
  intros ts' s' Hrun'.
  refine (proj2 (safe_pool_keeps _ _ _ (ts, s) 0 (Ok tt) (fun s' => all_finished s' /\ tasks s' = tasks s)
    Hs H0 (conj Hf eq_refl) (finished_stable _ _) (ts', s') Hrun' _)).
  by eapply done_stays.
Qed.

(** C20: every request has a guest, a store and a number of its own: the guest
    runs with the variables of the container and the number of its store as
    [REQUEST_ID], which wraps around at 2^64, and no two guests have the same
    store, nor the same [REQUEST_ID] among 2^64 requests. *)
Theorem requests_are_numbered (orders : list (list bool)) {C} `{!RuntimeContext C} (ctx : C)
    (component : Comp) (n : nat) (w : W) (tok : Tok) (ts : list (async Srv WtError unit)) (s : Srv) :
  rtc pool_step (server_pool orders ctx component n, fresh w tok) (ts, s) ->
  (forall k t st c, tasks s !! k = Some t -> guest_of t = Some (st, c) ->
     exists x, stores s !! st = Some x /\
       store_env x = map_to_list (proxy_settings (envs_from_ctx ctx)).2 ++
         [("REQUEST_ID"%string, pretty (Z.of_nat st mod 2 ^ 64)%Z)]) /\
  (forall k k' t t' st st' c c', tasks s !! k = Some t -> tasks s !! k' = Some t' -> k ≠ k' ->
     guest_of t = Some (st, c) -> guest_of t' = Some (st', c') ->
     st ≠ st' /\
     ((Z.of_nat (length (stores s)) <= 2 ^ 64)%Z ->
      pretty (Z.of_nat st mod 2 ^ 64)%Z ≠ pretty (Z.of_nat st' mod 2 ^ 64)%Z)).
Proof.
  intros Hrun. pose proof (safe_pool_inv _ _ _ _ _
    (server_pool_safe orders ctx component n w tok) Hrun) as [_ Ht Hst _ Hg].
  assert (forall k t st c, tasks s !! k = Some t -> guest_of t = Some (st, c) -> is_Some (stores s !! st)) as Hs.
  { intros k t st c Hk Hgt. specialize (Ht k t Hk). unfold task_ok, guest_of in *.
    destruct (job t); simplify_eq. tauto. }
  split.
  - intros k t st c Hk Hgt. destruct (Hs _ _ _ _ Hk Hgt) as [x Hx]. exists x. split; [done|].
    by rewrite (Hst _ _ Hx).
  - intros k k' t t' st st' c c' Hk Hk' Hne Hgt Hgt'.
    assert (st ≠ st') as Hst' by (intros <-; by destruct Hne; apply (Hg k k' t t' st c c')).
    split; [done|]. intros Hlen Heq%(inj pretty).
    destruct (Hs _ _ _ _ Hk Hgt) as [x Hx%lookup_lt_Some], (Hs _ _ _ _ Hk' Hgt') as [x' Hx'%lookup_lt_Some].
    rewrite !Z.mod_small in Heq by lia. lia.
Qed.

(** C22: a request whose guest has ended is answered without waiting any more:
    with what the guest sent, or else with the error of the guest.  When a
    guest ended without an error and never answered, the handler panics. *)
Theorem ended_guest_is_noticed (orders : list (list bool)) {C} `{!RuntimeContext C} (ctx : C)
    (component : Comp) (n : nat) (w : W) (tok : Tok) (ts : list (async Srv WtError unit)) (s : Srv)
    (k : nat) (t : Task Comp Proxy Stream InReq) (st c : nat) (r : outcome WtError unit) :
  rtc pool_step (server_pool orders ctx component n, fresh w tok) (ts, s) ->
  tasks s !! k = Some t -> guest_of t = Some (st, c) -> result t = Some r ->
  exists ch m, channels s !! c = Some ch /\ recv ch = Some m /\
    exec (await_response c k) s =
    (Some match m, r with
          | Some (Ok resp), _ => Ok resp
          | Some (Err e), _ => Err (http_error e)
          | Some Panic, _ | None, Ok _ => Panic
          | None, Err e => Err (never_set (wt_debug e))
          | None, Panic => Err (never_set join_error)
          end, s).
Proof.
  intros Hrun Hk Hgt Hr. pose proof (safe_pool_inv _ _ _ _ _
    (server_pool_safe orders ctx component n w tok) Hrun) as [_ Ht _ _ _].
  specialize (Ht k t Hk). unfold task_ok, guest_of in *. destruct (job t); simplify_eq.
  destruct Ht as [_ (ch & Hc & Hrecv)]. simpl in Hc. destruct Hrecv as [m Hm]; [unfold running; by rewrite Hr|].
  exists ch, m. split_and!; [done..|]. unfold await_response, await_receiver, await_task.
  cbn. rewrite Hc. cbn. rewrite Hm. destruct m as [[| |]|]; [done..|].
  cbn. rewrite Hk. cbn. rewrite Hr. by destruct r as [[]| |].
Qed.
End properties.

Lemma server_stops_gracefully_witness :
  is_cancelled (token (demo_run 1 demo_schedule).2) = true /\
  (forall k t, tasks (demo_run 1 demo_schedule).2 !! k = Some t -> is_Some (result t)) /\
  forall ts' s', rtc pool_step ((demo_run 1 demo_schedule).1, (demo_run 1 demo_schedule).2) (ts', s') ->
    tasks s' = tasks (demo_run 1 demo_schedule).2.
Proof.
  apply (server_stops_gracefully [[true; true; true]; [false; true]] demo_http_ctx [Byte.x63] 2
           (MkDemoNet [1] [SIGINT]) false (demo_run 1 demo_schedule).1 (demo_run 1 demo_schedule).2).
  - rewrite <- surjective_pairing. apply run_schedule_steps.
  - by vm_compute.
Defined.

Lemma requests_are_numbered_witness :
  exists x, stores (demo_run 1 demo_schedule).2 !! 0 = Some x /\
    store_env x = [("A", "b=c"); ("X", ""); ("REQUEST_ID", "0")]%string.
Proof.
  apply (proj1 (requests_are_numbered [[true; true; true]; [false; true]] demo_http_ctx [Byte.x63] 2
           (MkDemoNet [1] [SIGINT]) false (demo_run 1 demo_schedule).1 (demo_run 1 demo_schedule).2
           (eq_rect _ (rtc pool_step _) (run_schedule_steps _ _ _) _ (surjective_pairing _)))
           1 (MkTask (JGuest tt 0 0 0) (Some (Ok tt))) 0 0); by vm_compute.
Defined.

Lemma ended_guest_is_noticed_witness :
  exists ch m, channels (demo_run 2 demo_schedule).2 !! 0 = Some ch /\ recv ch = Some m /\ m = None /\
    exec (await_response 0 1) (demo_run 2 demo_schedule).2 = (Some Panic, (demo_run 2 demo_schedule).2).
Proof.
  destruct (ended_guest_is_noticed [[true; true; true]; [false; true]] demo_http_ctx [Byte.x63] 2
           (MkDemoNet [2] [SIGINT]) false (demo_run 2 demo_schedule).1 (demo_run 2 demo_schedule).2
           1 (MkTask (JGuest tt 0 1 0) (Some (Ok tt))) 0 0 (Ok tt)) as (ch & m & Hc & Hm & He).
  - rewrite <- surjective_pairing. apply run_schedule_steps.
  - by vm_compute.
  - reflexivity.
  - reflexivity.
  - exists ch, m. split; [exact Hc|]. split; [exact Hm|].
    assert (m = None) as -> by (vm_compute in Hc; injection Hc as <-; by injection Hm as <-).
    split; [reflexivity|exact He].
Defined.
