(* ===== verification/Otel.v ===== *)
(** * Otel: [crates/containerd-shimkit/src/sandbox/shim/otel.rs]

    The configuration of OpenTelemetry from the environment, the context of a
    trace across processes and requests, and the name of a span.  The
    environment is a map; the JSON of [serde_json], the propagator and the
    pipeline of the [opentelemetry] crates are parameters. *)

From S2P Require Import Prelude RustStr.

(** The names of the variables, and the default protocol of [opentelemetry_otlp] *)
Definition OTEL_EXPORTER_OTLP_TRACES_ENDPOINT : string := "OTEL_EXPORTER_OTLP_TRACES_ENDPOINT".
Definition OTEL_EXPORTER_OTLP_ENDPOINT : string := "OTEL_EXPORTER_OTLP_ENDPOINT".
Definition OTEL_EXPORTER_OTLP_PROTOCOL : string := "OTEL_EXPORTER_OTLP_PROTOCOL".
Definition OTEL_EXPORTER_OTLP_TRACES_PROTOCOL : string := "OTEL_EXPORTER_OTLP_TRACES_PROTOCOL".
Definition OTEL_SDK_DISABLED : string := "OTEL_SDK_DISABLED".

Definition OTEL_EXPORTER_OTLP_PROTOCOL_HTTP_JSON : string := "http/json".
Definition OTEL_EXPORTER_OTLP_PROTOCOL_HTTP_PROTOBUF : string := "http/protobuf".
Definition OTEL_EXPORTER_OTLP_PROTOCOL_GRPC : string := "grpc".

Inductive Protocol := HttpBinary | HttpJson | Grpc.

(** [struct Config] *)
Record OtlpConfig := MkOtlpConfig { traces_endpoint : string; traces_protocol : Protocol }.

(** The environment of the process *)
Abbreviation Env := (gmap string string).

(** [is_some_and(|val| !val.is_empty())] *)
Definition check_env_var (env : Env) (var : string) : bool :=
  match env !! var with Some v => negb (is_empty v) | None => false end.

(** [traces_enabled] *)
Definition traces_enabled (env : Env) : bool :=
  let traces := check_env_var env OTEL_EXPORTER_OTLP_TRACES_ENDPOINT in
  let otlp := check_env_var env OTEL_EXPORTER_OTLP_ENDPOINT in
  let sdk_disabled := match env !! OTEL_SDK_DISABLED with
                      | Some v => bool_decide (v = "true"%string)
                      | None => false
                      end in
  (traces || otlp) && negb sdk_disabled.

Definition VAR_NOT_PRESENT : string := "environment variable not found".

(** [std::env::var] *)
Definition env_var (env : Env) (var : string) : outcome string string := ok_or (env !! var) VAR_NOT_PRESENT.

(** [traces_endpoint_from_env] *)
Definition traces_endpoint_from_env (env : Env) : outcome string string :=
  match env_var env OTEL_EXPORTER_OTLP_TRACES_ENDPOINT with
  | Ok v => Ok v
  | _ => env_var env OTEL_EXPORTER_OTLP_ENDPOINT
  end.

(** [traces_protocol_from_env]; [fallback] is [OTEL_EXPORTER_OTLP_PROTOCOL_DEFAULT]. *)
Definition traces_protocol_from_env (fallback : string) (env : Env) : outcome string Protocol :=
  let p := default (default fallback (env !! OTEL_EXPORTER_OTLP_PROTOCOL))
             (env !! OTEL_EXPORTER_OTLP_TRACES_PROTOCOL) in
  if decide (p = OTEL_EXPORTER_OTLP_PROTOCOL_HTTP_PROTOBUF) then Ok HttpBinary
  else if decide (p = OTEL_EXPORTER_OTLP_PROTOCOL_GRPC) then Ok Grpc
  else if decide (p = OTEL_EXPORTER_OTLP_PROTOCOL_HTTP_JSON) then Ok HttpJson
  else Err "Invalid OTEL_EXPORTER_OTLP_PROTOCOL value".

(** [Config::build_from_env] *)
Definition build_from_env (fallback : string) (env : Env) : outcome string OtlpConfig :=
  let? endpoint := traces_endpoint_from_env env in
  let? protocol := traces_protocol_from_env fallback env in
  Ok (MkOtlpConfig endpoint protocol).

(** [SpanExporterBuilder]: the transport and the endpoint *)
Inductive SpanExporter := HttpExporter (endpoint : string) | TonicExporter (endpoint : string).

(** [init_tracer_http] and [init_tracer_grpc] *)
Definition init_tracer_http (self : OtlpConfig) : SpanExporter := HttpExporter (traces_endpoint self).
Definition init_tracer_grpc (self : OtlpConfig) : SpanExporter := TonicExporter (traces_endpoint self).

Definition exporter_of (self : OtlpConfig) : SpanExporter :=
  match traces_protocol self with
  | HttpBinary => init_tracer_http self
  | HttpJson => init_tracer_http self
  | Grpc => init_tracer_grpc self
  end.

(** [EnvFilter] and the layers of the subscriber *)
Inductive SubscriberLayer := Telemetry | Filter (directives : string) | SpanNaming.

Section tracing.
Context {W Ctx Tracer : Type}.
(** The pipeline, [set_text_map_propagator], [EnvFilter::try_new],
    [set_global_default] and [shutdown_tracer_provider]. *)
Context (install_batch : SpanExporter -> M W string Tracer).
Context (set_propagator : W -> W).
Context (filter_try_new : string -> outcome string unit).
Context (set_global_default : Tracer -> list SubscriberLayer -> M W string unit).
Context (shutdown_tracer_provider : W -> W).
(** The propagator, the current span, and the JSON of a map. *)
Context (inject : W -> gmap string string) (extract : (string -> option string) -> list string -> Ctx).
Context (set_parent : Ctx -> W -> W).
Context (to_json : gmap string string -> outcome string string).
Context (from_json : string -> outcome string (gmap string string)).

(** [Config::init_tracer] *)
Definition init_tracer (self : OtlpConfig) : M W string Tracer := install_batch (exporter_of self).

(** [Config::init]; the [Drop] of the guard it returns. *)
Definition otel_init (self : OtlpConfig) : M W string unit :=
  let! tracer := init_tracer self in
  let! _ := mput set_propagator in
  let! _ := mlift (filter_try_new "info,h2=off") in
  set_global_default tracer (Telemetry :: Filter "info,h2=off" :: [SpanNaming]).

Definition shutdown_guard : W -> W := shutdown_tracer_provider.

(** [Config::get_trace_context] and [set_trace_context] *)
Definition get_trace_context : M W string string := fun w => (to_json (inject w), w).

Definition set_trace_context (trace_context : string) : M W string unit :=
  let! extractor := mlift (from_json trace_context) in
  mput (set_parent (extract (fun k => extractor !! k) (elements (dom extractor)))).

(** [MetadataExtractor]: [get] and [keys]; and [extract_context]. *)
Definition metadata_get (md : gmap string (list string)) (key : string) : option string :=
  md !! key ≫= head.

Definition metadata_keys (md : gmap string (list string)) : list string := elements (dom md).

Definition extract_context (md : gmap string (list string)) : Ctx :=
  extract (metadata_get md) (metadata_keys md).
End tracing.

(** [SpanNamingLayer::on_new_span]: the new name of a span with telemetry data. *)
Definition on_new_span (target original_name : string) (otel_name : option string) : option string :=
  (fun _ => target +:+ "::" +:+ original_name) <$> otel_name.

(** ** Properties *)

(** When traces are enabled, the endpoint is always found, so building the
    configuration fails only because of the protocol; the endpoint is the
    traces one if it is set, and is empty exactly when that one is set to the
    empty string while only the general one enabled the traces. *)
Theorem enabled_traces_have_endpoint (fallback : string) (env : gmap string string) :
  traces_enabled env = true ->
  exists endpoint, traces_endpoint_from_env env = Ok endpoint /\
    build_from_env fallback env =
      omap_ok (MkOtlpConfig endpoint) (traces_protocol_from_env fallback env) /\
    (forall e, env !! OTEL_EXPORTER_OTLP_TRACES_ENDPOINT = Some e -> endpoint = e) /\
    (endpoint = EmptyString <-> env !! OTEL_EXPORTER_OTLP_TRACES_ENDPOINT = Some EmptyString).
Proof.
  unfold traces_enabled. intros [Hen _]%andb_prop.
  assert (exists endpoint, traces_endpoint_from_env env = Ok endpoint /\
    (forall e, env !! OTEL_EXPORTER_OTLP_TRACES_ENDPOINT = Some e -> endpoint = e) /\
    (endpoint = EmptyString <-> env !! OTEL_EXPORTER_OTLP_TRACES_ENDPOINT = Some EmptyString))
    as (endpoint & He & H1 & H2).
  { unfold traces_endpoint_from_env, env_var, check_env_var in *.
    destruct (env !! OTEL_EXPORTER_OTLP_TRACES_ENDPOINT) as [e|]; simpl in *.
    - exists e. naive_solver.
    - destruct (env !! OTEL_EXPORTER_OTLP_ENDPOINT) as [g|]; simpl in *; [|done].
      exists g. split_and!; [done|done|]. split; [by intros ->|done]. }
  exists endpoint. split_and!; [done| |done|exact H2].
  unfold build_from_env. rewrite He. simpl. by destruct (traces_protocol_from_env fallback env).
Qed.

Definition demo_env : gmap string string :=
  <[OTEL_EXPORTER_OTLP_ENDPOINT := "http://collector"%string]>
    {[ OTEL_EXPORTER_OTLP_TRACES_ENDPOINT := EmptyString ]}.

Lemma enabled_traces_have_endpoint_witness :
  build_from_env "http/protobuf" demo_env = Ok (MkOtlpConfig EmptyString HttpBinary).
Proof.
  destruct (enabled_traces_have_endpoint "http/protobuf" demo_env) as (e & _ & Hb & He & _); [reflexivity|].
  rewrite Hb, (He EmptyString) by reflexivity. reflexivity.
Defined.
