(* ===== verification/Logger.v ===== *)
(** * Logger: [crates/containerd-shimkit/src/vendor/containerd_shim/logger.rs]

    The logger of the shim: a line of [key=value] pairs per record, written to
    the FIFO containerd reads, with the pairs that identify the instance.  The
    file, the clock and the environment are parameters. *)

From S2P Require Import Prelude RustStr.
From Stdlib Require Import Ascii.

(** [log::LevelFilter]; a record has every level but [Off]. *)
Inductive Level := Off | Error_ | Warn | Info | Debug | Trace.

Definition level_num (l : Level) : nat :=
  match l with Off => 0 | Error_ => 1 | Warn => 2 | Info => 3 | Debug => 4 | Trace => 5 end.

(** [Level::as_str().to_lowercase()] *)
Definition level_name (l : Level) : string :=
  match l with
  | Off => "off" | Error_ => "error" | Warn => "warn" | Info => "info" | Debug => "debug" | Trace => "trace"
  end.

(** [u8::to_ascii_lowercase] *)
Definition ascii_lower (c : ascii) : ascii :=
  let n := N_of_ascii c in
  if ((65 <=? n) && (n <=? 90))%N then ascii_of_N (n + 32) else c.

Fixpoint lower (s : string) : string :=
  match s with EmptyString => EmptyString | String c s' => String (ascii_lower c) (lower s') end.

Definition all_levels : list Level := [Off; Error_; Warn; Info; Debug; Trace].

(** [LevelFilter::from_str]: the names, in any case. *)
Definition level_from_str (s : string) : option Level :=
  snd <$> list_find (fun l => level_name l = lower s) all_levels.

(** The state of the logger: the level, [KEY_VALUES] and what was written. *)
Record LogState := MkLogState { max_level : Level; KEY_VALUES : string; fifo : list string }.

Record LogRecord := MkLogRecord {
  record_level : Level;
  record_args : string;
  record_kv : list (string * string);
}.

(** [SimpleWriteVisitor]: what [visit_pair] writes for each pair *)
Definition visit_pair (acc : string) (kv : string * string) : string :=
  acc +:+ " " +:+ kv.1 +:+ "=" +:+ debug_str kv.2.

Definition visit (kvs : list (string * string)) : string := foldl visit_pair EmptyString kvs.

(** [set_logger_kv] *)
Definition set_logger_kv (kv : list (string * string)) (s : LogState) : LogState :=
  MkLogState (max_level s) (visit kv) (fifo s).

(** [Log::enabled] *)
Definition enabled (s : LogState) (l : Level) : bool := level_num l <=? level_num (max_level s).

Definition newline_str : string := str_of_char newline.

(** [Log::log]: [writeln!] after a line that already ends in a newline; [ok] is
    whether the write succeeds, and its error is ignored. *)
Definition log (time : string) (ok : bool) (r : LogRecord) (s : LogState) : LogState :=
  if enabled s (record_level r) then
    let line := "time=" +:+ debug_str time +:+ " level=" +:+ level_name (record_level r) +:+
                KEY_VALUES s +:+ visit (record_kv r) +:+
                " msg=" +:+ debug_str (record_args r) +:+ newline_str +:+ newline_str in
    MkLogState (max_level s) (KEY_VALUES s) (if ok then fifo s ++ [line] else fifo s)
  else s.

(** [FifoLogger::with_path] and [new]: the FIFO is opened for writing and never
    created. *)
Record FifoOptions := MkFifoOptions { fifo_write : bool; fifo_read : bool; fifo_create : bool }.

Definition with_path {F} (open : FifoOptions -> string -> outcome string F) (path : string) : outcome string F :=
  open (MkFifoOptions true false false) path.

Definition fifo_logger_new {F} (open : FifoOptions -> string -> outcome string F) : outcome string F := with_path open "log".

(** [rfc3339_formatted]: [format] is that of [time] for RFC 3339, which may
    fail, and [to_string] the text without a format. *)
Definition rfc3339_formatted {T} (format : T -> option string) (to_string : T -> string) (now : T) : string :=
  default (to_string now) (format now).

(** [Log::flush]: the error of [sync_all] is ignored. *)
Definition flush (sync_all : LogState -> outcome string unit) (s : LogState) : LogState := s.

(** The level of [configure_logging_level]; [rust_log] is the variable
    [RUST_LOG]. *)
Definition debug_level (rust_log : option string) (default_log_level : string) : Level :=
  default Info (level_from_str (default default_log_level rust_log)).

(** [configure_logging_level] *)
Definition configure_logging_level (rust_log : option string) (debug : bool)
    (default_log_level : string) (s : LogState) : LogState :=
  let l := debug_level rust_log default_log_level in
  let level := if debug && (level_num l <? level_num Debug) then Debug else l in
  MkLogState level (KEY_VALUES s) (fifo s).

(** [init], on Unix: [fifo_open] is [FifoLogger::new] *)
Definition init (fifo_open : outcome string unit) (rust_log : option string) (debug : bool)
    (default_log_level : string) (s : LogState) : outcome string LogState :=
  let? _ := map_err (fun e => "failed to init logger: " +:+ e) fifo_open in
  Ok (configure_logging_level rust_log debug default_log_level s).

(** ** Lemmas *)

Lemma foldl_visit acc l : foldl visit_pair acc l = acc +:+ visit l.
Proof.
  unfold visit. revert acc. induction l as [|x l IH]; intros acc; simpl; [by rewrite str_app_nil_r|].
  rewrite (IH (visit_pair acc x)), (IH (visit_pair _ x)), str_app_assoc. f_equal.
Qed.

Lemma visit_app l1 l2 : visit (l1 ++ l2) = visit l1 +:+ visit l2.
Proof. unfold visit at 1. by rewrite foldl_app, foldl_visit. Qed.

(** ** Properties *)

(** After [init], a record is written exactly when its level is within the
    level of [RUST_LOG], or of the configuration if the variable is not set, or
    [info] if that is no level; the debug flag raises the level to [debug] and
    never lowers it.  The line has the pairs of [set_logger_kv] in front of the
    record's. *)
Theorem logger_writes_within_level (rust_log : option string) (debug : bool) (dl time : string)
    (kv : list (string * string)) (r : LogRecord) (s s' : LogState) :
  init (Ok tt) rust_log debug dl s = Ok s' ->
  let configured := level_num (debug_level rust_log dl) in
  let shown := if debug then Nat.max configured (level_num Debug) else configured in
  fifo (log time true r (set_logger_kv kv s')) =
    fifo s ++
    (if level_num (record_level r) <=? shown
     then ["time=" +:+ debug_str time +:+ " level=" +:+ level_name (record_level r) +:+
           visit (kv ++ record_kv r) +:+ " msg=" +:+ debug_str (record_args r) +:+
           newline_str +:+ newline_str]
     else []).
Proof.
  intros [= <-]. simpl. unfold log, enabled, set_logger_kv, configure_logging_level.
  cbn [max_level KEY_VALUES fifo].
  assert (level_num (if debug && (level_num (debug_level rust_log dl) <? level_num Debug)
                     then Debug else debug_level rust_log dl) =
          if debug then Nat.max (level_num (debug_level rust_log dl)) (level_num Debug)
          else level_num (debug_level rust_log dl)) as ->.
  { destruct debug; [|done]. cbn [andb].
    destruct (Nat.ltb_spec (level_num (debug_level rust_log dl)) (level_num Debug)); lia. }
  change (level_num Debug) with 4.
  destruct (level_num (record_level r) <=? _); cbn [fifo]; [|by rewrite app_nil_r].
  by rewrite visit_app, !str_app_assoc.
Qed.

Lemma logger_writes_within_level_witness :
  fifo (log "now" true (MkLogRecord Info "hello" []) (set_logger_kv [("instance", "c1")]
    (MkLogState Debug EmptyString []))) =
  ["time=" +:+ debug_str "now" +:+ " level=info instance=" +:+ debug_str "c1" +:+ " msg=" +:+
   debug_str "hello" +:+ newline_str +:+ newline_str].
Proof.
  rewrite (logger_writes_within_level (Some "DEBUG"%string) false "info" "now" [("instance", "c1")]%string
             (MkLogRecord Info "hello" []) (MkLogState Off EmptyString []) (MkLogState Debug EmptyString []));
    [reflexivity|reflexivity].
Defined.
