(* ===== verification/Windows.v ===== *)
(** * Windows: the parts of the shims for Windows

    [crates/containerd-shimkit/src/vendor/containerd_shim/sys/windows/named_pipe_logger.rs],
    [crates/containerd-shimkit/src/sys/windows] and
    [crates/containerd-shim-wasm/src/sys/windows/container/instance.rs].  The
    logger writes the lines of [Logger.v] to a named pipe; the instance is a
    stub.  The pipe of [mio] is the class [Pipe]; a path is a string with the
    separators of Windows. *)

From S2P Require Import Prelude Async RustStr Errors Waitable Hooks Logger InstanceData Events Local.
From Stdlib Require Import Ascii.

(** ** The named pipe *)

(** The errors of a pipe, as the code tells them apart *)
Inductive PipeErrorKind := Interrupted | WouldBlock | OtherPipeError.

Record PipeError := MkPipeError { pipe_kind : PipeErrorKind; raw_os_error : option Z; pipe_text : string }.

(** [mio::event::Event] *)
Record PipeEvent := MkPipeEvent { is_readable : bool; is_writable : bool }.

(** [NamedPipe]: [connect], [disconnect], [write_all] and [flush]; [NamedPipe::new]
    and the registration of the poll; one [Poll::poll]. *)
Class Pipe (W : Type) := {
  pipe_new : string -> M W PipeError unit;
  poll_register : M W PipeError unit;
  poll_events : W -> option (outcome PipeError (list PipeEvent) * W);
  pipe_connect : M W PipeError unit;
  pipe_disconnect : M W PipeError unit;
  pipe_write_all : string -> M W PipeError unit;
  pipe_flush : M W PipeError unit;
}.

(** The logger over the pipe: the [Mutex] of the connection is poisoned by a
    panic of the thread that holds it. *)
Record PipeState (W : Type) := MkPipeState { pipe_log_state : LogState; poisoned : bool; pipe_world : W }.
Arguments MkPipeState {W}.
Arguments pipe_log_state {W}.
Arguments poisoned {W}.
Arguments pipe_world {W}.

Section named_pipe.
Context {W : Type} `{!Pipe W}.
Abbreviation St := (PipeState W).

(** [Result::unwrap] *)
Definition punwrap {A} (m : M W PipeError A) : M W Empty_set A := fun w =>
  match m w with (Ok a, w') => (Ok a, w') | (_, w') => (Panic, w') end.

(** A stretch of code that holds the lock *)
Definition locked (m : M W Empty_set unit) : M St Empty_set unit := fun s =>
  if poisoned s then (Panic, s)
  else let '(r, w) := m (pipe_world s) in
       (r, MkPipeState (pipe_log_state s) (match r with Panic => true | _ => false end) w).

(** [pipe_name] of [NamedPipeLogger::new] *)
Definition pipe_name (namespace id : string) : string :=
  "\\.\pipe\containerd-shim-" +:+ namespace +:+ "-" +:+ id +:+ "-log".

(** [NamedPipeLogger::new], without the thread it spawns *)
Definition pipe_logger_new (namespace id : string) : M W Empty_set unit :=
  let! _ := punwrap (pipe_new (pipe_name namespace id)) in
  punwrap poll_register.

(** An event, in the thread that [new] spawns *)
Definition serve_writable : M W Empty_set unit :=
  let! r := mtry pipe_connect in
  match r with
  | Ok _ => mret tt
  | Err e => match pipe_kind e with Interrupted | WouldBlock => mret tt | OtherPipeError => mpanic end
  | Panic => mpanic
  end.

Definition serve_event (ev : PipeEvent) : M St Empty_set unit :=
  let! _ := (if is_writable ev then locked serve_writable else mret tt) in
  if is_readable ev then locked (punwrap pipe_disconnect) else mret tt.

Definition serve_events (evs : list PipeEvent) : M St Empty_set unit :=
  foldM_M (fun _ ev => serve_event ev) tt evs.

(** The loop of the thread, for a number of polls *)
Fixpoint pipe_server (polls : nat) : async St Empty_set unit :=
  match polls with
  | O => await (fun _ => None)
  | S polls' =>
      let* evs := await (fun s => '(r, w) ← poll_events (pipe_world s);
                          Some (r, MkPipeState (pipe_log_state s) (poisoned s) w)) in
      match evs with
      | Ok evs => let* _ := alift (serve_events evs) in pipe_server polls'
      | _ => apanic
      end
  end.

(** The message of [Log::log] *)
Definition pipe_message (time : string) (r : LogRecord) (s : LogState) : string :=
  "time=" +:+ debug_str time +:+ " level=" +:+ level_name (record_level r) +:+
  KEY_VALUES s +:+ visit (record_kv r) +:+ " msg=" +:+ debug_str (record_args r) +:+ newline_str.

(** The errors of the write that are ignored: 536 is that no client is
    connected, 232 that the client is shutting down. *)
Definition write_ignored (e : PipeError) : bool :=
  match pipe_kind e with
  | Interrupted | WouldBlock => true
  | OtherPipeError => bool_decide (raw_os_error e = Some 536%Z) || bool_decide (raw_os_error e = Some 232%Z)
  end.

Definition write_message (message : string) : M W Empty_set unit :=
  let! r := mtry (pipe_write_all message) in
  match r with
  | Ok _ => mret tt
  | Err e => if write_ignored e then mret tt else mpanic
  | Panic => mpanic
  end.

(** [Log::log] and [Log::flush] *)
Definition pipe_log (time : string) (r : LogRecord) : M St Empty_set unit := fun s =>
  if enabled (pipe_log_state s) (record_level r)
  then locked (write_message (pipe_message time r (pipe_log_state s))) s
  else (Ok tt, s).

Definition pipe_flush_log : M St Empty_set unit :=
  locked (let! _ := mtry pipe_flush in mret tt).

(** A sequence of records *)
Definition pipe_log_all (rs : list (string * LogRecord)) : M St Empty_set unit :=
  foldM_M (fun _ r => pipe_log r.1 r.2) tt rs.
End named_pipe.

(** ** [sys/windows] *)

Definition backslash : ascii := "\"%char.

Fixpoint to_backslash (s : string) : string :=
  match s with
  | EmptyString => EmptyString
  | String c s' => String (if decide (c = slash) then backslash else c) (to_backslash s')
  end.

(** A path that is only a drive, such as [C:] *)
Definition is_drive (p : string) : bool :=
  match p with String c (String c' EmptyString) => is_alpha_ascii c && bool_decide (c' = ":"%char) | _ => false end.

(** [Path::join] of a plain name *)
Definition windows_join (base name : string) : string :=
  if RustStr.is_empty base || ends_with_char slash base || ends_with_char backslash base || is_drive base
  then base +:+ name else base +:+ str_of_char backslash +:+ name.

(** [DEFAULT_CONTAINER_ROOT_DIR], from the variable [ProgramData] *)
Definition windows_root_dir (program_data : option string) : string :=
  windows_join (windows_join (default "C:\ProgramData" program_data) "containerd") "state".

(** [path.starts_with(r"\\.\pipe\")]: the prefix of the path is the device
    [pipe]; a prefix may be written with either separator. *)
Definition is_pipe_path (path : string) : bool :=
  let p := to_backslash path in starts_with "\\.\pipe\" p || bool_decide (p = "\\.\pipe"%string).

Definition FILE_FLAG_OVERLAPPED : Z := 1073741824.

(** What [stdio::open] asks for *)
Record OpenOptions := MkOpenOptions { opt_read : bool; opt_write : bool; custom_flags : Z }.

Definition open_options (path : string) : OpenOptions :=
  MkOpenOptions true true (if is_pipe_path path then FILE_FLAG_OVERLAPPED else 0).

(** [get_metrics]; [convert_to_any] is of [containerd_shim]. *)
Definition windows_metrics (convert_to_any : Any -> outcome string Any) (pid : Z) : outcome string Any :=
  convert_to_any (MkAny EmptyString []).

(** ** The instance: every method is [todo!()]. *)

Record WindowsInst := MkWindowsInst { phantom : unit }.

Section instance.
Context {W : Type}.

Definition windows_new (id : string) (cfg : InstanceConfig) : async W Error WindowsInst := apanic.
Definition windows_start (self : WindowsInst) : async W Error Z := apanic.
Definition windows_kill (self : WindowsInst) (signal : Z) : async W Error unit := apanic.
Definition windows_delete (self : WindowsInst) : async W Error unit := apanic.
Definition windows_wait (self : WindowsInst) : async W Empty_set (Z * DateTime) := apanic.

Definition windows_instance : Instance W WindowsInst := {|
  inst_new := windows_new;
  inst_start := windows_start;
  inst_kill := windows_kill;
  inst_delete := windows_delete;
  inst_wait := windows_wait;
|}.
End instance.

(** ** Lemmas *)

Section runs.
Context {W : Type} `{!Pipe W}.
Abbreviation St := (PipeState W).

(** What [write_all] promises of the messages the client of the pipe gets *)
Class PipeLaws (received : W -> list string) : Prop := {
  write_received m (w w' : W) : pipe_write_all m w = (Ok tt, w') -> received w' = received w ++ [m];
  failed_received m (w w' : W) e : pipe_write_all m w = (Err e, w') -> received w' = received w;
}.

Context (received : W -> list string) `{!PipeLaws received}.

(** The state of a FIFO logger whose reader got the same messages *)
Definition as_fifo (s : St) : LogState :=
  MkLogState (max_level (pipe_log_state s)) (KEY_VALUES (pipe_log_state s))
    ((fun m => m +:+ newline_str) <$> received (pipe_world s)).

Lemma locked_ok m (s s' : St) :
  locked m s = (Ok tt, s') ->
  poisoned s = false /\ exists w', m (pipe_world s) = (Ok tt, w') /\ s' = MkPipeState (pipe_log_state s) false w'.
Proof.
  unfold locked. destruct (poisoned s); [done|]. destruct (m _) as [[[]|e|] w'] eqn:Hm; [|done..].
  intros [= <-]. split; [done|]. by exists w'.
Qed.

Lemma write_message_ok m (w w' : W) :
  write_message m w = (Ok tt, w') -> received w' = received w ++ [m] \/ received w' = received w.
Proof.
  unfold write_message. intros (r & w1 & Hr & Hk)%mbind_ok. unfold mtry in Hr.
  destruct (pipe_write_all m w) as [[[]|e|] w2] eqn:Hw; simplify_eq.
  - injection Hk as <-. left. by eapply write_received.
  - destruct (write_ignored e); [|done]. injection Hk as <-. right. by eapply failed_received.
Qed.

Lemma pipe_log_fifo time r (s s' : St) :
  pipe_log time r s = (Ok tt, s') ->
  exists ok, as_fifo s' = log time ok r (as_fifo s) /\ pipe_log_state s' = pipe_log_state s.
Proof.
  unfold pipe_log, log, enabled. cbn [max_level as_fifo]. destruct (_ <=? _).
  - intros (_ & w' & Hw & ->)%locked_ok. unfold as_fifo. simpl.
    apply write_message_ok in Hw as [->| ->]; [exists true|exists false]; (split; [|done]); simpl; [|done].
    rewrite fmap_app. simpl. unfold pipe_message. by rewrite !str_app_assoc.
  - intros [= <-]. by exists true.
Qed.

(** A panic while the lock is held stays with the logger. *)
Lemma locked_poisons m (s s' : St) : locked m s = (Panic, s') -> poisoned s' = true.
Proof.
  unfold locked. destruct (poisoned s) eqn:Hp; [by intros [= <-]|].
  destruct (m _) as [[[]|e|] w']; intros; by simplify_eq.
Qed.

Lemma pipe_log_poisoned time r (s s' : St) : pipe_log time r s = (Panic, s') -> poisoned s' = true.
Proof. unfold pipe_log. destruct (enabled _ _); [apply locked_poisons|done]. Qed.
End runs.

(** ** Properties *)

(** The lines of a FIFO logger, with the successes of its writes *)
Definition fifo_logs (rs : list (string * LogRecord)) (oks : list bool) (s : LogState) : LogState :=
  foldl (fun s r => log r.1.1 r.2 r.1.2 s) s (zip rs oks).

Section properties.
Context {W : Type} `{!Pipe W} (received : W -> list string) `{!PipeLaws received}.

Lemma pipe_log_all_fifo rs (s s' : PipeState W) :
  pipe_log_all rs s = (Ok tt, s') ->
  exists oks, length oks = length rs /\ as_fifo received s' = fifo_logs rs oks (as_fifo received s).
Proof.
  unfold pipe_log_all. revert s. induction rs as [|[t r] rs IH]; intros s; simpl.
  - intros [= <-]. by exists [].
  - intros ([] & s1 & H1 & H2)%mbind_ok. apply (pipe_log_fifo received) in H1 as (ok & H1 & _).
    apply IH in H2 as (oks & Hl & H2). exists (ok :: oks). split; [by f_equal/=|]. by rewrite H2, H1.
Qed.

Lemma pipe_log_all_poisoned rs (s s' : PipeState W) : pipe_log_all rs s = (Panic, s') -> poisoned s' = true.
Proof.
  unfold pipe_log_all. revert s. induction rs as [|r rs IH]; intros s; simpl; [done|]. unfold mbind at 1.
  destruct (pipe_log r.1 r.2 s) as [[[]|e|] s1] eqn:Hr; [apply IH|done|].
  intros [= <-]. by eapply pipe_log_poisoned.
Qed.

End properties.

(** A future that never succeeds on its own *)
Definition never_ok {S E A} (p : async S E A) : Prop := forall s, match exec p s with (Some (Ok _), _) => False | _ => True end.

Lemma never_ok_bind {S E A B} (p : async S E A) (k : A -> async S E B) :
  (forall a, never_ok (k a)) -> never_ok (abind p k).
Proof. intros Hk s. rewrite exec_abind. by destruct (exec p s) as [[[a|e|]|] s1]; [apply Hk|..]. Qed.

Lemma never_ok_first {S E A B} (p : async S E A) (k : A -> async S E B) : never_ok p -> never_ok (abind p k).
Proof. intros Hp s. rewrite exec_abind. specialize (Hp s). by destruct (exec p s) as [[[a|e|]|] s1]. Qed.

(** A shim with the instance of Windows creates no task, whatever the request
    is: its future panics, or ends in an error before. *)
Theorem windows_creates_nothing {W X E N K Spec Child HookStatus : Type} `{!EventSender X E} `{!Notify N K}
    `{!Host W Spec Child HookStatus} (self : Local E) (req : CreateTaskRequest) (s : Shared W X WindowsInst N) :
  match exec (task_create (Instance0 := windows_instance) self req) s with (Some (Ok _), _) => False | _ => True end.
Proof.
  revert s. change (never_ok (task_create (Instance0 := windows_instance) (N := N) self req)). unfold task_create.
  do 6 (apply never_ok_bind; intros ?). by apply never_ok_first.
Qed.

(** ** A pipe that takes the messages of a list of results *)

Record DemoPipe := MkDemoPipe { demo_received : list string; demo_results : list (option PipeError) }.

Definition demo_write (m : string) : M DemoPipe PipeError unit := fun w =>
  match demo_results w with
  | Some e :: rest => (Err e, MkDemoPipe (demo_received w) rest)
  | None :: rest => (Ok tt, MkDemoPipe (demo_received w ++ [m]) rest)
  | [] => (Ok tt, MkDemoPipe (demo_received w ++ [m]) [])
  end.

#[export] Instance demo_pipe : Pipe DemoPipe := {
  pipe_new _ := mret tt;
  poll_register := mret tt;
  poll_events _ := None;
  pipe_connect := mret tt;
  pipe_disconnect := mret tt;
  pipe_write_all := demo_write;
  pipe_flush := mret tt;
}.

#[export] Instance demo_pipe_laws : PipeLaws demo_received.
Proof.
  split; intros m w w'; simpl; unfold demo_write; destruct (demo_results w) as [|[e|] rest]; intros; by simplify_eq.
Qed.

(** The client is not there for the first record, and the pipe breaks at the third. *)
Definition demo_pipe_state : PipeState DemoPipe :=
  MkPipeState (MkLogState Info EmptyString []) false
    (MkDemoPipe [] [Some (MkPipeError OtherPipeError (Some 536%Z) "no client"); None;
                    Some (MkPipeError OtherPipeError (Some 109%Z) "broken pipe")]).

Definition demo_record (m : string) : string * LogRecord := ("now"%string, MkLogRecord Info m []).

Definition demo_pipe_run (ms : list string) := pipe_log_all (demo_record <$> ms) demo_pipe_state.

