(* ===== verification/Shim.v ===== *)
(** * Shim: [crates/containerd-shimkit/src/sandbox/shim/shim.rs] and
    [crates/containerd-shimkit/src/sandbox/cli.rs]

    The process around the task service: what the shim does for containerd
    ([shim.rs]) and its main function ([cli.rs]).  [containerd_shim], the
    zygote library and the operating system are parameters. *)

From S2P Require Import Prelude RustStr Errors TaskState InstanceData Events Waitable Local Async Otel Logger.

(** [containerd_shim::Error], the cases the code makes *)
Inductive RunError := ROther (s : string) | RInvalidArgument (s : string).

(** [containerd_shim::Flags] and [StartOpts], the fields used *)
Record Flags := MkFlags {
  flag_debug : bool;
  flag_version : bool;
  flag_id : string;
  flag_namespace : string;
  flag_address : string;
}.

Record StartOpts := MkStartOpts { opts_id : string; opts_namespace : string; opts_address : string }.

(** [struct Shim] next to its [exit] cell, which [Local] shares *)
Record Shim := MkShim_ { shim_namespace : string; shim_address : string; shim_id : string }.

(** ** [shim.rs] *)

(** [Shim::new] *)
Definition new (args : Flags) : Shim := MkShim_ (flag_namespace args) (flag_address args) (flag_id args).

(** [DeleteResponse] of [delete_shim] *)
Definition delete_shim (now : DateTime) : DeleteResponse := MkDeleteResponse 0 137 (Some (to_timestamp now)).

Section start.
Context {W : Type}.
(** [current_dir], the annotations of [Spec::load], [containerd_shim::spawn]
    and [write_address] *)
Context (current_dir : M W string string).
Context (spec_annotations : string -> M W string (option (gmap string string))).
Context (shim_spawn : StartOpts -> string -> M W RunError string).
Context (write_address : string -> M W RunError unit).

(** The group of a container: the sandbox of its pod, or itself. *)
Definition grouping (id : string) (annotations : option (gmap string string)) : string :=
  default id (annotations ≫= fun a => a !! "io.kubernetes.cri.sandbox-id").

(** [Shim::start_shim] *)
Definition start_shim (opts : StartOpts) : M W RunError string :=
  let! dir := mmap_err ROther current_dir in
  let! annotations := mmap_err (fun err => RInvalidArgument ("error loading runtime spec: " +:+ err))
                        (spec_annotations (path_join dir "config.json")) in
  let! address := shim_spawn opts (grouping (opts_id opts) annotations) in
  let! _ := write_address address in
  mret address.
End start.

Section service.
Context {W X T N K E : Type} `{!Notify N K}.

(** [Shim::create_task_service]: the exit cell of the state is the shim's. *)
Definition create_task_service (events : string -> E) (self : Shim) : Local E :=
  Local.new (events (shim_namespace self)) (shim_namespace self) (shim_address self).

(** [Shim::wait]; the wait of a cell has no error. *)
Definition wait : async (Shared W X T N) Error unit :=
  let* r := atry (zoom (fun s => Some (exit s)) with_exit Waitable.wait) in
  match r with Ok u => aret u | _ => apanic end.
End service.

(** ** [cli.rs] *)

(** [struct Version] *)
Record Version := MkVersion { version : string; revision : string }.

Definition default_version : Version := MkVersion "<none>" "<none>".

(** [version!], [revision!] and [shim_version!]: what the build knows *)
Definition shim_version (cargo_version git_revision : option string) : Version :=
  MkVersion (default "<none>"%string cargo_version) (default "<none>"%string git_revision).

Definition usize_max : N := (2 ^ 64 - 1)%N.

(** One line of [/proc/<pid>/status]: the new values of [rss] and [total]. *)
Definition mem_line (acc : Z * Z) (line : string) : Z * Z :=
  let '(rss, total) := acc in
  let line := trim line in
  let parse rest := Z.of_N (default 0%N (parse_unsigned usize_max (trim rest))) in
  match strip_prefix "VmPeak:" line with
  | Some rest =>
      match strip_suffix "kB" rest with Some rest => (rss, parse rest) | None => (rss, total) end
  | None =>
      match strip_prefix "VmHWM:" line with
      | Some rest =>
          match strip_suffix "kB" rest with Some rest => (parse rest, total) | None => (rss, total) end
      | None => (rss, total)
      end
  end.

(** [get_mem]: [read] is the text of the file; it panics if there is none. *)
Definition get_mem (read : outcome string string) : outcome string (Z * Z) :=
  match read with
  | Ok text => Ok (foldl mem_line (0, 0)%Z (lines text))
  | _ => Panic
  end.

(** [containerd_shimkit::Config] *)
Record CliConfig := MkCliConfig {
  no_setup_logger : bool;
  default_log_level : string;
  no_reaper : bool;
  no_sub_reaper : bool;
}.

(** How [shim_main] ends *)
Inductive main_end := Exited (code : Z) | Finished.

(** [parse] of the arguments, the zygote, the tasks that run in it, the output,
    [Config::default], [containerd_shim::run], the environment and the
    functions of [otel.rs] that touch the process. *)
Class ShimProcess (W : Type) := {
  os_args : W -> list string;
  parse_flags : list string -> outcome string Flags;
  println : string -> W -> W;
  log_info : string -> W -> W;
  zygote_init : W -> W;
  zygote_logger_init : bool -> string -> M W string unit;
  zygote_pid : W -> Z;
  process_id : W -> Z;
  proc_status : Z -> W -> outcome string string;
  default_config : CliConfig;
  shim_run : string -> option CliConfig -> W -> W;
  env : W -> gmap string string;
  set_env : string -> string -> W -> W;
  default_protocol : string;
  otel_start : OtlpConfig -> M W string unit;
  otel_stop : W -> W;
  otel_set_context : string -> M W string unit;
  otel_get_context : M W string string;
}.

Section cli.
Context {W : Type} `{!ShimProcess W}.

(** [.unwrap()] and [.expect(..)] *)
Definition unwrap {A} (m : M W string A) : M W string A := fun w =>
  match m w with (Err _, w') => (Panic, w') | r => r end.

(** [log_mem] *)
Definition log_mem_of (who : string) (pid : W -> Z) : M W string unit :=
  let! p := mget pid in
  let! m := (fun w => (get_mem (proc_status p w), w)) in
  mput (log_info (who +:+ " peak memory usage was: peak resident set " +:+ pretty m.1 +:+
                  " kB, peak total " +:+ pretty m.2 +:+ " kB")).

Definition log_mem : M W string unit :=
  let! _ := log_mem_of "Shim" process_id in
  log_mem_of "Zygote" zygote_pid.

(** [init_zygote_and_logger] *)
Definition init_zygote_and_logger (debug : bool) (config : CliConfig) : M W string unit :=
  let! _ := mput zygote_init in
  if no_setup_logger config then mret tt
  else zygote_logger_init debug (default_log_level config).

(** [shim_main_inner]; [otel] is the feature. *)
Definition shim_main_inner (otel : bool) (name : string) (config : option CliConfig) : M W string unit :=
  let! _ := if otel then
              let! ctx := mget (fun w => env w !! "TRACECONTEXT"%string) in
              match ctx with
              | Some ctx => unwrap (otel_set_context ctx)
              | None => let! ctx := unwrap otel_get_context in mput (set_env "TRACECONTEXT" ctx)
              end
            else mret tt in
  mput (shim_run name config).

(** The body of [shim_main] once the zygote is ready: with traces, the guard is
    dropped at the end of the block. *)
Definition run_traced (otel : bool) (name : string) (config : option CliConfig) : M W string unit :=
  let! traced := mget (fun w => otel && traces_enabled (env w)) in
  if traced : bool then
    let! c := unwrap (fun w => (build_from_env default_protocol (env w), w)) in
    let! _ := unwrap (otel_start c) in
    let! _ := shim_main_inner otel name config in
    mput otel_stop
  else shim_main_inner otel name config.

(** The output of the version flag. *)
Definition version_lines (argv0 name : string) (v : Version) : list string :=
  [argv0 +:+ ":"; "  Runtime: " +:+ name; "  Version: " +:+ version v; "  Revision: " +:+ revision v;
   EmptyString].

(** [shim_main], on Linux *)
Definition shim_main (otel : bool) (name : string) (v : Version) (config : option CliConfig)
    : M W string main_end :=
  let! os_args := mget os_args in
  match os_args with
  | [] => mpanic
  | a0 :: rest =>
      let! flags := unwrap (mlift (parse_flags rest)) in
      let argv0 := default EmptyString (file_stem a0) in
      if flag_version flags then
        let! _ := mput (fun w => foldl (fun w l => println l w) w (version_lines argv0 name v)) in
        mret (Exited 0)
      else
        let! _ := init_zygote_and_logger (flag_debug flags) (default default_config config) in
        let! _ := run_traced otel name config in
        let! _ := log_mem in
        mret Finished
  end.
End cli.

(** ** Examples *)

(** A [status] file, with a byte as long as its lines. *)
Definition demo_status : string :=
  join (str_of_char newline)
    ["Name:   shim"; "VmPeak:    2048 kB"; "VmHWM:   512 kB"; "VmRSS:   500 kB"; EmptyString]%string.

Example demo_mem : get_mem (Ok demo_status) = Ok (512, 2048)%Z.
Proof. by vm_compute. Qed.

Example demo_mem_units : get_mem (Ok "VmPeak: 10 MB") = Ok (0, 0)%Z.
Proof. by vm_compute. Qed.

(** ** Properties *)

Section waiting.
Context {W X T N K : Type} `{!Notify N K} `{!NotifyLaws N K}.

Lemma exec_shim_wait (s : Shared W X T N) :
  (exec wait s).1 = match value (exit s) with Some _ => Some (Ok tt) | None => None end.
Proof.
  unfold wait. rewrite exec_abind, exec_atry.
  rewrite (exec_zoom _ _ _ _ (exit s)); [|done|done|by intros t c [= <-]; destruct t|done].
  pose proof (poll_wait (exit s)) as [Hp _]. rewrite exec_now_or_never in Hp.
  destruct (exec Waitable.wait (exit s)) as [[[[]|e|]|] c]; simpl in *; by destruct (value (exit s)) as [[]|].
Qed.
End waiting.


(** A shim with no task, and one with a task. *)
Definition demo_idle : Shared nat (list Event) unit nat := initial Waitable.new 0 [].

Definition demo_busy : Shared nat (list Event) unit nat := with_instances {["c1"%string := 0]} demo_idle.

