(* ===== verification/Cli.v ===== *)
(** * Cli: the entry points of the four shims

    [crates/containerd-shim-wasm/src/shim/cli.rs] and the [Config] of
    [shim/mod.rs]; the implementations of [Shim] of the four engines, and the
    main function of each of their binaries: [shim_main] of [Shim.v] with the
    name and the version of the engine. *)

From S2P Require Import Prelude RustStr Errors Sandbox Store Client Async Wasmtime WasmInstance Shim.

(** [Config] of [shim/mod.rs] *)
Record Config := MkConfig { no_setup_logger : bool; default_log_level : string }.

Definition config_default : Config := MkConfig false "info".

(** The configuration [Cli::run] passes on. *)
Definition shimkit_config (c : Config) : CliConfig :=
  MkCliConfig (no_setup_logger c) (default_log_level c) false false.

Section run.
Context {P W : Type} `{!ShimProcess P}.

(** [Cli::run]; all the shims have the feature [opentelemetry] on. *)
Definition run (S : ShimType W) (v : Version) (config : option Config) : M P string main_end :=
  shim_main true (shim_name S) v (Some (shimkit_config (default config_default config))).

(** [WasmtimeShim], with the compiler of [Wasmtime.v], and the shims that keep
    the defaults *)
Definition wasmtime_shim {Mod Comp Inst CInst : Type} `{!WasmtimeLib W Mod Comp Inst CInst} : ShimType W :=
  MkShimType "wasmtime" (fun w => (Some wasmtime_compiler, w)) supported_layers_types.

Definition wasmedge_shim : ShimType W := default_shim "wasmedge".
Definition wasmer_shim : ShimType W := default_shim "wasmer".
Definition wamr_shim : ShimType W := default_shim "wamr".

(** [main] of a binary *)
Definition main (S : ShimType W) (cargo_version git_revision : option string) : M P string main_end :=
  run S (shim_version cargo_version git_revision) None.
End run.

(** The reaper is on and the logger is set up, at the level of the configuration. *)
Example default_config_passed_on : shimkit_config config_default = MkCliConfig false "info" false false.
Proof. done. Qed.
