(* ===== verification/TestModules.v ===== *)
(** * TestModules: [crates/containerd-shim-wasm-test-modules]

    The build script collects the Wasm modules of the tests: it compiles each
    source of [src/modules] and writes a Rust file with a constant per module,
    which [src/lib.rs] includes.  The file system, the environment and the
    compilers are the class [BuildHost] over a world. *)

From S2P Require Import Prelude RustStr.
From Stdlib Require Import Ascii.

(** [struct TestModule] *)
Record TestModule := MkTestModule { module_source : option string; module_bytes : string }.

(** [TestModule::as_ref] *)
Definition as_ref (self : TestModule) : string := module_bytes self.

(** [env::var_os]; [File::create] and the writes to that file; [read_dir];
    [println!]; [Command::spawn], [wait] and [success]; [wat::parse_file],
    [fs::write] and [fs::copy]. *)
Class BuildHost (W : Type) := {
  var_os : string -> W -> option string;
  create : string -> M W string unit;
  append : string -> string -> M W string unit;
  read_dir : string -> M W string (list (outcome string string));
  println : string -> W -> W;
  run_command : list string -> M W string bool;
  wat_parse_file : string -> M W string string;
  write : string -> string -> M W string unit;
  copy : string -> string -> M W string unit;
}.

(** ** Names *)

(** A byte of a character that is not its first *)
Definition is_continuation (c : ascii) : bool :=
  let n := N_of_ascii c in ((128 <=? n) && (n <? 192))%N.

(** The [map] over the characters: those that are no ASCII letter or digit
    become [_]. *)
Fixpoint ident_of (s : string) : string :=
  match s with
  | EmptyString => EmptyString
  | String c s' =>
      if is_alnum_ascii c then String c (ident_of s')
      else if is_continuation c then ident_of s' else String "_"%char (ident_of s')
  end.

Definition first_is_alpha (s : string) : bool :=
  match s with String c _ => is_alpha_ascii c | EmptyString => false end.

(** [path_to_ident] *)
Definition path_to_ident (path : string) : outcome string string :=
  let? stem := ok_or (file_stem path) ("getting filename of " +:+ debug_str path) in
  let ident := ident_of stem in
  if first_is_alpha ident then Ok ident else Err "please start the filename with [a-zA-Z]"%string.

(** [str::to_ascii_uppercase] *)
Definition ascii_upper (c : ascii) : ascii :=
  let n := N_of_ascii c in if ((97 <=? n) && (n <=? 122))%N then ascii_of_N (n - 32) else c.

Fixpoint upper (s : string) : string :=
  match s with EmptyString => EmptyString | String c s' => String (ascii_upper c) (upper s') end.

(** [output_for]: the file name joined to [OUT_DIR], with its extension replaced *)
Definition output_for (out_dir src : string) : outcome string string :=
  let? filename := ok_or (file_name src) ("getting filename of " +:+ debug_str src) in
  Ok (path_join out_dir (stem_of filename +:+ ".wasm")).

Section build.
Context {W : Type} `{!BuildHost W}.

(** [env_path] *)
Definition env_path (key : string) : M W string string := fun w =>
  (ok_or (var_os key w) ("failed to read env-var " +:+ key), w).

(** A [lazy_static] at its first use *)
Definition lazy_env (key : string) : M W string string := fun w =>
  (match (env_path key w).1 with Ok p => Ok p | _ => Panic end, w).

(** The three ways to make a module *)
Definition rustc_command (rustc dst src : string) : list string :=
  rustc :: "--target=wasm32-wasip1" :: "-Copt-level=z" :: "-Cstrip=symbols" :: "-o" :: dst :: [src].

Definition compile_rust (out_dir src : string) : M W string string :=
  let! rustc := mget (var_os "RUSTC") in
  let! rustc := mlift (ok_or rustc "reading RUSTC"%string) in
  let! dst := mlift (output_for out_dir src) in
  let! success := run_command (rustc_command rustc dst src) in
  if success : bool then mret dst else mthrow "running rustc"%string.

Definition compile_wat (out_dir src : string) : M W string string :=
  let! dst := mlift (output_for out_dir src) in
  let! bytes := wat_parse_file src in
  let! _ := write dst bytes in
  mret dst.

Definition move_wasm (out_dir src : string) : M W string string :=
  let! dst := mlift (output_for out_dir src) in
  let! _ := copy src dst in
  mret dst.

Definition newline_str : string := str_of_char newline.

(** [writeln!(writer, ..)] *)
Definition emit (modules_file line : string) : M W string unit := append modules_file (line +:+ newline_str).

(** The lines of a module *)
Definition header_line (name : string) : string := "pub const " +:+ name +:+ ": TestModule = TestModule {".
Definition source_line (source : option string) : string :=
  match source with
  | Some src => "    source: Some(include_str!(" +:+ debug_str src +:+ ")),"
  | None => "    source: None,"
  end.
Definition bytes_line (dst : string) : string := "    bytes: include_bytes!(" +:+ debug_str dst +:+ "),".

(** One iteration of the loop of [main] *)
Definition add_test_module (modules_file out_dir src : string) : M W string unit :=
  let! ident := mlift (path_to_ident src) in
  let! _ := mput (println ("cargo:rerun-if-changed=" +:+ src)) in
  let! _ := emit modules_file (header_line (upper ident)) in
  let ext := default EmptyString (extension src) in
  let! dst :=
    (if decide (ext = "rs") then
       let! _ := emit modules_file (source_line (Some src)) in compile_rust out_dir src
     else if decide (ext = "wat") then
       let! _ := emit modules_file (source_line (Some src)) in compile_wat out_dir src
     else if decide (ext = "wasm") then
       let! _ := emit modules_file (source_line None) in move_wasm out_dir src
     else mthrow ("unrecognized file format for source file " +:+ debug_str src)) in
  let! _ := emit modules_file (bytes_line dst) in
  emit modules_file "};".

(** [paths.flatten()] *)
Definition flatten (l : list (outcome string string)) : list string := omap ok_opt l.

(** [main] *)
Definition main : M W string unit :=
  let! out_dir := lazy_env "OUT_DIR" in
  let modules_file := path_join out_dir "modules.rs" in
  let! pkg_dir := lazy_env "CARGO_MANIFEST_DIR" in
  let modules_dir := path_join (path_join pkg_dir "src") "modules" in
  let! _ := create modules_file in
  let! paths := read_dir modules_dir in
  foldM_M (fun _ src => add_test_module modules_file out_dir src) tt (flatten paths).
End build.

(** ** The laws of the host *)

(** What is appended to a file that was created is in it, and writing another
    file, listing a directory and compiling to another file leave it alone. *)
Class BuildLaws (W : Type) `{!BuildHost W} (text : string -> W -> option string) : Prop := {
  create_text p w w' : create p w = (Ok tt, w') -> text p w' = Some EmptyString;
  append_text p s w w' t : append p s w = (Ok tt, w') -> text p w = Some t -> text p w' = Some (t +:+ s);
  read_dir_text p q w : text q (read_dir p w).2 = text q w;
  println_text s q w : text q (println s w) = text q w;
  rustc_text rustc dst src q w : q <> dst -> text q (run_command (rustc_command rustc dst src) w).2 = text q w;
  wat_text p q w : text q (wat_parse_file p w).2 = text q w;
  write_text p s q w : q <> p -> text q (write p s w).2 = text q w;
  copy_text src dst q w : q <> dst -> text q (copy src dst w).2 = text q w;
}.

(** ** Lemmas *)

(** A name of a constant in Rust *)
Definition ident_char (c : ascii) : bool := is_alnum_ascii c || bool_decide (c = "_"%char).

Fixpoint all_chars (f : ascii -> bool) (s : string) : bool :=
  match s with EmptyString => true | String c s' => f c && all_chars f s' end.

Definition is_ident (s : string) : bool := first_is_alpha s && all_chars ident_char s.

Lemma ident_of_chars s : all_chars ident_char (ident_of s) = true.
Proof.
  induction s as [|c s IH]; simpl; [done|]. destruct (is_alnum_ascii c) eqn:Hc; simpl.
  - unfold ident_char at 1. by rewrite Hc, IH.
  - by destruct (is_continuation c).
Qed.

Lemma path_to_ident_is_ident path ident : path_to_ident path = Ok ident -> is_ident ident = true.
Proof.
  unfold path_to_ident, is_ident. destruct (file_stem path) as [stem|]; simpl; [|done].
  destruct (first_is_alpha _) eqn:Hf; [|done]. intros [= <-]. by rewrite Hf, ident_of_chars.
Qed.

Lemma ascii_upper_ident c :
  ident_char c = true -> ident_char (ascii_upper c) = true /\ (is_alpha_ascii c = true -> is_alpha_ascii (ascii_upper c) = true).
Proof. destruct c as [[] [] [] [] [] [] [] []]; vm_compute; auto. Qed.

Lemma upper_ident s : is_ident s = true -> is_ident (upper s) = true.
Proof.
  assert (all_chars ident_char s = true -> all_chars ident_char (upper s) = true) as Hall.
  { induction s as [|c s IH]; simpl; [done|]. intros [Hc Hs]%andb_true_iff. apply andb_true_iff.
    split; [by apply ascii_upper_ident|by apply IH]. }
  unfold is_ident. intros [Hf Hs]%andb_true_iff. apply andb_true_iff. split; [|by apply Hall].
  destruct s as [|c s]; [done|]. simpl in *. apply andb_true_iff in Hs as [Hc _]. by apply ascii_upper_ident.
Qed.

(** An output is never the file of the modules. *)
Lemma output_not_modules out_dir src dst : output_for out_dir src = Ok dst -> path_join out_dir "modules.rs" <> dst.
Proof.
  unfold output_for. destruct (file_name src) as [f|]; simpl; [|done]. intros [= <-] Heq.
  apply (f_equal last_char) in Heq. unfold path_join in Heq. simpl starts_with in Heq.
  assert (forall b s, last_char (b +:+ (s +:+ ".wasm")) = Some "m"%char) as Hm
    by (intros b s; by rewrite str_app_assoc, last_char_app).
  assert (forall b, last_char (b +:+ "modules.rs") = Some "s"%char) as Hs by (intros b; by rewrite last_char_app).
  change (starts_with "/" "modules.rs") with false in Heq. cbn iota in Heq.
  destruct (starts_with "/" (stem_of f +:+ ".wasm")).
  - change (stem_of f +:+ ".wasm") with (EmptyString +:+ (stem_of f +:+ ".wasm")) in Heq. rewrite Hm in Heq.
    destruct (_ || _); [|rewrite str_app_assoc in Heq]; by rewrite Hs in Heq.
  - destruct (_ || _); [|rewrite !str_app_assoc, <- (str_app_assoc (out_dir +:+ "/")) in Heq];
      rewrite Hm in Heq; by rewrite Hs in Heq.
Qed.

Section modules.
Context {W : Type} `{!BuildHost W} (text : string -> W -> option string) `{!BuildLaws W text}.

(** The source is shown for a module made from one. *)
Definition shown_source (src : string) : option string :=
  if decide (extension src = Some "wasm"%string) then None else Some src.

Definition known_extension (src : string) : Prop := default EmptyString (extension src) ∈ ["rs"; "wat"; "wasm"]%string.

(** The text of a constant *)
Definition const_text (name : string) (source : option string) (dst : string) : string :=
  (header_line name +:+ newline_str) +:+ (source_line source +:+ newline_str) +:+
  (bytes_line dst +:+ newline_str) +:+ ("};" +:+ newline_str).

(** The constant of a source file *)
Definition describes (out_dir src t : string) : Prop :=
  exists ident dst, path_to_ident src = Ok ident /\ is_ident (upper ident) = true /\
    output_for out_dir src = Ok dst /\ known_extension src /\
    t = const_text (upper ident) (shown_source src) dst.

Lemma emit_text p line w t w' :
  emit p line w = (Ok tt, w') -> text p w = Some t -> text p w' = Some (t +:+ (line +:+ newline_str)).
Proof. apply append_text. Qed.

(** Each way to make a module gives its output, and leaves the file of the
    modules alone. *)
Definition makes (out_dir src : string) (m : M W string string) : Prop :=
  forall w dst w', m w = (Ok dst, w') ->
    output_for out_dir src = Ok dst /\ text (path_join out_dir "modules.rs") w' = text (path_join out_dir "modules.rs") w.

Lemma compile_rust_makes out_dir src : makes out_dir src (compile_rust out_dir src).
Proof.
  intros w dst w' (r & w1 & [= <- <-] & Hrun)%mbind_ok. apply mbind_ok in Hrun as (rustc & w2 & [= _ <-] & Hrun).
  apply mbind_ok in Hrun as (d & w3 & [= Hd <-] & Hrun). apply mbind_ok in Hrun as ([] & w4 & Hc & Hend); [|done].
  injection Hend as <- <-. split; [done|].
  rewrite <- (rustc_text rustc d src (path_join out_dir "modules.rs") w); [by rewrite Hc|by eapply output_not_modules].
Qed.

Lemma compile_wat_makes out_dir src : makes out_dir src (compile_wat out_dir src).
Proof.
  intros w dst w' (d & w1 & [= Hd <-] & Hrun)%mbind_ok. apply mbind_ok in Hrun as (b & w2 & Hb & Hrun).
  apply mbind_ok in Hrun as ([] & w3 & Hw & [= <- <-]). split; [done|].
  pose proof (wat_text src (path_join out_dir "modules.rs") w) as H1. rewrite Hb in H1. rewrite <- H1. simpl.
  pose proof (write_text d b (path_join out_dir "modules.rs") w2) as H2. rewrite Hw in H2. apply H2.
  by eapply output_not_modules.
Qed.

Lemma move_wasm_makes out_dir src : makes out_dir src (move_wasm out_dir src).
Proof.
  intros w dst w' (d & w1 & [= Hd <-] & Hrun)%mbind_ok. apply mbind_ok in Hrun as ([] & w3 & Hw & [= <- <-]).
  split; [done|]. pose proof (copy_text src d (path_join out_dir "modules.rs") w) as H2. rewrite Hw in H2. apply H2.
  by eapply output_not_modules.
Qed.

(** The branch of the loop: the line on the source, then the module *)
Lemma makes_after out_dir src line m w dst w' t :
  makes out_dir src m -> text (path_join out_dir "modules.rs") w = Some t ->
  (let! _ := emit (path_join out_dir "modules.rs") line in m) w = (Ok dst, w') ->
  output_for out_dir src = Ok dst /\ text (path_join out_dir "modules.rs") w' = Some (t +:+ (line +:+ newline_str)).
Proof.
  intros Hm Ht ([] & w1 & He & Hrun)%mbind_ok. apply Hm in Hrun as [Hd ->]. split; [done|].
  by eapply emit_text.
Qed.

Lemma add_module_ok out_dir src w t w' :
  text (path_join out_dir "modules.rs") w = Some t ->
  add_test_module (path_join out_dir "modules.rs") out_dir src w = (Ok tt, w') ->
  exists c, describes out_dir src c /\ text (path_join out_dir "modules.rs") w' = Some (t +:+ c).
Proof.
  intros Ht (ident & w1 & [= Hid <-] & Hrun)%mbind_ok. apply mbind_ok in Hrun as ([] & w2 & [= <-] & Hrun).
  apply mbind_ok in Hrun as ([] & w3 & H3 & Hrun).
  eapply emit_text in H3; [|by rewrite println_text]. apply mbind_ok in Hrun as (dst & w4 & Hd & Hrun).
  assert (known_extension src /\ output_for out_dir src = Ok dst /\ text (path_join out_dir "modules.rs") w4 =
    Some ((t +:+ (header_line (upper ident) +:+ newline_str)) +:+ (source_line (shown_source src) +:+ newline_str))) as (Hk & Ho & H4).
  { unfold known_extension, shown_source. destruct (extension src) as [e|]; simpl in *; [|done].
    destruct (decide (e = "rs")) as [->|]; [|destruct (decide (e = "wat")) as [->|];
      [|destruct (decide (e = "wasm")) as [->|]; [|done]]].
    - split; [set_solver|]. eapply makes_after; [apply compile_rust_makes|done|exact Hd].
    - split; [set_solver|]. eapply makes_after; [apply compile_wat_makes|done|exact Hd].
    - split; [set_solver|]. eapply makes_after; [apply move_wasm_makes|done|exact Hd]. }
  apply mbind_ok in Hrun as ([] & w5 & H5 & H6). eapply emit_text in H5; [|exact H4].
  eapply emit_text in H6; [|exact H5]. exists (const_text (upper ident) (shown_source src) dst). split.
  - exists ident, dst. split_and!; [done|by eapply upper_ident, path_to_ident_is_ident|done..].
  - rewrite H6. unfold const_text. by rewrite <- !(str_app_assoc t), <- !(str_app_assoc (_ +:+ newline_str)).
Qed.
End modules.

(** The constants one after the other *)
Definition text_of (consts : list string) : string := foldl String.append EmptyString consts.

(** ** Properties *)


(** Two sources of one stem share an output, and two names that differ in
    their other characters a constant. *)
Example stems_collide :
  output_for "out" "src/hello.rs" = output_for "out" "src/hello.wat" /\
  path_to_ident "src/a-b.rs" = path_to_ident "src/a_b.wat".
Proof. by vm_compute. Qed.

(** ** A machine whose compilers write nothing *)

Abbreviation DemoFiles := (gmap string string).

#[export] Instance demo_build_host : BuildHost DemoFiles := {
  var_os k _ := if decide (k = "OUT_DIR") then Some "/out"%string
                else if decide (k = "CARGO_MANIFEST_DIR") then Some "/pkg"%string else Some "rustc"%string;
  create p w := (Ok tt, <[p := EmptyString]> w);
  append p s w := (Ok tt, <[p := default EmptyString (w !! p) +:+ s]> w);
  read_dir _ w := (Ok [Ok "/pkg/src/modules/exit-code.rs"; Err "denied"; Ok "/pkg/src/modules/hello.wasm"]%string, w);
  println _ w := w;
  run_command _ w := (Ok true, w);
  wat_parse_file _ w := (Ok EmptyString, w);
  write p s w := (Ok tt, <[p := s]> w);
  copy _ _ w := (Ok tt, w);
}.

#[export] Instance demo_build_laws : BuildLaws DemoFiles (fun p w => w !! p).
Proof.
  split; try done.
  - intros p w w' [= <-]. simpl. by rewrite lookup_insert_eq.
  - intros p s w w' t [= <-] Ht. simpl in *. by rewrite lookup_insert_eq, Ht.
  - intros p s q w Hne. simpl. by rewrite lookup_insert_ne.
Qed.

Example demo_modules_file :
  (main ∅ : outcome string unit * DemoFiles).2 !! "/out/modules.rs"%string =
  Some (text_of [const_text "EXIT_CODE" (Some "/pkg/src/modules/exit-code.rs"%string) "/out/exit-code.wasm";
                 const_text "HELLO" None "/out/hello.wasm"]).
Proof. by vm_compute. Qed.

