(* ===== verification/UnitTests.v ===== *)
(** * UnitTests: the unit tests of the repository

    The modules [tests] of [error.rs], [sync.rs], [otel.rs], [instance_utils.rs],
    [context.rs] and [sys/unix/container/instance.rs], run on the definitions
    of this library.  A test is its outcome: an assertion that fails is a
    panic.  What the tests take from outside (the defaults of [oci_spec], the
    environment, the files) are parameters, with what the tests expect of them
    as hypotheses. *)

From S2P Require Import Prelude Async Ambient RustStr Errors InstanceData Hooks InstanceUtils Sandbox Store WasmInstance Otel Waitable.
From Stdlib Require Import Ascii.

Definition test := outcome string unit.

(** [assert!] and [assert_eq!] *)
Definition assert {E} (b : bool) : outcome E unit := if b then Ok tt else Panic.
Definition assert_eq {E A} `{EqDecision A} (x y : A) : outcome E unit := assert (bool_decide (x = y)).

(** The index of a slice, [unwrap] *)
Definition index {E A} (l : list A) (i : nat) : outcome E A :=
  match l !! i with Some a => Ok a | None => Panic end.
Definition unwrapped {E E' A} (r : outcome E A) : outcome E' A := match r with Ok a => Ok a | _ => Panic end.

(** Assertions one after the other *)
Fixpoint all_hold {E} (l : list (outcome E unit)) : outcome E unit :=
  match l with [] => Ok tt | r :: l' => let? _ := r in all_hold l' end.

Definition passed (l : list test) : Prop := Forall (fun r => r = Ok tt) l.

(** ** [error.rs] *)

Section error.
Context (shim_display : ShimError -> string).

Definition status_is (e : Error) (code : Code) (message : string) : test :=
  match into_ttrpc shim_display e with
  | RpcStatus c m => let? _ := assert (bool_decide (c = code)) in assert_eq m message
  | Others _ => Panic
  end.

Definition test_error_to_ttrpc_status : test :=
  all_hold
    [ status_is (E_InvalidArgument "invalid argument") INVALID_ARGUMENT "invalid argument";
      status_is (E_NotFound "not found") NOT_FOUND "not found";
      status_is (E_AlreadyExists "already exists") ALREADY_EXISTS "already exists";
      status_is (E_FailedPrecondition "failed precondition") FAILED_PRECONDITION "failed precondition";
      status_is (E_Shim (SE_InvalidArgument "invalid argument")) INVALID_ARGUMENT "invalid argument";
      status_is (E_Any "any error") UNKNOWN "any error" ].
End error.

(** ** [context.rs] *)

Section context.
(** [Process::default()] and [Spec::default()] of [oci_spec], which the
    builders take for what is not set *)
Context (process_default : Process) (spec_default : Spec).

Definition args_process (l : list string) : Process := MkProcess (Some l) (process_env process_default).
Definition env_process (l : list string) : Process := MkProcess (process_args process_default) (Some l).
Definition build_spec (p : Process) : Spec := MkSpec (Some p) (annotations spec_default).

Definition ctx_of (p : Process) : WasiContext := MkWasiContext (build_spec p) [].

Definition source_is (s : Source) (path : string) : outcome string unit :=
  assert (match s with File p => bool_decide (p = path) | Oci _ => false end).

Definition test_get_args : test :=
  let args := args (ctx_of (args_process ["hello.wat"])) in
  let? _ := assert_eq (length args) 1 in
  let? a0 := index args 0 in
  assert_eq a0 "hello.wat"%string.

Definition test_get_args_return_empty : test := assert_eq (length (args (ctx_of (args_process [])))) 0.

Definition test_get_args_returns_all : test :=
  let args := args (ctx_of (args_process ["hello.wat"; "echo"; "hello"])) in
  let? _ := assert_eq (length args) 3 in
  let? a0 := index args 0 in
  let? a1 := index args 1 in
  let? a2 := index args 2 in
  all_hold [assert_eq a0 "hello.wat"%string; assert_eq a1 "echo"%string; assert_eq a2 "hello"%string].

Definition test_get_module_returns_none_when_not_present : test :=
  source_is (source (entrypoint (ctx_of (args_process [])))) EmptyString.

(** The four fields of an entry point *)
Definition entry_is (e : Entrypoint) (n f a path : string) : test :=
  all_hold [assert_eq (name e) (Some n); assert_eq (func e) f; assert_eq (arg0 e) (Some a); source_is (source e) path].

Definition test_get_module_returns_function : test :=
  entry_is (entrypoint (ctx_of (args_process ["hello.wat#foo"; "echo"; "hello"])))
    "hello" "foo" "hello.wat#foo" "hello.wat".

Definition test_get_module_returns_start : test :=
  entry_is (entrypoint (ctx_of (args_process ["/root/hello.wat"; "echo"; "hello"])))
    "hello" "_start" "/root/hello.wat" "/root/hello.wat".

Definition test_loading_strategy_is_file_when_no_layers : test :=
  source_is (source (entrypoint (ctx_of (args_process ["/root/hello.wat#foo"; "echo"; "hello"])))) "/root/hello.wat".

(** [format!("sha256:{:064?}", 0)] *)
Definition zero_digest : string := "sha256:" +:+ String.concat EmptyString (replicate 64 "0"%string).

Definition test_loading_strategy_is_oci_when_layers_present : test :=
  let ctx := MkWasiContext (build_spec (args_process ["/root/hello.wat"; "echo"; "hello"]))
               [MkLayer (MkDescriptor EmptyString zero_digest) []] in
  assert (match source (entrypoint ctx) with Oci _ => true | File _ => false end).

Definition test_get_envs : test :=
  let envs := envs (ctx_of (env_process ["KEY1=VALUE1"; "KEY2=VALUE2"])) in
  let? _ := assert_eq (length envs) 2 in
  let? e0 := index envs 0 in
  let? e1 := index envs 1 in
  all_hold [assert_eq e0 "KEY1=VALUE1"%string; assert_eq e1 "KEY2=VALUE2"%string].

Definition test_get_envs_return_empty : test := assert_eq (length (envs (ctx_of (env_process [])))) 0.

Definition test_envs_return_default_only : test := assert_eq (length (envs (ctx_of process_default))) 2.

(** ** [sys/unix/container/instance.rs] *)

Definition test_get_pod_id : test :=
  let spec := MkSpec (Some process_default) (Some {["io.kubernetes.cri.sandbox-id" := "test-pod-id"]}) in
  assert_eq (pod_id spec) (Some "test-pod-id"%string).

Definition test_get_pod_id_no_annotation : test := assert_eq (pod_id (build_spec process_default)) None.
End context.

Definition context_tests (p : Process) (s : Spec) : list test :=
  [ test_get_args p s; test_get_args_return_empty p s; test_get_args_returns_all p s;
    test_get_module_returns_none_when_not_present p s; test_get_module_returns_function p s;
    test_get_module_returns_start p s; test_loading_strategy_is_file_when_no_layers p s;
    test_loading_strategy_is_oci_when_layers_present p s; test_get_envs p s; test_get_envs_return_empty p s;
    test_envs_return_default_only p s; test_get_pod_id p; test_get_pod_id_no_annotation p s ].

(** ** [otel.rs] *)

(** [temp_env::with_vars]: the test runs with the variables set or removed. *)
Definition with_vars {A} (vars : list (string * option string)) (body : gmap string string -> A)
    (env : gmap string string) : A :=
  body (foldl (fun e v => match v.2 with Some x => <[v.1 := x]> e | None => base.delete v.1 e end) env vars).

#[export] Instance Protocol_eq_dec : EqDecision Protocol.
Proof. solve_decision. Defined.

Section otel.
Context {W Ctx : Type}.
(** [OTEL_EXPORTER_OTLP_PROTOCOL_DEFAULT]; the propagator and the JSON of a map *)
Context (fallback : string) (inject : W -> gmap string string).
Context (extract : (string -> option string) -> list string -> Ctx) (set_parent : Ctx -> W -> W).
Context (to_json : gmap string string -> outcome string string).
Context (from_json : string -> outcome string (gmap string string)).
(** The environment and the state in which the tests start *)
Context (env : gmap string string) (w : W).

Definition enabled_with (traces otlp disabled : option string) (expected : bool) : test :=
  with_vars [(OTEL_EXPORTER_OTLP_TRACES_ENDPOINT, traces); (OTEL_EXPORTER_OTLP_ENDPOINT, otlp);
             (OTEL_SDK_DISABLED, disabled)]
    (fun env => assert (bool_decide (traces_enabled env = expected))) env.

Definition test_traces_enabled : test :=
  all_hold
    [ enabled_with (Some "trace_endpoint"%string) (Some "general_endpoint"%string) None true;
      enabled_with (Some EmptyString) (Some "general_endpoint"%string) (Some "t"%string) true;
      enabled_with None (Some "general_endpoint"%string) (Some "false"%string) true;
      enabled_with (Some "trace_endpoint"%string) (Some EmptyString) (Some "1"%string) true;
      enabled_with (Some EmptyString) (Some EmptyString) None false;
      enabled_with None None None false;
      enabled_with (Some "trace_endpoint"%string) (Some "general_endpoint"%string) (Some "true"%string) false ].

Definition test_get_empty_trace_context : test :=
  with_vars [] (fun _ =>
    let r := (get_trace_context inject to_json w).1 in
    let? _ := assert (is_ok r) in
    let? trace_context := unwrapped r in
    assert_eq trace_context "{}"%string) env.

Definition test_set_empty_trace_context : test :=
  with_vars [] (fun _ => assert (is_ok (set_trace_context extract set_parent from_json "{}" w).1)) env.

Definition endpoint_is (r : outcome string string) (expected : string) : test :=
  let? _ := assert (is_ok r) in
  let? endpoint := unwrapped r in
  assert_eq endpoint expected.

Definition test_otel_endpoint_from_env : test :=
  with_vars [(OTEL_EXPORTER_OTLP_TRACES_ENDPOINT, Some "trace_endpoint"%string)]
    (fun env => endpoint_is (traces_endpoint_from_env env) "trace_endpoint") env.

Definition test_otel_endpoint_from_env_fallback : test :=
  with_vars [(OTEL_EXPORTER_OTLP_ENDPOINT, Some "fallback_endpoint"%string)]
    (fun env => endpoint_is (traces_endpoint_from_env env) "fallback_endpoint") env.

Definition test_otel_endpoint_from_env_missing : test :=
  with_vars [] (fun env => assert (is_err (traces_endpoint_from_env env))) env.

Definition protocol_is (r : outcome string Protocol) (expected : Protocol) : test :=
  let? _ := assert (is_ok r) in
  let? p := unwrapped r in
  assert_eq p expected.

Definition test_otel_protocol_from_env : test :=
  with_vars [(OTEL_EXPORTER_OTLP_TRACES_PROTOCOL, Some "grpc"%string)]
    (fun env => protocol_is (traces_protocol_from_env fallback env) Grpc) env.

Definition test_otel_protocol_from_env_fail : test :=
  with_vars [(OTEL_EXPORTER_OTLP_PROTOCOL, Some "something-else"%string)]
    (fun env => assert (is_err (traces_protocol_from_env fallback env))) env.

Definition test_otel_protocol_from_env_default : test :=
  with_vars [] (fun env => protocol_is (traces_protocol_from_env fallback env) HttpBinary) env.

Definition test_build_with_both_specific_and_general_env_vars : test :=
  with_vars [(OTEL_EXPORTER_OTLP_TRACES_ENDPOINT, Some "trace_endpoint"%string);
             (OTEL_EXPORTER_OTLP_ENDPOINT, Some "general_endpoint"%string);
             (OTEL_EXPORTER_OTLP_TRACES_PROTOCOL, Some "grpc"%string);
             (OTEL_EXPORTER_OTLP_PROTOCOL, Some "http/protobuf"%string)]
    (fun env =>
       let? config := unwrapped (build_from_env fallback env) in
       all_hold [assert_eq (traces_endpoint config) "trace_endpoint"%string;
                 assert_eq (traces_protocol config) Grpc]) env.

Definition test_build_missing_endpoint : test :=
  with_vars [] (fun env => assert (is_err (build_from_env fallback env))) env.

(** The keys are compared sorted: as a list that has the same elements. *)
Definition test_metadata_extractor : test :=
  let metadata := <["key2" := ["value2"]]> (<["key" := ["value"]]> ∅) : gmap string (list string) in
  all_hold
    [ assert_eq (metadata_get metadata "key") (Some "value"%string);
      assert (bool_decide (metadata_keys metadata ≡ₚ ["key"; "key2"]));
      assert_eq (metadata_get metadata "key2") (Some "value2"%string) ].

Definition otel_tests : list test :=
  [ test_traces_enabled; test_get_empty_trace_context; test_set_empty_trace_context; test_otel_endpoint_from_env;
    test_otel_endpoint_from_env_fallback; test_otel_endpoint_from_env_missing; test_otel_protocol_from_env;
    test_otel_protocol_from_env_fail; test_otel_protocol_from_env_default;
    test_build_with_both_specific_and_general_env_vars; test_build_missing_endpoint; test_metadata_extractor ].

(** The tests assume that no variable of OpenTelemetry is set outside, and that
    the propagator has nothing to tell when nothing is traced. *)
Lemma otel_tests_pass :
  (forall v, v ∈ [OTEL_EXPORTER_OTLP_TRACES_ENDPOINT; OTEL_EXPORTER_OTLP_ENDPOINT;
                  OTEL_EXPORTER_OTLP_PROTOCOL; OTEL_EXPORTER_OTLP_TRACES_PROTOCOL] -> env !! v = None) ->
  fallback = OTEL_EXPORTER_OTLP_PROTOCOL_HTTP_PROTOBUF ->
  to_json (inject w) = Ok "{}"%string -> is_ok (from_json "{}") -> passed otel_tests.
Proof.
  intros Henv Hf Hto Hfrom.
  assert (env !! OTEL_EXPORTER_OTLP_TRACES_ENDPOINT = None) as He1 by (apply Henv; set_solver).
  assert (env !! OTEL_EXPORTER_OTLP_ENDPOINT = None) as He2 by (apply Henv; set_solver).
  assert (env !! OTEL_EXPORTER_OTLP_PROTOCOL = None) as He3 by (apply Henv; set_solver).
  assert (env !! OTEL_EXPORTER_OTLP_TRACES_PROTOCOL = None) as He4 by (apply Henv; set_solver).
  repeat (apply Forall_cons_2; [|]); [..|constructor].
  - unfold test_traces_enabled, enabled_with, with_vars, traces_enabled, check_env_var. cbn [foldl snd fst].
    by simplify_map_eq.
  - unfold test_get_empty_trace_context, with_vars, get_trace_context. cbn. by rewrite Hto.
  - unfold test_set_empty_trace_context, with_vars, set_trace_context, mbind, mlift. by destruct (from_json _).
  - unfold test_otel_endpoint_from_env, with_vars, traces_endpoint_from_env, env_var. cbn [foldl snd fst].
    by simplify_map_eq.
  - unfold test_otel_endpoint_from_env_fallback, with_vars, traces_endpoint_from_env, env_var. cbn [foldl snd fst].
    by rewrite lookup_insert_ne, He1, lookup_insert_eq by done.
  - unfold test_otel_endpoint_from_env_missing, with_vars, traces_endpoint_from_env, env_var. cbn [foldl].
    by rewrite He1, He2.
  - unfold test_otel_protocol_from_env, with_vars, traces_protocol_from_env. cbn [foldl snd fst]. by rewrite lookup_insert_eq.
  - unfold test_otel_protocol_from_env_fail, with_vars, traces_protocol_from_env. cbn [foldl snd fst].
    by rewrite lookup_insert_eq, lookup_insert_ne, He4 by done.
  - unfold test_otel_protocol_from_env_default, with_vars, traces_protocol_from_env. cbn [foldl].
    by rewrite He3, He4, Hf.
  - unfold test_build_with_both_specific_and_general_env_vars, with_vars, build_from_env, traces_endpoint_from_env,
      traces_protocol_from_env, env_var. cbn [foldl snd fst]. by simplify_map_eq.
  - unfold test_build_missing_endpoint, with_vars, build_from_env, traces_endpoint_from_env, env_var. cbn [foldl].
    by rewrite He1, He2.
  - by vm_compute.
Qed.
End otel.

(** ** [instance_utils.rs] *)

Definition default_config (bundle ns : string) : InstanceConfig :=
  MkInstanceConfig EmptyString EmptyString EmptyString bundle ns EmptyString (MkConfig false).

Section rootdir.
Context {W File : Type}.
(** [tempdir], [std::fs::write], what [determine_rootdir] uses, and
    [serde_json::to_string] at [Options] *)
Context (tempdir : M W Error string) (fs_write : string -> string -> M W Error unit).
Context (file_open : string -> M W IoError File) (read_options : File -> M W string Options).
Context (options_to_json : Options -> outcome Error string).

Definition test_determine_rootdir_with_options_file : M W Error unit :=
  let namespace := "test_namespace"%string in
  let! dir := tempdir in
  let rootdir := path_join dir "runwasi" in
  let opts := MkOptions (Some rootdir) in
  let! json := mlift (options_to_json opts) in
  let! _ := fs_write (path_join dir "options.json") json in
  let! root := determine_rootdir file_open read_options (default_config dir namespace) "runtime" in
  mlift (assert_eq root (path_join rootdir namespace)).

Definition test_determine_rootdir_without_options_file : M W Error unit :=
  let! dir := tempdir in
  let namespace := "test_namespace"%string in
  let! root := determine_rootdir file_open read_options (default_config dir namespace) "runtime" in
  let! _ := mlift (assert (starts_with "/" root)) in
  mlift (assert_eq root (path_join "/run/containerd/runtime" namespace)).

(** The tests pass when a temporary directory starts empty and what is written
    to a file is read from it. *)
Lemma rootdir_tests_pass w :
  (forall w, exists dir w1 e w2, tempdir w = (Ok dir, w1) /\
     file_open (path_join dir "options.json") w1 = (Err (MkIoError NotFound e), w2)) ->
  (forall opts, exists json, options_to_json opts = Ok json /\ forall p w, exists w1 f w2 w3,
     fs_write p json w = (Ok tt, w1) /\ file_open p w1 = (Ok f, w2) /\ read_options f w2 = (Ok opts, w3)) ->
  (test_determine_rootdir_with_options_file w).1 = Ok tt /\
  (test_determine_rootdir_without_options_file w).1 = Ok tt.
Proof.
  intros Htmp Hfs. destruct (Htmp w) as (dir & w1 & e & w2 & Hdir & Hnone).
  unfold test_determine_rootdir_with_options_file, test_determine_rootdir_without_options_file,
    determine_rootdir, mbind, mlift, mtry, mmap_err, mret. rewrite Hdir. cbn [bundle default_config].
  split; [|by rewrite Hnone].
  destruct (Hfs (MkOptions (Some (path_join dir "runwasi")))) as (json & -> & Hw).
  destruct (Hw (path_join dir "options.json") w1) as (w3 & f & w4 & w5 & -> & -> & Hr). simpl. rewrite Hr. simpl.
  unfold assert_eq, assert. by rewrite bool_decide_eq_true_2.
Qed.
End rootdir.

(** ** [sync.rs] *)

Section sync.
Context {N K : Type} `{!Notify N K}.
Abbreviation St := (cell Z N).

(** [unwrap], and an assertion between steps *)
Definition expect_ok {E E' A} (p : async St E A) : async St E' A :=
  let* r := atry p in
  match r with Ok a => aret a | _ => apanic end.

Definition check {E} (r : outcome E unit) : async St E unit := Done r.

Definition basic : async St Z unit :=
  let* _ := expect_ok (set 42%Z) in
  let* v := wait in
  check (assert_eq v 42%Z).

Definition basic_timeout_zero : async St Z unit :=
  let* _ := expect_ok (set 42%Z) in
  let* o := now_or_never wait in
  check (assert_eq o (Some 42%Z)).

Definition unset_timeout_zero : async St Z unit :=
  let* o := now_or_never wait in
  check (assert_eq o None).

(** The timer may run out at any poll: [polls] of the cell come before. *)
Definition unset_timeout_1ms (polls : nat) : async St Z unit :=
  let* o := with_timeout (replicate polls true ++ [false]) Some wait in
  check (assert_eq o None).

(** A clone is the same cell. *)
Definition clone : async St Z unit :=
  let* _ := atry (E' := Z) (set 42%Z) in
  let* v := wait in
  check (assert_eq v 42%Z).

Definition basic_double_set : async St Z unit :=
  let* r := atry (E' := Z) (set 42%Z) in
  let* _ := check (assert_eq (is_ok r) true) in
  let* r := atry (E' := Z) (set 24%Z) in
  check (match r with Err e => assert_eq e 24%Z | _ => Panic end).

Definition guard : async St Z unit :=
  let* _ := drop_guard (set_guard_with (fun _ => 42%Z)) in
  let* v := wait in
  check (assert_eq v 42%Z).

(** The guard is dropped after the [set] of its scope. *)
Definition guard_no_op : async St Z unit :=
  let g := set_guard_with (fun _ => 42%Z) in
  let* _ := atry (E' := Z) (set 24%Z) in
  let* _ := drop_guard g in
  let* v := wait in
  check (assert_eq v 24%Z).

(** The task and the test, which run at the same time *)
Definition basic_threaded : list (async St Z unit) :=
  (let* v := wait in check (assert_eq v 42%Z))
  :: [let* _ := atry (E' := Z) (set 42%Z) in aret tt].

Definition passes (p : async St Z unit) : Prop := (exec p Waitable.new).1 = Some (Ok tt).

Lemma unset_wait_pending `{!NotifyLaws N K} polls (k : K) (c : cell Z N) :
  notified_ready (notify c) k = false ->
  exec (select (replicate polls true ++ [false]) (let* a := wait_wake k in aret (Some a))
          (await (fun w => w' ← Some w; Some (@None Z, w')))) c = (Some (Ok None), c).
Proof. intros Hk. induction polls as [|n IH]; [done|]. simpl. by rewrite Hk. Qed.

Lemma sync_tests_pass `{!NotifyLaws N K} polls :
  Forall passes [basic; basic_timeout_zero; unset_timeout_zero; unset_timeout_1ms polls; clone;
                 basic_double_set; guard; guard_no_op].
Proof.
  repeat (apply Forall_cons_2; [|]); [..|constructor]; unfold passes; try reflexivity.
  - unfold unset_timeout_zero. rewrite exec_abind. destruct (poll_wait (N := N) (K := K) (T := Z) Waitable.new) as [Hp _].
    destruct (exec _ _) as [o c]. simpl in Hp. by subst.
  - unfold unset_timeout_1ms, with_timeout. destruct polls as [|[|polls]]; [reflexivity..|].
    rewrite exec_abind. destruct (notified_created (notify_new (N := N))) as [_ Hk].
    pose proof (unset_wait_pending polls (notified notify_new).1 (Cell None (notified notify_new).2) Hk) as Hrun.
    simpl in *. by rewrite Hrun.
Qed.
End sync.

(** *** Every interleaving of a small pool, by computation *)

Section explore.
Context {T E A : Type}.
Abbreviation Pool := (list (async T E A) * T)%type.

Definition successors (st : Pool) : list Pool :=
  omap (fun i => p ← st.1 !! i; ps ← astep p st.2; Some (<[i := ps.1]> st.1, ps.2)) (seq 0 (length st.1)).

(** [check] holds where no future can go on; the runs take less than [fuel] steps. *)
Fixpoint explore (fuel : nat) (check : Pool -> bool) (st : Pool) : bool :=
  match fuel with
  | O => false
  | S fuel' =>
      match successors st with
      | [] => check st
      | sts => forallb (explore fuel' check) sts
      end
  end.

Lemma successors_step st st' : st' ∈ successors st <-> pool_step st st'.
Proof.
  destruct st as [ts s]. unfold successors. rewrite list_elem_of_omap. simpl. split.
  - intros (i & _ & Hi). destruct (ts !! i) as [p|] eqn:Hp; [|done]. simpl in Hi.
    destruct (astep p s) as [[p' s']|] eqn:Hs; [|done]. injection Hi as <-. by eapply pool_step_intro.
  - inversion 1 as [ts' i p p' s0 s' Hp Hs]; subst. exists i. split.
    + apply elem_of_seq. apply lookup_lt_Some in Hp. lia.
    + by rewrite Hp; simpl; rewrite Hs.
Qed.

Lemma explore_sound fuel check st st' :
  explore fuel check st = true -> rtc pool_step st st' -> (forall st'', ¬ pool_step st' st'') -> check st' = true.
Proof.
  intros Hex Hrun Hstuck. revert fuel Hex. induction Hrun as [st|st st1 st2 Hs _ IH]; intros [|fuel] Hex; try done.
  - cbn in Hex. destruct (successors st) as [|st1 l] eqn:Hsucc; [done|].
    destruct (Hstuck st1). apply successors_step. rewrite Hsucc. by left.
  - apply successors_step in Hs. cbn in Hex. destruct (successors st) as [|st0 l] eqn:Hsucc; [by apply elem_of_nil in Hs|].
    apply (IH Hstuck fuel). change (forallb (explore fuel check) (st0 :: l) = true) in Hex. eapply forallb_forall; [exact Hex|]. by apply list_elem_of_In.
Qed.
End explore.

Definition first_passed {S E} (st : list (async S E unit) * S) : bool :=
  match head st.1 with Some (Done (Ok _)) => true | _ => false end.

Lemma basic_threaded_passes (st : list (async (cell Z nat) Z unit) * cell Z nat) :
  rtc pool_step (basic_threaded, Waitable.new) st -> (forall st', ¬ pool_step st st') -> first_passed st = true.
Proof. apply (explore_sound 12). vm_compute. reflexivity. Qed.

(** ** Properties *)

(** The unit tests pass on the definitions of this library: whatever defaults
    [oci_spec] has with two variables and no annotation of a pod, in an
    environment without variables of OpenTelemetry, with files that give back
    what was written; the tests of the cell pass with every notifier, however
    often it is polled, and in every interleaving. *)
Theorem unit_tests_pass {W File Ctx N K : Type} `{!Notify N K} `{!NotifyLaws N K}
    (shim_display : ShimError -> string) (process_default : Process) (spec_default : Spec)
    (fallback : string) (inject : W -> gmap string string)
    (extract : (string -> option string) -> list string -> Ctx) (set_parent : Ctx -> W -> W)
    (to_json : gmap string string -> outcome string string)
    (from_json : string -> outcome string (gmap string string)) (env : gmap string string)
    (tempdir : M W Error string) (fs_write : string -> string -> M W Error unit)
    (file_open : string -> M W IoError File) (read_options : File -> M W string Options)
    (options_to_json : Options -> outcome Error string) (polls : nat) (w : W)
    (Hdefault : length <$> process_env process_default = Some 2)
    (Hpod : pod_id spec_default = None)
    (Henv : forall v, v ∈ [OTEL_EXPORTER_OTLP_TRACES_ENDPOINT; OTEL_EXPORTER_OTLP_ENDPOINT;
                           OTEL_EXPORTER_OTLP_PROTOCOL; OTEL_EXPORTER_OTLP_TRACES_PROTOCOL] -> env !! v = None)
    (Hfallback : fallback = OTEL_EXPORTER_OTLP_PROTOCOL_HTTP_PROTOBUF)
    (Hto : to_json (inject w) = Ok "{}"%string) (Hfrom : is_ok (from_json "{}"))
    (Htmp : forall w, exists dir w1 e w2, tempdir w = (Ok dir, w1) /\
       file_open (path_join dir "options.json") w1 = (Err (MkIoError NotFound e), w2))
    (Hfiles : forall opts, exists json, options_to_json opts = Ok json /\ forall p w, exists w1 f w2 w3,
       fs_write p json w = (Ok tt, w1) /\ file_open p w1 = (Ok f, w2) /\ read_options f w2 = (Ok opts, w3)) :
  passed (test_error_to_ttrpc_status shim_display :: context_tests process_default spec_default) /\
  passed (otel_tests fallback inject extract set_parent to_json from_json env w) /\
  (test_determine_rootdir_with_options_file tempdir fs_write file_open read_options options_to_json w).1 = Ok tt /\
  (test_determine_rootdir_without_options_file tempdir file_open read_options w).1 = Ok tt /\
  Forall (passes (N := N) (K := K))
    [basic; basic_timeout_zero; unset_timeout_zero; unset_timeout_1ms polls; clone; basic_double_set; guard; guard_no_op].
Proof.
  split_and!; [|by apply otel_tests_pass|by eapply rootdir_tests_pass..|apply sync_tests_pass].
  destruct process_default as [pargs [penv|]]; [|done]. injection Hdefault as Henvs.
  repeat (apply Forall_cons_2; [|]); [..|constructor]; try reflexivity.
  - change (assert_eq (E := string) (length penv) 2 = Ok tt). by rewrite Henvs.
  - change (assert_eq (E := string) (pod_id spec_default) None = Ok tt). by rewrite Hpod.
Qed.

(** Files as a map, for which the hypotheses hold *)
Definition json_of (o : Options) : string := match root o with Some r => String "s"%char r | None => "n" end.
Definition of_json (s : string) : Options := MkOptions (match s with String "s"%char r => Some r | _ => None end).

Example unit_tests_pass_here :
  passed (context_tests (MkProcess (Some ["sh"]) (Some ["PATH=/bin"; "TERM=xterm"])) (MkSpec None None)) /\
  passed (otel_tests "http/protobuf" (fun _ => ∅) (fun _ _ => tt) (fun _ w => w) (fun _ => Ok "{}"%string)
            (fun _ => Ok ∅) {["PATH" := "/bin"]} (∅ : gmap string string)).
Proof.
  destruct (unit_tests_pass (N := nat) (fun _ => EmptyString)
    (MkProcess (Some ["sh"]) (Some ["PATH=/bin"; "TERM=xterm"])) (MkSpec None None)
    "http/protobuf" (fun _ => ∅) (fun _ _ => tt) (fun _ w => w) (fun _ => Ok "{}"%string) (fun _ => Ok ∅)
    {["PATH" := "/bin"]}
    (fun w => (Ok "/t"%string, base.delete "/t/options.json"%string w))
    (fun p s w => (Ok tt, <[p := s]> w))
    (fun p w => (match w !! p with Some s => Ok s | None => Err (MkIoError NotFound "none") end, w))
    (fun f w => (Ok (of_json f), w)) (fun o => Ok (json_of o)) 3 (∅ : gmap string string))
    as ([_ H1]%Forall_cons & H2 & _); [reflexivity|reflexivity| |reflexivity..| | |by split].
  - apply Forall_forall. repeat constructor.
  - intros w. exists "/t"%string. do 3 eexists. split; [reflexivity|]. simpl. by rewrite lookup_delete_eq.
  - intros o. exists (json_of o). split; [done|]. intros p w. do 4 eexists. split; [reflexivity|].
    rewrite lookup_insert_eq. split; [reflexivity|]. by destruct o as [[r|]].
Qed.
