(* ===== verification/ClientTests.v ===== *)
(** * ClientTests: the tests of
    [crates/containerd-shim-wasm/src/containerd/client.rs]

    They make images with [OciHelpers.v], have them imported, and load them with
    the client of [Client.v] and an engine whose compiler counts what it is
    asked.  A test is a future whose outcome is [Ok tt] when it passes; a failed
    assertion is a panic.  They pass on the machine of [TestMachine.v]. *)

From S2P Require Import Prelude Async RustStr Errors Sandbox Store Client ContentStore OciTar OciTarBin OciHelpers Import TestMachine.
From Stdlib Require Import Ascii.

(** [rand::random] and the [AtomicI32]s, which their clones share: an atomic is
    its place in [atomics]. *)
Class TestWorld (W : Type) := {
  rand_u32 : W -> Z * W;
  atomics : W -> list Z;
  set_atomics : list Z -> W -> W;
}.

(** [.unwrap()] and [expect_err], of any error *)
Definition must {W E E' A} (m : M W E A) : M W E' A := fun w =>
  match m w with (Ok a, w') => (Ok a, w') | (_, w') => (Panic, w') end.

Definition must_fail {W E E' A} (m : M W E A) : M W E' unit := fun w =>
  match m w with (Err _, w') => (Ok tt, w') | (_, w') => (Panic, w') end.

Definition some {W E A} (o : option A) : M W E A := match o with Some a => mret a | None => mpanic end.

Definition massert {W E} (b : bool) : M W E unit := if b then mret tt else mpanic.
Definition massert_eq {W E A} `{EqDecision A} (x y : A) : M W E unit := massert (bool_decide (x = y)).

Definition socket : string := "/run/containerd/containerd.sock".

Section tests.
Context {W Channel Tx Rx T : Type} `{!Containerd W Channel Tx Rx} `{!ImageFormat} `{!TarWriter T}.
Context `{!CtrHost W T} `{!ConfigJson} `{!TestWorld W}.

(** [DefaultHasher] on a string *)
Context (hash_of : string -> Z).

(** ** Random contents *)

Definition random_number {E} : M W E Z := fun w => let '(x, w') := rand_u32 w in (Ok x, w').

(** [random_number() as u8], at the end of the content *)
Fixpoint push_random (n : nat) (content : string) : M W string string :=
  match n with
  | O => mret content
  | S n' => let! x := random_number in push_random n' (snoc content (ascii_of_N (Z.to_N (x mod 256))))
  end.

Definition generate_content (seed media_type : string) : M W string ImageContent :=
  let! content := push_random 100 seed in
  mret (MkContent content media_type).

Definition generate_test_container (name : option string) (original : list ImageContent)
    : M W string (string * string * OCICleanup) :=
  let! random_number := random_number in
  let image_name := default ("localhost/test:latest" +:+ pretty random_number) name in
  let! _ := must (import_image image_name original) in
  let container_name := "test-container-" +:+ pretty random_number in
  let! _ := must (create_container container_name image_name) in
  mret (image_name, container_name, MkCleanup image_name container_name).

(** ** The compiler of the tests *)

Definition new_atomic {E} (x : Z) : M W E nat := fun w =>
  let l := atomics w in (Ok (length l), set_atomics (l ++ [x]) w).

Definition atomic_load (a : nat) : M W string Z := mget (fun w => default 0%Z (atomics w !! a)).
Definition atomic_store {E} (a : nat) (x : Z) : M W E unit := mput (fun w => set_atomics (<[a := x]> (atomics w)) w).
Definition fetch_add {E} (a : nat) (x : Z) : M W E unit :=
  mput (fun w => set_atomics (alter (fun y => wrap_i32 (y + x)) a (atomics w)) w).

Record FakePrecomipler := MkFake {
  precompile_id : string;
  precompiled_layers : gmap string bytes;
  precompile_called : nat;
  layers_compiled_per_call : nat;
}.

Definition new_fake : M W string FakePrecomipler :=
  let! n := random_number in
  let! called := new_atomic 0 in
  let! per_call := new_atomic 0 in
  mret (MkFake ("uuid-" +:+ pretty n) ∅ called per_call).

Definition add_precompiled_bits (original : string) (precompiled_content : ImageContent) (self : FakePrecomipler)
    : FakePrecomipler :=
  let key := sha256_digest (bytes_of original) in
  MkFake (precompile_id self) (<[key := bytes_of (content_bytes precompiled_content)]> (precompiled_layers self))
    (precompile_called self) (layers_compiled_per_call self).

Definition set_precompile_id (id : string) (self : FakePrecomipler) : FakePrecomipler :=
  MkFake id (precompiled_layers self) (precompile_called self) (layers_compiled_per_call self).

(** One layer of [compile]: [None] for a text, and for what is already compiled;
    the index of a map panics without the key. *)
Definition compile_layer (self : FakePrecomipler) (l : WasmLayer) : M W string (option bytes) :=
  if decide (Sandbox.media_type (layer_config l) = "textfile"%string) then mret None
  else
    let key := sha256_digest (Sandbox.layer l) in
    if existsb (fun kl => bool_decide (sha256_digest kl.2 = key)) (map_to_list (precompiled_layers self))
    then mret None
    else
      let! precompiled := some (precompiled_layers self !! key) in
      let! _ := fetch_add (layers_compiled_per_call self) 1 in
      mret (Some precompiled).

Definition fake_compile (self : FakePrecomipler) (ls : list WasmLayer) : M W string (list (option bytes)) :=
  let! _ := atomic_store (layers_compiled_per_call self) 0 in
  let! _ := fetch_add (precompile_called self) 1 in
  mapM_M (compile_layer self) ls.

(** [impl Compiler for FakePrecomipler] *)
Definition fake_key (self : FakePrecomipler) : Z := hash_of (precompile_id self).
Definition fake_compiler (self : FakePrecomipler) : Compiler W := MkCompiler (fake_key self) (fake_compile self).

(** ** The tests *)

Definition test_client : M W string (Client Channel) := must (connect socket TEST_NAMESPACE).

(** [load_modules] of a test, for the engine ["fake"] *)
Definition fake_load (client : Client Channel) (container : string) (types : list string)
    (engine : option FakePrecomipler) : M W string (list WasmLayer) :=
  must (load_modules client container "fake" types (fake_compiler <$> engine)).

Definition called_is (engine : FakePrecomipler) (n : Z) : M W string unit :=
  let! x := atomic_load (precompile_called engine) in massert_eq x n.

Definition compiled_is (engine : FakePrecomipler) (n : Z) : M W string unit :=
  let! x := atomic_load (layers_compiled_per_call engine) in massert_eq x n.

(** [assert_eq!] on the layers, in order *)
Definition layers_are (ls : list WasmLayer) (cs : list ImageContent) : M W string unit :=
  let! _ := massert_eq (length ls) (length cs) in
  massert_eq (Sandbox.layer <$> ls) (bytes_of ∘ content_bytes <$> cs).

(** The label of a content under the key of the engine *)
Definition label_is (client : Client Channel) (config : option Sandbox.Descriptor) (id : string)
    (c : ImageContent) : M W string unit :=
  let! config := some config in
  let! info := must (get_info client (Sandbox.desc_digest config)) in
  let! actual_digest := some (Store.labels info !! id) in
  massert_eq actual_digest ("sha256:" +:+ sha256_digest (bytes_of (content_bytes c))).

(** The rest of a test, and the drop of what removes its image *)
Definition cleaned (rounds : nat) (cleanup : OCICleanup) (rest : async W string unit) : async W string unit :=
  adefer rest (drop_cleanup rounds cleanup).

(** A [WriteContent] that is dropped unless it was released *)
Definition test_save_content : M W string unit :=
  let! client := must (connect socket "test-ns") in
  let data := bytes_of "hello world" in
  let expected := "sha256:" +:+ sha256_digest data in
  let label := {[precompile_label "test" (hash_of "hasdfh") := "original"%string]} in
  let! returned := must (save_content client data "test" label) in
  let! data := scoped (
    let! _ := massert_eq expected (wc_digest returned) in
    let! data := must (read_content client (wc_digest returned)) in
    let! _ := massert_eq data (bytes_of "hello world") in
    let! _ := must_fail (save_content client data "test" label) in
    mret data) (drop_lease (wc_lease returned)) in
  let! _ := mtry (E := string) (release (wc_lease returned)) in
  let! returned := must (save_content client data "test" label) in
  let! _ := scoped (
    let! _ := massert_eq expected (wc_digest returned) in
    let! _ := must (delete_content client expected) in
    must_fail (read_content client expected)) (drop_lease (wc_lease returned)) in
  let! _ := mtry (E := string) (release (wc_lease returned)) in
  mret tt.

Definition WASM : string := WASM_LAYER_MEDIA_TYPE.

Definition test_layers_when_precompile_not_supported (rounds : nat) : async W string unit :=
  let* client := alift test_client in
  let* fake_bytes := alift (generate_content "original" WASM) in
  let* made := alift (generate_test_container None [fake_bytes]) in
  let '(_, container_name, cleanup) := made in
  cleaned rounds cleanup (alift (
    let! layers := fake_load client container_name [WASM] None in
    layers_are layers [fake_bytes])).

(** An image, its container and an engine that knows the compilations of its
    contents *)
Definition knows (engine : FakePrecomipler) (l : list (ImageContent * ImageContent)) : FakePrecomipler :=
  foldl (fun e x => add_precompiled_bits (content_bytes x.1) x.2 e) engine l.

Definition test_layers_are_precompiled_once (rounds : nat) : async W string unit :=
  let* client := alift test_client in
  let* fake_bytes := alift (generate_content "original" WASM) in
  let* made := alift (generate_test_container None [fake_bytes]) in
  let '(_, container_name, cleanup) := made in
  cleaned rounds cleanup (alift (
    let! precompiled := generate_content "precompiled" WASM in
    let! engine := new_fake in
    let engine := knows engine [(fake_bytes, precompiled)] in
    let! _ := fake_load client container_name [WASM] (Some engine) in
    let! _ := called_is engine 1 in
    let! layers := fake_load client container_name [WASM] (Some engine) in
    let! _ := called_is engine 1 in
    layers_are layers [precompiled])).

Definition test_layers_are_recompiled_if_version_changes (rounds : nat) : async W string unit :=
  let* client := alift test_client in
  let* fake_bytes := alift (generate_content "original" WASM) in
  let* made := alift (generate_test_container None [fake_bytes]) in
  let '(_, container_name, cleanup) := made in
  cleaned rounds cleanup (alift (
    let! precompiled := generate_content "precompiled" WASM in
    let! engine := new_fake in
    let engine := knows engine [(fake_bytes, precompiled)] in
    let! _ := fake_load client container_name [WASM] (Some engine) in
    let! _ := called_is engine 1 in
    let engine := set_precompile_id "new_version" engine in
    let! _ := fake_load client container_name [WASM] (Some engine) in
    called_is engine 2)).

Definition test_layers_are_precompiled (rounds : nat) : async W string unit :=
  let* client := alift test_client in
  let* fake_bytes := alift (generate_content "original" WASM) in
  let* made := alift (generate_test_container None [fake_bytes]) in
  let '(image_name, container_name, cleanup) := made in
  cleaned rounds cleanup (alift (
    let! precompiled := generate_content "precompiled" WASM in
    let! engine := new_fake in
    let engine := knows engine [(fake_bytes, precompiled)] in
    let expected_id := precompile_label "fake" (fake_key engine) in
    let! layers := fake_load client container_name [WASM] (Some engine) in
    let! _ := called_is engine 1 in
    let! _ := layers_are layers [precompiled] in
    let! m := must (get_image_manifest_and_digest client image_name) in
    label_is client (head (Client.manifest_layers m.1)) expected_id precompiled)).

Definition test_layers_are_precompiled_but_not_for_all_layers (rounds : nat) : async W string unit :=
  let* client := alift test_client in
  let* fake_bytes := alift (generate_content "original" WASM) in
  let* non_wasm_bytes := alift (generate_content "original_dont_compile" "textfile") in
  let* made := alift (generate_test_container None [fake_bytes; non_wasm_bytes]) in
  let '(_, container_name, cleanup) := made in
  cleaned rounds cleanup (alift (
    let! precompiled := generate_content "precompiled" WASM in
    let! engine := new_fake in
    let engine := knows engine [(fake_bytes, precompiled)] in
    let! layers := fake_load client container_name [WASM; "textfile"%string] (Some engine) in
    let! _ := called_is engine 1 in
    let! _ := compiled_is engine 1 in
    layers_are layers [precompiled; non_wasm_bytes])).

(** The two tests that add a layer: to the image of the same name, whose old
    content then has to go, or to a new image. *)
Definition first_image (rounds : nat)
    (rest : Client Channel -> ImageContent -> string -> FakePrecomipler -> async W string unit) : async W string unit :=
  let* client := alift test_client in
  let* fake_bytes := alift (generate_content "original" WASM) in
  let* made := alift (generate_test_container None [fake_bytes]) in
  let '(image_name, container_name, cleanup) := made in
  cleaned rounds cleanup (
    let* precompiled := alift (generate_content "precompiled" WASM) in
    let* engine := alift new_fake in
    let engine := knows engine [(fake_bytes, precompiled)] in
    let* _ := alift (
      let! layers := fake_load client container_name [WASM] (Some engine) in
      let! _ := called_is engine 1 in
      layers_are layers [precompiled]) in
    rest client fake_bytes image_name engine).

Definition second_image (rounds : nat) (name : option string) (client : Client Channel) (fake_bytes : ImageContent)
    (engine : FakePrecomipler) (removal : async W string unit) : async W string unit :=
  let* fake_bytes2 := alift (generate_content "image2" WASM) in
  let* made := alift (generate_test_container name [fake_bytes; fake_bytes2]) in
  let '(_, container_name2, cleanup2) := made in
  cleaned rounds cleanup2 (
    let* precompiled2 := alift (generate_content "precompiled2" WASM) in
    let engine := knows engine [(fake_bytes2, precompiled2)] in
    let* _ := removal in
    alift (
      let! layers := fake_load client container_name2 [WASM] (Some engine) in
      let! _ := called_is engine 2 in
      let! _ := massert_eq (length layers) 2 in
      compiled_is engine 1)).

Definition test_layers_do_not_need_precompiled_if_new_layers_are_added_to_existing_image (rounds : nat)
    : async W string unit :=
  first_image rounds (fun client fake_bytes image_name engine =>
    let* image_sha := alift (let! i := must (get_image client image_name) in some (target i)) in
    second_image rounds (Some image_name) client fake_bytes engine
      (aunwrap (wait_for_content_removal rounds image_sha))).

Definition test_layers_do_not_need_precompiled_if_new_layers_are_add_to_new_image (rounds : nat)
    : async W string unit :=
  first_image rounds (fun client fake_bytes _ engine =>
    second_image rounds None client fake_bytes engine (aret tt)).

Definition test_layers_are_precompiled_for_multiple_layers (rounds : nat) : async W string unit :=
  let* client := alift test_client in
  let* fake_bytes := alift (generate_content "original" WASM) in
  let* fake_bytes2 := alift (generate_content "original1" WASM) in
  let* made := alift (generate_test_container None [fake_bytes; fake_bytes2]) in
  let '(image_name, container_name, cleanup) := made in
  cleaned rounds cleanup (alift (
    let! precompiled := generate_content "precompiled" WASM in
    let! precompiled2 := generate_content "precompiled1" WASM in
    let! engine := new_fake in
    let engine := knows engine [(fake_bytes, precompiled); (fake_bytes2, precompiled2)] in
    let expected_id := precompile_label "fake" (fake_key engine) in
    let! layers := fake_load client container_name [WASM] (Some engine) in
    let! _ := called_is engine 1 in
    let! _ := compiled_is engine 2 in
    let! _ := layers_are layers [precompiled; precompiled2] in
    let! m := must (get_image_manifest_and_digest client image_name) in
    let! _ := label_is client (head (Client.manifest_layers m.1)) expected_id precompiled in
    label_is client (last (Client.manifest_layers m.1)) expected_id precompiled2)).
End tests.

(** ** On the machine

    Its random numbers are lower-case letters as bytes and differ from each
    other; the hash of a string is its length. *)
#[export] Instance machine_test_world : TestWorld Machine := {
  rand_u32 m := let n := Z.of_nat (next_random m) in
                ((97 + n mod 26 + 256 * n)%Z,
                 MkMachine (containerd m) (machine_files m) (machine_tars m) (S (next_random m)) (cells m));
  atomics := cells;
  set_atomics l m := MkMachine (containerd m) (machine_files m) (machine_tars m) (next_random m) l;
}.

(** The tests run with a sum of the bytes, and a sum of the sums, as the digest. *)
#[export] Instance fletcher : Checksum := {
  checksum b :=
    let '(x, y) := foldl (fun a c => let x := (a.1 + Byte.to_N c)%N in (x, (a.2 + x)%N)) (0%N, 0%N) b in
    pretty x +:+ "-" +:+ pretty y;
}.

Definition machine_hash (s : string) : Z := Z.of_nat (String.length s).

Definition passes_here (t : async Machine string unit) : bool :=
  match (exec t empty_machine).1 with Some (Ok _) => true | _ => false end.

Definition client_tests : list (async Machine string unit) :=
  [ alift (test_save_content machine_hash);
    test_layers_when_precompile_not_supported machine_hash 1;
    test_layers_are_precompiled_once machine_hash 1;
    test_layers_are_recompiled_if_version_changes machine_hash 1;
    test_layers_are_precompiled machine_hash 1;
    test_layers_are_precompiled_but_not_for_all_layers machine_hash 1;
    test_layers_do_not_need_precompiled_if_new_layers_are_added_to_existing_image machine_hash 1;
    test_layers_do_not_need_precompiled_if_new_layers_are_add_to_new_image machine_hash 1;
    test_layers_are_precompiled_for_multiple_layers machine_hash 1 ].

Example client_tests_pass_here : forallb passes_here client_tests = true.
Proof. vm_compute. reflexivity. Qed.
