(* ===== verification/ServiceTests.v ===== *)
(** * ServiceTests: [crates/containerd-shimkit/src/sandbox/shim/local/tests.rs]

    The tests of the task service of [Local.v], with the stub of an engine that
    they use.  A test is the first future of a pool; the others are the futures
    it spawns and the workers that report exits, so it runs under any scheduler. *)

From S2P Require Import Prelude Async Ambient RustStr Errors TaskState Waitable InstanceData Events Hooks Local.

(** ** The stub *)

(** The exit cells of the stubs, the clock and the pid of the process *)
Class StubWorld (W N : Type) := {
  stub_cells : W -> list (cell (Z * DateTime) N);
  set_stub_cells : list (cell (Z * DateTime) N) -> W -> W;
  utc_now : W -> DateTime;
  own_pid : Z;
}.

Section stub.
Context {W N K : Type} `{!Notify N K} `{!StubWorld W N}.

(** [struct InstanceStub]: the place of its [exit_code] *)
Record InstanceStub := MkStub { exit_code : nat }.

Definition on_exit {E A} (self : InstanceStub) (p : async (cell (Z * DateTime) N) E A) : async W E A :=
  zoom (fun w => stub_cells w !! exit_code self)
    (fun c w => set_stub_cells (<[exit_code self := c]> (stub_cells w)) w) p.

Definition stub_new (_ : string) (_ : InstanceConfig) : async W Error InstanceStub :=
  atomic (fun w => let l := stub_cells w in (MkStub (length l), set_stub_cells (l ++ [Waitable.new]) w)).

Definition stub_start (_ : InstanceStub) : async W Error Z := aret own_pid.

Definition stub_kill (self : InstanceStub) (_ : Z) : async W Error unit :=
  let* now := atomic (fun w => (utc_now w, w)) in
  let* _ := atry (on_exit self (Waitable.set (1%Z, now))) in
  aret tt.

Definition stub_delete (_ : InstanceStub) : async W Error unit := aret tt.

(** [wait] of a cell does not fail. *)
Definition stub_wait (self : InstanceStub) : async W Empty_set (Z * DateTime) :=
  let* r := atry (on_exit self Waitable.wait) in
  match r with Ok v => aret v | _ => apanic end.

#[export] Instance stub_instance : Instance W InstanceStub := {
  inst_new := stub_new;
  inst_start := stub_start;
  inst_kill := stub_kill;
  inst_delete := stub_delete;
  inst_wait := stub_wait;
}.
End stub.

(** [EventSender] for the sender of an unbounded channel, by what it holds *)
#[export] Instance channel_sender : EventSender (list Event) unit := fun _ event sent => sent ++ [event].

(** ** The tests *)

(** [oci_spec]'s [Spec] and [std::fs] *)
Class BundleFs (W Spec : Type) := {
  spec_default : Spec;
  set_annotations : gmap string string -> Spec -> Spec;
  mkdir : string -> M W string unit;
  save_config : string -> Spec -> M W string unit;
}.

(** A task that waits for the exit of a container, and its channel: what it was
    spawned for and what it has sent *)
Record Waiter := MkWaiter { waits_for : string; answer : option (outcome Error WaitResponse) }.

Section tests.
Context {W X E N K Spec Child HookStatus : Type}.
Context `{!EventSender X E} `{!Notify N K} `{!StubWorld W N} `{!Host W Spec Child HookStatus} `{!BundleFs W Spec}.

(** The sender of the events and the order of the polls and the timer of [with_timeout] *)
Context (etx : E) (order : list bool) (timer : Shared W X InstanceStub N * list Waiter -> option (Shared W X InstanceStub N * list Waiter)).

Abbreviation St := (Shared W X InstanceStub N * list Waiter)%type.

(** [local] in a test, which runs on the thread [me] *)
Definition local : Local E := Local.new etx "test_namespace" "/test/address".

Definition serve {A} (p : async (Shared W X InstanceStub N) Error A) : async St Error A :=
  zoom (fun s => Some s.1) (fun x s => (x, s.2)) p.

Definition on_fs {A} (m : M W string A) : async St Error A := serve (on_host (mmap_err E_Any m)).

(** [LocalWithDestructor], when it is dropped *)
Fixpoint drop_instances (me : nat) (ls : list nat) : async (Shared W X InstanceStub N) Error unit :=
  match ls with
  | [] => aret tt
  | l :: ls' =>
      let* _ := atry (E' := Error) (on_data l (InstanceData.kill me 9)) in
      let* _ := atry (E' := Error) (on_data l (InstanceData.delete me)) in
      drop_instances me ls'
  end.

Definition drop_local (me : nat) : async (Shared W X InstanceStub N) Error unit :=
  let* ls := atomic (fun s => ((map_to_list (instances s)).*2, s)) in drop_instances me ls.

(** The annotations that the specification had are only walked by a lazy
    iterator that nothing runs: they are lost. *)
Definition with_cri_sandbox (spec : option Spec) (id : string) : Spec :=
  set_annotations {["io.kubernetes.cri.sandbox-id" := id]} (default spec_default spec).

Definition create_bundle (dir : string) (spec : option Spec) : async St Error unit :=
  on_fs (let! _ := mkdir (path_join dir "rootfs") in
         save_config (path_join dir "config.json") (default spec_default spec)).

(** Requests with the defaults of [protobuf] *)
Definition create_request (id dir : string) : CreateTaskRequest :=
  MkCreate id dir [] false EmptyString EmptyString EmptyString EmptyString EmptyString None.
Definition request (id : string) : TaskRequest := MkTask id EmptyString.

Definition status_is (me : nat) (id : string) (st : Status) : async St Error unit :=
  let* s := serve (task_state me (request id)) in
  match st_status s, st with
  | CREATED, CREATED | RUNNING, RUNNING | STOPPED, STOPPED => aret tt
  | _, _ => apanic
  end.

(** [unwrap_err], and the error that is expected *)
Definition fails_with {A} (p : async St Error A) (expected : Error -> bool) : async St Error unit :=
  let* r := atry p in
  match r with
  | Err e => if expected e then aret tt else athrow e
  | _ => apanic
  end.

Definition is_not_found (e : Error) : bool := match e with E_NotFound _ => true | _ => false end.
Definition is_already_exists (e : Error) : bool := match e with E_AlreadyExists _ => true | _ => false end.

Definition is_gone (me : nat) (id : string) : async St Error unit :=
  fails_with (serve (task_state me (request id))) is_not_found.

(** [tokio::spawn] of a wait: its channel *)
Definition spawn_wait (id : string) : async St Error nat :=
  atomic (fun s => (length s.2, (s.1, s.2 ++ [MkWaiter id None]))).

(** The spawned future *)
Definition waiter (k : nat) : async St Error unit :=
  let* id := await (fun s => (fun x => (waits_for x, s)) <$> s.2 !! k) in
  let* resp := atry (serve (task_wait (S k) (request id))) in
  atomic (fun s => (tt, (s.1, alter (fun x => MkWaiter (waits_for x) (Some resp)) k s.2))).

Definition sent (k : nat) (s : St) : option (outcome Error WaitResponse) :=
  match s.2 !! k with Some x => answer x | None => None end.

(** [try_recv().unwrap_err()] *)
Definition nothing_yet (k : nat) : async St Error unit :=
  let* o := atomic (fun s => (sent k s, s)) in
  match o with None => aret tt | Some _ => apanic end.

(** [recv().with_timeout(..).await.flatten().unwrap()?] *)
Definition answered (k : nat) : async St Error unit :=
  let* o := with_timeout order timer (await (fun s => (fun a => (a, s)) <$> sent k s)) in
  match o with
  | Some r => let* _ := Done r in aret tt
  | None => apanic
  end.

Definition test_delete_after_create (dir : string) : async St Error unit :=
  let id := "test-delete-after-create"%string in
  let* made := atry (create_bundle dir None) in
  let* _ := (match made with Ok _ => aret tt | _ => apanic end) in
  adefer (
    let* _ := serve (task_create local (create_request id dir)) in
    let* _ := serve (task_delete local 0 (request id)) in
    aret tt) (serve (drop_local 0)).

(** From the create to the start of a container *)
Definition brought_up (id dir : string) : async St Error unit :=
  let* _ := serve (task_create local (create_request id dir)) in
  let* _ := status_is 0 id CREATED in
  let* _ := serve (get_instance id) in
  let* _ := serve (task_start local 0 (request id)) in
  status_is 0 id RUNNING.

(** From the kill to the delete of a container *)
Definition taken_down (id : string) (k : nat) : async St Error unit :=
  let* _ := serve (task_kill 0 (MkKill id EmptyString 9)) in
  let* _ := answered k in
  let* _ := status_is 0 id STOPPED in
  let* _ := serve (task_delete local 0 (request id)) in
  is_gone 0 id.

Definition test_cri_task (dir dir2 : string) : async St Error unit :=
  adefer (
    let sandbox_id := "test-cri-task"%string in
    let* _ := create_bundle dir (Some (with_cri_sandbox None sandbox_id)) in
    let* _ := brought_up "testbase" dir in
    let* base := spawn_wait "testbase" in
    let* _ := nothing_yet base in
    let* _ := create_bundle dir2 (Some (with_cri_sandbox None sandbox_id)) in
    let* _ := brought_up "testinstance" dir2 in
    let* _ := serve (task_stats "testinstance") in
    let* inst := spawn_wait "testinstance" in
    let* _ := nothing_yet inst in
    let* _ := taken_down "testinstance" inst in
    let* _ := nothing_yet base in
    let* _ := status_is 0 "testbase" RUNNING in
    taken_down "testbase" base) (serve (drop_local 0)).

Definition test_task_lifecycle (dir : string) : async St Error unit :=
  adefer (
    let* _ := create_bundle dir None in
    let* _ := is_gone 0 "test" in
    let* _ := serve (task_create local (create_request "test" dir)) in
    let* _ := fails_with (serve (task_create local (create_request "test" dir))) is_already_exists in
    let* _ := status_is 0 "test" CREATED in
    let* _ := serve (task_start local 0 (request "test")) in
    let* _ := status_is 0 "test" RUNNING in
    let* rx := spawn_wait "test" in
    let* _ := nothing_yet rx in
    let* _ := serve (task_stats "test") in
    taken_down "test" rx) (serve (drop_local 0)).

(** A test with [n] waits, and as many workers for the exits that are reported *)
Definition test_pool (test : async St Error unit) (n : nat) : list (async St Error unit) :=
  test :: (waiter <$> seq 0 n) ++ ((fun i => serve (worker local (S (n + i)))) <$> seq 0 n).
End tests.

(** ** The options of the runtime *)

(** The [Options] message of [prost], its encoding, and what the service reads
    of it *)
Record OptionsMessage := MkOptionsMessage { msg_type_url : string; config_path : string; config_body : string }.

Section runtime_options.
Context (encode_to_vec : OptionsMessage -> list Byte.byte).
Context (decode : list Byte.byte -> outcome string string) (toml : string -> outcome string Config).

Definition cgroup_is (options : option Any) (b : bool) : outcome string unit :=
  match get_from_options decode toml options with
  | Ok config => if Bool.eqb (systemd_cgroup config) b then Ok tt else Panic
  | _ => Panic
  end.

Definition test_default_runtime_options : outcome string unit := cgroup_is None false.

Definition test_custom_runtime_options : outcome string unit :=
  let options := MkOptionsMessage "runtimeoptions.v1.Options" EmptyString
                   ("SystemdCgroup = true" +:+ str_of_char newline) in
  cgroup_is (Some (MkAny (msg_type_url options) (encode_to_vec options))) true.

(** They pass when a message is decoded to what was encoded, and TOML has its
    meaning. *)
Lemma runtime_options_tests_pass :
  (forall o, decode (encode_to_vec o) = Ok (config_body o)) ->
  toml ("SystemdCgroup = true" +:+ str_of_char newline) = Ok (MkConfig true) ->
  test_default_runtime_options = Ok tt /\ test_custom_runtime_options = Ok tt.
Proof.
  intros Hdec Htoml. split; [done|]. unfold test_custom_runtime_options, cgroup_is, get_from_options.
  cbn [type_url any_value msg_type_url]. rewrite decide_True by done. rewrite Hdec. cbn [obind config_body].
  by rewrite Htoml.
Qed.
End runtime_options.

(** ** On a host in memory

    Its files are the specifications by their paths, each a table of
    annotations; its clock stands still. *)

Record StubMachine := MkStubMachine {
  machine_cells : list (cell (Z * DateTime) nat);
  machine_dirs : list string;
  machine_specs : gmap string (gmap string string);
}.

#[export] Instance machine_stub_world : StubWorld StubMachine nat := {
  stub_cells := machine_cells;
  set_stub_cells l m := MkStubMachine l (machine_dirs m) (machine_specs m);
  utc_now _ := MkDateTime 1700000000 0;
  own_pid := 7%Z;
}.

#[export] Instance machine_bundle_fs : BundleFs StubMachine (gmap string string) := {
  spec_default := ∅;
  set_annotations a _ := a;
  mkdir p m := if decide (p ∈ machine_dirs m) then (Err "exists"%string, m)
               else (Ok tt, MkStubMachine (machine_cells m) (p :: machine_dirs m) (machine_specs m));
  save_config p s m := (Ok tt, MkStubMachine (machine_cells m) (machine_dirs m) (<[p := s]> (machine_specs m)));
}.

#[export] Instance machine_host : Host StubMachine (gmap string string) unit unit := {
  decode_options _ := Ok EmptyString;
  toml_from_str _ := Ok (MkConfig true);
  spec_load p m := (ok_or (machine_specs m !! p) "no such file"%string, m);
  canonicalize_rootfs _ := mret;
  spec_root _ := Some "rootfs"%string;
  spec_hooks _ := None;
  create_dir_all _ := mret tt;
  mount_rootfs _ _ _ _ := mret tt;
  hook_spawn _ := mret tt;
  hook_write_all _ _ := mret tt;
  hook_kill _ := mret tt;
  hook_wait _ := mret tt;
  process_id := 7%Z;
  collect_metrics _ := mret (MkAny "metrics" []);
}.

Definition TestState : Type := Shared StubMachine (list Event) InstanceStub nat * list Waiter.

Definition stub_start_state : TestState :=
  (initial Waitable.new (MkStubMachine [] [] ∅) [], []).

Definition patient : list bool := replicate 300 true.

Definition machine_tests : list (async TestState Error unit * nat) :=
  [ (test_delete_after_create tt "/tmp/a", 0);
    (test_cri_task tt patient (fun _ => None) "/tmp/a" "/tmp/b", 2);
    (test_task_lifecycle tt patient (fun _ => None) "/tmp/a", 1) ].

Definition test_passes (schedule : list nat) (t : async TestState Error unit * nat) : bool :=
  match head (run_schedule schedule (test_pool tt t.1 t.2) stub_start_state).1 with
  | Some (Done (Ok _)) => true
  | _ => false
  end.

(** One step of each in turn, the test last; the others ahead of the test *)
Definition schedules : list (list nat) :=
  [ concat (replicate 250 [4; 3; 2; 1; 0]);
    concat (replicate 250 ([1; 2; 3; 4; 1; 2; 3; 4] ++ [0])) ].

Example service_tests_pass_here :
  forallb (fun sch => forallb (test_passes sch) machine_tests) schedules = true.
Proof. vm_compute. reflexivity. Qed.

(** They do not pass under every scheduler: with the test ahead of the others by
    ten steps it asks for the state of a task that was waited for while the
    worker has the lock of that state, and is told that the task is running. *)
Fact cri_task_may_fail :
  head (run_schedule (concat (replicate 100 (replicate 10 0 ++ [1; 2; 3; 4])))
          (test_pool tt (test_cri_task tt patient (fun _ => None) "/tmp/a" "/tmp/b") 2) stub_start_state).1 =
  Some (Done Panic).
Proof. vm_compute. reflexivity. Qed.
